(* ===== verification/_CoqProject ===== *)
-Q . S2P
Prelude.v
Basis.v
Identity.v
Enums.v
Model.v
Transition.v
Compatibility.v
Authority.v
CoreProps.v
Controller.v
ControllerRun.v
ControllerInv.v
Scenario.v
ControllerProps.v
Mersenne.v
Examples.v
ExamplesProps.v
Crc64.v
Codec.v
Records.v
Snapshot.v
Recovery.v
SnapshotProps.v
Protocol.v
Transport.v
ProtocolProps.v
Sockets.v
SocketsProps.v
Doubles.v
Placement.v
PlacementProps.v
Kernel.v
Cuda.v
CudaToy.v
CudaProps.v
Coordinator.v
CoordinatorRun.v
CoordinatorProps.v
Worker.v
WorkerProps.v
Threads.v
ThreadsRun.v
ThreadsInv.v
ThreadsProps.v
Mains.v
MainsProps.v
Cli.v
CliProps.v
CliRun.v
