(* ===== verification/Prelude.v ===== *)
(** * Replica-Fabric: a verification development

    Replica-Fabric is a control plane for replicas of inference models.  A library
    (src/include/replicafabric, src/src) keeps sets, replicas, workers and an audit
    trail, decides which replica may serve, places replicas on hosts and stores its
    state in snapshots; a coordinator and worker processes (src/apps/distributed) run it
    over a framed TCP protocol, a command line client (src/apps/cli) runs it over
    snapshot files, and src/src/cuda drives a real device.  Below, paths are relative to
    the repository; definitions keep the names of the code.

    ** The parts, and where they are modelled

    Values.
    - Prelude: machine integers with their wrap-around, bytes, list and option lemmas,
      the notations, hints and tactics ([split_cases], [bool_to_prop]) the files share.
    - Basis (core/time.hpp, core/error.hpp): clock readings and exception classes.
    - Identity (core/identity.hpp): 128-bit identities indexed by their kind, as bytes
      and as text; the class [Rng] stands for [std::mt19937_64].
    - Enums (core/enums.hpp): one Module per enum class, its name and integer tables
      against the interface [RfEnum] / [RfEnumLaws].
    - Model (core/capability.hpp, policies.hpp, model/*.hpp, ...): one record per struct,
      its default initialisers [default_X], and the ranges [wf_X] of its fields.

    Decisions on values.
    - Transition (authority/transition.hpp): the lifecycle tables and their guards.
    - Compatibility (core/compatibility.hpp): [check_compatibility] and its issues.
    - Authority (authority/serving_authority.hpp): the serving gate and its factors.
    - CoreProps: what these decide.

    The controller (src/replica_set_controller.cpp).
    - Controller: the state [Controller] and every public operation, each a function
      from the state to its [OpResult] and the state it leaves.
    - ControllerRun: [Action] names the operations, [exec] runs one, [reachable] is what
      runs lead to.  The abstract specification is [replica_event] and [set_change], the
      guarded moves of one replica and one set; [exec_replicas] and [exec_sets] show that
      every operation only makes such moves.
    - ControllerInv: the invariant [controller_inv], preserved move by move.
    - Scenario: a concrete run that the witnesses evaluate.
    - ControllerProps: the theorems on promotion, failover, draining, fencing, health.
    - Mersenne: [std::mt19937_64] as the C++ standard defines it, an instance of [Rng].
    - Examples (examples/*.cpp, example_util.hpp): the example programs in a small state
      and output monad; ExamplesProps: the bring-up of a replica from any controller
      state, and the four programs run with their seeds.

    Persistence (src/snapshot.cpp).
    - Crc64: the table-driven checksum and its bitwise reference.
    - Codec: the byte writer and reader, and the contract [Codec P w r] a pair of them
      satisfies: the reader accepts exactly the encodings of values in [P].
    - Records: one codec per structure, its contract derived from its fields'.
    - Snapshot: [make_snapshot] and [decode_snapshot].
    - Recovery: [validate_recovered_state], [install_recovered_state] and
      [recover_into].
    - SnapshotProps: round trip, exact language, corruption, authority after recovery.

    Messages and bytes (src/protocol.cpp, src/transport.cpp).
    - Protocol: binary messages and key=value payloads.
    - Transport: frames and the transfer loops over the interface [Socket].
    - ProtocolProps: message language, loop ends, a message's way between processes.
    - Sockets (the rest of src/transport.cpp): connection objects, each holding a socket
      or none, over the interface [Winsock]; SocketsProps: who owns which socket.

    Placement (src/placement.cpp).
    - Doubles: IEEE binary64 arithmetic and bounds on the magnitude of its results.
    - Placement: [place], its constraints, its scores, its choice.
    - PlacementProps: what decides, and that the order of the inputs does not.

    The device (src/cuda/cuda_replica.cu, examples/cuda_demo.cpp).
    - Kernel: the threads of the kernel as sequences of loads and stores of buffers, and
      the interleavings [grid_step] of a grid of them.
    - Cuda: start, warmup, execution, teardown and the demonstration, over the interface
      [CudaRuntime] / [CudaLaws]; CudaToy: a device that satisfies it.
    - CudaProps: memory safety under any failures, the data race freedom of the kernel,
      what an execution computes.

    Processes.
    - Coordinator (apps/distributed/rf_coordinator.cpp): every message handler and the
      connection threads as a step function over network events; outcomes are a value, an
      uncaught exception or a read of an indeterminate value.
    - CoordinatorRun: [net_reachable], and the refinement [conn_step_runs] of the
      coordinator to sequences of the controller's operations.
    - CoordinatorProps: what holds behind the network.
    - Worker (apps/distributed/rf_worker.cpp) and WorkerProps: registration, the message
      loop, and both processes together.
    - Threads: the same handlers as programs of single calls, one per connection thread,
      and [pool_step], the interleaving of the calls of all threads; ThreadsRun runs a
      program alone, ThreadsInv carries invariants over the interleavings, ThreadsProps
      states what holds in all of them.
    - Mains: the [main]s of the worker and the coordinator, from their arguments to their
      exit codes; MainsProps: a worker serves its stream, a coordinator's start is the
      start of Threads.
    - Cli (apps/cli/rf_cli.cpp) and CliProps: options, commands, loading, saving; CliRun:
      the commands as sequences of the controller's operations, and its invariant from
      one run of the client to the next.

    ** How the parts interact

    The controller calls the transition tables, the compatibility check and the gate.
    Snapshots encode the controller's tables and recovery installs them again.  The
    coordinator's handlers decode messages and payloads and call the controller; the
    worker answers them; the client loads a snapshot, runs one operation and saves.
    Layers meet at interfaces: [Rng] between drawing operations and the generator,
    [RfEnumLaws] between enums and codecs, [Codec] between structures and the snapshot,
    [Socket] / [SocketLaws] between frames and an open connection, [Winsock] /
    [WinsockLaws] between connections and the operating system, [CudaRuntime] /
    [CudaLaws] between the device code and the runtime, [reachable] between the
    controller and the processes that drive it.

    ** What the theorems show

    - Serving: a replica is servable exactly when sixteen named conditions hold; only a
      PRIMARY promotion or a failover gives it authority; draining, failing, retiring,
      bad health, a worker's restart or its removal take it away; evidence of an older
      boot identity, or from another epoch, has no effect.
    - Operations: the exact conditions and effects of provision, promote, failover, drain
      and fail, on the refused branches too; every operation follows the lifecycle table.
    - Invariants: [controller_inv] in every reachable state, also behind the network,
      after recovery, and in every file the client's runs leave to one another.
    - Persistence: every reachable state survives a snapshot; the decoder accepts the
      sealed encodings and nothing else; a change of up to eight consecutive bytes is
      detected; a recovered replica does not serve by itself.
    - Communication: loops end, frames are bounded, messages arrive unchanged however the
      stream is cut; a request gets one reply, which is lost when it is above 16 MiB, as
      the SNAPSHOT of a state above about 8 MiB is; an accepted PROVISION reaches READY,
      and an EXECUTE comes back as a result.
    - Placement: hard constraints decide, scores choose and neither overflow nor become
      NaN, input order is irrelevant.
    - Interleaving: whatever the order of the threads' calls, the controller behind them
      is reachable by its own operations, and the step that grants authority is a call
      its own thread makes for a PROMOTE or FAILOVER of a control connection; one event
      as one step is one of these orders.
    - Programs: the bring-up of the examples makes a replica servable, and the examples
      exit with 0; a worker answers its stream in order and exits with 0 at its end.
    - Resources: a socket an object holds is held by nothing else and open until the
      library is shut down; a device pointer is null or names an allocated buffer; a
      kernel's result does not depend on the order of its threads, and an execution that
      reports success computed it unless its launch failed, which the code never asks.

    ** Effects, fuel and parameters

    - Operations are functions on explicit state.  The controller's mutex makes each call
      one step; a C++ reference into a map is read, changed and stored back.
    - A thrown exception, a false return and undefined behaviour are values of sum types.
    - The loops of [send_all] and [recv_exact] run on fuel, one unit per byte;
      [transfer_loops_end] shows they never run out of it over a socket that moves at
      least one byte or fails, as documented.  The message loop of the worker has one
      unit per frame; [worker_main_ends] shows that a quarter of the stream's bytes and one
      is enough, since a frame has a header of four.  All other recursion is structural.
    - Parameters: the generator ([Rng]: 64-bit draws and a next state, no law beyond the
      range; where a seed is fixed it is [mt19937_64], whose words
      [std::uniform_int_distribution] over the full range hands on); [send] and [recv]
      ([SocketLaws]: lengths are [int]s; for a positive one at most what was asked for,
      in order, and something unless the stream has ended or the connection failed; for
      others nothing is said, and the theorems are about sizes below 2 GiB); clock readings (arguments of each
      operation, in the ranges Basis shows); the file system of the client (a map from
      paths to contents and the writable paths); and the order in which two drawing
      arguments are evaluated.
    - Stored doubles are their 64 bits; placement computes on the Standard Library's
      executable [spec_float], rounding to nearest even.
    - The device runtime ([CudaLaws]): an allocation that succeeds returns a fresh
      buffer, a copy moves the bytes asked for, a synchronization that succeeds ran the
      grid of a launch that succeeded, in some order, and nothing of one that failed;
      each call may fail, a launch without the code noticing.  [new] never fails.
    - The operating system ([WinsockLaws]): a call that returns a socket opened it,
      [closesocket] and [WSACleanup] may fail, the last clean-up closes what is open, the
      other calls leave the open sockets alone.
    - Whether a connection takes a frame ([wire], an argument of the coordinator's
      handlers); [write_frame] refuses a frame above the limit before it asks.

    ** Not modelled

    - The signal handler, the stop flag of the accept loop and sleeping; the races of
      the coordinator's unlocked reads, which Threads.v takes as reads of whole values.
    - The formatting of doubles, the error streams, and what cuda_demo prints.
    - benchmarks/, tests/, test_support/, tools/: clients of the library. *)

From Stdlib Require Export ZArith Lia Bool.
From Stdlib Require Export Strings.String Strings.Ascii Strings.Byte.
From stdpp Require Export prelude gmap strings list sorting.

#[export] Set Default Goal Selector "!".

Open Scope Z_scope.

(** ** Machine integers *)

(** Unsigned and signed wrap-around at the widths the code uses. *)
Definition u8 (z : Z) : Z := z mod 2 ^ 8.
Definition u32 (z : Z) : Z := z mod 2 ^ 32.
Definition u64 (z : Z) : Z := z mod 2 ^ 64.
Definition i32 (z : Z) : Z := (z + 2 ^ 31) mod 2 ^ 32 - 2 ^ 31.
Definition i64 (z : Z) : Z := (z + 2 ^ 63) mod 2 ^ 64 - 2 ^ 63.

(** The ranges of the widths, as predicates of a data invariant. *)
Definition in_u32 (z : Z) : Prop := 0 <= z < 2 ^ 32.
Definition in_u64 (z : Z) : Prop := 0 <= z < 2 ^ 64.
Definition in_i32 (z : Z) : Prop := - 2 ^ 31 <= z < 2 ^ 31.
Definition in_i64 (z : Z) : Prop := - 2 ^ 63 <= z < 2 ^ 63.

(** ** Bytes *)

#[global] Instance byte_eq_decision : EqDecision byte := Byte.byte_eq_dec.

Definition Z_of_byte (b : byte) : Z := Z.of_N (Byte.to_N b).
Definition byte_of_Z (z : Z) : byte := default x00 (Byte.of_N (Z.to_N (u8 z))).

(** A 64-bit word accumulated from the most significant digit, [w] bits a digit:
    [acc = (acc << w) | d]. *)
Definition shift_in (w acc d : Z) : Z := Z.lor (u64 (Z.shiftl acc w)) d.
Definition be_value (w : Z) (ds : list Z) : Z := foldl (shift_in w) 0 ds.
(** The [n] digits of [v], most significant first: [(v >> ((n-1-i)*w)) & (2^w-1)]. *)
Definition be_digits (w : Z) (n : nat) (v : Z) : list Z :=
  (λ i : nat, Z.land (Z.shiftr v ((Z.of_nat n - 1 - Z.of_nat i) * w)) (Z.ones w)) <$> seq 0 n.

(** The loop [for i: push_back((v >> 8*i) & 0xFF)]. *)
Fixpoint le_push (n : nat) (i v : Z) : list byte :=
  match n with
  | O => []
  | S n' => byte_of_Z (Z.land (Z.shiftr v (8 * i)) 255) :: le_push n' (i + 1) v
  end.
Definition le_bytes (n : nat) (v : Z) : list byte := le_push n 0 v.
(** The loop [for i: v |= p[i] << 8*i]. *)
Fixpoint le_or (i : Z) (bs : list byte) (v : Z) : Z :=
  match bs with
  | [] => v
  | b :: bs' => le_or (i + 1) bs' (Z.lor v (Z.shiftl (Z_of_byte b) (8 * i)))
  end.
Definition le_value (bs : list byte) : Z := le_or 0 bs 0.

#[global] Arguments be_digits : simpl never.
#[global] Arguments be_value : simpl never.
#[global] Arguments le_bytes : simpl never.
#[global] Arguments le_value : simpl never.

(** ** Ordered iteration and stable sorting *)

(** [std::stable_sort] with the comparator [lt]: insertion that passes only the
    elements strictly below the inserted one, so equal elements keep their order. *)
Fixpoint sort_insert {A} (lt : A → A → bool) (x : A) (l : list A) : list A :=
  match l with
  | [] => [x]
  | y :: l' => if lt y x then y :: sort_insert lt x l' else x :: l
  end.
Definition stable_sort {A} (lt : A → A → bool) (l : list A) : list A :=
  foldr (sort_insert lt) [] l.

(** What [std::sort] asks of a comparator: a strict weak order. *)
Class StrictWeak {A} (lt : A → A → bool) : Prop := {
  strict_asym a b : lt a b = true → lt b a = false;
  strict_cotrans a b c : lt a b = true → lt a c = true ∨ lt c b = true;
}.
(** A comparator whose only ties are equal elements. *)
Class StrictTotal {A} (lt : A → A → bool) : Prop := {
  total_weak :: StrictWeak lt;
  total_tie a b : lt a b = false → lt b a = false → a = b;
}.

(** A [std::map] iterates in key order; the model keeps a [gmap] and sorts its
    bindings when the code iterates. *)
Definition entries {K V} `{Countable K} (lt : K → K → bool) (m : gmap K V) : list (K * V) :=
  stable_sort (λ a b, lt a.1 b.1) (map_to_list m).

(** ** Record update *)

(** The records are primitive, so a projection of an updated record computes. *)
Class Setter {R T} (proj : R → T) := set_field : (T → T) → R → R.
Arguments set_field {R T} proj {_} _ _.

(** [record_eta R r] is [r] rebuilt from its projections. *)
Ltac record_eta R r :=
  let x := constr:(ltac:(unshelve eexists; [econstructor | reflexivity]) : { r' : R | r' = r }) in
  lazymatch x with
  | exist _ ?r' _ => constr:(r')
  end.

(** The update function of one projection: the rebuilt record with the named
    field passed through [f]. *)
Ltac mk_setter :=
  lazymatch goal with
  | |- @Setter ?R ?T ?proj =>
      change ((T → T) → R → R);
      let f := fresh "f" in
      let r := fresh "r" in
      intros f r;
      let b := record_eta R r in
      let p := eval cbv beta in (proj r) in
      lazymatch b with
      | context C [p] => let b' := context C [f p] in exact b'
      end
  end.

Declare Scope record_scope.
Delimit Scope record_scope with rec.
Notation "x <| p := v |>" := (set_field p (λ _, v) x)
  (at level 1, left associativity, format "x <| p  :=  v |>") : record_scope.
Open Scope record_scope.

(** ** Automation shared by the components *)

Create HintDb fabric.
Create Rewrite HintDb fabric.

(** Splits every boolean test and every option or sum scrutinee of the goal and
    the hypotheses, simplifying equations on the way. *)
Ltac split_cases :=
  repeat (case_match; simplify_eq/=; try done).

Lemma bool_decide_not_false (P : Prop) `{!Decision P} : bool_decide (¬ P) = false → P.
Proof. intros E%bool_decide_eq_false. by apply dec_stable. Qed.

(** Turns boolean conjunctions, disjunctions and integer tests into propositions. *)
Ltac bool_to_prop :=
  repeat match goal with
  | H : _ && _ = true |- _ => apply andb_true_iff in H as [? ?]
  | H : _ && _ = false |- _ => apply andb_false_iff in H
  | H : _ || _ = true |- _ => apply orb_true_iff in H
  | H : _ || _ = false |- _ => apply orb_false_iff in H as [? ?]
  | H : negb _ = true |- _ => apply negb_true_iff in H
  | H : negb _ = false |- _ => apply negb_false_iff in H
  | H : bool_decide (¬ _) = false |- _ => apply bool_decide_not_false in H
  | H : bool_decide _ = true |- _ => apply bool_decide_eq_true in H
  | H : bool_decide _ = false |- _ => apply bool_decide_eq_false in H
  | H : (_ <? _) = true |- _ => apply Z.ltb_lt in H
  | H : (_ <? _) = false |- _ => apply Z.ltb_ge in H
  | H : (_ <=? _) = true |- _ => apply Z.leb_le in H
  | H : (_ <=? _) = false |- _ => apply Z.leb_gt in H
  | H : (_ =? _) = true |- _ => apply Z.eqb_eq in H
  | H : (_ =? _) = false |- _ => apply Z.eqb_neq in H
  end.

(** ** Integer and byte lemmas *)

Lemma u64_small z : in_u64 z → u64 z = z.
Proof. apply Z.mod_small. Qed.

Lemma u64_range z : in_u64 (u64 z).
Proof. apply Z.mod_pos_bound. lia. Qed.

Lemma u32_small z : in_u32 z → u32 z = z.
Proof. apply Z.mod_small. Qed.

Lemma u32_range z : in_u32 (u32 z).
Proof. apply Z.mod_pos_bound. lia. Qed.

Lemma i32_range z : in_i32 (i32 z).
Proof. unfold i32, in_i32. pose proof (Z.mod_pos_bound (z + 2 ^ 31) (2 ^ 32)). lia. Qed.

(** Casting a signed word to the unsigned type and back. *)
Lemma i32_u32 z : in_i32 z → i32 (u32 z) = z.
Proof.
  unfold i32, u32, in_i32. intros Hz. rewrite Zplus_mod_idemp_l.
  rewrite Z.mod_small; lia.
Qed.

Lemma u32_i32 z : in_u32 z → u32 (i32 z) = z.
Proof.
  unfold i32, u32, in_u32. intros Hz. rewrite Zminus_mod_idemp_l.
  replace (z + 2 ^ 31 - 2 ^ 31) with z by lia. by apply Z.mod_small.
Qed.

Lemma i64_u64 z : in_i64 z → i64 (u64 z) = z.
Proof.
  unfold i64, u64, in_i64. intros Hz. rewrite Zplus_mod_idemp_l.
  rewrite Z.mod_small; lia.
Qed.

Lemma u64_i64 z : in_u64 z → u64 (i64 z) = z.
Proof.
  unfold i64, u64, in_u64. intros Hz. rewrite Zminus_mod_idemp_l.
  replace (z + 2 ^ 63 - 2 ^ 63) with z by lia. by apply Z.mod_small.
Qed.

Lemma i64_range z : in_i64 (i64 z).
Proof. unfold i64, in_i64. pose proof (Z.mod_pos_bound (z + 2 ^ 63) (2 ^ 64)). lia. Qed.

Lemma Z_of_byte_range b : 0 <= Z_of_byte b < 256.
Proof. unfold Z_of_byte. pose proof (Byte.to_N_bounded b). lia. Qed.

Lemma Z_of_byte_of_Z z : Z_of_byte (byte_of_Z z) = u8 z.
Proof.
  unfold Z_of_byte, byte_of_Z, u8. pose proof (Z.mod_pos_bound z (2 ^ 8) ltac:(lia)).
  destruct (Byte.of_N (Z.to_N (z mod 2 ^ 8))) as [b|] eqn:E; simpl.
  - apply Byte.to_of_N in E. lia.
  - apply Byte.of_N_None_iff in E. lia.
Qed.

Lemma byte_of_Z_of_byte b : byte_of_Z (Z_of_byte b) = b.
Proof. by destruct b. Qed.

#[global] Instance Z_of_byte_inj : Inj (=) (=) Z_of_byte.
Proof. intros a b E. rewrite <-(byte_of_Z_of_byte a), <-(byte_of_Z_of_byte b). by f_equal. Qed.

(** A digit below [2^w] lands in the bits a shift by [w] left free. *)
Lemma lor_shiftl_add w x d :
  0 <= w → 0 <= d < 2 ^ w → Z.lor (Z.shiftl x w) d = x * 2 ^ w + d.
Proof.
  intros Hw Hd. rewrite <-(Z.shiftl_mul_pow2 x w) by done.
  enough (Z.land (Z.shiftl x w) d = 0) by (pose proof (Z.add_lor_land (Z.shiftl x w) d); lia).
  apply Z.bits_inj'. intros n Hn. rewrite Z.land_spec, Z.bits_0.
  destruct (decide (n < w)).
  - rewrite Z.shiftl_spec_low by lia. done.
  - replace (Z.testbit d n) with false; [by rewrite andb_false_r|].
    symmetry. rewrite <-(Z.mod_small d (2 ^ w)) by done. apply Z.mod_pow2_bits_high. lia.
Qed.

Lemma shift_in_small w acc d :
  0 <= w → 0 <= acc → acc * 2 ^ w < 2 ^ 64 → 0 <= d < 2 ^ w →
  shift_in w acc d = acc * 2 ^ w + d.
Proof.
  intros Hw Ha Hb Hd. unfold shift_in.
  rewrite u64_small; [by apply lor_shiftl_add|].
  unfold in_u64. rewrite Z.shiftl_mul_pow2 by done. nia.
Qed.

Lemma length_be_digits w n v : length (be_digits w n v) = n.
Proof. unfold be_digits. by rewrite length_fmap, length_seq. Qed.

Lemma be_digits_S w n v :
  0 <= w → be_digits w (S n) v = be_digits w n (Z.shiftr v w) ++ [Z.land v (Z.ones w)].
Proof.
  intros Hw. unfold be_digits. rewrite seq_S, fmap_app. simpl. f_equal.
  - apply list_fmap_ext. intros i x [-> Hx]%lookup_seq. rewrite Z.shiftr_shiftr by nia.
    f_equal. f_equal. lia.
  - do 2 f_equal. replace ((_ - 1 - _) * w) with 0 by lia. by rewrite Z.shiftr_0_r.
Qed.

Lemma be_digits_range w n v d : 0 <= w → d ∈ be_digits w n v → 0 <= d < 2 ^ w.
Proof.
  intros Hw (i & -> & _)%list_elem_of_fmap. rewrite Z.land_ones by done.
  apply Z.mod_pos_bound. lia.
Qed.

(** Reading back the digits of a word gives the word. *)
Lemma be_value_digits w n v :
  0 <= w → w * Z.of_nat n <= 64 → 0 <= v < 2 ^ (w * Z.of_nat n) →
  be_value w (be_digits w n v) = v.
Proof.
  intros Hw. revert v. induction n as [|n IH]; intros v Hn Hv.
  { replace (w * Z.of_nat 0) with 0 in Hv by lia. change (0 = v). lia. }
  replace (w * Z.of_nat (S n)) with (w * Z.of_nat n + w) in * by lia.
  rewrite Z.pow_add_r in Hv by lia.
  assert (Hp : 0 < 2 ^ w) by lia.
  rewrite be_digits_S by done. unfold be_value. rewrite foldl_app. simpl.
  change (foldl _ 0 ?l) with (be_value w l).
  rewrite Z.shiftr_div_pow2, Z.land_ones by done.
  pose proof (Z.div_mod v (2 ^ w)) as Hdm. pose proof (Z.mod_pos_bound v (2 ^ w) Hp).
  assert (0 <= v / 2 ^ w < 2 ^ (w * Z.of_nat n)).
  { split; [apply Z.div_pos; lia | apply Z.div_lt_upper_bound; lia]. }
  rewrite IH by lia. rewrite shift_in_small; [lia|lia|lia| |lia].
  pose proof (Z.pow_le_mono_r 2 (w * Z.of_nat n + w) 64).
  rewrite Z.pow_add_r in * by lia. nia.
Qed.

Lemma be_value_range w ds :
  0 <= w → w * Z.of_nat (length ds) <= 64 → (∀ d, d ∈ ds → 0 <= d < 2 ^ w) →
  0 <= be_value w ds < 2 ^ (w * Z.of_nat (length ds)).
Proof.
  intros Hw. induction ds as [|d ds IH] using rev_ind; intros Hl Hd.
  { simpl. replace (w * Z.of_nat 0) with 0 by lia. unfold be_value. simpl. lia. }
  rewrite length_app in *. simpl in *.
  replace (w * Z.of_nat (length ds + 1)) with (w * Z.of_nat (length ds) + w) in * by lia.
  unfold be_value. rewrite foldl_app. simpl. change (foldl _ 0 ?l) with (be_value w l).
  destruct IH; [lia|intros; apply Hd; set_solver|].
  pose proof (Hd d ltac:(set_solver)).
  pose proof (Z.pow_le_mono_r 2 (w * Z.of_nat (length ds) + w) 64 ltac:(lia) ltac:(lia)) as Hp.
  rewrite Z.pow_add_r in * by lia.
  rewrite shift_in_small; nia.
Qed.

(** Taking the digits of a value read from digits gives the digits. *)
Lemma be_digits_value w ds :
  0 <= w → w * Z.of_nat (length ds) <= 64 → (∀ d, d ∈ ds → 0 <= d < 2 ^ w) →
  be_digits w (length ds) (be_value w ds) = ds.
Proof.
  intros Hw. induction ds as [|d ds IH] using rev_ind; intros Hl Hd; [done|].
  rewrite length_app in *. simpl in *. rewrite Nat.add_1_r in *.
  assert (Hd' : ∀ d, d ∈ ds → 0 <= d < 2 ^ w) by (intros; apply Hd; set_solver).
  pose proof (Hd d ltac:(set_solver)).
  pose proof (be_value_range w ds Hw ltac:(lia) Hd').
  pose proof (Z.pow_le_mono_r 2 (w * Z.of_nat (length ds) + w) 64 ltac:(lia) ltac:(lia)) as Hp.
  rewrite Z.pow_add_r in Hp by lia.
  rewrite be_digits_S by done. unfold be_value. rewrite foldl_app. simpl.
  change (foldl _ 0 ?l) with (be_value w l).
  rewrite shift_in_small by nia.
  rewrite Z.shiftr_div_pow2, Z.land_ones by done.
  rewrite Z.div_add_l, Z.div_small, Z.add_0_r by lia.
  rewrite Z.add_comm, Z.mod_add, Z.mod_small by lia.
  by rewrite IH by lia || done.
Qed.

(** The same on bytes: up to eight of them are the digits of their value. *)
Lemma be_bytes_range bs :
  (length bs ≤ 8)%nat → 0 <= be_value 8 (Z_of_byte <$> bs) < 2 ^ (8 * Z.of_nat (length bs)).
Proof.
  intros Hl. rewrite <-(length_fmap Z_of_byte). apply be_value_range; [lia|rewrite length_fmap; lia|].
  intros d (b & -> & _)%list_elem_of_fmap. apply Z_of_byte_range.
Qed.

Lemma be_bytes_value bs n :
  length bs = n → (n ≤ 8)%nat → byte_of_Z <$> be_digits 8 n (be_value 8 (Z_of_byte <$> bs)) = bs.
Proof.
  intros <- Hl. rewrite <-(length_fmap Z_of_byte), be_digits_value.
  - rewrite <-list_fmap_compose. rewrite <-(list_fmap_id bs) at 2.
    apply list_fmap_ext. intros ???. apply byte_of_Z_of_byte.
  - lia.
  - rewrite length_fmap. lia.
  - intros d (b & -> & _)%list_elem_of_fmap. apply Z_of_byte_range.
Qed.

(** ** Little-endian words *)

Fixpoint le_sum (bs : list byte) : Z :=
  match bs with
  | [] => 0
  | b :: bs' => Z_of_byte b + 256 * le_sum bs'
  end.

Lemma le_sum_range bs : 0 <= le_sum bs < 2 ^ (8 * Z.of_nat (length bs)).
Proof.
  induction bs as [|b bs IH]; simpl; [lia|].
  pose proof (Z_of_byte_range b).
  replace (8 * Z.of_nat (S (length bs))) with (8 * Z.of_nat (length bs) + 8) by lia.
  rewrite Z.pow_add_r by lia. lia.
Qed.

(** The accumulation loop adds the bytes above the bits already read. *)
Lemma le_or_sum bs i v :
  0 <= i → 0 <= v < 2 ^ (8 * i) → le_or i bs v = v + le_sum bs * 2 ^ (8 * i).
Proof.
  revert i v. induction bs as [|b bs IH]; intros i v Hi Hv; simpl; [lia|].
  pose proof (Z_of_byte_range b).
  rewrite Z.lor_comm, lor_shiftl_add by lia.
  assert (E : 2 ^ (8 * (i + 1)) = 2 ^ (8 * i) * 256).
  { replace (8 * (i + 1)) with (8 * i + 8) by lia. rewrite Z.pow_add_r by lia. lia. }
  assert (0 <= v + Z_of_byte b * 2 ^ (8 * i) < 2 ^ (8 * (i + 1))) by (rewrite E; nia).
  replace (Z_of_byte b * 2 ^ (8 * i) + v) with (v + Z_of_byte b * 2 ^ (8 * i)) by lia.
  rewrite IH by lia. rewrite E. lia.
Qed.

Lemma le_value_sum bs : le_value bs = le_sum bs.
Proof. unfold le_value. rewrite le_or_sum; lia. Qed.

Lemma le_value_range bs : 0 <= le_value bs < 2 ^ (8 * Z.of_nat (length bs)).
Proof. rewrite le_value_sum. apply le_sum_range. Qed.

Lemma length_le_push n i v : length (le_push n i v) = n.
Proof. revert i. induction n as [|n IH]; intros i; simpl; [done|]. by rewrite IH. Qed.

Lemma length_le_bytes n v : length (le_bytes n v) = n.
Proof. apply length_le_push. Qed.

Lemma le_push_shift n i v : 0 <= i → le_push n i v = le_push n 0 (Z.shiftr v (8 * i)).
Proof.
  revert i v. induction n as [|n IH]; intros i v Hi; simpl; [done|].
  f_equal.
  rewrite (IH (i + 1)), (IH (0 + 1) (Z.shiftr v (8 * i))) by lia.
  rewrite Z.shiftr_shiftr by lia. do 2 f_equal. lia.
Qed.

Lemma le_bytes_S n v : le_bytes (S n) v = byte_of_Z v :: le_bytes n (v / 256).
Proof.
  unfold le_bytes. simpl. rewrite le_push_shift by lia. f_equal.
  - rewrite Z.mul_0_r, Z.shiftr_0_r. apply (inj Z_of_byte).
    rewrite !Z_of_byte_of_Z. unfold u8. change 255 with (Z.ones 8).
    rewrite Z.land_ones by lia. apply Z.mod_mod. lia.
  - by rewrite Z.shiftr_div_pow2 by lia.
Qed.

(** Reading the pushed bytes gives the word back, truncated to the width pushed. *)
Lemma le_value_bytes n v : le_value (le_bytes n v) = v mod 2 ^ (8 * Z.of_nat n).
Proof.
  rewrite le_value_sum. revert v. induction n as [|n IH]; intros v.
  { simpl. by rewrite Z.mod_1_r. }
  rewrite le_bytes_S. simpl. rewrite IH, Z_of_byte_of_Z. unfold u8.
  replace (8 * Z.of_nat (S n)) with (8 + 8 * Z.of_nat n) by lia.
  rewrite Z.pow_add_r by lia. rewrite Z.rem_mul_r by lia. done.
Qed.

Lemma le_bytes_value bs : le_bytes (length bs) (le_value bs) = bs.
Proof.
  rewrite le_value_sum. induction bs as [|b bs IH]; [done|].
  simpl length. rewrite le_bytes_S. simpl. pose proof (Z_of_byte_range b).
  replace (Z_of_byte b + 256 * le_sum bs) with (le_sum bs * 256 + Z_of_byte b) by lia.
  f_equal.
  - apply (inj Z_of_byte). rewrite Z_of_byte_of_Z. unfold u8. change (2 ^ 8) with 256.
    rewrite Z.add_comm, Z.mod_add, Z.mod_small; lia.
  - rewrite Z.div_add_l, Z.div_small, Z.add_0_r by lia. done.
Qed.

Lemma le_value_inj bs1 bs2 :
  length bs1 = length bs2 → le_value bs1 = le_value bs2 → bs1 = bs2.
Proof. intros Hl Hv. rewrite <-(le_bytes_value bs1), <-(le_bytes_value bs2). congruence. Qed.

(** ** Sorting lemmas *)

Section sorting.
Context {A : Type} (lt : A → A → bool).
Implicit Types l : list A.

(** The order a sorted list respects: no element strictly below an earlier one. *)
Definition not_above (a b : A) : Prop := lt b a = false.

Lemma sort_insert_perm x l : sort_insert lt x l ≡ₚ x :: l.
Proof.
  induction l as [|y l IH]; simpl; [done|]. case_match; [|done].
  rewrite IH. apply Permutation_swap.
Qed.

Lemma stable_sort_perm l : stable_sort lt l ≡ₚ l.
Proof. induction l as [|x l IH]; simpl; [done|]. by rewrite sort_insert_perm, IH. Qed.

#[global] Instance not_above_trans `{!StrictWeak lt} : Transitive not_above.
Proof.
  intros a b c Hab Hbc. unfold not_above in *.
  destruct (lt c a) eqn:E; [|done]. destruct (strict_cotrans _ _ b E); congruence.
Qed.

Lemma sort_insert_sorted `{!StrictWeak lt} x l :
  StronglySorted not_above l → StronglySorted not_above (sort_insert lt x l).
Proof.
  induction 1 as [|y l Hl IH Hy]; simpl; [by repeat constructor|].
  destruct (lt y x) eqn:E.
  - constructor; [done|]. rewrite sort_insert_perm. constructor; [|done].
    by apply strict_asym.
  - assert (not_above x y) by done. repeat constructor; [done..|].
    eapply Forall_impl; [done|]. intros z Hz. by trans y.
Qed.

Lemma stable_sort_sorted `{!StrictWeak lt} l : StronglySorted not_above (stable_sort lt l).
Proof. induction l; simpl; [constructor|]. by apply sort_insert_sorted. Qed.

(** The first element of a sorted list is minimal. *)
Lemma stable_sort_head `{!StrictWeak lt} l x l' y :
  stable_sort lt l = x :: l' → y ∈ l → lt y x = false ∨ y = x.
Proof.
  intros E Hy. pose proof (stable_sort_sorted l) as Hs. rewrite E in Hs.
  rewrite <-(stable_sort_perm l), E in Hy. apply elem_of_cons in Hy as [->|Hy]; [by right|].
  left. apply StronglySorted_inv in Hs as [_ Hs]. rewrite Forall_forall in Hs.
  by apply Hs.
Qed.

(** Sorting forgets the order of its input when only equal elements tie. *)
Lemma stable_sort_perm_eq `{!StrictTotal lt} l1 l2 :
  l1 ≡ₚ l2 → stable_sort lt l1 = stable_sort lt l2.
Proof.
  intros Hp. assert (AntiSymm (=) not_above) by (intros a b ??; by apply total_tie).
  apply (StronglySorted_unique not_above); [apply stable_sort_sorted..|].
  by rewrite !stable_sort_perm.
Qed.

Lemma sort_insert_below x l : Forall (not_above x) l → sort_insert lt x l = x :: l.
Proof. destruct 1 as [|y l Hy]; simpl; [done|]. by rewrite Hy. Qed.

Lemma stable_sort_id l : StronglySorted not_above l → stable_sort lt l = l.
Proof.
  induction 1 as [|x l Hl IH Hx]; simpl; [done|]. by rewrite IH, sort_insert_below.
Qed.
End sorting.

(** ** Map iteration lemmas *)

Section entries.
Context `{Countable K} {V : Type} (lt : K → K → bool).
Implicit Types m : gmap K V.

Lemma entries_perm m : entries lt m ≡ₚ map_to_list m.
Proof. apply stable_sort_perm. Qed.

Lemma elem_of_entries m k v : (k, v) ∈ entries lt m ↔ m !! k = Some v.
Proof. rewrite entries_perm. apply elem_of_map_to_list. Qed.

Lemma NoDup_fst_entries m : NoDup (entries lt m).*1.
Proof. rewrite entries_perm. apply NoDup_fst_map_to_list. Qed.

Lemma list_to_map_entries m : list_to_map (entries lt m) = m.
Proof.
  rewrite <-(list_to_map_to_list m) at 2. apply list_to_map_proper; [|apply entries_perm].
  apply NoDup_fst_entries.
Qed.

Lemma length_entries m : length (entries lt m) = size m.
Proof. rewrite entries_perm. apply length_map_to_list. Qed.

#[global] Instance entries_order_weak `{!StrictWeak lt} :
  StrictWeak (λ a b : K * V, lt a.1 b.1).
Proof. split; intros ??; [apply strict_asym|]. intros [c ?]. apply strict_cotrans. Qed.

Lemma entries_sorted `{!StrictWeak lt} m :
  StronglySorted (not_above lt) (entries lt m).*1.
Proof.
  pose proof (stable_sort_sorted (λ a b : K * V, lt a.1 b.1) (map_to_list m)) as Hs.
  unfold entries. induction Hs as [|x l Hl IH Hx]; simpl; constructor; [done|].
  by apply Forall_fmap.
Qed.
End entries.
