(* ===== verification/Basis.v ===== *)
(** The clocks and the exception classes (core/time.hpp, core/error.hpp, and
    [IdentityParseError] of core/identity.hpp).

    A clock is the standard library's: a count of ticks and the length of a tick; a
    reading in nanoseconds may overflow.  Exceptions are their classes, and a handler
    catches what derives from its class. *)

From S2P Require Import Prelude.

(** ** Clocks *)

(** A tick of a clock lasts [period_num / period_den] seconds. *)
Record Period := mkPeriod { period_num : Z; period_den : Z }.
Definition wf_period (p : Period) : Prop := 0 < period_num p ∧ 0 < period_den p.

(** [duration_cast<nanoseconds>]: by the reduced ratio of the two periods, in [int64_t],
    towards zero; [None] where the product overflows. *)
Definition nanoseconds (p : Period) (ticks : Z) : option Z :=
  let num := period_num p * 10 ^ 9 in
  let den := period_den p in
  let g := Z.gcd num den in
  let product := ticks * (num / g) in
  if (- 2 ^ 63 <=? product) && (product <? 2 ^ 63) then Some (product ÷ (den / g)) else None.

Definition monotonic_ns (p : Period) (ticks : Z) : option Z := u64 <$> nanoseconds p ticks.
Definition wall_ns (p : Period) (ticks : Z) : option Z := i64 <$> nanoseconds p ticks.

Lemma quot_range a b : 0 < b → - 2 ^ 63 <= a < 2 ^ 63 → - 2 ^ 63 <= a ÷ b < 2 ^ 63.
Proof.
  intros Hb [Hl Hu].
  pose proof (Z.quot_le_mono (- 2 ^ 63) a b Hb Hl) as H1. rewrite Z.quot_opp_l in H1 by lia.
  assert (2 ^ 63 ÷ b <= 2 ^ 63) by (apply Z.quot_le_upper_bound; nia).
  assert (a ÷ b <= 2 ^ 63 - 1) by (apply Z.quot_le_upper_bound; [done|nia]). lia.
Qed.

Lemma reduced_den_pos p :
  wf_period p → 0 < period_den p / Z.gcd (period_num p * 10 ^ 9) (period_den p).
Proof.
  intros [_ Hd]. set (g := Z.gcd _ _). assert (Hg : 0 < g).
  { pose proof (Z.gcd_nonneg (period_num p * 10 ^ 9) (period_den p)).
    destruct (Z.eq_dec g 0) as [E0|]; [|lia]. apply Z.gcd_eq_0_r in E0. lia. }
  destruct (Z.gcd_divide_r (period_num p * 10 ^ 9) (period_den p)) as [k Hk]. fold g in Hk.
  rewrite Hk, Z.div_mul by lia. nia.
Qed.

Lemma nanoseconds_range p ticks n :
  wf_period p → nanoseconds p ticks = Some n → in_i64 n.
Proof.
  intros Hp%reduced_den_pos. unfold nanoseconds. cbn zeta.
  destruct (_ && _) eqn:E; [|done]. bool_to_prop. intros [= <-]. apply quot_range; [done|lia].
Qed.

(** What the readings are where the clocks do not overflow: the values the operations take
    as their [mono] and [wall] arguments. *)
Lemma readings_fit p ticks mono wall :
  wf_period p → monotonic_ns p ticks = Some mono → wall_ns p ticks = Some wall →
  in_u64 mono ∧ in_i64 wall.
Proof.
  intros _. unfold monotonic_ns, wall_ns.
  intros (n & _ & ->)%fmap_Some (n' & _ & ->)%fmap_Some.
  split; [apply u64_range|]. unfold i64, in_i64.
  pose proof (Z.mod_pos_bound (n' + 2 ^ 63) (2 ^ 64)). lia.
Qed.

(** Later readings of a steady clock that started at or above zero are not smaller. *)
Lemma monotonic_never_back p t1 t2 m1 m2 :
  wf_period p → 0 <= t1 <= t2 → monotonic_ns p t1 = Some m1 → monotonic_ns p t2 = Some m2 →
  m1 <= m2.
Proof.
  intros Hp [H0 H12]. unfold monotonic_ns.
  intros (n1 & E1 & ->)%fmap_Some (n2 & E2 & ->)%fmap_Some.
  pose proof (nanoseconds_range p t1 n1 Hp E1) as R1. pose proof (nanoseconds_range p t2 n2 Hp E2) as R2.
  pose proof (reduced_den_pos p Hp) as Hb. destruct Hp as [Hn Hd]. unfold nanoseconds in *. cbn zeta in *. set (g := Z.gcd _ _) in *.
  destruct (_ && _) in E1; [|done]. destruct (_ && _) in E2; [|done].
  injection E1 as <-. injection E2 as <-.
  assert (0 <= period_num p * 10 ^ 9 / g) by (apply Z_div_nonneg_nonneg; [lia|apply Z.gcd_nonneg]).
  set (a := period_num p * 10 ^ 9 / g) in *. set (b := period_den p / g) in *.
  unfold in_i64 in *.
  assert (0 <= t1 * a ÷ b) by (apply Z.quot_pos; nia).
  assert (t1 * a ÷ b <= t2 * a ÷ b) by (apply Z.quot_le_mono; nia).
  unfold u64. rewrite !Z.mod_small by lia. done.
Qed.

(** ** Exceptions *)

Inductive Exception :=
  | std_exception
  | std_runtime_error
  | std_logic_error
  | std_invalid_argument
  | std_out_of_range
  | ReplicaFabricError
  | StateTransitionError
  | StaleAuthorityError
  | ValidationError
  | PersistenceError
  | ProtocolError
  | PlacementError
  | IdentityParseError.

#[global] Instance exception_eq_dec : EqDecision Exception.
Proof. solve_decision. Defined.

(** The class each one is derived from, with those of the standard library. *)
Definition base_class (e : Exception) : option Exception :=
  match e with
  | std_exception => None
  | std_runtime_error | std_logic_error => Some std_exception
  | std_invalid_argument | std_out_of_range => Some std_logic_error
  | ReplicaFabricError => Some std_runtime_error
  | StateTransitionError | StaleAuthorityError | ValidationError | PersistenceError
  | ProtocolError | PlacementError => Some ReplicaFabricError
  | IdentityParseError => Some std_invalid_argument
  end.

(** Whether [catch (const handler&)] catches an exception of class [e]; a class has at most
    three above it. *)
Fixpoint is_a (depth : nat) (handler e : Exception) : bool :=
  bool_decide (handler = e) ||
  match depth, base_class e with
  | S depth', Some b => is_a depth' handler b
  | _, _ => false
  end.
Definition catches : Exception → Exception → bool := is_a 3.

(** That is the reflexive transitive closure of the derivation. *)
Lemma catches_derived handler e :
  catches handler e = true ↔ rtc (λ x y, base_class x = Some y) e handler.
Proof.
  split.
  - unfold catches. generalize 3%nat. intros n. revert e. induction n as [|n IH]; intros e; cbn [is_a];
      rewrite orb_true_iff, bool_decide_eq_true; (intros [->|Hb]; [apply rtc_refl|]); [by destruct (base_class e)|].
    destruct (base_class e) as [b|] eqn:E; [|done]. eapply rtc_l; [exact E|by apply IH].
  - induction 1 as [e|e b handler E _ IH]; [by destruct e|].
    by destruct e; try done; injection E as <-; destruct handler.
Qed.

(** A handler for the library's base class catches every one of its error classes but the
    one of a malformed identity. *)
Lemma base_class_catches e :
  catches ReplicaFabricError e = true ↔
  e ∈ [ReplicaFabricError; StateTransitionError; StaleAuthorityError; ValidationError; PersistenceError;
       ProtocolError; PlacementError].
Proof.
  split; [|by intros Hin; repeat (apply elem_of_cons in Hin as [->|Hin]; [done|]); apply not_elem_of_nil in Hin].
  intros Hc. apply (bool_decide_unpack _). by destruct e.
Qed.
Lemma identity_error_escapes : catches ReplicaFabricError IdentityParseError = false.
Proof. done. Qed.
