(* ===== verification/Identity.v ===== *)
(** Identities (include/replicafabric/core/identity.hpp, identity_kinds.hpp).

    The 128-bit identities, their kinds, their byte and hexadecimal forms, their
    order, and the interface of the random source that mints them. *)

From S2P Require Import Prelude.

(** The tag structs: one constructor per identity kind. *)
Inductive IdKind :=
  | ReplicaIdTag | ReplicaSetIdTag | ModelIdTag | ArtifactIdTag | TenantIdTag
  | WorkloadIdTag | NodeIdTag | WorkerIdTag | WorkerBootIdTag | PlacementIdTag
  | PromotionIdTag | DrainIdTag | FailoverIdTag | AttemptIdTag | CoordinatorEpochTag
  | ReplicaGenerationTag | ReplicaSetGenerationTag | ArtifactGenerationTag
  | HealthGenerationTag | PolicyGenerationTag.

(** [Id<Tag>]: identities of different kinds have different types. *)
Record Id (k : IdKind) := mkId { hi : Z; lo : Z }.
Arguments mkId {k} _ _.
Arguments hi {k} _.
Arguments lo {k} _.

Abbreviation ReplicaId := (Id ReplicaIdTag).
Abbreviation ReplicaSetId := (Id ReplicaSetIdTag).
Abbreviation ModelId := (Id ModelIdTag).
Abbreviation ArtifactId := (Id ArtifactIdTag).
Abbreviation TenantId := (Id TenantIdTag).
Abbreviation WorkloadId := (Id WorkloadIdTag).
Abbreviation NodeId := (Id NodeIdTag).
Abbreviation WorkerId := (Id WorkerIdTag).
Abbreviation WorkerBootId := (Id WorkerBootIdTag).
Abbreviation PlacementId := (Id PlacementIdTag).
Abbreviation PromotionId := (Id PromotionIdTag).
Abbreviation DrainId := (Id DrainIdTag).
Abbreviation FailoverId := (Id FailoverIdTag).
Abbreviation AttemptId := (Id AttemptIdTag).
Abbreviation CoordinatorEpoch := (Id CoordinatorEpochTag).
Abbreviation ReplicaGeneration := (Id ReplicaGenerationTag).
Abbreviation ReplicaSetGeneration := (Id ReplicaSetGenerationTag).
Abbreviation ArtifactGeneration := (Id ArtifactGenerationTag).
Abbreviation HealthGeneration := (Id HealthGenerationTag).
Abbreviation PolicyGeneration := (Id PolicyGenerationTag).

(** Both halves fit the 64-bit words the code stores them in. *)
Definition wf_id {k} (i : Id k) : Prop := in_u64 (hi i) ∧ in_u64 (lo i).

(** [operator==] and the key type of the maps. *)
#[global] Instance Id_eq_dec k : EqDecision (Id k).
Proof. solve_decision. Defined.
#[global] Instance Id_countable k : Countable (Id k).
Proof. refine (inj_countable' (λ i, (hi i, lo i)) (λ p, mkId p.1 p.2) _). by intros []. Defined.

Definition null {k} : Id k := mkId 0 0.
Definition is_null {k} (i : Id k) : bool := (hi i =? 0) && (lo i =? 0).

(** [operator<]: by the high word, then the low word. *)
Definition id_ltb {k} (a b : Id k) : bool :=
  if negb (hi a =? hi b) then hi a <? hi b else lo a <? lo b.

(** [std::hash] of an identity. *)
Definition id_hash {k} (i : Id k) : Z :=
  let h := Z.lxor (hi i) (u64 (lo i * 0x9e3779b97f4a7c15)) in
  Z.lxor h (Z.shiftr h 32).

(** ** Bytes *)

Definition to_bytes {k} (i : Id k) : list byte :=
  byte_of_Z <$> (be_digits 8 8 (hi i) ++ be_digits 8 8 (lo i)).

Definition from_bytes {k} (b : list byte) : Id k :=
  mkId (be_value 8 (Z_of_byte <$> take 8 b)) (be_value 8 (Z_of_byte <$> take 8 (drop 8 b))).

(** ** Hexadecimal text *)

Definition char_code (c : ascii) : Z := Z.of_N (N_of_ascii c).

Definition hex_digit (c : ascii) : Z :=
  if (char_code "0" <=? char_code c) && (char_code c <=? char_code "9")
  then char_code c - char_code "0"
  else if (char_code "a" <=? char_code c) && (char_code c <=? char_code "f")
  then char_code c - char_code "a" + 10
  else if (char_code "A" <=? char_code c) && (char_code c <=? char_code "F")
  then char_code c - char_code "A" + 10
  else -1.

Definition kHex : list ascii := list_ascii_of_string "0123456789abcdef".

Definition write_hex (v : Z) : list ascii :=
  (λ d, default "0"%char (kHex !! Z.to_nat d)) <$> be_digits 4 16 v.

Fixpoint parse_hex_loop (s : list ascii) (v : Z) : option Z :=
  match s with
  | [] => Some v
  | c :: s' =>
      let d := hex_digit c in
      if d <? 0 then None else parse_hex_loop s' (shift_in 4 v d)
  end.

Definition parse_hex (s : list ascii) : option Z :=
  if negb (length s =? 16)%nat then None else parse_hex_loop s 0.

Definition id_str {k} (i : Id k) : string :=
  string_of_list_ascii (write_hex (hi i) ++ write_hex (lo i)).

(** The loop of [from_string] that drops hyphens and refuses other characters. *)
Fixpoint clean_hex (s : list ascii) : option (list ascii) :=
  match s with
  | [] => Some []
  | c :: s' =>
      if bool_decide (c = "-"%char) then clean_hex s'
      else if hex_digit c <? 0 then None
      else cons c <$> clean_hex s'
  end.

(** [Id::from_string]; [inl] carries the text of the [IdentityParseError]. *)
Definition from_string {k} (s : string) : string + Id k :=
  match clean_hex (list_ascii_of_string s) with
  | None => inl "invalid character in identity"%string
  | Some cleaned =>
      if negb (length cleaned =? 32)%nat then inl "identity must contain 32 hex digits"%string
      else
        match parse_hex (take 16 cleaned), parse_hex (take 16 (drop 16 cleaned)) with
        | Some h, Some l => inr (mkId h l)
        | _, _ => inl "identity parse failed"%string
        end
  end.

(** [Id::try_parse]: [None] for the [false] return. *)
Definition try_parse {k} (s : string) : option (Id k) :=
  let cs := list_ascii_of_string s in
  if negb (length cs =? 32)%nat then None
  else
    h ← parse_hex (take 16 cs);
    l ← parse_hex (take 16 (drop 16 cs));
    Some (mkId h l).

(** ** Random identities *)

(** The 64-bit generator the code draws from ([std::mt19937_64] through
    [uniform_int_distribution<uint64_t>]): any state with a draw in range. *)
Class Rng (G : Type) := {
  rng_next : G → Z * G;
  rng_next_range g : in_u64 (rng_next g).1;
}.

(** [Id::random]: two draws. *)
Definition random_id `{Rng G} {k} (g : G) : Id k * G :=
  let '(h, g1) := rng_next g in
  let '(l, g2) := rng_next g1 in
  (mkId h l, g2).

(** ** Order *)

#[global] Instance id_ltb_total k : StrictTotal (@id_ltb k).
Proof.
  unfold id_ltb. split; [split|]; intros [ha la] [hb lb]; simpl.
  - split_cases; bool_to_prop; lia.
  - intros [hc lc] E. simpl. destruct (ha =? hb) eqn:?, (ha =? hc) eqn:?, (hc =? hb) eqn:?;
      simpl in *; bool_to_prop; rewrite ?Z.ltb_lt in *; lia.
  - intros Hab Hba. assert (ha = hb ∧ la = lb) as [-> ->]; [|done].
    split_cases; bool_to_prop; subst; lia.
Qed.

Lemma random_id_wf `{Rng G} {k} (g : G) : wf_id (random_id (k := k) g).1.
Proof.
  unfold random_id. pose proof (rng_next_range g). destruct (rng_next g) as [h g1].
  pose proof (rng_next_range g1). by destruct (rng_next g1).
Qed.

(** ** Byte round trips *)

Lemma length_to_bytes {k} (i : Id k) : length (to_bytes i) = 16%nat.
Proof. unfold to_bytes. by rewrite length_fmap, length_app, !length_be_digits. Qed.

Lemma be_bytes_digits n v :
  Z_of_byte <$> (byte_of_Z <$> be_digits 8 n v) = be_digits 8 n v.
Proof.
  rewrite <-list_fmap_compose. rewrite <-(list_fmap_id (be_digits 8 n v)) at 2.
  apply list_fmap_ext. intros i d Hd%list_elem_of_lookup_2. simpl.
  rewrite Z_of_byte_of_Z. apply be_digits_range in Hd; [|lia]. by apply Z.mod_small.
Qed.

Lemma from_bytes_to_bytes {k} (i : Id k) : wf_id i → from_bytes (to_bytes i) = i.
Proof.
  intros [Hh Hl]. unfold from_bytes, to_bytes. destruct i as [h l]; cbn [hi lo] in *.
  rewrite fmap_app.
  rewrite drop_app_length' by (by rewrite length_fmap, length_be_digits).
  rewrite take_app_length' by (by rewrite length_fmap, length_be_digits).
  rewrite take_ge by (rewrite length_fmap, length_be_digits; lia).
  rewrite !be_bytes_digits, !be_value_digits; (done || lia).
Qed.

Lemma from_bytes_wf {k} (b : list byte) : length b = 16%nat → wf_id (from_bytes (k := k) b).
Proof.
  intros Hb.
  assert (Hr : ∀ c, (length c = 8)%nat → in_u64 (be_value 8 (Z_of_byte <$> c))).
  { intros c Hc. pose proof (be_bytes_range c) as Hv. rewrite Hc in Hv. apply Hv. lia. }
  split; simpl; apply Hr; rewrite ?length_take, ?length_drop; lia.
Qed.

Lemma to_bytes_from_bytes {k} (b : list byte) :
  length b = 16%nat → to_bytes (from_bytes (k := k) b) = b.
Proof.
  intros Hb.
  unfold to_bytes, from_bytes. cbn [hi lo].
  rewrite fmap_app, !be_bytes_value by (rewrite ?length_take, ?length_drop; lia).
  rewrite (take_ge (drop 8 b)) by (rewrite length_drop; lia). apply take_drop.
Qed.

(** ** Text round trips *)

Lemma hex_digit_range c : -1 <= hex_digit c < 16.
Proof.
  unfold hex_digit. change (char_code "0") with 48. change (char_code "9") with 57.
  change (char_code "a") with 97. change (char_code "f") with 102.
  change (char_code "A") with 65. change (char_code "F") with 70.
  split_cases; bool_to_prop; lia.
Qed.

Lemma hex_digit_kHex d :
  0 <= d < 16 → hex_digit (default "0"%char (kHex !! Z.to_nat d)) = d.
Proof.
  intros Hd. assert (d ∈ Z.of_nat <$> seq 0 16) as Hin.
  { apply list_elem_of_fmap. exists (Z.to_nat d). rewrite elem_of_seq. lia. }
  simpl in Hin. set_unfold in Hin. by destruct_or! Hin; subst.
Qed.

Lemma hex_digit_write_hex v : hex_digit <$> write_hex v = be_digits 4 16 v.
Proof.
  unfold write_hex. rewrite <-list_fmap_compose.
  rewrite <-(list_fmap_id (be_digits 4 16 v)) at 2. apply list_fmap_ext.
  intros i d Hd%list_elem_of_lookup_2. apply hex_digit_kHex.
  by apply (be_digits_range 4 16 v).
Qed.

Lemma length_write_hex v : length (write_hex v) = 16%nat.
Proof. unfold write_hex. by rewrite length_fmap, length_be_digits. Qed.

(** The parsing loop accumulates exactly the digits when they are all hexadecimal. *)
Lemma parse_hex_loop_spec s v r :
  parse_hex_loop s v = Some r ↔
  Forall (λ c, 0 <= hex_digit c) s ∧ r = foldl (shift_in 4) v (hex_digit <$> s).
Proof.
  revert v. induction s as [|c s IH]; intros v; simpl.
  { split; [by intros [= ->] | by intros [_ ->]]. }
  case_match; bool_to_prop.
  - split; [done|]. intros [Hf _]. apply Forall_cons in Hf as [??]. lia.
  - rewrite IH, Forall_cons. naive_solver lia.
Qed.

Lemma parse_hex_spec s v :
  parse_hex s = Some v ↔ in_u64 v ∧ hex_digit <$> s = be_digits 4 16 v.
Proof.
  assert (Hr : ∀ t, length t = 16%nat → Forall (λ c, 0 <= hex_digit c) t →
    length (hex_digit <$> t) = 16%nat ∧ ∀ d, d ∈ hex_digit <$> t → 0 <= d < 2 ^ 4).
  { intros t Ht Hf. rewrite length_fmap. split; [done|].
    intros d (c & -> & Hc)%list_elem_of_fmap. rewrite Forall_forall in Hf.
    pose proof (hex_digit_range c). specialize (Hf c Hc). lia. }
  unfold parse_hex. destruct (Nat.eqb_spec (length s) 16) as [Hl|Hl]; simpl.
  - rewrite parse_hex_loop_spec. change (foldl _ 0 ?l) with (be_value 4 l). split.
    + intros [Hf ->]. destruct (Hr s Hl Hf) as [Hl' Hd].
      pose proof (be_value_range 4 (hex_digit <$> s)) as Hb.
      pose proof (be_digits_value 4 (hex_digit <$> s)) as Hv. rewrite Hl' in Hb, Hv.
      split; [apply Hb; (done || lia) | symmetry; apply Hv; (done || lia)].
    + intros [Hv Hs]. split; [|by rewrite Hs, be_value_digits].
      apply Forall_forall. intros c Hc.
      assert (hex_digit c ∈ be_digits 4 16 v) as Hd by (rewrite <-Hs; by apply list_elem_of_fmap_2).
      apply be_digits_range in Hd; lia.
  - split; [done|]. intros [_ Hs]. destruct Hl.
    by rewrite <-(length_fmap hex_digit s), Hs, length_be_digits.
Qed.

Lemma parse_hex_write_hex v : in_u64 v → parse_hex (write_hex v) = Some v.
Proof. intros Hv. apply parse_hex_spec. by rewrite hex_digit_write_hex. Qed.

(** The text of an identity without its hyphens. *)
Definition strip_hyphens (s : list ascii) : list ascii := filter (λ c, c ≠ "-"%char) s.

Lemma clean_hex_spec s c :
  clean_hex s = Some c ↔ c = strip_hyphens s ∧ Forall (λ c, 0 <= hex_digit c) c.
Proof.
  revert c. induction s as [|x s IH]; intros c; unfold strip_hyphens; simpl.
  { split; [by intros [= <-] | by intros [-> _]]. }
  rewrite filter_cons. fold (strip_hyphens s).
  destruct (decide (x = "-"%char)) as [->|Hx].
  - rewrite bool_decide_true, decide_False by naive_solver. apply IH.
  - rewrite bool_decide_false, decide_True by done. case_match; bool_to_prop.
    + split; [done|]. intros [-> [??]%Forall_cons]. lia.
    + rewrite fmap_Some. setoid_rewrite IH. split.
      * intros (y & [-> Hy] & ->). by rewrite Forall_cons.
      * intros [-> [??]%Forall_cons]. eauto.
Qed.

(** Both halves of a 32-digit text, read and written. *)
Lemma id_digits_split {k} (i : Id k) (ds : list Z) :
  ds = be_digits 4 16 (hi i) ++ be_digits 4 16 (lo i) →
  length ds = 32%nat ∧ take 16 ds = be_digits 4 16 (hi i) ∧
  take 16 (drop 16 ds) = be_digits 4 16 (lo i).
Proof.
  intros ->. rewrite length_app, !length_be_digits. split_and!; [done|..].
  - by rewrite take_app_length' by (by rewrite length_be_digits).
  - rewrite drop_app_length' by (by rewrite length_be_digits).
    by rewrite take_ge by (rewrite length_be_digits; lia).
Qed.

(** What [from_string] accepts: 32 hexadecimal digits once hyphens are dropped. *)
Lemma from_string_spec {k} (s : string) (i : Id k) :
  from_string s = inr i ↔
  wf_id i ∧ hex_digit <$> strip_hyphens (list_ascii_of_string s)
            = be_digits 4 16 (hi i) ++ be_digits 4 16 (lo i).
Proof.
  unfold from_string. set (cs := list_ascii_of_string s).
  assert (Hparse : ∀ t h l, parse_hex (take 16 t) = Some h →
    parse_hex (take 16 (drop 16 t)) = Some l → length t = 32%nat →
    wf_id (mkId (k := k) h l) ∧ hex_digit <$> t = be_digits 4 16 h ++ be_digits 4 16 l).
  { intros t h l [Hh Eh]%parse_hex_spec [Hl El]%parse_hex_spec Ht. split; [done|].
    rewrite <-Eh, <-El, <-fmap_app. rewrite (take_ge (drop 16 t)) by (rewrite length_drop; lia).
    by rewrite take_drop. }
  split.
  - intros E. destruct (clean_hex cs) as [c|] eqn:Ec; [|done].
    apply clean_hex_spec in Ec as [-> _]. destruct (Nat.eqb_spec (length (strip_hyphens cs)) 32);
      [|done]; simpl in E.
    do 2 (destruct (parse_hex _) eqn:? in E; [|done]). simplify_eq.
    apply Hparse; done.
  - intros [[Hh Hl] Hs].
    assert (clean_hex cs = Some (strip_hyphens cs)) as ->.
    { apply clean_hex_spec. split; [done|]. apply Forall_forall. intros c Hc.
      assert (hex_digit c ∈ be_digits 4 16 (hi i) ++ be_digits 4 16 (lo i)) as Hd
        by (rewrite <-Hs; by apply list_elem_of_fmap_2).
      apply elem_of_app in Hd as [Hd|Hd]; apply be_digits_range in Hd; lia. }
    apply id_digits_split in Hs as (Hlen & H1 & H2). rewrite length_fmap in Hlen.
    rewrite Hlen. simpl.
    assert (parse_hex (take 16 (strip_hyphens cs)) = Some (hi i)) as ->.
    { apply parse_hex_spec. by rewrite fmap_take, H1. }
    assert (parse_hex (take 16 (drop 16 (strip_hyphens cs))) = Some (lo i)) as ->; [|by destruct i].
    apply parse_hex_spec. by rewrite fmap_take, fmap_drop, H2.
Qed.

Lemma strip_hyphens_write_hex v : strip_hyphens (write_hex v) = write_hex v.
Proof.
  assert (Forall (λ c, c ≠ "-"%char) (write_hex v)) as Hf.
  { apply Forall_forall. intros c Hc ->.
    assert (hex_digit "-" ∈ hex_digit <$> write_hex v) as Hd by by apply list_elem_of_fmap_2.
    rewrite hex_digit_write_hex in Hd. apply be_digits_range in Hd; [|lia].
    change (hex_digit "-") with (-1) in Hd. lia. }
  unfold strip_hyphens. induction Hf as [|c l Hc _ IH]; [done|].
  by rewrite filter_cons_True, IH.
Qed.

Lemma id_str_chars {k} (i : Id k) :
  list_ascii_of_string (id_str i) = write_hex (hi i) ++ write_hex (lo i).
Proof. apply list_ascii_of_string_of_list_ascii. Qed.

Lemma from_string_id_str {k} (i : Id k) : wf_id i → from_string (id_str i) = inr i.
Proof.
  intros Hi. apply from_string_spec. split; [done|]. rewrite id_str_chars.
  unfold strip_hyphens. rewrite filter_app, fmap_app. fold (strip_hyphens (write_hex (hi i))).
  fold (strip_hyphens (write_hex (lo i))).
  by rewrite !strip_hyphens_write_hex, !hex_digit_write_hex.
Qed.

Lemma try_parse_id_str {k} (i : Id k) : wf_id i → try_parse (id_str i) = Some i.
Proof.
  intros [Hh Hl]. unfold try_parse. rewrite id_str_chars, length_app, !length_write_hex.
  change (negb _) with false. cbn iota.
  rewrite take_app_length', drop_app_length' by (by rewrite length_write_hex).
  rewrite take_ge by (rewrite length_write_hex; lia).
  rewrite !parse_hex_write_hex by done. by destruct i.
Qed.

Lemma id_str_inj {k} (i j : Id k) : wf_id i → wf_id j → id_str i = id_str j → i = j.
Proof.
  intros Hi Hj E. apply try_parse_id_str in Hi, Hj. rewrite E in Hi. congruence.
Qed.

#[export] Hint Resolve random_id_wf from_bytes_wf : fabric.
#[export] Hint Rewrite @length_to_bytes : fabric.
