(* ===== verification/Enums.v ===== *)
(** Enumerations (include/replicafabric/core/enums.hpp).

    One Module per enum class: its enumerators, its underlying [uint8_t] value and
    its name table.  The lookups [to_string], [from_string] and [from_int] are
    defined once, against the interface [RfEnum], and their laws are proved once,
    against [RfEnumLaws], which every enum discharges. *)

From S2P Require Import Prelude.

(** What the overloads of one enum class are built from. *)
Class RfEnum (E : Type) := {
  enum_eq_dec :: EqDecision E;
  enum_value : E → Z;
  enum_table : list (E * string);
}.

(** [enum_to_string_lookup]: the name of the first matching row, ["?"] otherwise. *)
Fixpoint enum_to_string_lookup `{EqDecision E} (v : E) (t : list (E * string)) : string :=
  match t with
  | [] => "?"
  | p :: t' => if decide (p.1 = v) then p.2 else enum_to_string_lookup v t'
  end.

Fixpoint enum_from_string_lookup {E} (s : string) (t : list (E * string)) : option E :=
  match t with
  | [] => None
  | p :: t' => if String.eqb p.2 s then Some p.1 else enum_from_string_lookup s t'
  end.

Definition enum_from_int_lookup {E} (v : Z) (t : list (E * string)) : option E :=
  if (v <? 0) || (Z.of_nat (length t) <=? v) then None else fst <$> t !! Z.to_nat v.

(** The overload sets of [to_string], [from_string] and [from_int]. *)
Definition to_string `{RfEnum E} (v : E) : string := enum_to_string_lookup v enum_table.
Definition enum_from_string `{RfEnum E} (s : string) : option E :=
  enum_from_string_lookup s enum_table.
Definition from_int `{RfEnum E} (v : Z) : option E := enum_from_int_lookup v enum_table.

(** What the tables have to satisfy for the lookups to be mutually inverse. *)
Class RfEnumLaws (E : Type) `{RfEnum E} : Prop := {
  table_at_value e : fst <$> enum_table !! Z.to_nat (enum_value e) = Some e;
  value_of_row i e s : enum_table !! i = Some (e, s) → enum_value e = Z.of_nat i;
  value_in_table e : 0 <= enum_value e < Z.of_nat (length (enum_table (E := E)));
  names_distinct : NoDup (snd <$> enum_table (E := E));
  table_fits_u8 : Z.of_nat (length (enum_table (E := E))) <= 256;
}.

(** Checks a table row by row. *)
Ltac solve_enum_laws :=
  split;
  [ by intros []
  | intros i e s; do 12 (destruct i as [|i]; [by intros [= <- <-]|]); done
  | by intros []
  | apply (bool_decide_unpack _); by vm_compute
  | done ].

(** Replica-set lifecycle. *)
Module ReplicaSetLifecycle.
Inductive ReplicaSetLifecycle : Set :=
  | CREATED | PROVISIONING | AVAILABLE | DEGRADED | DRAINING | RETIRED | FAILED.
Definition ReplicaSetLifecycle_value (v : ReplicaSetLifecycle) : Z :=
  match v with
  | CREATED => 0 | PROVISIONING => 1 | AVAILABLE => 2 | DEGRADED => 3 | DRAINING => 4
  | RETIRED => 5 | FAILED => 6
  end.
Definition kReplicaSetLifecycleTable : list (ReplicaSetLifecycle * string) :=
  [(CREATED, "CREATED"); (PROVISIONING, "PROVISIONING"); (AVAILABLE, "AVAILABLE");
  (DEGRADED, "DEGRADED"); (DRAINING, "DRAINING"); (RETIRED, "RETIRED"); (FAILED, "FAILED")].
End ReplicaSetLifecycle.
Abbreviation ReplicaSetLifecycle := ReplicaSetLifecycle.ReplicaSetLifecycle.
#[global] Instance ReplicaSetLifecycle_eq_dec : EqDecision ReplicaSetLifecycle.
Proof. solve_decision. Defined.
#[global] Instance ReplicaSetLifecycle_enum : RfEnum ReplicaSetLifecycle :=
  {| enum_value := ReplicaSetLifecycle.ReplicaSetLifecycle_value; enum_table := ReplicaSetLifecycle.kReplicaSetLifecycleTable |}.

(** Replica lifecycle. *)
Module ReplicaLifecycle.
Inductive ReplicaLifecycle : Set :=
  | DECLARED | ALLOCATING | STARTING | WARMING | READY | SERVING | DRAINING | QUIESCED
  | FAILED | RETIRED.
Definition ReplicaLifecycle_value (v : ReplicaLifecycle) : Z :=
  match v with
  | DECLARED => 0 | ALLOCATING => 1 | STARTING => 2 | WARMING => 3 | READY => 4
  | SERVING => 5 | DRAINING => 6 | QUIESCED => 7 | FAILED => 8 | RETIRED => 9
  end.
Definition kReplicaLifecycleTable : list (ReplicaLifecycle * string) :=
  [(DECLARED, "DECLARED"); (ALLOCATING, "ALLOCATING"); (STARTING, "STARTING");
  (WARMING, "WARMING"); (READY, "READY"); (SERVING, "SERVING"); (DRAINING, "DRAINING");
  (QUIESCED, "QUIESCED"); (FAILED, "FAILED"); (RETIRED, "RETIRED")].
End ReplicaLifecycle.
Abbreviation ReplicaLifecycle := ReplicaLifecycle.ReplicaLifecycle.
#[global] Instance ReplicaLifecycle_eq_dec : EqDecision ReplicaLifecycle.
Proof. solve_decision. Defined.
#[global] Instance ReplicaLifecycle_enum : RfEnum ReplicaLifecycle :=
  {| enum_value := ReplicaLifecycle.ReplicaLifecycle_value; enum_table := ReplicaLifecycle.kReplicaLifecycleTable |}.

(** Health state. *)
Module HealthState.
Inductive HealthState : Set :=
  | UNKNOWN | STARTING | HEALTHY | DEGRADED | UNHEALTHY | FAILED | QUARANTINED.
Definition HealthState_value (v : HealthState) : Z :=
  match v with
  | UNKNOWN => 0 | STARTING => 1 | HEALTHY => 2 | DEGRADED => 3 | UNHEALTHY => 4
  | FAILED => 5 | QUARANTINED => 6
  end.
Definition kHealthStateTable : list (HealthState * string) :=
  [(UNKNOWN, "UNKNOWN"); (STARTING, "STARTING"); (HEALTHY, "HEALTHY");
  (DEGRADED, "DEGRADED"); (UNHEALTHY, "UNHEALTHY"); (FAILED, "FAILED");
  (QUARANTINED, "QUARANTINED")].
End HealthState.
Abbreviation HealthState := HealthState.HealthState.
#[global] Instance HealthState_eq_dec : EqDecision HealthState.
Proof. solve_decision. Defined.
#[global] Instance HealthState_enum : RfEnum HealthState :=
  {| enum_value := HealthState.HealthState_value; enum_table := HealthState.kHealthStateTable |}.

(** How a health observation was obtained. *)
Module HealthEvidenceKind.
Inductive HealthEvidenceKind : Set :=
  | UNKNOWN | MEASURED | REPORTED | DERIVED | HEURISTIC.
Definition HealthEvidenceKind_value (v : HealthEvidenceKind) : Z :=
  match v with
  | UNKNOWN => 0 | MEASURED => 1 | REPORTED => 2 | DERIVED => 3 | HEURISTIC => 4
  end.
Definition kHealthEvidenceKindTable : list (HealthEvidenceKind * string) :=
  [(UNKNOWN, "UNKNOWN"); (MEASURED, "MEASURED"); (REPORTED, "REPORTED");
  (DERIVED, "DERIVED"); (HEURISTIC, "HEURISTIC")].
End HealthEvidenceKind.
Abbreviation HealthEvidenceKind := HealthEvidenceKind.HealthEvidenceKind.
#[global] Instance HealthEvidenceKind_eq_dec : EqDecision HealthEvidenceKind.
Proof. solve_decision. Defined.
#[global] Instance HealthEvidenceKind_enum : RfEnum HealthEvidenceKind :=
  {| enum_value := HealthEvidenceKind.HealthEvidenceKind_value; enum_table := HealthEvidenceKind.kHealthEvidenceKindTable |}.

(** Warmth. *)
Module WarmthState.
Inductive WarmthState : Set :=
  | COLD | WARMING | WARM | STALE_WARMTH | INVALIDATED.
Definition WarmthState_value (v : WarmthState) : Z :=
  match v with
  | COLD => 0 | WARMING => 1 | WARM => 2 | STALE_WARMTH => 3 | INVALIDATED => 4
  end.
Definition kWarmthStateTable : list (WarmthState * string) :=
  [(COLD, "COLD"); (WARMING, "WARMING"); (WARM, "WARM"); (STALE_WARMTH, "STALE_WARMTH");
  (INVALIDATED, "INVALIDATED")].
End WarmthState.
Abbreviation WarmthState := WarmthState.WarmthState.
#[global] Instance WarmthState_eq_dec : EqDecision WarmthState.
Proof. solve_decision. Defined.
#[global] Instance WarmthState_enum : RfEnum WarmthState :=
  {| enum_value := WarmthState.WarmthState_value; enum_table := WarmthState.kWarmthStateTable |}.

(** Readiness. *)
Module ReadinessState.
Inductive ReadinessState : Set :=
  | UNKNOWN | NOT_READY | READY.
Definition ReadinessState_value (v : ReadinessState) : Z :=
  match v with
  | UNKNOWN => 0 | NOT_READY => 1 | READY => 2
  end.
Definition kReadinessStateTable : list (ReadinessState * string) :=
  [(UNKNOWN, "UNKNOWN"); (NOT_READY, "NOT_READY"); (READY, "READY")].
End ReadinessState.
Abbreviation ReadinessState := ReadinessState.ReadinessState.
#[global] Instance ReadinessState_eq_dec : EqDecision ReadinessState.
Proof. solve_decision. Defined.
#[global] Instance ReadinessState_enum : RfEnum ReadinessState :=
  {| enum_value := ReadinessState.ReadinessState_value; enum_table := ReadinessState.kReadinessStateTable |}.

(** Role within an authority generation. *)
Module PromotionState.
Inductive PromotionState : Set :=
  | NOT_PROMOTED | STANDBY | CANARY | REPLACEMENT | RECOVERED | PRIMARY.
Definition PromotionState_value (v : PromotionState) : Z :=
  match v with
  | NOT_PROMOTED => 0 | STANDBY => 1 | CANARY => 2 | REPLACEMENT => 3 | RECOVERED => 4
  | PRIMARY => 5
  end.
Definition kPromotionStateTable : list (PromotionState * string) :=
  [(NOT_PROMOTED, "NOT_PROMOTED"); (STANDBY, "STANDBY"); (CANARY, "CANARY");
  (REPLACEMENT, "REPLACEMENT"); (RECOVERED, "RECOVERED"); (PRIMARY, "PRIMARY")].
End PromotionState.
Abbreviation PromotionState := PromotionState.PromotionState.
#[global] Instance PromotionState_eq_dec : EqDecision PromotionState.
Proof. solve_decision. Defined.
#[global] Instance PromotionState_enum : RfEnum PromotionState :=
  {| enum_value := PromotionState.PromotionState_value; enum_table := PromotionState.kPromotionStateTable |}.

(** Role within a set. *)
Module ReplicaRole.
Inductive ReplicaRole : Set :=
  | NONE | PRIMARY | SECONDARY | STANDBY | CANARY.
Definition ReplicaRole_value (v : ReplicaRole) : Z :=
  match v with
  | NONE => 0 | PRIMARY => 1 | SECONDARY => 2 | STANDBY => 3 | CANARY => 4
  end.
Definition kReplicaRoleTable : list (ReplicaRole * string) :=
  [(NONE, "NONE"); (PRIMARY, "PRIMARY"); (SECONDARY, "SECONDARY"); (STANDBY, "STANDBY");
  (CANARY, "CANARY")].
End ReplicaRole.
Abbreviation ReplicaRole := ReplicaRole.ReplicaRole.
#[global] Instance ReplicaRole_eq_dec : EqDecision ReplicaRole.
Proof. solve_decision. Defined.
#[global] Instance ReplicaRole_enum : RfEnum ReplicaRole :=
  {| enum_value := ReplicaRole.ReplicaRole_value; enum_table := ReplicaRole.kReplicaRoleTable |}.

(** Drain progress. *)
Module DrainState.
Inductive DrainState : Set :=
  | NOT_DRAINING | DRAINING | QUIESCING | QUIESCED | COMPLETE | CANCELLED.
Definition DrainState_value (v : DrainState) : Z :=
  match v with
  | NOT_DRAINING => 0 | DRAINING => 1 | QUIESCING => 2 | QUIESCED => 3 | COMPLETE => 4
  | CANCELLED => 5
  end.
Definition kDrainStateTable : list (DrainState * string) :=
  [(NOT_DRAINING, "NOT_DRAINING"); (DRAINING, "DRAINING"); (QUIESCING, "QUIESCING");
  (QUIESCED, "QUIESCED"); (COMPLETE, "COMPLETE"); (CANCELLED, "CANCELLED")].
End DrainState.
Abbreviation DrainState := DrainState.DrainState.
#[global] Instance DrainState_eq_dec : EqDecision DrainState.
Proof. solve_decision. Defined.
#[global] Instance DrainState_enum : RfEnum DrainState :=
  {| enum_value := DrainState.DrainState_value; enum_table := DrainState.kDrainStateTable |}.

(** Failover progress. *)
Module FailoverState.
Inductive FailoverState : Set :=
  | NONE | TRIGGERED | SELECTING | PROMOTING | COMPLETE | FAILED.
Definition FailoverState_value (v : FailoverState) : Z :=
  match v with
  | NONE => 0 | TRIGGERED => 1 | SELECTING => 2 | PROMOTING => 3 | COMPLETE => 4
  | FAILED => 5
  end.
Definition kFailoverStateTable : list (FailoverState * string) :=
  [(NONE, "NONE"); (TRIGGERED, "TRIGGERED"); (SELECTING, "SELECTING");
  (PROMOTING, "PROMOTING"); (COMPLETE, "COMPLETE"); (FAILED, "FAILED")].
End FailoverState.
Abbreviation FailoverState := FailoverState.FailoverState.
#[global] Instance FailoverState_eq_dec : EqDecision FailoverState.
Proof. solve_decision. Defined.
#[global] Instance FailoverState_enum : RfEnum FailoverState :=
  {| enum_value := FailoverState.FailoverState_value; enum_table := FailoverState.kFailoverStateTable |}.

(** Outcome of a piece of work. *)
Module WorkOutcome.
Inductive WorkOutcome : Set :=
  | UNKNOWN | SUCCEEDED | FAILED | AMBIGUOUS.
Definition WorkOutcome_value (v : WorkOutcome) : Z :=
  match v with
  | UNKNOWN => 0 | SUCCEEDED => 1 | FAILED => 2 | AMBIGUOUS => 3
  end.
Definition kWorkOutcomeTable : list (WorkOutcome * string) :=
  [(UNKNOWN, "UNKNOWN"); (SUCCEEDED, "SUCCEEDED"); (FAILED, "FAILED");
  (AMBIGUOUS, "AMBIGUOUS")].
End WorkOutcome.
Abbreviation WorkOutcome := WorkOutcome.WorkOutcome.
#[global] Instance WorkOutcome_eq_dec : EqDecision WorkOutcome.
Proof. solve_decision. Defined.
#[global] Instance WorkOutcome_enum : RfEnum WorkOutcome :=
  {| enum_value := WorkOutcome.WorkOutcome_value; enum_table := WorkOutcome.kWorkOutcomeTable |}.

(** Memory residency. *)
Module MemoryResidencyState.
Inductive MemoryResidencyState : Set :=
  | UNKNOWN | NOT_RESIDENT | RESIDENT | EVICTED.
Definition MemoryResidencyState_value (v : MemoryResidencyState) : Z :=
  match v with
  | UNKNOWN => 0 | NOT_RESIDENT => 1 | RESIDENT => 2 | EVICTED => 3
  end.
Definition kMemoryResidencyStateTable : list (MemoryResidencyState * string) :=
  [(UNKNOWN, "UNKNOWN"); (NOT_RESIDENT, "NOT_RESIDENT"); (RESIDENT, "RESIDENT");
  (EVICTED, "EVICTED")].
End MemoryResidencyState.
Abbreviation MemoryResidencyState := MemoryResidencyState.MemoryResidencyState.
#[global] Instance MemoryResidencyState_eq_dec : EqDecision MemoryResidencyState.
Proof. solve_decision. Defined.
#[global] Instance MemoryResidencyState_enum : RfEnum MemoryResidencyState :=
  {| enum_value := MemoryResidencyState.MemoryResidencyState_value; enum_table := MemoryResidencyState.kMemoryResidencyStateTable |}.

(** Placement. *)
Module PlacementState.
Inductive PlacementState : Set :=
  | PENDING | ASSIGNED | FAILED | INVALIDATED.
Definition PlacementState_value (v : PlacementState) : Z :=
  match v with
  | PENDING => 0 | ASSIGNED => 1 | FAILED => 2 | INVALIDATED => 3
  end.
Definition kPlacementStateTable : list (PlacementState * string) :=
  [(PENDING, "PENDING"); (ASSIGNED, "ASSIGNED"); (FAILED, "FAILED");
  (INVALIDATED, "INVALIDATED")].
End PlacementState.
Abbreviation PlacementState := PlacementState.PlacementState.
#[global] Instance PlacementState_eq_dec : EqDecision PlacementState.
Proof. solve_decision. Defined.
#[global] Instance PlacementState_enum : RfEnum PlacementState :=
  {| enum_value := PlacementState.PlacementState_value; enum_table := PlacementState.kPlacementStateTable |}.

(** Accelerator kind. *)
Module AcceleratorKind.
Inductive AcceleratorKind : Set :=
  | NONE | CPU | CUDA | ROCM | SYCL | CUSTOM.
Definition AcceleratorKind_value (v : AcceleratorKind) : Z :=
  match v with
  | NONE => 0 | CPU => 1 | CUDA => 2 | ROCM => 3 | SYCL => 4 | CUSTOM => 5
  end.
Definition kAcceleratorKindTable : list (AcceleratorKind * string) :=
  [(NONE, "NONE"); (CPU, "CPU"); (CUDA, "CUDA"); (ROCM, "ROCM"); (SYCL, "SYCL");
  (CUSTOM, "CUSTOM")].
End AcceleratorKind.
Abbreviation AcceleratorKind := AcceleratorKind.AcceleratorKind.
#[global] Instance AcceleratorKind_eq_dec : EqDecision AcceleratorKind.
Proof. solve_decision. Defined.
#[global] Instance AcceleratorKind_enum : RfEnum AcceleratorKind :=
  {| enum_value := AcceleratorKind.AcceleratorKind_value; enum_table := AcceleratorKind.kAcceleratorKindTable |}.

(** Backend kind. *)
Module BackendKind.
Inductive BackendKind : Set :=
  | NONE | TRITON | TENSORRT | ONNX | VLLM | CUSTOM.
Definition BackendKind_value (v : BackendKind) : Z :=
  match v with
  | NONE => 0 | TRITON => 1 | TENSORRT => 2 | ONNX => 3 | VLLM => 4 | CUSTOM => 5
  end.
Definition kBackendKindTable : list (BackendKind * string) :=
  [(NONE, "NONE"); (TRITON, "TRITON"); (TENSORRT, "TENSORRT"); (ONNX, "ONNX");
  (VLLM, "VLLM"); (CUSTOM, "CUSTOM")].
End BackendKind.
Abbreviation BackendKind := BackendKind.BackendKind.
#[global] Instance BackendKind_eq_dec : EqDecision BackendKind.
Proof. solve_decision. Defined.
#[global] Instance BackendKind_enum : RfEnum BackendKind :=
  {| enum_value := BackendKind.BackendKind_value; enum_table := BackendKind.kBackendKindTable |}.

(** Numeric mode. *)
Module NumericMode.
Inductive NumericMode : Set :=
  | UNKNOWN | FP32 | FP16 | BF16 | FP8 | INT8 | MIXED.
Definition NumericMode_value (v : NumericMode) : Z :=
  match v with
  | UNKNOWN => 0 | FP32 => 1 | FP16 => 2 | BF16 => 3 | FP8 => 4 | INT8 => 5 | MIXED => 6
  end.
Definition kNumericModeTable : list (NumericMode * string) :=
  [(UNKNOWN, "UNKNOWN"); (FP32, "FP32"); (FP16, "FP16"); (BF16, "BF16"); (FP8, "FP8");
  (INT8, "INT8"); (MIXED, "MIXED")].
End NumericMode.
Abbreviation NumericMode := NumericMode.NumericMode.
#[global] Instance NumericMode_eq_dec : EqDecision NumericMode.
Proof. solve_decision. Defined.
#[global] Instance NumericMode_enum : RfEnum NumericMode :=
  {| enum_value := NumericMode.NumericMode_value; enum_table := NumericMode.kNumericModeTable |}.

(** ** The tables satisfy the laws *)

#[global] Instance ReplicaSetLifecycle_laws : RfEnumLaws ReplicaSetLifecycle.
Proof. solve_enum_laws. Qed.
#[global] Instance ReplicaLifecycle_laws : RfEnumLaws ReplicaLifecycle.
Proof. solve_enum_laws. Qed.
#[global] Instance HealthState_laws : RfEnumLaws HealthState.
Proof. solve_enum_laws. Qed.
#[global] Instance HealthEvidenceKind_laws : RfEnumLaws HealthEvidenceKind.
Proof. solve_enum_laws. Qed.
#[global] Instance WarmthState_laws : RfEnumLaws WarmthState.
Proof. solve_enum_laws. Qed.
#[global] Instance ReadinessState_laws : RfEnumLaws ReadinessState.
Proof. solve_enum_laws. Qed.
#[global] Instance PromotionState_laws : RfEnumLaws PromotionState.
Proof. solve_enum_laws. Qed.
#[global] Instance ReplicaRole_laws : RfEnumLaws ReplicaRole.
Proof. solve_enum_laws. Qed.
#[global] Instance DrainState_laws : RfEnumLaws DrainState.
Proof. solve_enum_laws. Qed.
#[global] Instance FailoverState_laws : RfEnumLaws FailoverState.
Proof. solve_enum_laws. Qed.
#[global] Instance WorkOutcome_laws : RfEnumLaws WorkOutcome.
Proof. solve_enum_laws. Qed.
#[global] Instance MemoryResidencyState_laws : RfEnumLaws MemoryResidencyState.
Proof. solve_enum_laws. Qed.
#[global] Instance PlacementState_laws : RfEnumLaws PlacementState.
Proof. solve_enum_laws. Qed.
#[global] Instance AcceleratorKind_laws : RfEnumLaws AcceleratorKind.
Proof. solve_enum_laws. Qed.
#[global] Instance BackendKind_laws : RfEnumLaws BackendKind.
Proof. solve_enum_laws. Qed.
#[global] Instance NumericMode_laws : RfEnumLaws NumericMode.
Proof. solve_enum_laws. Qed.

(** ** The lookups are mutually inverse *)

Section laws.
Context `{RfEnumLaws E}.
Implicit Types (v : E) (s : string).

Lemma to_string_lookup_row (t : list (E * string)) v s :
  NoDup t.*1 → (v, s) ∈ t → enum_to_string_lookup v t = s.
Proof.
  induction t as [|[e n] t IH]; simpl; [by intros _ ?%not_elem_of_nil|].
  intros [Hn Ht]%NoDup_cons [[= -> ->]|Hin]%elem_of_cons.
  - by rewrite decide_True.
  - rewrite decide_False; [by apply IH|]. intros ->. destruct Hn.
    by apply (list_elem_of_fmap_2 fst) in Hin.
Qed.

Lemma from_string_lookup_row (t : list (E * string)) v s :
  enum_from_string_lookup s t = Some v → (v, s) ∈ t.
Proof.
  induction t as [|[e n] t IH]; simpl; [done|].
  destruct (String.eqb_spec n s) as [->|]; [intros [= ->]; left|].
  intros ?. right. by apply IH.
Qed.

Lemma from_string_lookup_name (t : list (E * string)) v s :
  NoDup t.*2 → (v, s) ∈ t → enum_from_string_lookup s t = Some v.
Proof.
  induction t as [|[e n] t IH]; simpl; [by intros _ ?%not_elem_of_nil|].
  intros [Hn Ht]%NoDup_cons [[= -> ->]|Hin]%elem_of_cons; [by rewrite String.eqb_refl|].
  destruct (String.eqb_spec n s) as [->|]; [|by apply IH].
  destruct Hn. by apply (list_elem_of_fmap_2 snd) in Hin.
Qed.

Lemma enum_row v : ∃ s, enum_table !! Z.to_nat (enum_value v) = Some (v, s).
Proof.
  pose proof (table_at_value v) as Hv. apply fmap_Some in Hv as ([e s] & Hs & ->). eauto.
Qed.

Lemma enumerators_distinct : NoDup (enum_table (E := E)).*1.
Proof.
  apply NoDup_alt. intros i j e Hi Hj. rewrite !list_lookup_fmap, !fmap_Some in *.
  destruct Hi as ([? si] & Hi & ->), Hj as ([? sj] & Hj & ?); simpl in *; subst.
  apply value_of_row in Hi, Hj. lia.
Qed.

Lemma enum_value_inj v w : enum_value v = enum_value w → v = w.
Proof. intros E1. pose proof (table_at_value v). pose proof (table_at_value w). congruence. Qed.

Lemma to_string_row v : (v, to_string v) ∈ enum_table.
Proof.
  destruct (enum_row v) as [s Hs%list_elem_of_lookup_2]. unfold to_string.
  by rewrite (to_string_lookup_row _ v s) by (done || apply enumerators_distinct).
Qed.

(** [from_string] inverts [to_string] and accepts nothing else. *)
Lemma enum_from_string_spec s v : enum_from_string s = Some v ↔ s = to_string v.
Proof.
  split.
  - intros Hs%from_string_lookup_row. symmetry.
    apply to_string_lookup_row; [apply enumerators_distinct | done].
  - intros ->. apply from_string_lookup_name; [apply names_distinct | apply to_string_row].
Qed.

(** [from_int] inverts the underlying value and accepts nothing else. *)
Lemma from_int_spec z v : from_int z = Some v ↔ z = enum_value v.
Proof.
  unfold from_int, enum_from_int_lookup. pose proof (value_in_table v). split.
  - case_match; [done|]. bool_to_prop. rewrite fmap_Some. intros ([e s] & Hs & ->).
    apply value_of_row in Hs. simpl. lia.
  - intros ->. case_match; bool_to_prop; [|apply table_at_value].
    destruct H1; bool_to_prop; lia.
Qed.

Lemma from_int_value v : from_int (enum_value v) = Some v.
Proof. by apply from_int_spec. Qed.

Lemma enum_value_u8 v : 0 <= enum_value v < 256.
Proof. pose proof (value_in_table v). pose proof (table_fits_u8 (E := E)). lia. Qed.

Lemma from_int_None z :
  from_int (E := E) z = None ↔ z < 0 ∨ Z.of_nat (length (enum_table (E := E))) <= z.
Proof.
  unfold from_int, enum_from_int_lookup. case_match; bool_to_prop.
  - split; [|done]. intros _. destruct H1; bool_to_prop; lia.
  - rewrite fmap_None, lookup_ge_None. lia.
Qed.
End laws.

#[export] Hint Resolve from_int_value : fabric.
