(* ===== verification/Model.v ===== *)
(** The value model (include/replicafabric/core/capability.hpp, compatibility.hpp,
    policies.hpp, time.hpp, include/replicafabric/model/*.hpp and the audit records of
    core/replica_set_controller.hpp).

    Each C++ struct is a record with the struct's fields in order (a primitive one
    where the code updates fields in place); the projection of field [f] carries a short prefix naming its struct.  [default_X] is
    the struct's default member initialisers, [wf_X] says every number fits the
    width its field is declared with (and doubles are finite).  A [double] is kept
    as its 64 bits: the model never does arithmetic on the ones stored here. *)

From S2P Require Import Prelude Identity Enums.

Abbreviation uint32_t := Z (only parsing).
Abbreviation uint64_t := Z (only parsing).
Abbreviation int32_t := Z (only parsing).
Abbreviation MonotonicNs := Z (only parsing).
Abbreviation WallNs := Z (only parsing).
Abbreviation double := Z (only parsing).

(** [std::isnan(d) || std::isinf(d)] on the bits: the exponent field is all ones. *)
Definition f64_nan_or_inf (bits : double) : bool :=
  Z.land (Z.shiftr bits 52) 0x7FF =? 0x7FF.
Definition wf_f64 (bits : double) : Prop := in_u64 bits ∧ f64_nan_or_inf bits = false.

(** [ComputeCapability]: an SM-style major.minor pair. *)
Record ComputeCapability := mkComputeCapability {
  cc_major : int32_t;
  cc_minor : int32_t;
}.
Definition default_ComputeCapability : ComputeCapability := {|
  cc_major := 0; cc_minor := 0
|}.
Definition wf_ComputeCapability (x : ComputeCapability) : Prop :=
  in_i32 (cc_major x) ∧ in_i32 (cc_minor x).
#[global] Instance ComputeCapability_eq_dec : EqDecision ComputeCapability.
Proof. solve_decision. Defined.

(** [operator<] and [operator<=] of [ComputeCapability]. *)
Definition cc_ltb (a b : ComputeCapability) : bool :=
  if negb (cc_major a =? cc_major b) then cc_major a <? cc_major b else cc_minor a <? cc_minor b.
Definition cc_leb (a b : ComputeCapability) : bool := negb (cc_ltb b a).

(** [BackendCapability]. *)
Record BackendCapability := mkBackendCapability {
  bc_kind : BackendKind;
  bc_name : string;
  bc_compute : ComputeCapability;
  bc_numeric : NumericMode;
}.
Definition default_BackendCapability : BackendCapability := {|
  bc_kind := BackendKind.NONE; bc_name := EmptyString;
  bc_compute := default_ComputeCapability; bc_numeric := NumericMode.UNKNOWN
|}.
Definition wf_BackendCapability (x : BackendCapability) : Prop :=
  wf_ComputeCapability (bc_compute x).
#[global] Instance BackendCapability_eq_dec : EqDecision BackendCapability.
Proof. solve_decision. Defined.

(** [DeviceCapability]. *)
Record DeviceCapability := mkDeviceCapability {
  dc_kind : AcceleratorKind;
  dc_device_id : string;
  dc_compute : ComputeCapability;
  dc_memory_bytes : uint64_t;
}.
Definition default_DeviceCapability : DeviceCapability := {|
  dc_kind := AcceleratorKind.NONE; dc_device_id := EmptyString;
  dc_compute := default_ComputeCapability; dc_memory_bytes := 0
|}.
Definition wf_DeviceCapability (x : DeviceCapability) : Prop :=
  wf_ComputeCapability (dc_compute x) ∧ in_u64 (dc_memory_bytes x).
#[global] Instance DeviceCapability_eq_dec : EqDecision DeviceCapability.
Proof. solve_decision. Defined.

(** [ResourceInventory]. *)
Record ResourceInventory := mkResourceInventory {
  ri_total_memory_bytes : uint64_t;
  ri_free_memory_bytes : uint64_t;
  ri_accelerator_count : int32_t;
  ri_devices : list DeviceCapability;
  ri_backends : list BackendCapability;
}.
Definition default_ResourceInventory : ResourceInventory := {|
  ri_total_memory_bytes := 0; ri_free_memory_bytes := 0; ri_accelerator_count := 0;
  ri_devices := []; ri_backends := []
|}.
Definition wf_ResourceInventory (x : ResourceInventory) : Prop :=
  in_u64 (ri_total_memory_bytes x) ∧ in_u64 (ri_free_memory_bytes x) ∧
  in_i32 (ri_accelerator_count x) ∧ Forall wf_DeviceCapability (ri_devices x) ∧
  Forall wf_BackendCapability (ri_backends x).
#[global] Instance ResourceInventory_eq_dec : EqDecision ResourceInventory.
Proof. solve_decision. Defined.

(** [CompatibilityRequirements]: what a set requires of its replicas. *)
Record CompatibilityRequirements := mkCompatibilityRequirements {
  cq_model_id : ModelId;
  cq_model_revision : string;
  cq_tokenizer_vocab : string;
  cq_required_adapters : list string;
  cq_backend : BackendKind;
  cq_runtime_name : string;
  cq_architecture : string;
  cq_min_compute : ComputeCapability;
  cq_numeric_mode : NumericMode;
  cq_artifact_generation : ArtifactGeneration;
  cq_kernel_abi : string;
  cq_policy_fingerprint : string;
}.
Definition default_CompatibilityRequirements : CompatibilityRequirements := {|
  cq_model_id := null; cq_model_revision := EmptyString; cq_tokenizer_vocab := EmptyString;
  cq_required_adapters := []; cq_backend := BackendKind.NONE;
  cq_runtime_name := EmptyString; cq_architecture := EmptyString;
  cq_min_compute := default_ComputeCapability; cq_numeric_mode := NumericMode.UNKNOWN;
  cq_artifact_generation := null; cq_kernel_abi := EmptyString;
  cq_policy_fingerprint := EmptyString
|}.
Definition wf_CompatibilityRequirements (x : CompatibilityRequirements) : Prop :=
  wf_id (cq_model_id x) ∧ wf_ComputeCapability (cq_min_compute x) ∧
  wf_id (cq_artifact_generation x).
#[global] Instance CompatibilityRequirements_eq_dec : EqDecision CompatibilityRequirements.
Proof. solve_decision. Defined.

(** [ReplicaCompatibility]: what a replica declares. *)
Record ReplicaCompatibility := mkReplicaCompatibility {
  cr_model_id : ModelId;
  cr_model_revision : string;
  cr_tokenizer_vocab : string;
  cr_adapters : list string;
  cr_backend : BackendKind;
  cr_runtime_name : string;
  cr_architecture : string;
  cr_compute : ComputeCapability;
  cr_numeric_mode : NumericMode;
  cr_artifact_generation : ArtifactGeneration;
  cr_kernel_abi : string;
  cr_policy_fingerprint : string;
}.
Definition default_ReplicaCompatibility : ReplicaCompatibility := {|
  cr_model_id := null; cr_model_revision := EmptyString; cr_tokenizer_vocab := EmptyString;
  cr_adapters := []; cr_backend := BackendKind.NONE; cr_runtime_name := EmptyString;
  cr_architecture := EmptyString; cr_compute := default_ComputeCapability;
  cr_numeric_mode := NumericMode.UNKNOWN; cr_artifact_generation := null;
  cr_kernel_abi := EmptyString; cr_policy_fingerprint := EmptyString
|}.
Definition wf_ReplicaCompatibility (x : ReplicaCompatibility) : Prop :=
  wf_id (cr_model_id x) ∧ wf_ComputeCapability (cr_compute x) ∧
  wf_id (cr_artifact_generation x).
#[global] Instance ReplicaCompatibility_eq_dec : EqDecision ReplicaCompatibility.
Proof. solve_decision. Defined.

(** [HealthPolicy]. *)
Record HealthPolicy := mkHealthPolicy {
  hp_enabled : bool;
  hp_expected_interval_ns : uint64_t;
  hp_stale_after_ns : uint64_t;
  hp_degrade_after_ns : uint64_t;
  hp_unhealthy_after_misses : uint32_t;
  hp_quarantine_after_failures : uint32_t;
  hp_min_healthy_observations : uint32_t;
  hp_health_threshold : double;
  hp_initial : HealthState;
}.
Definition default_HealthPolicy : HealthPolicy := {|
  hp_enabled := true; hp_expected_interval_ns := 0; hp_stale_after_ns := 5000000000;
  hp_degrade_after_ns := 0; hp_unhealthy_after_misses := 3;
  hp_quarantine_after_failures := 3; hp_min_healthy_observations := 1;
  hp_health_threshold := 0x3FE0000000000000; hp_initial := HealthState.STARTING
|}.
Definition wf_HealthPolicy (x : HealthPolicy) : Prop :=
  in_u64 (hp_expected_interval_ns x) ∧ in_u64 (hp_stale_after_ns x) ∧
  in_u64 (hp_degrade_after_ns x) ∧ in_u32 (hp_unhealthy_after_misses x) ∧
  in_u32 (hp_quarantine_after_failures x) ∧ in_u32 (hp_min_healthy_observations x) ∧
  wf_f64 (hp_health_threshold x).

(** [WarmingPolicy]. *)
Record WarmingPolicy := mkWarmingPolicy {
  wp_enabled : bool;
  wp_require_artifact_loaded : bool;
  wp_require_weights_resident : bool;
  wp_require_adapters_active : bool;
  wp_require_kernel_init : bool;
  wp_require_graph_init : bool;
  wp_require_allocator_init : bool;
  wp_require_device_context : bool;
  wp_require_bounded_warmup : bool;
  wp_require_endpoint : bool;
  wp_warmup_work_steps : uint64_t;
  wp_warmup_timeout_ns : uint64_t;
}.
Definition default_WarmingPolicy : WarmingPolicy := {|
  wp_enabled := true; wp_require_artifact_loaded := true;
  wp_require_weights_resident := true; wp_require_adapters_active := true;
  wp_require_kernel_init := true; wp_require_graph_init := true;
  wp_require_allocator_init := true; wp_require_device_context := true;
  wp_require_bounded_warmup := true; wp_require_endpoint := true;
  wp_warmup_work_steps := 0; wp_warmup_timeout_ns := 30000000000
|}.
Definition wf_WarmingPolicy (x : WarmingPolicy) : Prop :=
  in_u64 (wp_warmup_work_steps x) ∧ in_u64 (wp_warmup_timeout_ns x).
#[global] Instance WarmingPolicy_eq_dec : EqDecision WarmingPolicy.
Proof. solve_decision. Defined.

(** [DrainingPolicy]. *)
Record DrainingPolicy := mkDrainingPolicy {
  dp_reject_new_work : bool;
  dp_allow_existing_to_finish : bool;
  dp_allow_force_cancel : bool;
  dp_grace_period_ns : uint64_t;
  dp_force_cancel_after_ns : uint64_t;
}.
Definition default_DrainingPolicy : DrainingPolicy := {|
  dp_reject_new_work := true; dp_allow_existing_to_finish := true;
  dp_allow_force_cancel := false; dp_grace_period_ns := 30000000000;
  dp_force_cancel_after_ns := 0
|}.
Definition wf_DrainingPolicy (x : DrainingPolicy) : Prop :=
  in_u64 (dp_grace_period_ns x) ∧ in_u64 (dp_force_cancel_after_ns x).
#[global] Instance DrainingPolicy_eq_dec : EqDecision DrainingPolicy.
Proof. solve_decision. Defined.

(** [PromotionPolicy]. *)
Record PromotionPolicy := mkPromotionPolicy {
  pp_require_ready : bool;
  pp_require_healthy : bool;
  pp_min_health : HealthState;
  pp_require_compatible : bool;
  pp_require_placement_valid : bool;
  pp_require_resources : bool;
  pp_require_authority_current : bool;
  pp_allow_canary : bool;
  pp_auto_promote_standby : bool;
}.
Definition default_PromotionPolicy : PromotionPolicy := {|
  pp_require_ready := true; pp_require_healthy := true;
  pp_min_health := HealthState.HEALTHY; pp_require_compatible := true;
  pp_require_placement_valid := true; pp_require_resources := true;
  pp_require_authority_current := true; pp_allow_canary := false;
  pp_auto_promote_standby := true
|}.
Definition wf_PromotionPolicy (x : PromotionPolicy) : Prop :=
  True.
#[global] Instance PromotionPolicy_eq_dec : EqDecision PromotionPolicy.
Proof. solve_decision. Defined.

(** [FailoverPolicy]. *)
Record FailoverPolicy := mkFailoverPolicy {
  fp_require_diversity : bool;
  fp_prefer_standby_first : bool;
  fp_max_attempts : uint32_t;
  fp_preserve_generation : bool;
  fp_reject_ambiguous_outcome : bool;
}.
Definition default_FailoverPolicy : FailoverPolicy := {|
  fp_require_diversity := true; fp_prefer_standby_first := true; fp_max_attempts := 1;
  fp_preserve_generation := true; fp_reject_ambiguous_outcome := false
|}.
Definition wf_FailoverPolicy (x : FailoverPolicy) : Prop :=
  in_u32 (fp_max_attempts x).
#[global] Instance FailoverPolicy_eq_dec : EqDecision FailoverPolicy.
Proof. solve_decision. Defined.

(** [PolicyBundle]. *)
Record PolicyBundle := mkPolicyBundle {
  pb_health : HealthPolicy;
  pb_warming : WarmingPolicy;
  pb_draining : DrainingPolicy;
  pb_promotion : PromotionPolicy;
  pb_failover : FailoverPolicy;
}.
Definition default_PolicyBundle : PolicyBundle := {|
  pb_health := default_HealthPolicy; pb_warming := default_WarmingPolicy;
  pb_draining := default_DrainingPolicy; pb_promotion := default_PromotionPolicy;
  pb_failover := default_FailoverPolicy
|}.
Definition wf_PolicyBundle (x : PolicyBundle) : Prop :=
  wf_HealthPolicy (pb_health x) ∧ wf_WarmingPolicy (pb_warming x) ∧
  wf_DrainingPolicy (pb_draining x) ∧ wf_PromotionPolicy (pb_promotion x) ∧
  wf_FailoverPolicy (pb_failover x).

(** [HealthEvidence]: one observation. *)
Record HealthEvidence := mkHealthEvidence {
  he_state : HealthState;
  he_kind : HealthEvidenceKind;
  he_source : string;
  he_observed_at_mono : MonotonicNs;
  he_observed_at_wall : WallNs;
  he_freshness_ns : uint64_t;
  he_confidence : double;
  he_generation : HealthGeneration;
  he_message : string;
}.
Definition default_HealthEvidence : HealthEvidence := {|
  he_state := HealthState.UNKNOWN; he_kind := HealthEvidenceKind.UNKNOWN;
  he_source := EmptyString; he_observed_at_mono := 0; he_observed_at_wall := 0;
  he_freshness_ns := 0; he_confidence := 0; he_generation := null;
  he_message := EmptyString
|}.
Definition wf_HealthEvidence (x : HealthEvidence) : Prop :=
  in_u64 (he_observed_at_mono x) ∧ in_i64 (he_observed_at_wall x) ∧
  in_u64 (he_freshness_ns x) ∧ wf_f64 (he_confidence x) ∧ wf_id (he_generation x).

(** [HealthRecord]: the stored health state with its provenance. *)
Set Primitive Projections.
Record HealthRecord := mkHealthRecord {
  hr_state : HealthState;
  hr_kind : HealthEvidenceKind;
  hr_source : string;
  hr_updated_at_mono : MonotonicNs;
  hr_updated_at_wall : WallNs;
  hr_confidence : double;
  hr_generation : HealthGeneration;
  hr_reason : string;
  hr_consecutive_stale : uint32_t;
  hr_consecutive_failures : uint32_t;
}.
Unset Primitive Projections.
Definition default_HealthRecord : HealthRecord := {|
  hr_state := HealthState.UNKNOWN; hr_kind := HealthEvidenceKind.UNKNOWN;
  hr_source := EmptyString; hr_updated_at_mono := 0; hr_updated_at_wall := 0;
  hr_confidence := 0; hr_generation := null; hr_reason := EmptyString;
  hr_consecutive_stale := 0; hr_consecutive_failures := 0
|}.
Definition wf_HealthRecord (x : HealthRecord) : Prop :=
  in_u64 (hr_updated_at_mono x) ∧ in_i64 (hr_updated_at_wall x) ∧
  wf_f64 (hr_confidence x) ∧ wf_id (hr_generation x) ∧ in_u32 (hr_consecutive_stale x) ∧
  in_u32 (hr_consecutive_failures x).
#[global] Instance set_hr_state : Setter hr_state.
Proof. mk_setter. Defined.
#[global] Instance set_hr_kind : Setter hr_kind.
Proof. mk_setter. Defined.
#[global] Instance set_hr_source : Setter hr_source.
Proof. mk_setter. Defined.
#[global] Instance set_hr_updated_at_mono : Setter hr_updated_at_mono.
Proof. mk_setter. Defined.
#[global] Instance set_hr_updated_at_wall : Setter hr_updated_at_wall.
Proof. mk_setter. Defined.
#[global] Instance set_hr_confidence : Setter hr_confidence.
Proof. mk_setter. Defined.
#[global] Instance set_hr_generation : Setter hr_generation.
Proof. mk_setter. Defined.
#[global] Instance set_hr_reason : Setter hr_reason.
Proof. mk_setter. Defined.
#[global] Instance set_hr_consecutive_failures : Setter hr_consecutive_failures.
Proof. mk_setter. Defined.

(** [ReadinessFactors]. *)
Record ReadinessFactors := mkReadinessFactors {
  rf_model_loaded : bool;
  rf_artifact_validated : bool;
  rf_adapters_present : bool;
  rf_kernel_prepared : bool;
  rf_graph_prepared : bool;
  rf_memory_available : bool;
  rf_device_context_initialized : bool;
  rf_warmup_complete : bool;
  rf_dependencies_ready : bool;
  rf_endpoint_registered : bool;
  rf_policy_current : bool;
}.
Definition default_ReadinessFactors : ReadinessFactors := {|
  rf_model_loaded := false; rf_artifact_validated := false; rf_adapters_present := false;
  rf_kernel_prepared := false; rf_graph_prepared := false; rf_memory_available := false;
  rf_device_context_initialized := false; rf_warmup_complete := false;
  rf_dependencies_ready := false; rf_endpoint_registered := false;
  rf_policy_current := false
|}.
Definition wf_ReadinessFactors (x : ReadinessFactors) : Prop :=
  True.
#[global] Instance ReadinessFactors_eq_dec : EqDecision ReadinessFactors.
Proof. solve_decision. Defined.

(** [ReadinessFactors::all_set]. *)
Definition all_set (x : ReadinessFactors) : bool :=
  rf_model_loaded x && rf_artifact_validated x && rf_adapters_present x && rf_kernel_prepared x &&
  rf_graph_prepared x && rf_memory_available x && rf_device_context_initialized x &&
  rf_warmup_complete x && rf_dependencies_ready x && rf_endpoint_registered x && rf_policy_current x.

(** [ReadinessRecord]. *)
Record ReadinessRecord := mkReadinessRecord {
  rr_state : ReadinessState;
  rr_factors : ReadinessFactors;
  rr_updated_at_mono : MonotonicNs;
  rr_updated_at_wall : WallNs;
  rr_reason : string;
}.
Definition default_ReadinessRecord : ReadinessRecord := {|
  rr_state := ReadinessState.UNKNOWN; rr_factors := default_ReadinessFactors;
  rr_updated_at_mono := 0; rr_updated_at_wall := 0; rr_reason := EmptyString
|}.
Definition wf_ReadinessRecord (x : ReadinessRecord) : Prop :=
  wf_ReadinessFactors (rr_factors x) ∧ in_u64 (rr_updated_at_mono x) ∧
  in_i64 (rr_updated_at_wall x).
#[global] Instance ReadinessRecord_eq_dec : EqDecision ReadinessRecord.
Proof. solve_decision. Defined.

(** [WarmingRecord]. *)
Set Primitive Projections.
Record WarmingRecord := mkWarmingRecord {
  wr_state : WarmthState;
  wr_steps_completed : uint64_t;
  wr_steps_required : uint64_t;
  wr_artifact_loading_done : bool;
  wr_weights_resident : bool;
  wr_adapters_active : bool;
  wr_kernel_init_done : bool;
  wr_graph_init_done : bool;
  wr_allocator_init_done : bool;
  wr_device_context_done : bool;
  wr_warmup_execution_done : bool;
  wr_endpoint_registered : bool;
  wr_started_warming_mono : MonotonicNs;
  wr_became_warm_mono : MonotonicNs;
  wr_became_warm_wall : WallNs;
  wr_message : string;
}.
Unset Primitive Projections.
Definition default_WarmingRecord : WarmingRecord := {|
  wr_state := WarmthState.COLD; wr_steps_completed := 0; wr_steps_required := 0;
  wr_artifact_loading_done := false; wr_weights_resident := false;
  wr_adapters_active := false; wr_kernel_init_done := false; wr_graph_init_done := false;
  wr_allocator_init_done := false; wr_device_context_done := false;
  wr_warmup_execution_done := false; wr_endpoint_registered := false;
  wr_started_warming_mono := 0; wr_became_warm_mono := 0; wr_became_warm_wall := 0;
  wr_message := EmptyString
|}.
Definition wf_WarmingRecord (x : WarmingRecord) : Prop :=
  in_u64 (wr_steps_completed x) ∧ in_u64 (wr_steps_required x) ∧
  in_u64 (wr_started_warming_mono x) ∧ in_u64 (wr_became_warm_mono x) ∧
  in_i64 (wr_became_warm_wall x).
#[global] Instance WarmingRecord_eq_dec : EqDecision WarmingRecord.
Proof. solve_decision. Defined.
#[global] Instance set_wr_started_warming_mono : Setter wr_started_warming_mono.
Proof. mk_setter. Defined.

(** [SyntheticFailureDomain]. *)
Record SyntheticFailureDomain := mkSyntheticFailureDomain {
  sd_label : string;
  sd_kind : string;
}.
Definition default_SyntheticFailureDomain : SyntheticFailureDomain := {|
  sd_label := EmptyString; sd_kind := EmptyString
|}.
Definition wf_SyntheticFailureDomain (x : SyntheticFailureDomain) : Prop :=
  True.
#[global] Instance SyntheticFailureDomain_eq_dec : EqDecision SyntheticFailureDomain.
Proof. solve_decision. Defined.

(** [PlacementPolicy]. *)
Record PlacementPolicy := mkPlacementPolicy {
  pl_anti_affinity_domains : list string;
  pl_synthetic_domains : list SyntheticFailureDomain;
  pl_require_diversity : bool;
  pl_preferred_host : string;
  pl_preferred_numa : string;
  pl_preferred_device : string;
  pl_preferred_failure_domain : string;
  pl_tie_break_strategy : uint32_t;
}.
Definition default_PlacementPolicy : PlacementPolicy := {|
  pl_anti_affinity_domains := []; pl_synthetic_domains := []; pl_require_diversity := true;
  pl_preferred_host := EmptyString; pl_preferred_numa := EmptyString;
  pl_preferred_device := EmptyString; pl_preferred_failure_domain := EmptyString;
  pl_tie_break_strategy := 0
|}.
Definition wf_PlacementPolicy (x : PlacementPolicy) : Prop :=
  in_u32 (pl_tie_break_strategy x).
#[global] Instance PlacementPolicy_eq_dec : EqDecision PlacementPolicy.
Proof. solve_decision. Defined.

(** [ReplicaState]: one live runtime instance. *)
Set Primitive Projections.
Record ReplicaState := mkReplicaState {
  r_id : ReplicaId;
  r_set_id : ReplicaSetId;
  r_generation : ReplicaGeneration;
  r_node_id : NodeId;
  r_worker_id : WorkerId;
  r_boot_id : WorkerBootId;
  r_artifact_id : ArtifactId;
  r_artifact_generation : ArtifactGeneration;
  r_backend : BackendKind;
  r_backend_identity : string;
  r_device_identity : string;
  r_accelerator : AcceleratorKind;
  r_compute_capability : ComputeCapability;
  r_memory_residency : MemoryResidencyState;
  r_warmth : WarmthState;
  r_readiness : ReadinessState;
  r_health : HealthState;
  r_lifecycle : ReplicaLifecycle;
  r_placement_id : PlacementId;
  r_placement : PlacementState;
  r_promotion : PromotionState;
  r_role : ReplicaRole;
  r_serving_eligible : bool;
  r_active_requests : uint64_t;
  r_reserved_capacity : uint64_t;
  r_capacity_total : uint64_t;
  r_start_time_mono : MonotonicNs;
  r_start_time_wall : WallNs;
  r_health_record : HealthRecord;
  r_readiness_record : ReadinessRecord;
  r_warming_record : WarmingRecord;
  r_coordinator_epoch : CoordinatorEpoch;
  r_set_generation : ReplicaSetGeneration;
  r_health_generation : HealthGeneration;
  r_policy_generation : PolicyGeneration;
  r_policy_fingerprint : string;
  r_compatibility : ReplicaCompatibility;
}.
Unset Primitive Projections.
Definition default_ReplicaState : ReplicaState := {|
  r_id := null; r_set_id := null; r_generation := null; r_node_id := null;
  r_worker_id := null; r_boot_id := null; r_artifact_id := null;
  r_artifact_generation := null; r_backend := BackendKind.NONE;
  r_backend_identity := EmptyString; r_device_identity := EmptyString;
  r_accelerator := AcceleratorKind.NONE; r_compute_capability := default_ComputeCapability;
  r_memory_residency := MemoryResidencyState.UNKNOWN; r_warmth := WarmthState.COLD;
  r_readiness := ReadinessState.UNKNOWN; r_health := HealthState.UNKNOWN;
  r_lifecycle := ReplicaLifecycle.DECLARED; r_placement_id := null;
  r_placement := PlacementState.PENDING; r_promotion := PromotionState.NOT_PROMOTED;
  r_role := ReplicaRole.NONE; r_serving_eligible := false; r_active_requests := 0;
  r_reserved_capacity := 0; r_capacity_total := 0; r_start_time_mono := 0;
  r_start_time_wall := 0; r_health_record := default_HealthRecord;
  r_readiness_record := default_ReadinessRecord; r_warming_record := default_WarmingRecord;
  r_coordinator_epoch := null; r_set_generation := null; r_health_generation := null;
  r_policy_generation := null; r_policy_fingerprint := EmptyString;
  r_compatibility := default_ReplicaCompatibility
|}.
Definition wf_ReplicaState (x : ReplicaState) : Prop :=
  wf_id (r_id x) ∧ wf_id (r_set_id x) ∧ wf_id (r_generation x) ∧ wf_id (r_node_id x) ∧
  wf_id (r_worker_id x) ∧ wf_id (r_boot_id x) ∧ wf_id (r_artifact_id x) ∧
  wf_id (r_artifact_generation x) ∧ wf_ComputeCapability (r_compute_capability x) ∧
  wf_id (r_placement_id x) ∧ in_u64 (r_active_requests x) ∧
  in_u64 (r_reserved_capacity x) ∧ in_u64 (r_capacity_total x) ∧
  in_u64 (r_start_time_mono x) ∧ in_i64 (r_start_time_wall x) ∧
  wf_HealthRecord (r_health_record x) ∧ wf_ReadinessRecord (r_readiness_record x) ∧
  wf_WarmingRecord (r_warming_record x) ∧ wf_id (r_coordinator_epoch x) ∧
  wf_id (r_set_generation x) ∧ wf_id (r_health_generation x) ∧
  wf_id (r_policy_generation x) ∧ wf_ReplicaCompatibility (r_compatibility x).
#[global] Instance set_r_id : Setter r_id.
Proof. mk_setter. Defined.
#[global] Instance set_r_set_id : Setter r_set_id.
Proof. mk_setter. Defined.
#[global] Instance set_r_generation : Setter r_generation.
Proof. mk_setter. Defined.
#[global] Instance set_r_node_id : Setter r_node_id.
Proof. mk_setter. Defined.
#[global] Instance set_r_worker_id : Setter r_worker_id.
Proof. mk_setter. Defined.
#[global] Instance set_r_boot_id : Setter r_boot_id.
Proof. mk_setter. Defined.
#[global] Instance set_r_artifact_id : Setter r_artifact_id.
Proof. mk_setter. Defined.
#[global] Instance set_r_artifact_generation : Setter r_artifact_generation.
Proof. mk_setter. Defined.
#[global] Instance set_r_backend : Setter r_backend.
Proof. mk_setter. Defined.
#[global] Instance set_r_backend_identity : Setter r_backend_identity.
Proof. mk_setter. Defined.
#[global] Instance set_r_device_identity : Setter r_device_identity.
Proof. mk_setter. Defined.
#[global] Instance set_r_accelerator : Setter r_accelerator.
Proof. mk_setter. Defined.
#[global] Instance set_r_compute_capability : Setter r_compute_capability.
Proof. mk_setter. Defined.
#[global] Instance set_r_capacity_total : Setter r_capacity_total.
Proof. mk_setter. Defined.
#[global] Instance set_r_start_time_mono : Setter r_start_time_mono.
Proof. mk_setter. Defined.
#[global] Instance set_r_start_time_wall : Setter r_start_time_wall.
Proof. mk_setter. Defined.
#[global] Instance set_r_coordinator_epoch : Setter r_coordinator_epoch.
Proof. mk_setter. Defined.
#[global] Instance set_r_set_generation : Setter r_set_generation.
Proof. mk_setter. Defined.
#[global] Instance set_r_policy_generation : Setter r_policy_generation.
Proof. mk_setter. Defined.
#[global] Instance set_r_policy_fingerprint : Setter r_policy_fingerprint.
Proof. mk_setter. Defined.
#[global] Instance set_r_compatibility : Setter r_compatibility.
Proof. mk_setter. Defined.
#[global] Instance set_r_memory_residency : Setter r_memory_residency.
Proof. mk_setter. Defined.
#[global] Instance set_r_warmth : Setter r_warmth.
Proof. mk_setter. Defined.
#[global] Instance set_r_readiness : Setter r_readiness.
Proof. mk_setter. Defined.
#[global] Instance set_r_health : Setter r_health.
Proof. mk_setter. Defined.
#[global] Instance set_r_lifecycle : Setter r_lifecycle.
Proof. mk_setter. Defined.
#[global] Instance set_r_placement_id : Setter r_placement_id.
Proof. mk_setter. Defined.
#[global] Instance set_r_placement : Setter r_placement.
Proof. mk_setter. Defined.
#[global] Instance set_r_promotion : Setter r_promotion.
Proof. mk_setter. Defined.
#[global] Instance set_r_role : Setter r_role.
Proof. mk_setter. Defined.
#[global] Instance set_r_serving_eligible : Setter r_serving_eligible.
Proof. mk_setter. Defined.
#[global] Instance set_r_active_requests : Setter r_active_requests.
Proof. mk_setter. Defined.
#[global] Instance set_r_reserved_capacity : Setter r_reserved_capacity.
Proof. mk_setter. Defined.
#[global] Instance set_r_health_record : Setter r_health_record.
Proof. mk_setter. Defined.
#[global] Instance set_r_readiness_record : Setter r_readiness_record.
Proof. mk_setter. Defined.
#[global] Instance set_r_warming_record : Setter r_warming_record.
Proof. mk_setter. Defined.
#[global] Instance set_r_health_generation : Setter r_health_generation.
Proof. mk_setter. Defined.

(** [ReplicaSetState]: the unit of a logical service. *)
Set Primitive Projections.
Record ReplicaSetState := mkReplicaSetState {
  s_id : ReplicaSetId;
  s_model_id : ModelId;
  s_workload_id : WorkloadId;
  s_tenant_id : TenantId;
  s_desired_count : uint32_t;
  s_min_healthy : uint32_t;
  s_max_replicas : uint32_t;
  s_artifact_id : ArtifactId;
  s_artifact_generation : ArtifactGeneration;
  s_generation : ReplicaSetGeneration;
  s_policy_generation : PolicyGeneration;
  s_lifecycle : ReplicaSetLifecycle;
  s_compatibility : CompatibilityRequirements;
  s_policies : PolicyBundle;
  s_placement_policy : PlacementPolicy;
  s_backend : BackendKind;
  s_runtime_name : string;
  s_min_compute : ComputeCapability;
  s_memory_requirement_bytes : uint64_t;
  s_accelerator_requirement : uint32_t;
}.
Unset Primitive Projections.
Definition default_ReplicaSetState : ReplicaSetState := {|
  s_id := null; s_model_id := null; s_workload_id := null; s_tenant_id := null;
  s_desired_count := 1; s_min_healthy := 1; s_max_replicas := 1; s_artifact_id := null;
  s_artifact_generation := null; s_generation := null; s_policy_generation := null;
  s_lifecycle := ReplicaSetLifecycle.CREATED;
  s_compatibility := default_CompatibilityRequirements; s_policies := default_PolicyBundle;
  s_placement_policy := default_PlacementPolicy; s_backend := BackendKind.NONE;
  s_runtime_name := EmptyString; s_min_compute := default_ComputeCapability;
  s_memory_requirement_bytes := 0; s_accelerator_requirement := 0
|}.
Definition wf_ReplicaSetState (x : ReplicaSetState) : Prop :=
  wf_id (s_id x) ∧ wf_id (s_model_id x) ∧ wf_id (s_workload_id x) ∧ wf_id (s_tenant_id x) ∧
  in_u32 (s_desired_count x) ∧ in_u32 (s_min_healthy x) ∧ in_u32 (s_max_replicas x) ∧
  wf_id (s_artifact_id x) ∧ wf_id (s_artifact_generation x) ∧ wf_id (s_generation x) ∧
  wf_id (s_policy_generation x) ∧ wf_CompatibilityRequirements (s_compatibility x) ∧
  wf_PolicyBundle (s_policies x) ∧ wf_PlacementPolicy (s_placement_policy x) ∧
  wf_ComputeCapability (s_min_compute x) ∧ in_u64 (s_memory_requirement_bytes x) ∧
  in_u32 (s_accelerator_requirement x).
#[global] Instance set_s_lifecycle : Setter s_lifecycle.
Proof. mk_setter. Defined.

(** [WorkerRegistration]. *)
Record WorkerRegistration := mkWorkerRegistration {
  w_worker_id : WorkerId;
  w_boot_id : WorkerBootId;
  w_node_id : NodeId;
  w_inventory : ResourceInventory;
  w_hosted_set_generation : ReplicaSetGeneration;
  w_protocol_version : uint32_t;
}.
Definition default_WorkerRegistration : WorkerRegistration := {|
  w_worker_id := null; w_boot_id := null; w_node_id := null;
  w_inventory := default_ResourceInventory; w_hosted_set_generation := null;
  w_protocol_version := 0
|}.
Definition wf_WorkerRegistration (x : WorkerRegistration) : Prop :=
  wf_id (w_worker_id x) ∧ wf_id (w_boot_id x) ∧ wf_id (w_node_id x) ∧
  wf_ResourceInventory (w_inventory x) ∧ wf_id (w_hosted_set_generation x) ∧
  in_u32 (w_protocol_version x).
#[global] Instance WorkerRegistration_eq_dec : EqDecision WorkerRegistration.
Proof. solve_decision. Defined.

(** [PromotionRecord]. *)
Record PromotionRecord := mkPromotionRecord {
  p_id : PromotionId;
  p_replica_id : ReplicaId;
  p_set_id : ReplicaSetId;
  p_replica_generation : ReplicaGeneration;
  p_set_generation : ReplicaSetGeneration;
  p_epoch : CoordinatorEpoch;
  p_from : PromotionState;
  p_to : PromotionState;
  p_when_mono : MonotonicNs;
  p_when_wall : WallNs;
  p_reason : string;
}.
Definition default_PromotionRecord : PromotionRecord := {|
  p_id := null; p_replica_id := null; p_set_id := null; p_replica_generation := null;
  p_set_generation := null; p_epoch := null; p_from := PromotionState.NOT_PROMOTED;
  p_to := PromotionState.PRIMARY; p_when_mono := 0; p_when_wall := 0;
  p_reason := EmptyString
|}.
Definition wf_PromotionRecord (x : PromotionRecord) : Prop :=
  wf_id (p_id x) ∧ wf_id (p_replica_id x) ∧ wf_id (p_set_id x) ∧
  wf_id (p_replica_generation x) ∧ wf_id (p_set_generation x) ∧ wf_id (p_epoch x) ∧
  in_u64 (p_when_mono x) ∧ in_i64 (p_when_wall x).
#[global] Instance PromotionRecord_eq_dec : EqDecision PromotionRecord.
Proof. solve_decision. Defined.

(** [DrainRecord]. *)
Set Primitive Projections.
Record DrainRecord := mkDrainRecord {
  d_id : DrainId;
  d_replica_id : ReplicaId;
  d_set_id : ReplicaSetId;
  d_state : DrainState;
  d_started_mono : MonotonicNs;
  d_completed_mono : MonotonicNs;
  d_force_cancelled : bool;
  d_quiesced_requests : uint64_t;
  d_reason : string;
}.
Unset Primitive Projections.
Definition default_DrainRecord : DrainRecord := {|
  d_id := null; d_replica_id := null; d_set_id := null; d_state := DrainState.NOT_DRAINING;
  d_started_mono := 0; d_completed_mono := 0; d_force_cancelled := false;
  d_quiesced_requests := 0; d_reason := EmptyString
|}.
Definition wf_DrainRecord (x : DrainRecord) : Prop :=
  wf_id (d_id x) ∧ wf_id (d_replica_id x) ∧ wf_id (d_set_id x) ∧
  in_u64 (d_started_mono x) ∧ in_u64 (d_completed_mono x) ∧ in_u64 (d_quiesced_requests x).
#[global] Instance DrainRecord_eq_dec : EqDecision DrainRecord.
Proof. solve_decision. Defined.
#[global] Instance set_d_state : Setter d_state.
Proof. mk_setter. Defined.
#[global] Instance set_d_completed_mono : Setter d_completed_mono.
Proof. mk_setter. Defined.
#[global] Instance set_d_quiesced_requests : Setter d_quiesced_requests.
Proof. mk_setter. Defined.
#[global] Instance set_d_force_cancelled : Setter d_force_cancelled.
Proof. mk_setter. Defined.

(** [FailoverRecord]. *)
Record FailoverRecord := mkFailoverRecord {
  f_id : FailoverId;
  f_set_id : ReplicaSetId;
  f_failed_replica : ReplicaId;
  f_replacement : ReplicaId;
  f_state : FailoverState;
  f_epoch : CoordinatorEpoch;
  f_started_mono : MonotonicNs;
  f_completed_mono : MonotonicNs;
  f_generation_preserved : bool;
  f_ambiguous_outcomes : list WorkOutcome;
  f_reason : string;
}.
Definition default_FailoverRecord : FailoverRecord := {|
  f_id := null; f_set_id := null; f_failed_replica := null; f_replacement := null;
  f_state := FailoverState.TRIGGERED; f_epoch := null; f_started_mono := 0;
  f_completed_mono := 0; f_generation_preserved := true; f_ambiguous_outcomes := [];
  f_reason := EmptyString
|}.
Definition wf_FailoverRecord (x : FailoverRecord) : Prop :=
  wf_id (f_id x) ∧ wf_id (f_set_id x) ∧ wf_id (f_failed_replica x) ∧
  wf_id (f_replacement x) ∧ wf_id (f_epoch x) ∧ in_u64 (f_started_mono x) ∧
  in_u64 (f_completed_mono x).
#[global] Instance FailoverRecord_eq_dec : EqDecision FailoverRecord.
Proof. solve_decision. Defined.

