(* ===== verification/Transition.v ===== *)
(** Guarded lifecycle transitions (include/replicafabric/authority/transition.hpp).

    The two transition tables as boolean relations, the throwing guards as values
    of a sum, and what can be reached through them. *)

From S2P Require Import Prelude Enums.

(** [can_transition(ReplicaSetLifecycle, ReplicaSetLifecycle)]. *)
Definition can_transition_set (from to : ReplicaSetLifecycle) : bool :=
  match from with
  | ReplicaSetLifecycle.CREATED => bool_decide (to = ReplicaSetLifecycle.PROVISIONING)
  | ReplicaSetLifecycle.PROVISIONING =>
      bool_decide (to = ReplicaSetLifecycle.AVAILABLE) ||
      bool_decide (to = ReplicaSetLifecycle.DEGRADED) ||
      bool_decide (to = ReplicaSetLifecycle.FAILED) ||
      bool_decide (to = ReplicaSetLifecycle.RETIRED)
  | ReplicaSetLifecycle.AVAILABLE =>
      bool_decide (to = ReplicaSetLifecycle.DEGRADED) ||
      bool_decide (to = ReplicaSetLifecycle.DRAINING) ||
      bool_decide (to = ReplicaSetLifecycle.RETIRED)
  | ReplicaSetLifecycle.DEGRADED =>
      bool_decide (to = ReplicaSetLifecycle.AVAILABLE) ||
      bool_decide (to = ReplicaSetLifecycle.DRAINING) ||
      bool_decide (to = ReplicaSetLifecycle.RETIRED) ||
      bool_decide (to = ReplicaSetLifecycle.FAILED)
  | ReplicaSetLifecycle.DRAINING =>
      bool_decide (to = ReplicaSetLifecycle.RETIRED) ||
      bool_decide (to = ReplicaSetLifecycle.AVAILABLE)
  | ReplicaSetLifecycle.RETIRED => false
  | ReplicaSetLifecycle.FAILED => bool_decide (to = ReplicaSetLifecycle.RETIRED)
  end.

(** [can_transition(ReplicaLifecycle, ReplicaLifecycle)]. *)
Definition can_transition (from to : ReplicaLifecycle) : bool :=
  match from with
  | ReplicaLifecycle.DECLARED =>
      bool_decide (to = ReplicaLifecycle.ALLOCATING) ||
      bool_decide (to = ReplicaLifecycle.STARTING) ||
      bool_decide (to = ReplicaLifecycle.FAILED) ||
      bool_decide (to = ReplicaLifecycle.RETIRED)
  | ReplicaLifecycle.ALLOCATING =>
      bool_decide (to = ReplicaLifecycle.STARTING) ||
      bool_decide (to = ReplicaLifecycle.FAILED) ||
      bool_decide (to = ReplicaLifecycle.RETIRED)
  | ReplicaLifecycle.STARTING =>
      bool_decide (to = ReplicaLifecycle.WARMING) ||
      bool_decide (to = ReplicaLifecycle.READY) ||
      bool_decide (to = ReplicaLifecycle.FAILED) ||
      bool_decide (to = ReplicaLifecycle.RETIRED)
  | ReplicaLifecycle.WARMING =>
      bool_decide (to = ReplicaLifecycle.READY) ||
      bool_decide (to = ReplicaLifecycle.STARTING) ||
      bool_decide (to = ReplicaLifecycle.FAILED) ||
      bool_decide (to = ReplicaLifecycle.RETIRED)
  | ReplicaLifecycle.READY =>
      bool_decide (to = ReplicaLifecycle.SERVING) ||
      bool_decide (to = ReplicaLifecycle.WARMING) ||
      bool_decide (to = ReplicaLifecycle.DRAINING) ||
      bool_decide (to = ReplicaLifecycle.FAILED) ||
      bool_decide (to = ReplicaLifecycle.RETIRED)
  | ReplicaLifecycle.SERVING =>
      bool_decide (to = ReplicaLifecycle.READY) ||
      bool_decide (to = ReplicaLifecycle.DRAINING) ||
      bool_decide (to = ReplicaLifecycle.FAILED) ||
      bool_decide (to = ReplicaLifecycle.RETIRED)
  | ReplicaLifecycle.DRAINING =>
      bool_decide (to = ReplicaLifecycle.QUIESCED) ||
      bool_decide (to = ReplicaLifecycle.READY) ||
      bool_decide (to = ReplicaLifecycle.FAILED) ||
      bool_decide (to = ReplicaLifecycle.RETIRED)
  | ReplicaLifecycle.QUIESCED =>
      bool_decide (to = ReplicaLifecycle.RETIRED) ||
      bool_decide (to = ReplicaLifecycle.READY)
  | ReplicaLifecycle.FAILED => bool_decide (to = ReplicaLifecycle.RETIRED)
  | ReplicaLifecycle.RETIRED => false
  end.

(** [guard_transition]: [inl] carries the text of the [StateTransitionError]. *)
Definition guard_transition (from to : ReplicaLifecycle) : string + unit :=
  if negb (can_transition from to)
  then inl ("replica lifecycle transition " ++ to_string from ++ " -> " ++ to_string to ++
            " is not allowed")%string
  else inr tt.

Definition guard_transition_set (from to : ReplicaSetLifecycle) : string + unit :=
  if negb (can_transition_set from to)
  then inl ("replica-set lifecycle transition " ++ to_string from ++ " -> " ++ to_string to ++
            " is not allowed")%string
  else inr tt.

(** The tables as relations, and several moves in a row. *)
Definition lifecycle_step (a b : ReplicaLifecycle) : Prop := can_transition a b = true.
Definition lifecycle_path : relation ReplicaLifecycle := rtc lifecycle_step.
Definition set_lifecycle_step (a b : ReplicaSetLifecycle) : Prop := can_transition_set a b = true.

#[global] Instance lifecycle_step_dec : RelDecision lifecycle_step.
Proof. intros a b. unfold lifecycle_step. apply _. Defined.

(** States after which no operation may give authority back. *)
Definition withdrawn (l : ReplicaLifecycle) : bool :=
  match l with
  | ReplicaLifecycle.FAILED | ReplicaLifecycle.RETIRED => true
  | _ => false
  end.

(** ** Facts about the tables *)

Lemma guard_transition_ok a b : guard_transition a b = inr tt ↔ lifecycle_step a b.
Proof. unfold guard_transition, lifecycle_step. by destruct (can_transition a b). Qed.

(** SERVING is entered only from READY. *)
Lemma serving_only_from_ready a :
  lifecycle_step a ReplicaLifecycle.SERVING ↔ a = ReplicaLifecycle.READY.
Proof. by destruct a. Qed.

(** The states that cannot fail are the three terminal ones. *)
Lemma cannot_fail a :
  can_transition a ReplicaLifecycle.FAILED = false ↔
  a = ReplicaLifecycle.QUIESCED ∨ a = ReplicaLifecycle.FAILED ∨ a = ReplicaLifecycle.RETIRED.
Proof. destruct a; naive_solver. Qed.

Lemma lifecycle_step_irrefl a : ¬ lifecycle_step a a.
Proof. by destruct a. Qed.

(** Once FAILED or RETIRED, the table leads nowhere but RETIRED. *)
Lemma withdrawn_step a b : withdrawn a = true → lifecycle_step a b → withdrawn b = true.
Proof. by destruct a, b. Qed.

Lemma withdrawn_path a b : withdrawn a = true → lifecycle_path a b → withdrawn b = true.
Proof. intros Ha. induction 1; eauto using withdrawn_step. Qed.

(** RETIRED is reachable from everywhere and is the only state without a way out. *)
Lemma retired_reachable a : lifecycle_path a ReplicaLifecycle.RETIRED.
Proof. destruct a; (apply rtc_once; done) || apply rtc_refl. Qed.

Lemma stuck_iff_retired a : (∀ b, ¬ lifecycle_step a b) ↔ a = ReplicaLifecycle.RETIRED.
Proof.
  split; [|by intros -> []]. intros Hs.
  destruct a; try done; exfalso; by apply (Hs ReplicaLifecycle.RETIRED).
Qed.

#[export] Hint Resolve withdrawn_step withdrawn_path : fabric.
