(* ===== verification/Compatibility.v ===== *)
(** Typed compatibility (include/replicafabric/core/compatibility.hpp).

    [check_compatibility] with its list of issues, and the predicate it decides. *)

From S2P Require Import Prelude Identity Enums Model.

Module CompatibilityIssue.
Inductive CompatibilityIssue : Set :=
  | NONE | MODEL_MISMATCH | REVISION_MISMATCH | TOKENIZER_MISMATCH | ADAPTER_MISSING
  | BACKEND_MISMATCH | RUNTIME_MISMATCH | ARCHITECTURE_MISMATCH | COMPUTE_TOO_LOW
  | NUMERIC_MISMATCH | ARTIFACT_GENERATION_MISMATCH | KERNEL_ABI_MISMATCH
  | POLICY_FINGERPRINT_MISMATCH.
End CompatibilityIssue.
Abbreviation CompatibilityIssue := CompatibilityIssue.CompatibilityIssue.
#[global] Instance CompatibilityIssue_eq_dec : EqDecision CompatibilityIssue.
Proof. solve_decision. Defined.

Definition compatibility_issue_str (c : CompatibilityIssue) : string :=
  match c with
  | CompatibilityIssue.NONE => "NONE"
  | CompatibilityIssue.MODEL_MISMATCH => "MODEL_MISMATCH"
  | CompatibilityIssue.REVISION_MISMATCH => "REVISION_MISMATCH"
  | CompatibilityIssue.TOKENIZER_MISMATCH => "TOKENIZER_MISMATCH"
  | CompatibilityIssue.ADAPTER_MISSING => "ADAPTER_MISSING"
  | CompatibilityIssue.BACKEND_MISMATCH => "BACKEND_MISMATCH"
  | CompatibilityIssue.RUNTIME_MISMATCH => "RUNTIME_MISMATCH"
  | CompatibilityIssue.ARCHITECTURE_MISMATCH => "ARCHITECTURE_MISMATCH"
  | CompatibilityIssue.COMPUTE_TOO_LOW => "COMPUTE_TOO_LOW"
  | CompatibilityIssue.NUMERIC_MISMATCH => "NUMERIC_MISMATCH"
  | CompatibilityIssue.ARTIFACT_GENERATION_MISMATCH => "ARTIFACT_GENERATION_MISMATCH"
  | CompatibilityIssue.KERNEL_ABI_MISMATCH => "KERNEL_ABI_MISMATCH"
  | CompatibilityIssue.POLICY_FINGERPRINT_MISMATCH => "POLICY_FINGERPRINT_MISMATCH"
  end.

Record CompatibilityResult := mkCompatibilityResult {
  compatible : bool;
  issues : list CompatibilityIssue;
}.

(** One mismatch branch: [res.compatible = false; res.issues.push_back(issue)]. *)
Definition flag (bad : bool) (issue : CompatibilityIssue) (res : CompatibilityResult) :
    CompatibilityResult :=
  if bad then mkCompatibilityResult false (issues res ++ [issue]) else res.

(** The inner loop over [got.adapters]. *)
Fixpoint adapter_present (a : string) (adapters : list string) : bool :=
  match adapters with
  | [] => false
  | g :: adapters' => if String.eqb g a then true else adapter_present a adapters'
  end.

(** The outer loop over [req.required_adapters]. *)
Definition check_adapters (required adapters : list string) (res : CompatibilityResult) :
    CompatibilityResult :=
  foldl (λ res a, flag (negb (adapter_present a adapters)) CompatibilityIssue.ADAPTER_MISSING res)
    res required.

Definition check_compatibility (req : CompatibilityRequirements) (got : ReplicaCompatibility) :
    CompatibilityResult :=
  let res := mkCompatibilityResult true [] in
  let res := flag (bool_decide (cr_model_id got ≠ cq_model_id req))
    CompatibilityIssue.MODEL_MISMATCH res in
  let res := flag (bool_decide (cr_model_revision got ≠ cq_model_revision req))
    CompatibilityIssue.REVISION_MISMATCH res in
  let res := flag (bool_decide (cr_tokenizer_vocab got ≠ cq_tokenizer_vocab req))
    CompatibilityIssue.TOKENIZER_MISMATCH res in
  let res := check_adapters (cq_required_adapters req) (cr_adapters got) res in
  let res := flag (bool_decide (cr_backend got ≠ cq_backend req))
    CompatibilityIssue.BACKEND_MISMATCH res in
  let res := flag (bool_decide (cr_runtime_name got ≠ cq_runtime_name req))
    CompatibilityIssue.RUNTIME_MISMATCH res in
  let res := flag (bool_decide (cr_architecture got ≠ cq_architecture req))
    CompatibilityIssue.ARCHITECTURE_MISMATCH res in
  let res := flag (cc_ltb (cr_compute got) (cq_min_compute req))
    CompatibilityIssue.COMPUTE_TOO_LOW res in
  let res := flag (bool_decide (cr_numeric_mode got ≠ cq_numeric_mode req))
    CompatibilityIssue.NUMERIC_MISMATCH res in
  let res := flag (bool_decide (cr_artifact_generation got ≠ cq_artifact_generation req))
    CompatibilityIssue.ARTIFACT_GENERATION_MISMATCH res in
  let res := flag (bool_decide (cr_kernel_abi got ≠ cq_kernel_abi req))
    CompatibilityIssue.KERNEL_ABI_MISMATCH res in
  flag (bool_decide (cr_policy_fingerprint got ≠ cq_policy_fingerprint req))
    CompatibilityIssue.POLICY_FINGERPRINT_MISMATCH res.

(** ** The contract *)

(** Every identity, name and generation agrees, every required adapter is present,
    and the compute capability is at least the minimum. *)
Definition compatible_spec (req : CompatibilityRequirements) (got : ReplicaCompatibility) : Prop :=
  cr_model_id got = cq_model_id req ∧
  cr_model_revision got = cq_model_revision req ∧
  cr_tokenizer_vocab got = cq_tokenizer_vocab req ∧
  cq_required_adapters req ⊆ cr_adapters got ∧
  cr_backend got = cq_backend req ∧
  cr_runtime_name got = cq_runtime_name req ∧
  cr_architecture got = cq_architecture req ∧
  cc_leb (cq_min_compute req) (cr_compute got) = true ∧
  cr_numeric_mode got = cq_numeric_mode req ∧
  cr_artifact_generation got = cq_artifact_generation req ∧
  cr_kernel_abi got = cq_kernel_abi req ∧
  cr_policy_fingerprint got = cq_policy_fingerprint req.

#[global] Instance compatible_spec_dec req got : Decision (compatible_spec req got).
Proof. unfold compatible_spec. apply _. Defined.

(** The flag and the issue list of a result agree. *)
Definition consistent (res : CompatibilityResult) : Prop :=
  compatible res = true ↔ issues res = [].

Lemma flag_consistent bad issue res : consistent res → consistent (flag bad issue res).
Proof. unfold consistent, flag. destruct bad; [|done]. simpl. by destruct (issues res). Qed.

Lemma flag_compatible bad issue res :
  compatible (flag bad issue res) = compatible res && negb bad.
Proof. unfold flag. destruct bad; simpl; by rewrite ?andb_false_r, ?andb_true_r. Qed.

Lemma adapter_present_spec a l : adapter_present a l = true ↔ a ∈ l.
Proof.
  induction l as [|g l IH]; simpl; [set_solver|].
  destruct (String.eqb_spec g a); [set_solver|]. rewrite IH. set_solver.
Qed.

Lemma check_adapters_consistent required adapters res :
  consistent res → consistent (check_adapters required adapters res).
Proof.
  unfold check_adapters. revert res. induction required; simpl; [done|].
  intros res Hres. apply IHrequired. by apply flag_consistent.
Qed.

Lemma check_adapters_compatible required adapters res :
  compatible (check_adapters required adapters res) =
  compatible res && bool_decide (required ⊆ adapters).
Proof.
  unfold check_adapters. revert res. induction required as [|a l IH]; intros res; cbn [foldl].
  { rewrite bool_decide_true by set_solver. by rewrite andb_true_r. }
  rewrite IH, flag_compatible, negb_involutive, <-andb_assoc. f_equal.
  apply eq_true_iff_eq. rewrite andb_true_iff, adapter_present_spec, !bool_decide_eq_true.
  set_solver.
Qed.

Lemma check_compatibility_consistent req got : consistent (check_compatibility req got).
Proof.
  unfold check_compatibility. repeat apply flag_consistent. apply check_adapters_consistent.
  by repeat apply flag_consistent.
Qed.

Lemma check_compatibility_spec req got :
  compatible (check_compatibility req got) = true ↔ compatible_spec req got.
Proof.
  unfold check_compatibility, compatible_spec, cc_leb.
  rewrite !flag_compatible, check_adapters_compatible, !flag_compatible, !bool_decide_not,
    !negb_involutive, !andb_true_iff, !bool_decide_eq_true. simpl. tauto.
Qed.

(** A replica that copies its declaration from the requirements is compatible when
    its compute capability reaches the minimum. *)
Lemma compatible_by_construction req compute :
  cc_leb (cq_min_compute req) compute = true →
  compatible_spec req
    (mkReplicaCompatibility (cq_model_id req) (cq_model_revision req) (cq_tokenizer_vocab req)
      (cq_required_adapters req) (cq_backend req) (cq_runtime_name req) (cq_architecture req)
      compute (cq_numeric_mode req) (cq_artifact_generation req) (cq_kernel_abi req)
      (cq_policy_fingerprint req)).
Proof. by unfold compatible_spec. Qed.

#[export] Hint Rewrite check_compatibility_spec : fabric.
