(* ===== verification/Authority.v ===== *)
(** The serving-authority gate (include/replicafabric/authority/serving_authority.hpp).

    [evaluate_serving_authority] with every factor, its detail text and the
    rejection reason, and the contract it decides. *)

From S2P Require Import Prelude Identity Enums Model.

Record AuthorityFactor := mkAuthorityFactor {
  af_name : string;
  af_satisfied : bool;
  af_detail : string;
}.
Record ServingAuthorityContext := mkServingAuthorityContext {
  ctx_epoch : CoordinatorEpoch;
  ctx_set_generation : ReplicaSetGeneration;
  ctx_policy_generation : PolicyGeneration;
  ctx_artifact_generation : ArtifactGeneration;
  ctx_health_generation : HealthGeneration;
  ctx_worker_boot : WorkerBootId;
  ctx_policy_fingerprint : string;
}.
Record ServingAuthorityDecision := mkServingAuthorityDecision {
  sad_eligible : bool;
  sad_factors : list AuthorityFactor;
  sad_rejection : string;
}.

(** [std::string::empty]. *)
Definition string_empty (s : string) : bool :=
  match s with EmptyString => true | _ => false end.

(** The lambda [add] of the gate. *)
Definition add_factor (d : ServingAuthorityDecision) (f : AuthorityFactor) :
    ServingAuthorityDecision :=
  if af_satisfied f
  then mkServingAuthorityDecision (sad_eligible d) (sad_factors d ++ [f]) (sad_rejection d)
  else mkServingAuthorityDecision false (sad_factors d ++ [f])
         (if string_empty (sad_rejection d)
          then "authority factor '" ++ af_name f ++ "' not satisfied" else sad_rejection d)%string.

(** The arguments of the successive [add] calls. *)
Definition authority_factors (r : ReplicaState) (set : ReplicaSetState)
    (cur : ServingAuthorityContext) : list AuthorityFactor :=
  let set_can_serve := bool_decide (s_lifecycle set = ReplicaSetLifecycle.AVAILABLE) ||
                       bool_decide (s_lifecycle set = ReplicaSetLifecycle.DEGRADED) in
  let epoch_ok := bool_decide (r_coordinator_epoch r = ctx_epoch cur) in
  let set_gen_ok := bool_decide (r_set_generation r = ctx_set_generation cur) in
  let boot_ok := bool_decide (r_boot_id r = ctx_worker_boot cur) in
  let health_ok := bool_decide (r_health r = HealthState.HEALTHY) ||
                   bool_decide (r_health r = HealthState.DEGRADED) in
  [ mkAuthorityFactor "SET_LIFECYCLE" set_can_serve
      (if set_can_serve then "replica set lifecycle permits serving"
       else "replica set lifecycle is " ++ to_string (s_lifecycle set) ++
            " and does not permit serving");
    mkAuthorityFactor "COORDINATOR_EPOCH" epoch_ok
      (if epoch_ok then "epoch matches" else "replica epoch stale");
    mkAuthorityFactor "SET_GENERATION" set_gen_ok
      (if set_gen_ok then "replica-set generation matches" else "replica-set generation stale");
    mkAuthorityFactor "REPLICA_GENERATION" (negb (is_null (r_generation r)))
      ("replica is a real incarnation (generation " ++ id_str (r_generation r) ++ ")");
    mkAuthorityFactor "ARTIFACT_GENERATION"
      (bool_decide (r_artifact_generation r = ctx_artifact_generation cur) &&
       bool_decide (r_artifact_generation r = s_artifact_generation set))
      "artifact generation matches";
    mkAuthorityFactor "HEALTH_GENERATION"
      (bool_decide (r_health_generation r = ctx_health_generation cur))
      "health generation current";
    mkAuthorityFactor "POLICY_GENERATION"
      (bool_decide (r_policy_generation r = ctx_policy_generation cur))
      "policy generation current";
    mkAuthorityFactor "POLICY_FINGERPRINT"
      (bool_decide (r_policy_fingerprint r = ctx_policy_fingerprint cur) &&
       bool_decide (ctx_policy_fingerprint cur = cq_policy_fingerprint (s_compatibility set)))
      "policy fingerprint matches";
    mkAuthorityFactor "WORKER_BOOT" boot_ok
      (if boot_ok then "worker boot identity current"
       else "worker boot identity stale (process restarted)");
    mkAuthorityFactor "LIFECYCLE" (bool_decide (r_lifecycle r = ReplicaLifecycle.SERVING))
      ("replica lifecycle is " ++ to_string (r_lifecycle r));
    mkAuthorityFactor "HEALTH" health_ok ("health is " ++ to_string (r_health r));
    mkAuthorityFactor "READINESS" (bool_decide (r_readiness r = ReadinessState.READY))
      ("readiness is " ++ to_string (r_readiness r));
    mkAuthorityFactor "WARMTH" (bool_decide (r_warmth r = WarmthState.WARM))
      ("warmth is " ++ to_string (r_warmth r));
    mkAuthorityFactor "PROMOTION" (bool_decide (r_promotion r ≠ PromotionState.NOT_PROMOTED))
      ("promotion state is " ++ to_string (r_promotion r));
    mkAuthorityFactor "SERVING_FLAG" (r_serving_eligible r) "serving_eligible flag set";
    mkAuthorityFactor "PLACEMENT" (bool_decide (r_placement r = PlacementState.ASSIGNED))
      "placement assigned" ]%string.

Definition evaluate_serving_authority (r : ReplicaState) (set : ReplicaSetState)
    (cur : ServingAuthorityContext) : ServingAuthorityDecision :=
  foldl add_factor (mkServingAuthorityDecision true [] EmptyString) (authority_factors r set cur).

(** [rf_serving_authority_smoke] (src/library.cpp). *)
Definition rf_serving_authority_smoke (r : ReplicaState) (set : ReplicaSetState)
    (ctx : ServingAuthorityContext) : bool :=
  sad_eligible (evaluate_serving_authority r set ctx).

(** ** The contract *)

(** Every kind of authority agrees that the replica serves. *)
Record may_serve (r : ReplicaState) (set : ReplicaSetState) (cur : ServingAuthorityContext) :
    Prop := {
  ms_set_lifecycle : s_lifecycle set = ReplicaSetLifecycle.AVAILABLE ∨
                     s_lifecycle set = ReplicaSetLifecycle.DEGRADED;
  ms_epoch : r_coordinator_epoch r = ctx_epoch cur;
  ms_set_generation : r_set_generation r = ctx_set_generation cur;
  ms_generation : r_generation r ≠ null;
  ms_artifact : r_artifact_generation r = ctx_artifact_generation cur ∧
                r_artifact_generation r = s_artifact_generation set;
  ms_health_generation : r_health_generation r = ctx_health_generation cur;
  ms_policy_generation : r_policy_generation r = ctx_policy_generation cur;
  ms_policy_fingerprint : r_policy_fingerprint r = ctx_policy_fingerprint cur ∧
    ctx_policy_fingerprint cur = cq_policy_fingerprint (s_compatibility set);
  ms_boot : r_boot_id r = ctx_worker_boot cur;
  ms_lifecycle : r_lifecycle r = ReplicaLifecycle.SERVING;
  ms_health : r_health r = HealthState.HEALTHY ∨ r_health r = HealthState.DEGRADED;
  ms_readiness : r_readiness r = ReadinessState.READY;
  ms_warmth : r_warmth r = WarmthState.WARM;
  ms_promotion : r_promotion r ≠ PromotionState.NOT_PROMOTED;
  ms_flag : r_serving_eligible r = true;
  ms_placement : r_placement r = PlacementState.ASSIGNED;
}.

Lemma is_null_spec {k} (i : Id k) : is_null i = true ↔ i = null.
Proof.
  unfold is_null, null. rewrite andb_true_iff, !Z.eqb_eq. split; [|by intros ->].
  destruct i. simpl. by intros [-> ->].
Qed.

Lemma is_null_false {k} (i : Id k) : is_null i = false ↔ i ≠ null.
Proof. rewrite <-is_null_spec. by destruct (is_null i). Qed.

(** ** The accumulation of factors *)

Definition failing (fs : list AuthorityFactor) : list AuthorityFactor :=
  filter (λ f, af_satisfied f = false) fs.

(** The rejection text of the first failing factor. *)
Definition rejection_of (fs : list AuthorityFactor) : string :=
  match failing fs with
  | [] => EmptyString
  | f :: _ => ("authority factor '" ++ af_name f ++ "' not satisfied")%string
  end.

Lemma foldl_add_factor fs d :
  let d' := foldl add_factor d fs in
  sad_eligible d' = sad_eligible d && forallb af_satisfied fs ∧
  sad_factors d' = sad_factors d ++ fs ∧
  sad_rejection d' =
    if string_empty (sad_rejection d) then rejection_of fs else sad_rejection d.
Proof.
  revert d. induction fs as [|f fs IH]; intros d; simpl.
  { rewrite andb_true_r, app_nil_r. by destruct (sad_rejection d). }
  destruct (IH (add_factor d f)) as (-> & -> & ->).
  unfold add_factor, rejection_of, failing. destruct f as [name [] detail]; simpl.
  - by rewrite <-app_assoc.
  - rewrite andb_false_r, <-app_assoc. split_and!; [done..|].
    by destruct (sad_rejection d).
Qed.

Lemma evaluate_eligible r set cur :
  sad_eligible (evaluate_serving_authority r set cur) =
  forallb af_satisfied (authority_factors r set cur).
Proof.
  unfold evaluate_serving_authority.
  by destruct (foldl_add_factor (authority_factors r set cur)
    (mkServingAuthorityDecision true [] EmptyString)) as [-> _].
Qed.

Lemma evaluate_explains r set cur :
  sad_factors (evaluate_serving_authority r set cur) = authority_factors r set cur ∧
  sad_rejection (evaluate_serving_authority r set cur) = rejection_of (authority_factors r set cur).
Proof.
  unfold evaluate_serving_authority.
  destruct (foldl_add_factor (authority_factors r set cur)
    (mkServingAuthorityDecision true [] EmptyString)) as (_ & -> & ->). done.
Qed.

(** The gate decides the contract. *)
Lemma evaluate_may_serve r set cur :
  sad_eligible (evaluate_serving_authority r set cur) = true ↔ may_serve r set cur.
Proof.
  rewrite evaluate_eligible. cbn [authority_factors forallb af_satisfied].
  rewrite !andb_true_iff, !orb_true_iff, !bool_decide_eq_true, negb_true_iff, is_null_false.
  split.
  - intros H. destruct_and! H. by split.
  - intros []. destruct_and?. by split_and!.
Qed.

(** An empty rejection means eligible. *)
Lemma rejection_empty_iff r set cur :
  sad_rejection (evaluate_serving_authority r set cur) = EmptyString ↔
  sad_eligible (evaluate_serving_authority r set cur) = true.
Proof.
  rewrite evaluate_eligible. destruct (evaluate_explains r set cur) as [_ ->].
  generalize (authority_factors r set cur) as fs. intros fs. unfold rejection_of.
  rewrite <-Is_true_true, forallb_True. unfold failing. split.
  - intros E. destruct (filter _ fs) as [|f l] eqn:Ef; [|done].
    apply Forall_forall. intros x Hx. apply Is_true_true. apply not_false_is_true. intros Es.
    apply (not_elem_of_nil x). rewrite <-Ef. by apply list_elem_of_filter.
  - induction 1 as [|f l Hf%Is_true_true _ IH]; [done|].
    by rewrite filter_cons_False by (rewrite Hf; done).
Qed.

#[export] Hint Resolve ms_flag ms_lifecycle ms_boot ms_epoch : fabric.
