(* ===== verification/CoreProps.v ===== *)
(** What the value layer guarantees.

    Identities, enumerations, lifecycle tables, compatibility and the serving gate:
    the theorems other components build on. *)

From S2P Require Import Prelude Identity Enums Model Transition Compatibility Authority.

(** ** The gate *)

(** The gate reports all sixteen factors in the order it checks them, is eligible
    exactly when all are satisfied, and its rejection text is empty when eligible and
    otherwise names the first factor that failed. *)
Theorem gate_explains r set cur :
  let d := evaluate_serving_authority r set cur in
  sad_factors d = authority_factors r set cur ∧ length (sad_factors d) = 16%nat ∧
  sad_eligible d = forallb af_satisfied (authority_factors r set cur) ∧
  ((sad_eligible d = true ∧ sad_rejection d = EmptyString) ∨
   (sad_eligible d = false ∧ ∃ pre f post, authority_factors r set cur = pre ++ f :: post ∧
      Forall (λ g, af_satisfied g = true) pre ∧ af_satisfied f = false ∧
      sad_rejection d = ("authority factor '" ++ af_name f ++ "' not satisfied")%string)).
Proof.
  cbn zeta. destruct (evaluate_explains r set cur) as [-> ->]. rewrite evaluate_eligible.
  split_and!; [done..|]. generalize (authority_factors r set cur) as fs. intros fs.
  induction fs as [|f fs IH]; [by left|]. cbn [forallb].
  destruct (af_satisfied f) eqn:E; cbn [andb].
  - unfold rejection_of, failing in *. rewrite filter_cons_False by congruence.
    destruct IH as [?|(Hf & pre & g & post & -> & Hpre & Hg & Hr)]; [by left|right].
    split; [done|]. exists (f :: pre), g, post. split_and!; [done|by constructor|done..].
  - right. split; [done|]. exists [], f, fs. split_and!; [done..|].
    unfold rejection_of, failing. by rewrite filter_cons_True.
Qed.

(** ** Compatibility *)

(** C36: the compatibility check accepts exactly the replicas that match every required
    identity, name, generation and fingerprint, carry every required adapter and reach
    the minimum compute capability; it lists an issue exactly when it refuses. *)
Theorem compatibility_decided req got :
  (compatible (check_compatibility req got) = true ↔ compatible_spec req got) ∧
  (issues (check_compatibility req got) = [] ↔ compatible (check_compatibility req got) = true).
Proof.
  split; [apply check_compatibility_spec|]. symmetry. apply check_compatibility_consistent.
Qed.

(** ** Lifecycle tables *)

(** In the replica lifecycle table SERVING is entered only from READY, RETIRED can be
    reached from every state and is the only state without a way out, a FAILED or
    RETIRED replica can only end RETIRED, and no state steps to itself. *)
Theorem replica_table_sound (a b : ReplicaLifecycle) :
  (can_transition a ReplicaLifecycle.SERVING = true ↔ a = ReplicaLifecycle.READY) ∧
  lifecycle_path a ReplicaLifecycle.RETIRED ∧
  ((∀ b, can_transition a b = false) ↔ a = ReplicaLifecycle.RETIRED) ∧
  (withdrawn a = true → lifecycle_path a b → b = a ∨ b = ReplicaLifecycle.RETIRED) ∧
  can_transition a a = false.
Proof.
  split_and!; [apply serving_only_from_ready|apply retired_reachable| | |by destruct a].
  - rewrite <-stuck_iff_retired. unfold lifecycle_step. by setoid_rewrite not_true_iff_false.
  - intros Hw Hp. revert Hw. induction Hp as [|a a' b Hs Hp IH]; [by left|]. intros Hw.
    assert (a' = ReplicaLifecycle.RETIRED) as -> by (by destruct a, a').
    right. by destruct IH.
Qed.

(** In the set lifecycle table serving states are reached only through provisioning,
    RETIRED has no way out, FAILED leads only to RETIRED, and a guarded move throws
    exactly when the table refuses it. *)
Theorem set_table_sound (a b : ReplicaSetLifecycle) :
  (can_transition_set ReplicaSetLifecycle.CREATED b = true ↔ b = ReplicaSetLifecycle.PROVISIONING) ∧
  can_transition_set ReplicaSetLifecycle.RETIRED b = false ∧
  (can_transition_set ReplicaSetLifecycle.FAILED b = true ↔ b = ReplicaSetLifecycle.RETIRED) ∧
  (guard_transition_set a b = inr tt ↔ can_transition_set a b = true) ∧
  (can_transition_set a b = false → ∃ msg, guard_transition_set a b = inl msg).
Proof.
  split_and!.
  - by destruct b.
  - done.
  - by destruct b.
  - unfold guard_transition_set. by destruct (can_transition_set a b).
  - unfold guard_transition_set. intros ->. by eexists.
Qed.

(** ** Identities *)

(** The text of an identity parses back to it, by both parsers; distinct identities
    have distinct texts. *)
Theorem identity_text_roundtrip {k} (i j : Id k) :
  wf_id i → wf_id j →
  from_string (k := k) (id_str i) = inr i ∧ try_parse (k := k) (id_str i) = Some i ∧ (id_str i = id_str j → i = j).
Proof.
  intros. split_and!; [by apply from_string_id_str|by apply try_parse_id_str|by apply id_str_inj].
Qed.

(** [from_string] accepts exactly the texts that are 32 hexadecimal digits once
    hyphens are dropped, wherever the hyphens are, and returns the number they spell. *)
Theorem identity_text_accepted {k} (s : string) (i : Id k) :
  from_string s = inr i ↔
  wf_id i ∧ hex_digit <$> strip_hyphens (list_ascii_of_string s)
            = be_digits 4 16 (hi i) ++ be_digits 4 16 (lo i).
Proof. apply from_string_spec. Qed.

(** The sixteen bytes of an identity are a bijection with its two 64-bit words. *)
Theorem identity_bytes_roundtrip {k} (i : Id k) (b : list byte) :
  wf_id i → length b = 16%nat →
  length (to_bytes i) = 16%nat ∧ from_bytes (to_bytes i) = i ∧
  wf_id (from_bytes (k := k) b) ∧ to_bytes (from_bytes (k := k) b) = b.
Proof.
  intros. split_and!;
    [apply length_to_bytes|by apply from_bytes_to_bytes|by apply from_bytes_wf
    |by apply to_bytes_from_bytes].
Qed.

(** ** Enumerations *)

(** For every enum class of the code the name lookup and the integer lookup invert
    the name and the underlying value of each enumerator and accept nothing else. *)
Theorem enum_lookups_inverse {E} `{RfEnumLaws E} (v : E) (s : string) (z : Z) :
  (enum_from_string s = Some v ↔ s = to_string v) ∧ (from_int z = Some v ↔ z = enum_value v).
Proof. split; [apply enum_from_string_spec|apply from_int_spec]. Qed.

(** ** Witnesses *)

Lemma identity_text_roundtrip_witness :
  from_string (k := ReplicaIdTag) (id_str (mkId (k := ReplicaIdTag) 1 255)) = inr (mkId 1 255) ∧
  try_parse (k := ReplicaIdTag) (id_str (mkId (k := ReplicaIdTag) 1 255)) = Some (mkId 1 255) ∧
  (id_str (mkId (k := ReplicaIdTag) 1 255) = id_str (mkId (k := ReplicaIdTag) 1 254) →
   mkId (k := ReplicaIdTag) 1 255 = mkId 1 254).
Proof.
  apply (identity_text_roundtrip (mkId (k := ReplicaIdTag) 1 255) (mkId 1 254));
    split; unfold in_u64; simpl; lia.
Defined.

Lemma identity_bytes_roundtrip_witness :
  from_bytes (k := ReplicaIdTag) (to_bytes (mkId (k := ReplicaIdTag) 1 255)) = mkId 1 255.
Proof.
  apply (identity_bytes_roundtrip (mkId (k := ReplicaIdTag) 1 255) (replicate 16 x00));
    [split; unfold in_u64; simpl; lia|done].
Defined.

Lemma enum_lookups_inverse_witness :
  (enum_from_string "READY" = Some ReplicaLifecycle.READY ↔
   "READY"%string = to_string ReplicaLifecycle.READY) ∧
  (from_int 4 = Some ReplicaLifecycle.READY ↔ 4 = enum_value ReplicaLifecycle.READY).
Proof. exact (enum_lookups_inverse ReplicaLifecycle.READY "READY" 4). Defined.
