(* ===== verification/Controller.v ===== *)
(** The replica-set controller (src/replica_set_controller.cpp).

    Its state, and every public operation as a function from the state to the
    operation's result and the state it leaves.  The mutex makes each operation
    atomic, so a run of the controller is a sequence of these functions.  A C++
    reference into a map ([auto& r = it->second]) is read, updated field by field in
    the code's order and stored back; an early return after an update returns the
    updated state. *)

From S2P Require Import Prelude Identity Enums Model Transition Compatibility Authority.

Module OpStatus.
Inductive OpStatus : Set := OK | REJECTED | INVALID.
End OpStatus.
Abbreviation OpStatus := OpStatus.OpStatus.
#[global] Instance OpStatus_eq_dec : EqDecision OpStatus.
Proof. solve_decision. Defined.

Record OpResult := mkOpResult { status : OpStatus; message : string }.
Definition op_ok (msg : string) : OpResult := mkOpResult OpStatus.OK msg.
Definition op_rejected (msg : string) : OpResult := mkOpResult OpStatus.REJECTED msg.
Definition op_invalid (msg : string) : OpResult := mkOpResult OpStatus.INVALID msg.
Definition is_ok (res : OpResult) : bool := bool_decide (status res = OpStatus.OK).

(** The members of [ReplicaSetController]; [G] is the state of its generator. *)
Set Primitive Projections.
Record Controller (G : Type) := mkController {
  sets_ : gmap ReplicaSetId ReplicaSetState;
  replicas_ : gmap ReplicaId ReplicaState;
  workers_ : gmap WorkerId WorkerRegistration;
  promotions_ : list PromotionRecord;
  drains_ : list DrainRecord;
  failovers_ : list FailoverRecord;
  epoch_ : CoordinatorEpoch;
  rng_ : G;
}.
Unset Primitive Projections.
Arguments mkController {G} _ _ _ _ _ _ _ _.
Arguments sets_ {G} _.
Arguments replicas_ {G} _.
Arguments workers_ {G} _.
Arguments promotions_ {G} _.
Arguments drains_ {G} _.
Arguments failovers_ {G} _.
Arguments epoch_ {G} _.
Arguments rng_ {G} _.

Section setters.
Context {G : Type}.
#[global] Instance set_sets_ : Setter (@sets_ G).
Proof. mk_setter. Defined.
#[global] Instance set_replicas_ : Setter (@replicas_ G).
Proof. mk_setter. Defined.
#[global] Instance set_workers_ : Setter (@workers_ G).
Proof. mk_setter. Defined.
#[global] Instance set_promotions_ : Setter (@promotions_ G).
Proof. mk_setter. Defined.
#[global] Instance set_drains_ : Setter (@drains_ G).
Proof. mk_setter. Defined.
#[global] Instance set_failovers_ : Setter (@failovers_ G).
Proof. mk_setter. Defined.
#[global] Instance set_epoch_ : Setter (@epoch_ G).
Proof. mk_setter. Defined.
#[global] Instance set_rng_ : Setter (@rng_ G).
Proof. mk_setter. Defined.
End setters.

(** ** Field updates the operations share *)

(** [r.health_record.f = v] for the fields the code writes. *)
Definition set_record_state (h : HealthState) (r : ReplicaState) : ReplicaState :=
  r <| r_health_record := (r_health_record r) <| hr_state := h |> |>.
Definition set_record_reason (reason : string) (r : ReplicaState) : ReplicaState :=
  r <| r_health_record := (r_health_record r) <| hr_reason := reason |> |>.

(** The updates of one hosted replica when its worker registers a new boot id. *)
Definition restart_replica (r : ReplicaState) : ReplicaState :=
  let r := r <| r_serving_eligible := false |> in
  let r := r <| r_health := HealthState.FAILED |> in
  let r := set_record_state HealthState.FAILED r in
  let r := set_record_reason "worker restarted under a new boot identity" r in
  let r := r <| r_lifecycle := ReplicaLifecycle.FAILED |> in
  let r := r <| r_promotion := PromotionState.NOT_PROMOTED |> in
  let r := r <| r_role := ReplicaRole.NONE |> in
  r <| r_active_requests := 0 |>.

(** The updates of one hosted replica when its worker disconnects. *)
Definition disconnect_replica (r : ReplicaState) : ReplicaState :=
  let r := r <| r_serving_eligible := false |> in
  let r := r <| r_health := HealthState.FAILED |> in
  let r := set_record_state HealthState.FAILED r in
  let r := set_record_reason "worker disconnected" r in
  let r := r <| r_lifecycle := ReplicaLifecycle.FAILED |> in
  let r := r <| r_promotion := PromotionState.NOT_PROMOTED |> in
  r <| r_role := ReplicaRole.NONE |>.

(** The condition [had_authority] of [unregister_worker]. *)
Definition had_authority (r : ReplicaState) : bool :=
  r_serving_eligible r || bool_decide (r_lifecycle r = ReplicaLifecycle.SERVING) ||
  bool_decide (r_lifecycle r = ReplicaLifecycle.READY) ||
  bool_decide (r_lifecycle r = ReplicaLifecycle.DRAINING).

Definition worker_boot_matches (r : ReplicaState) (worker : WorkerId) (boot : WorkerBootId) : bool :=
  bool_decide (r_worker_id r = worker) && bool_decide (r_boot_id r = boot).

Definition ready_to_promote (r : ReplicaState) : bool :=
  bool_decide (r_lifecycle r = ReplicaLifecycle.READY) ||
  bool_decide (r_lifecycle r = ReplicaLifecycle.SERVING).

(** The replicas that accept no evidence. *)
Definition terminated (r : ReplicaState) : bool :=
  bool_decide (r_lifecycle r = ReplicaLifecycle.FAILED) ||
  bool_decide (r_lifecycle r = ReplicaLifecycle.RETIRED) ||
  bool_decide (r_lifecycle r = ReplicaLifecycle.QUIESCED).

(** The counting loops over [replicas_], into a [uint32_t]. *)
Definition count_in_set (sid : ReplicaSetId) (m : gmap ReplicaId ReplicaState) : Z :=
  u32 (Z.of_nat (size (filter (λ kr, r_set_id kr.2 = sid) m))).
Definition count_healthy (sid : ReplicaSetId) (m : gmap ReplicaId ReplicaState) : Z :=
  u32 (Z.of_nat (size (filter (λ kr,
    r_set_id kr.2 = sid ∧ r_health kr.2 = HealthState.HEALTHY) m))).

(** The set lifecycle derived from the healthy count after a promotion or failover. *)
Definition derive_set_lifecycle (healthy : Z) (set : ReplicaSetState) : ReplicaSetState :=
  if (healthy <? s_min_healthy set) &&
     can_transition_set (s_lifecycle set) ReplicaSetLifecycle.DEGRADED
  then set <| s_lifecycle := ReplicaSetLifecycle.DEGRADED |>
  else if (s_min_healthy set <=? healthy) &&
          can_transition_set (s_lifecycle set) ReplicaSetLifecycle.AVAILABLE
  then set <| s_lifecycle := ReplicaSetLifecycle.AVAILABLE |>
  else set.

(** The replica-set counts [create_replica_set] refuses. *)
Definition counts_invalid (set : ReplicaSetState) : bool :=
  (s_max_replicas set =? 0) || (s_desired_count set =? 0) || (s_min_healthy set =? 0) ||
  (s_max_replicas set <? s_min_healthy set) || (s_max_replicas set <? s_desired_count set).

(** The loop of [complete_drain]: the first DRAINING record of the replica is closed. *)
Fixpoint finish_drain (rid : ReplicaId) (mono quiesced : Z) (force : bool)
    (l : list DrainRecord) : list DrainRecord :=
  match l with
  | [] => []
  | dr :: l' =>
      if bool_decide (d_replica_id dr = rid) && bool_decide (d_state dr = DrainState.DRAINING)
      then dr <| d_state := DrainState.QUIESCED |> <| d_completed_mono := mono |>
              <| d_quiesced_requests := quiesced |> <| d_force_cancelled := force |> :: l'
      else dr :: finish_drain rid mono quiesced force l'
  end.

(** The lambda [role_rank] of [trigger_failover]. *)
Definition role_rank (p : PromotionState) : Z :=
  match p with
  | PromotionState.STANDBY => 0
  | PromotionState.CANARY => 1
  | PromotionState.REPLACEMENT => 2
  | PromotionState.RECOVERED => 3
  | _ => 4
  end.

(** The comparator of the candidate sort, on the candidates with their states. *)
Definition failover_ltb (pol : FailoverPolicy) (failed_worker : WorkerId)
    (a b : ReplicaId * ReplicaState) : bool :=
  let ra := a.2 in
  let rb := b.2 in
  if fp_prefer_standby_first pol && negb (role_rank (r_promotion ra) =? role_rank (r_promotion rb))
  then role_rank (r_promotion ra) <? role_rank (r_promotion rb)
  else
    let a_diff := bool_decide (r_worker_id ra ≠ failed_worker) in
    let b_diff := bool_decide (r_worker_id rb ≠ failed_worker) in
    if fp_require_diversity pol && negb (eqb a_diff b_diff) then a_diff
    else id_ltb a.1 b.1.

(** The [continue] conditions of the candidate loop, negated. *)
Definition failover_candidate (set_id : ReplicaSetId) (failed : ReplicaId)
    (set : ReplicaSetState) (kr : ReplicaId * ReplicaState) : bool :=
  let r := kr.2 in
  bool_decide (r_set_id r = set_id) && negb (bool_decide (kr.1 = failed)) &&
  (bool_decide (r_lifecycle r = ReplicaLifecycle.READY) ||
   bool_decide (r_lifecycle r = ReplicaLifecycle.SERVING)) &&
  bool_decide (r_readiness r = ReadinessState.READY) &&
  negb (bool_decide (r_health r ≠ HealthState.HEALTHY) &&
        bool_decide (r_health r ≠ HealthState.DEGRADED)) &&
  compatible (check_compatibility (s_compatibility set) (r_compatibility r)) &&
  bool_decide (r_placement r = PlacementState.ASSIGNED) &&
  bool_decide (r_set_generation r = s_generation set).

(** The updates of [set_allocating] and [set_starting]. *)
Definition allocate_replica (placement_id : PlacementId) (r : ReplicaState) : ReplicaState :=
  let placed := negb (is_null placement_id) in
  let r := r <| r_lifecycle := ReplicaLifecycle.ALLOCATING |> in
  let r := r <| r_placement_id := placement_id |> in
  let r := r <| r_placement :=
    if placed then PlacementState.ASSIGNED else PlacementState.PENDING |> in
  r <| r_memory_residency := MemoryResidencyState.NOT_RESIDENT |>.
Definition start_replica (mono wall : Z) (r : ReplicaState) : ReplicaState :=
  let r := r <| r_lifecycle := ReplicaLifecycle.STARTING |> in
  let r := r <| r_health := HealthState.STARTING |> in
  r <| r_health_record := (r_health_record r)
    <| hr_state := HealthState.STARTING |> <| hr_updated_at_mono := mono |>
    <| hr_updated_at_wall := wall |> |>.

(** The updates of [warm_replica]. *)
Definition warm_progress (warm : WarmingRecord) (mono : Z) (r : ReplicaState) : ReplicaState :=
  let r := r <| r_lifecycle := ReplicaLifecycle.WARMING |> in
  let r := r <| r_warming_record := warm |> in
  let r :=
    if negb (wr_warmup_execution_done warm) && (0 <? wr_steps_required warm) &&
       (0 <? wr_steps_completed warm)
    then r <| r_warmth := WarmthState.WARMING |>
    else r <| r_warmth := WarmthState.WARM |> in
  if wr_started_warming_mono (r_warming_record r) =? 0
  then r <| r_warming_record := (r_warming_record r) <| wr_started_warming_mono := mono |> |>
  else r.

(** The updates of [report_health]. *)
Definition health_bad (h : HealthState) : bool :=
  bool_decide (h = HealthState.FAILED) || bool_decide (h = HealthState.UNHEALTHY).
Definition observe_health (ev : HealthEvidence) (mono : Z) (r : ReplicaState) : ReplicaState :=
  let r := r <| r_health := he_state ev |> in
  let r := r <| r_health_record := (r_health_record r)
    <| hr_state := he_state ev |> <| hr_kind := he_kind ev |>
    <| hr_source := he_source ev |> <| hr_updated_at_mono := mono |>
    <| hr_updated_at_wall := he_observed_at_wall ev |>
    <| hr_confidence := he_confidence ev |> <| hr_generation := he_generation ev |>
    <| hr_reason := he_message ev |> |> in
  let r := r <| r_health_record := (r_health_record r) <| hr_consecutive_failures :=
    if health_bad (he_state ev)
    then u32 (hr_consecutive_failures (r_health_record r) + 1) else 0 |> |> in
  if r_serving_eligible r && health_bad (he_state ev)
  then r <| r_serving_eligible := false |> <| r_role := ReplicaRole.SECONDARY |>
         <| r_promotion := PromotionState.STANDBY |>
  else r.

(** The updates of [report_readiness]. *)
Definition observe_readiness (rr : ReadinessRecord) (r : ReplicaState) : ReplicaState :=
  let r := r <| r_readiness_record := rr |> in
  let r := r <| r_readiness := rr_state rr |> in
  if all_set (rr_factors rr)
  then
    let can_ready := bool_decide (r_lifecycle r = ReplicaLifecycle.WARMING) ||
                     bool_decide (r_lifecycle r = ReplicaLifecycle.STARTING) in
    let r :=
      if can_ready && can_transition (r_lifecycle r) ReplicaLifecycle.READY
      then r <| r_lifecycle := ReplicaLifecycle.READY |> else r in
    r <| r_readiness := ReadinessState.READY |>
  else r <| r_readiness := ReadinessState.NOT_READY |>.

(** The updates that make a replica primary, once its lifecycle is SERVING. *)
Definition grant_primary (hgen : HealthGeneration) (r : ReplicaState) : ReplicaState :=
  let r := r <| r_promotion := PromotionState.PRIMARY |> in
  let r := r <| r_role := ReplicaRole.PRIMARY |> in
  let r := r <| r_serving_eligible := true |> in
  let r := r <| r_health_generation := hgen |> in
  r <| r_health_record := (r_health_record r) <| hr_generation := r_health_generation r |> |>.

(** The PRIMARY branch of [promote_replica], past its refusals. *)
Definition make_primary (hgen : HealthGeneration) (r : ReplicaState) : ReplicaState :=
  let r :=
    if bool_decide (r_lifecycle r ≠ ReplicaLifecycle.SERVING)
    then r <| r_lifecycle := ReplicaLifecycle.SERVING |> else r in
  let r := grant_primary hgen r in
  if bool_decide (r_health r = HealthState.UNKNOWN)
  then r <| r_health := HealthState.HEALTHY |> else r.

(** Its [else] branch: every other target. *)
Definition grant_standby (target : PromotionState) (r : ReplicaState) : ReplicaState :=
  let r := r <| r_promotion := target |> in
  let r := r <| r_role :=
    if bool_decide (target = PromotionState.RECOVERED)
    then ReplicaRole.SECONDARY else ReplicaRole.STANDBY |> in
  r <| r_serving_eligible := false |>.

(** The replacement chosen by [trigger_failover]. *)
Definition take_over (hgen : HealthGeneration) (r : ReplicaState) : ReplicaState :=
  let r :=
    if bool_decide (r_lifecycle r ≠ ReplicaLifecycle.SERVING)
    then r <| r_lifecycle := ReplicaLifecycle.SERVING |> else r in
  grant_primary hgen r.

(** [drain_replica] before its transition, [complete_drain] after its checks. *)
Definition reject_new_work (r : ReplicaState) : ReplicaState :=
  let r := r <| r_serving_eligible := false |> in
  let r := r <| r_role := ReplicaRole.SECONDARY |> in
  r <| r_promotion := PromotionState.STANDBY |>.
Definition quiesce_replica (r : ReplicaState) : ReplicaState :=
  let r := r <| r_lifecycle := ReplicaLifecycle.QUIESCED |> in
  let r := r <| r_active_requests := 0 |> in
  r <| r_serving_eligible := false |>.

(** [fail_replica] before its transition. *)
Definition strip_failed (reason : string) (mono : Z) (r : ReplicaState) : ReplicaState :=
  let r := r <| r_serving_eligible := false |> in
  let r := r <| r_health := HealthState.FAILED |> in
  let r := r <| r_health_record := (r_health_record r)
    <| hr_state := HealthState.FAILED |> <| hr_updated_at_mono := mono |>
    <| hr_reason := reason |> |> in
  let r := r <| r_promotion := PromotionState.NOT_PROMOTED |> in
  let r := r <| r_role := ReplicaRole.NONE |> in
  r <| r_reserved_capacity := 0 |>.

(** The updates of [retire_replica]. *)
Definition retire_state (r : ReplicaState) : ReplicaState :=
  let r := r <| r_lifecycle := ReplicaLifecycle.RETIRED |> in
  let r := r <| r_serving_eligible := false |> in
  let r := r <| r_promotion := PromotionState.NOT_PROMOTED |> in
  let r := r <| r_role := ReplicaRole.NONE |> in
  let r := r <| r_reserved_capacity := 0 |> in
  let r := r <| r_active_requests := 0 |> in
  let r := r <| r_memory_residency := MemoryResidencyState.EVICTED |> in
  r <| r_warmth := WarmthState.INVALIDATED |>.

(** The updates that make the failed replica's authority obsolete. *)
Definition obsolete_replica (reason : string) (fr : ReplicaState) : ReplicaState :=
  let fr := fr <| r_serving_eligible := false |> in
  let fr := fr <| r_health := HealthState.FAILED |> in
  let fr := set_record_state HealthState.FAILED fr in
  let fr := set_record_reason reason fr in
  let fr := fr <| r_promotion := PromotionState.NOT_PROMOTED |> in
  let fr := fr <| r_role := ReplicaRole.NONE |> in
  let fr := fr <| r_reserved_capacity := 0 |> in
  if bool_decide (r_lifecycle fr ≠ ReplicaLifecycle.FAILED)
  then if can_transition (r_lifecycle fr) ReplicaLifecycle.FAILED
       then fr <| r_lifecycle := ReplicaLifecycle.FAILED |> else fr
  else fr.

(** The outcomes recorded for work in flight on the failed replica. *)
Definition lost_work (fr : ReplicaState) : list WorkOutcome :=
  if 0 <? r_active_requests fr then [WorkOutcome.AMBIGUOUS] else [].

(** ** Operations *)

Section operations.
Context `{Rng G}.
Implicit Types c : Controller G.

(** The constructor: everything empty, the generator seeded. *)
Definition new_controller (rng : G) : Controller G :=
  mkController ∅ ∅ ∅ [] [] [] null rng.

Definition controller_empty c : bool :=
  bool_decide (sets_ c = ∅) && bool_decide (dom (replicas_ c) = ∅).

Definition store_replica (rid : ReplicaId) (r : ReplicaState) c : Controller G :=
  c <| replicas_ := <[rid := r]> (replicas_ c) |>.
Definition store_set (sid : ReplicaSetId) (s : ReplicaSetState) c : Controller G :=
  c <| sets_ := <[sid := s]> (sets_ c) |>.

(** [random_id<T>()] on the controller's generator. *)
Definition draw (k : IdKind) c : Id k * Controller G :=
  let '(i, g) := random_id (rng_ c) in (i, c <| rng_ := g |>).

(** The local [restart] of [register_worker]. *)
Definition restarted (wr : WorkerRegistration) c : bool :=
  match workers_ c !! w_worker_id wr with
  | Some reg => bool_decide (w_boot_id reg ≠ w_boot_id wr)
  | None => false
  end.

Definition register_worker (wr : WorkerRegistration) c : OpResult * Controller G :=
  let c :=
    if restarted wr c
    then c <| replicas_ := (λ r,
      if bool_decide (r_worker_id r = w_worker_id wr) &&
         bool_decide (r_lifecycle r = ReplicaLifecycle.SERVING)
      then restart_replica r else r) <$> replicas_ c |>
    else c in
  (op_ok ("worker registered (boot " ++ id_str (w_boot_id wr) ++ ")"),
   c <| workers_ := <[w_worker_id wr := wr]> (workers_ c) |>).

Definition unregister_worker (worker_id : WorkerId) c : OpResult * Controller G :=
  match workers_ c !! worker_id with
  | None => (op_rejected "unknown worker", c)
  | Some _ =>
      let c := c <| replicas_ := (λ r,
        if bool_decide (r_worker_id r = worker_id)
        then if had_authority r then disconnect_replica r else r
        else r) <$> replicas_ c |> in
      (op_ok "worker unregistered", c <| workers_ := delete worker_id (workers_ c) |>)
  end.

Definition create_replica_set (set : ReplicaSetState) (epoch : CoordinatorEpoch) c :
    OpResult * Controller G :=
  match sets_ c !! s_id set with
  | Some _ => (op_rejected "replica set already exists", c)
  | None =>
      if counts_invalid set
      then (op_invalid "replica set counts invalid (desired/min_healthy/max must satisfy 0 < min <= desired <= max)", c)
      else (op_ok "replica set created",
            (store_set (s_id set) set c) <| epoch_ := epoch |>)
  end.

Definition transition_replica_set (set_id : ReplicaSetId) (to : ReplicaSetLifecycle) c :
    OpResult * Controller G :=
  match sets_ c !! set_id with
  | None => (op_rejected "unknown replica set", c)
  | Some s =>
      if negb (can_transition_set (s_lifecycle s) to)
      then (op_invalid ("replica-set lifecycle transition " ++ to_string (s_lifecycle s) ++
                        " -> " ++ to_string to ++ " is not allowed"), c)
      else (op_ok ("replica-set lifecycle -> " ++ to_string to),
            store_set set_id (s <| s_lifecycle := to |>) c)
  end.

(** The replica built by [provision_replica], field by field. *)
Definition provisioned (replica_id : ReplicaId) (set_id : ReplicaSetId) (worker_id : WorkerId)
    (reg : WorkerRegistration) (set : ReplicaSetState) (compat : ReplicaCompatibility)
    (device : DeviceCapability) (capacity mono wall : Z) (epoch : CoordinatorEpoch)
    (gen : ReplicaGeneration) (hgen : HealthGeneration) : ReplicaState :=
  let r := default_ReplicaState in
  let r := r <| r_id := replica_id |> <| r_set_id := set_id |> <| r_generation := gen |> in
  let r := r <| r_node_id := w_node_id reg |> <| r_worker_id := worker_id |>
             <| r_boot_id := w_boot_id reg |> in
  let r := r <| r_artifact_id := s_artifact_id set |>
             <| r_artifact_generation := s_artifact_generation set |> in
  let r := r <| r_backend := cr_backend compat |>
             <| r_backend_identity := cr_runtime_name compat |>
             <| r_device_identity := dc_device_id device |>
             <| r_accelerator := dc_kind device |>
             <| r_compute_capability := dc_compute device |> in
  let r := r <| r_memory_residency := MemoryResidencyState.NOT_RESIDENT |>
             <| r_warmth := WarmthState.COLD |>
             <| r_readiness := ReadinessState.UNKNOWN |>
             <| r_health := HealthState.UNKNOWN |>
             <| r_lifecycle := ReplicaLifecycle.DECLARED |>
             <| r_placement := PlacementState.PENDING |>
             <| r_promotion := PromotionState.NOT_PROMOTED |>
             <| r_role := ReplicaRole.NONE |>
             <| r_serving_eligible := false |>
             <| r_active_requests := 0 |> <| r_reserved_capacity := 0 |>
             <| r_capacity_total := capacity |> in
  let r := r <| r_start_time_mono := mono |> <| r_start_time_wall := wall |> in
  let r := r <| r_coordinator_epoch := epoch |> <| r_set_generation := s_generation set |>
             <| r_health_generation := hgen |>
             <| r_policy_generation := s_policy_generation set |>
             <| r_policy_fingerprint := cq_policy_fingerprint (s_compatibility set) |> in
  r <| r_compatibility := compat |>.

Definition provision_replica (replica_id : ReplicaId) (set_id : ReplicaSetId)
    (worker_id : WorkerId) (compat : ReplicaCompatibility) (device : DeviceCapability)
    (capacity mono wall : Z) c : OpResult * Controller G :=
  match sets_ c !! set_id with
  | None => (op_rejected "unknown replica set", c)
  | Some set =>
      if bool_decide (s_lifecycle set = ReplicaSetLifecycle.RETIRED) ||
         bool_decide (s_lifecycle set = ReplicaSetLifecycle.FAILED)
      then (op_rejected "replica set is not provisionable", c)
      else
        match workers_ c !! worker_id with
        | None => (op_rejected "unknown worker", c)
        | Some reg =>
            if s_max_replicas set <=? count_in_set set_id (replicas_ c)
            then (op_rejected "replica set max_replicas reached", c)
            else
              let set :=
                if bool_decide (s_lifecycle set = ReplicaSetLifecycle.CREATED)
                then set <| s_lifecycle := ReplicaSetLifecycle.PROVISIONING |> else set in
              let c := store_set set_id set c in
              let '(gen, c) := draw ReplicaGenerationTag c in
              let '(hgen, c) := draw HealthGenerationTag c in
              let r := provisioned replica_id set_id worker_id reg set compat device capacity
                         mono wall (epoch_ c) gen hgen in
              (op_ok "replica provisioned", store_replica replica_id r c)
        end
  end.

Definition set_allocating (replica_id : ReplicaId) (placement_id : PlacementId) c :
    OpResult * Controller G :=
  match replicas_ c !! replica_id with
  | None => (op_rejected "unknown replica", c)
  | Some r =>
      if negb (can_transition (r_lifecycle r) ReplicaLifecycle.ALLOCATING)
      then (op_invalid "replica cannot move to ALLOCATING", c)
      else
        (op_ok "replica -> ALLOCATING",
         store_replica replica_id (allocate_replica placement_id r) c)
  end.

Definition set_starting (replica_id : ReplicaId) (mono wall : Z) c : OpResult * Controller G :=
  match replicas_ c !! replica_id with
  | None => (op_rejected "unknown replica", c)
  | Some r =>
      if negb (can_transition (r_lifecycle r) ReplicaLifecycle.STARTING)
      then (op_invalid "replica cannot move to STARTING", c)
      else
        (op_ok "replica -> STARTING", store_replica replica_id (start_replica mono wall r) c)
  end.

Definition warm_replica (replica_id : ReplicaId) (warm : WarmingRecord) (worker : WorkerId)
    (boot : WorkerBootId) (mono : Z) c : OpResult * Controller G :=
  match replicas_ c !! replica_id with
  | None => (op_rejected "unknown replica", c)
  | Some r =>
      if negb (worker_boot_matches r worker boot)
      then (op_rejected "stale worker boot identity", c)
      else if negb (can_transition (r_lifecycle r) ReplicaLifecycle.WARMING) &&
              bool_decide (r_lifecycle r ≠ ReplicaLifecycle.WARMING)
      then (op_invalid "replica is not in a state that accepts warming", c)
      else
        (op_ok "replica warming progressed",
         store_replica replica_id (warm_progress warm mono r) c)
  end.

Definition report_health (replica_id : ReplicaId) (ev : HealthEvidence) (worker : WorkerId)
    (boot : WorkerBootId) (mono : Z) c : OpResult * Controller G :=
  match replicas_ c !! replica_id with
  | None => (op_rejected "unknown replica", c)
  | Some r =>
      if negb (worker_boot_matches r worker boot)
      then (op_rejected "stale worker boot identity", c)
      else if bool_decide (r_coordinator_epoch r ≠ epoch_ c)
      then (op_rejected "stale coordinator epoch", c)
      else if bool_decide (he_generation ev ≠ r_health_generation r)
      then (op_rejected "stale health generation", c)
      else if terminated r
      then (op_rejected "replica is terminated; health evidence rejected", c)
      else
        (op_ok ("health updated to " ++ to_string (he_state ev)),
         store_replica replica_id (observe_health ev mono r) c)
  end.

Definition report_readiness (replica_id : ReplicaId) (rr : ReadinessRecord) (worker : WorkerId)
    (boot : WorkerBootId) c : OpResult * Controller G :=
  match replicas_ c !! replica_id with
  | None => (op_rejected "unknown replica", c)
  | Some r =>
      if negb (worker_boot_matches r worker boot)
      then (op_rejected "stale worker boot identity", c)
      else if bool_decide (r_coordinator_epoch r ≠ epoch_ c)
      then (op_rejected "stale coordinator epoch", c)
      else if terminated r
      then (op_rejected "replica is terminated; readiness report rejected", c)
      else
        let r := observe_readiness rr r in
        (op_ok ("readiness updated to " ++ to_string (r_readiness r)),
         store_replica replica_id r c)
  end.

(** The early returns of [promote_replica] between finding the set and granting
    the role: [Some] is the result returned, [None] falls through. *)
Definition promotion_refusal (epoch : CoordinatorEpoch) (set : ReplicaSetState)
    (r : ReplicaState) : option OpResult :=
  let pol := pb_promotion (s_policies set) in
  let cr := check_compatibility (s_compatibility set) (r_compatibility r) in
  if bool_decide (r_coordinator_epoch r ≠ epoch)
  then Some (op_rejected "stale coordinator epoch")
  else if bool_decide (r_set_generation r ≠ s_generation set)
  then Some (op_rejected "stale replica-set generation")
  else if bool_decide (r_policy_generation r ≠ s_policy_generation set)
  then Some (op_rejected "stale policy generation")
  else if bool_decide (r_artifact_generation r ≠ s_artifact_generation set)
  then Some (op_rejected "stale artifact generation")
  else if pp_require_ready pol && negb (ready_to_promote r)
  then Some (op_rejected "replica is not in a ready state")
  else if bool_decide (r_readiness r ≠ ReadinessState.READY)
  then Some (op_rejected "replica is not ready")
  else if pp_require_healthy pol && (bool_decide (r_health r = HealthState.UNKNOWN) ||
                                     bool_decide (r_health r = HealthState.STARTING))
  then Some (op_rejected "replica has no validated health")
  else if pp_require_healthy pol && bool_decide (r_health r = HealthState.UNHEALTHY)
  then Some (op_rejected "replica is unhealthy")
  else if pp_require_compatible pol && negb (compatible cr)
  then Some (op_rejected ("replica incompatible: " ++
    foldl (λ why iss, why ++ compatibility_issue_str iss ++ " ")%string EmptyString (issues cr)))
  else if pp_require_placement_valid pol && bool_decide (r_placement r ≠ PlacementState.ASSIGNED)
  then Some (op_rejected "replica placement is not assigned")
  else if pp_require_resources pol && (r_capacity_total r =? 0)
  then Some (op_rejected "replica has no reserved capacity")
  else None.

(** From the audit record to the return. *)
Definition finish_promotion (replica_id : ReplicaId) (set_key : ReplicaSetId)
    (set : ReplicaSetState) (r : ReplicaState) (from target : PromotionState)
    (mono wall : Z) c : OpResult * Controller G :=
  let c := store_replica replica_id r c in
  let '(pid, c) := draw PromotionIdTag c in
  let rec := mkPromotionRecord pid (r_id r) (r_set_id r) (r_generation r) (r_set_generation r)
    (epoch_ c) from target mono wall ("promoted to " ++ to_string target) in
  let c := c <| promotions_ := promotions_ c ++ [rec] |> in
  let healthy := count_healthy (s_id set) (replicas_ c) in
  (op_ok ("promoted to " ++ to_string target),
   store_set set_key (derive_set_lifecycle healthy set) c).

Definition promote_replica (replica_id : ReplicaId) (target : PromotionState)
    (worker : WorkerId) (boot : WorkerBootId) (mono wall : Z) c : OpResult * Controller G :=
  match replicas_ c !! replica_id with
  | None => (op_rejected "unknown replica", c)
  | Some r =>
      if negb (worker_boot_matches r worker boot)
      then (op_rejected "stale worker boot identity", c)
      else
        match sets_ c !! r_set_id r with
        | None => (op_rejected "unknown replica set", c)
        | Some set =>
            match promotion_refusal (epoch_ c) set r with
            | Some res => (res, c)
            | None =>
                let from := r_promotion r in
                if bool_decide (target = PromotionState.PRIMARY)
                then
                  if negb (ready_to_promote r)
                  then (op_rejected "cannot promote a non-ready replica to PRIMARY", c)
                  else if bool_decide (r_lifecycle r ≠ ReplicaLifecycle.SERVING) &&
                          negb (can_transition (r_lifecycle r) ReplicaLifecycle.SERVING)
                  then (op_invalid "cannot move replica to SERVING", c)
                  else
                    let '(hgen, c) := draw HealthGenerationTag c in
                    finish_promotion replica_id (r_set_id r) set (make_primary hgen r)
                      from target mono wall c
                else
                  finish_promotion replica_id (r_set_id r) set (grant_standby target r)
                    from target mono wall c
            end
        end
  end.

Definition drain_replica (replica_id : ReplicaId) (worker : WorkerId) (boot : WorkerBootId)
    (mono : Z) c : OpResult * Controller G :=
  match replicas_ c !! replica_id with
  | None => (op_rejected "unknown replica", c)
  | Some r =>
      if negb (worker_boot_matches r worker boot)
      then (op_rejected "stale worker boot identity", c)
      else if bool_decide (r_coordinator_epoch r ≠ epoch_ c)
      then (op_rejected "stale coordinator epoch", c)
      else if bool_decide (r_lifecycle r ≠ ReplicaLifecycle.READY) &&
              bool_decide (r_lifecycle r ≠ ReplicaLifecycle.SERVING)
      then (op_rejected "only READY or SERVING replicas can be drained", c)
      else
        let r := reject_new_work r in
        if negb (can_transition (r_lifecycle r) ReplicaLifecycle.DRAINING)
        then (op_invalid "cannot move replica to DRAINING", store_replica replica_id r c)
        else
          let r := r <| r_lifecycle := ReplicaLifecycle.DRAINING |> in
          let c := store_replica replica_id r c in
          let '(did, c) := draw DrainIdTag c in
          let dr := mkDrainRecord did (r_id r) (r_set_id r) DrainState.DRAINING mono 0 false 0
            "drain requested: reject new work, allow existing to finish" in
          (op_ok "replica draining (reject new work)", c <| drains_ := drains_ c ++ [dr] |>)
  end.

Definition complete_drain (replica_id : ReplicaId) (quiesced : Z) (force_cancelled : bool)
    (mono : Z) c : OpResult * Controller G :=
  match replicas_ c !! replica_id with
  | None => (op_rejected "unknown replica", c)
  | Some r =>
      if bool_decide (r_lifecycle r ≠ ReplicaLifecycle.DRAINING)
      then (op_rejected "replica is not draining", c)
      else if negb force_cancelled && negb (r_active_requests r =? 0)
      then (op_rejected "replica still has active requests; drain not complete", c)
      else if negb (can_transition (r_lifecycle r) ReplicaLifecycle.QUIESCED)
      then (op_invalid "cannot move replica to QUIESCED", c)
      else
        let r := quiesce_replica r in
        let c := store_replica replica_id r c in
        (op_ok "replica quiesced",
         c <| drains_ := finish_drain (r_id r) mono quiesced force_cancelled (drains_ c) |>)
  end.

Definition fail_replica (replica_id : ReplicaId) (worker : WorkerId) (boot : WorkerBootId)
    (reason : string) (mono : Z) c : OpResult * Controller G :=
  match replicas_ c !! replica_id with
  | None => (op_rejected "unknown replica", c)
  | Some r =>
      if negb (worker_boot_matches r worker boot)
      then (op_rejected "stale worker boot identity", c)
      else
        let r := strip_failed reason mono r in
        if negb (can_transition (r_lifecycle r) ReplicaLifecycle.FAILED)
        then (op_rejected "replica is already in a terminal/older state",
              store_replica replica_id r c)
        else
          let r := r <| r_lifecycle := ReplicaLifecycle.FAILED |> in
          (op_ok "replica failed and its authority is obsolete", store_replica replica_id r c)
  end.

Definition retire_replica (replica_id : ReplicaId) c : OpResult * Controller G :=
  match replicas_ c !! replica_id with
  | None => (op_rejected "unknown replica", c)
  | Some r =>
      if negb (can_transition (r_lifecycle r) ReplicaLifecycle.RETIRED)
      then (op_rejected ("replica cannot be retired from " ++ to_string (r_lifecycle r)), c)
      else
        (op_ok "replica retired", store_replica replica_id (retire_state r) c)
  end.

(** The candidates of a failover in the order of preference. *)
Definition failover_candidates (set_id : ReplicaSetId) (failed : ReplicaId)
    (failed_worker : WorkerId) (set : ReplicaSetState) (m : gmap ReplicaId ReplicaState) :
    list (ReplicaId * ReplicaState) :=
  stable_sort (failover_ltb (pb_failover (s_policies set)) failed_worker)
    (filter (λ kr, failover_candidate set_id failed set kr = true) (entries id_ltb m)).

Definition trigger_failover (set_id : ReplicaSetId) (failed_replica : ReplicaId)
    (reason : string) (mono wall : Z) c : OpResult * Controller G :=
  match sets_ c !! set_id with
  | None => (op_rejected "unknown replica set", c)
  | Some set =>
      match replicas_ c !! failed_replica with
      | None => (op_rejected "unknown failed replica", c)
      | Some fr =>
          if bool_decide (r_set_id fr ≠ set_id)
          then (op_rejected "failed replica not in this set", c)
          else
            let fr := obsolete_replica reason fr in
            let c := store_replica failed_replica fr c in
            let pol := pb_failover (s_policies set) in
            match failover_candidates set_id failed_replica (r_worker_id fr) set (replicas_ c) with
            | [] =>
                let '(fid, c) := draw FailoverIdTag c in
                let f := mkFailoverRecord fid set_id failed_replica null FailoverState.FAILED
                  (epoch_ c) mono mono (fp_preserve_generation pol) (lost_work fr)
                  (reason ++ "; no eligible replacement") in
                (op_rejected "no eligible replacement for failover",
                 c <| failovers_ := failovers_ c ++ [f] |>)
            | (chosen, r) :: _ =>
                let '(hgen, c) := draw HealthGenerationTag c in
                let r := take_over hgen r in
                let c := store_replica chosen r c in
                let '(fid, c) := draw FailoverIdTag c in
                let f := mkFailoverRecord fid set_id failed_replica chosen FailoverState.COMPLETE
                  (epoch_ c) mono mono (fp_preserve_generation pol) (lost_work fr)
                  (reason ++ "; promoted " ++ id_str chosen) in
                let c := c <| failovers_ := failovers_ c ++ [f] |> in
                let '(pid, c) := draw PromotionIdTag c in
                let pr := mkPromotionRecord pid chosen set_id (r_generation r)
                  (r_set_generation r) (epoch_ c) PromotionState.STANDBY PromotionState.PRIMARY
                  mono wall "failover replacement" in
                let c := c <| promotions_ := promotions_ c ++ [pr] |> in
                let healthy := count_healthy set_id (replicas_ c) in
                (op_ok ("failover completed; promoted " ++ id_str chosen),
                 store_set set_id (derive_set_lifecycle healthy set) c)
            end
      end
  end.

(** ** Queries *)

Definition find_worker (worker_id : WorkerId) c : option WorkerRegistration :=
  workers_ c !! worker_id.
Definition find_set (set_id : ReplicaSetId) c : option ReplicaSetState := sets_ c !! set_id.
Definition find_replica (replica_id : ReplicaId) c : option ReplicaState :=
  replicas_ c !! replica_id.
Definition list_replicas (set_id : ReplicaSetId) c : list ReplicaId :=
  stable_sort id_ltb (filter (λ kr, r_set_id kr.2 = set_id) (entries id_ltb (replicas_ c))).*1.
Definition list_sets c : list ReplicaSetId :=
  stable_sort id_ltb (entries id_ltb (sets_ c)).*1.

(** The boot id of a worker, null when it is not registered. *)
Definition worker_boot (worker_id : WorkerId) c : WorkerBootId :=
  match workers_ c !! worker_id with Some reg => w_boot_id reg | None => null end.
Definition current_boot_for (replica_id : ReplicaId) c : WorkerBootId :=
  match replicas_ c !! replica_id with
  | None => null
  | Some r => worker_boot (r_worker_id r) c
  end.

(** The context [servable] hands to the gate. *)
Definition authority_context (r : ReplicaState) (s : ReplicaSetState) c :
    ServingAuthorityContext :=
  mkServingAuthorityContext (epoch_ c) (s_generation s) (s_policy_generation s)
    (s_artifact_generation s) (r_health_generation r) (worker_boot (r_worker_id r) c)
    (cq_policy_fingerprint (s_compatibility s)).

Definition servable (replica_id : ReplicaId) c : ServingAuthorityDecision :=
  match replicas_ c !! replica_id with
  | None => mkServingAuthorityDecision false [] "unknown replica"
  | Some r =>
      match sets_ c !! r_set_id r with
      | None => mkServingAuthorityDecision false [] "unknown replica set"
      | Some s => evaluate_serving_authority r s (authority_context r s c)
      end
  end.

Definition set_epoch (epoch : CoordinatorEpoch) c : Controller G := c <| epoch_ := epoch |>.
End operations.
