(* ===== verification/ControllerRun.v ===== *)
(** Runs of the replica-set controller, and what one operation may change.

    [Action] names every public operation with its arguments, [exec] runs one, and
    [reachable] is what a sequence of them leads to from a fresh controller.  The
    abstract specification of the replica table is [replica_event]: the small set of
    guarded moves one replica can make.  [exec_replicas] and [exec_sets] refine it:
    whatever an operation does, every replica and every set either keeps its value
    or makes one of those moves. *)

From S2P Require Import Prelude Identity Enums Model Transition Compatibility Authority Controller.

(** ** Actions *)

Inductive Action :=
  | RegisterWorker (wr : WorkerRegistration)
  | UnregisterWorker (worker_id : WorkerId)
  | CreateReplicaSet (set : ReplicaSetState) (epoch : CoordinatorEpoch)
  | TransitionReplicaSet (set_id : ReplicaSetId) (to : ReplicaSetLifecycle)
  | ProvisionReplica (replica_id : ReplicaId) (set_id : ReplicaSetId) (worker_id : WorkerId)
      (compat : ReplicaCompatibility) (device : DeviceCapability) (capacity mono wall : Z)
  | SetAllocating (replica_id : ReplicaId) (placement_id : PlacementId)
  | SetStarting (replica_id : ReplicaId) (mono wall : Z)
  | WarmReplica (replica_id : ReplicaId) (warm : WarmingRecord) (worker : WorkerId)
      (boot : WorkerBootId) (mono : Z)
  | ReportHealth (replica_id : ReplicaId) (ev : HealthEvidence) (worker : WorkerId)
      (boot : WorkerBootId) (mono : Z)
  | ReportReadiness (replica_id : ReplicaId) (rr : ReadinessRecord) (worker : WorkerId)
      (boot : WorkerBootId)
  | PromoteReplica (replica_id : ReplicaId) (target : PromotionState) (worker : WorkerId)
      (boot : WorkerBootId) (mono wall : Z)
  | DrainReplica (replica_id : ReplicaId) (worker : WorkerId) (boot : WorkerBootId) (mono : Z)
  | CompleteDrain (replica_id : ReplicaId) (quiesced : Z) (force_cancelled : bool) (mono : Z)
  | FailReplica (replica_id : ReplicaId) (worker : WorkerId) (boot : WorkerBootId)
      (reason : string) (mono : Z)
  | RetireReplica (replica_id : ReplicaId)
  | TriggerFailover (set_id : ReplicaSetId) (failed_replica : ReplicaId) (reason : string)
      (mono wall : Z)
  | SetEpoch (epoch : CoordinatorEpoch).

(** The arguments fit the C++ types they are passed as. *)
Definition wf_action (a : Action) : Prop :=
  match a with
  | RegisterWorker wr => wf_WorkerRegistration wr
  | UnregisterWorker w => wf_id w
  | CreateReplicaSet set epoch => wf_ReplicaSetState set ∧ wf_id epoch
  | TransitionReplicaSet sid _ => wf_id sid
  | ProvisionReplica rid sid w compat dev cap mono wall =>
      wf_id rid ∧ wf_id sid ∧ wf_id w ∧ wf_ReplicaCompatibility compat ∧
      wf_DeviceCapability dev ∧ in_u64 cap ∧ in_u64 mono ∧ in_i64 wall
  | SetAllocating rid pid => wf_id rid ∧ wf_id pid
  | SetStarting rid mono wall => wf_id rid ∧ in_u64 mono ∧ in_i64 wall
  | WarmReplica rid warm w b mono =>
      wf_id rid ∧ wf_WarmingRecord warm ∧ wf_id w ∧ wf_id b ∧ in_u64 mono
  | ReportHealth rid ev w b mono =>
      wf_id rid ∧ wf_HealthEvidence ev ∧ wf_id w ∧ wf_id b ∧ in_u64 mono
  | ReportReadiness rid rr w b => wf_id rid ∧ wf_ReadinessRecord rr ∧ wf_id w ∧ wf_id b
  | PromoteReplica rid _ w b mono wall =>
      wf_id rid ∧ wf_id w ∧ wf_id b ∧ in_u64 mono ∧ in_i64 wall
  | DrainReplica rid w b mono => wf_id rid ∧ wf_id w ∧ wf_id b ∧ in_u64 mono
  | CompleteDrain rid q _ mono => wf_id rid ∧ in_u64 q ∧ in_u64 mono
  | FailReplica rid w b _ mono => wf_id rid ∧ wf_id w ∧ wf_id b ∧ in_u64 mono
  | RetireReplica rid => wf_id rid
  | TriggerFailover sid rid _ mono wall =>
      wf_id sid ∧ wf_id rid ∧ in_u64 mono ∧ in_i64 wall
  | SetEpoch e => wf_id e
  end.

Definition is_provision (a : Action) : bool :=
  match a with ProvisionReplica _ _ _ _ _ _ _ _ => true | _ => false end.

Section exec.
Context `{Rng G}.
Implicit Types c : Controller G.

Definition exec (a : Action) c : OpResult * Controller G :=
  match a with
  | RegisterWorker wr => register_worker wr c
  | UnregisterWorker w => unregister_worker w c
  | CreateReplicaSet set epoch => create_replica_set set epoch c
  | TransitionReplicaSet sid to => transition_replica_set sid to c
  | ProvisionReplica rid sid w compat dev cap mono wall =>
      provision_replica rid sid w compat dev cap mono wall c
  | SetAllocating rid pid => set_allocating rid pid c
  | SetStarting rid mono wall => set_starting rid mono wall c
  | WarmReplica rid warm w b mono => warm_replica rid warm w b mono c
  | ReportHealth rid ev w b mono => report_health rid ev w b mono c
  | ReportReadiness rid rr w b => report_readiness rid rr w b c
  | PromoteReplica rid target w b mono wall => promote_replica rid target w b mono wall c
  | DrainReplica rid w b mono => drain_replica rid w b mono c
  | CompleteDrain rid q force mono => complete_drain rid q force mono c
  | FailReplica rid w b reason mono => fail_replica rid w b reason mono c
  | RetireReplica rid => retire_replica rid c
  | TriggerFailover sid rid reason mono wall => trigger_failover sid rid reason mono wall c
  | SetEpoch e => (op_ok EmptyString, set_epoch e c)
  end.

(** The state an action leaves, whatever it returns. *)
Definition after (a : Action) c : Controller G := (exec a c).2.
Definition run (acts : list Action) c : Controller G := foldl (λ c a, after a c) c acts.

Definition step (c c' : Controller G) : Prop := ∃ a, wf_action a ∧ c' = after a c.
Definition reachable (rng : G) : Controller G → Prop := rtc step (new_controller rng).

Lemma run_steps acts c : Forall wf_action acts → rtc step c (run acts c).
Proof.
  intros Hacts. revert c. induction Hacts as [|a acts Ha _ IH]; intros c; simpl; [done|].
  eapply rtc_l; [|apply IH]. by exists a.
Qed.

Lemma run_reachable rng acts :
  Forall wf_action acts → reachable rng (run acts (new_controller rng)).
Proof. apply run_steps. Qed.
End exec.

Lemma ready_to_promote_spec r :
  ready_to_promote r = true ↔
  r_lifecycle r = ReplicaLifecycle.READY ∨ r_lifecycle r = ReplicaLifecycle.SERVING.
Proof. unfold ready_to_promote. by rewrite orb_true_iff, !bool_decide_eq_true. Qed.

Lemma terminated_false r :
  terminated r = false ↔
  r_lifecycle r ≠ ReplicaLifecycle.FAILED ∧ r_lifecycle r ≠ ReplicaLifecycle.RETIRED ∧
  r_lifecycle r ≠ ReplicaLifecycle.QUIESCED.
Proof.
  unfold terminated. rewrite !orb_false_iff, !bool_decide_eq_false. tauto.
Qed.

(** ** The moves of one replica *)

(** [replica_event e a rid r r']: under the epoch [e], the action [a] takes the replica
    [rid] from [r] to [r'].  The premises are the operation's guards on the replica
    and the types of the values it stores. *)
Inductive replica_event (e : CoordinatorEpoch) :
    Action → ReplicaId → ReplicaState → ReplicaState → Prop :=
  | ev_restart wr rid r :
      r_worker_id r = w_worker_id wr → r_lifecycle r = ReplicaLifecycle.SERVING →
      replica_event e (RegisterWorker wr) rid r (restart_replica r)
  | ev_disconnect w rid r :
      r_worker_id r = w → had_authority r = true →
      replica_event e (UnregisterWorker w) rid r (disconnect_replica r)
  | ev_allocate rid pid r :
      wf_id pid → can_transition (r_lifecycle r) ReplicaLifecycle.ALLOCATING = true →
      replica_event e (SetAllocating rid pid) rid r (allocate_replica pid r)
  | ev_start rid mono wall r :
      in_u64 mono → in_i64 wall →
      can_transition (r_lifecycle r) ReplicaLifecycle.STARTING = true →
      replica_event e (SetStarting rid mono wall) rid r (start_replica mono wall r)
  | ev_warm rid warm w b mono r :
      wf_WarmingRecord warm → in_u64 mono → worker_boot_matches r w b = true →
      can_transition (r_lifecycle r) ReplicaLifecycle.WARMING = true ∨
        r_lifecycle r = ReplicaLifecycle.WARMING →
      replica_event e (WarmReplica rid warm w b mono) rid r (warm_progress warm mono r)
  | ev_health rid ev w b mono r :
      wf_HealthEvidence ev → in_u64 mono → worker_boot_matches r w b = true →
      r_coordinator_epoch r = e → he_generation ev = r_health_generation r →
      terminated r = false →
      replica_event e (ReportHealth rid ev w b mono) rid r (observe_health ev mono r)
  | ev_readiness rid rr w b r :
      wf_ReadinessRecord rr → worker_boot_matches r w b = true →
      r_coordinator_epoch r = e → terminated r = false →
      replica_event e (ReportReadiness rid rr w b) rid r (observe_readiness rr r)
  | ev_primary rid w b mono wall hgen r :
      wf_id hgen → worker_boot_matches r w b = true → r_coordinator_epoch r = e →
      ready_to_promote r = true → r_readiness r = ReadinessState.READY →
      replica_event e (PromoteReplica rid PromotionState.PRIMARY w b mono wall) rid r
        (make_primary hgen r)
  | ev_standby rid target w b mono wall r :
      target ≠ PromotionState.PRIMARY → worker_boot_matches r w b = true →
      r_coordinator_epoch r = e → r_readiness r = ReadinessState.READY →
      replica_event e (PromoteReplica rid target w b mono wall) rid r (grant_standby target r)
  | ev_drain rid w b mono r :
      worker_boot_matches r w b = true → r_coordinator_epoch r = e →
      ready_to_promote r = true →
      replica_event e (DrainReplica rid w b mono) rid r
        (reject_new_work r <| r_lifecycle := ReplicaLifecycle.DRAINING |>)
  | ev_quiesce rid q force mono r :
      r_lifecycle r = ReplicaLifecycle.DRAINING → force = true ∨ r_active_requests r = 0 →
      replica_event e (CompleteDrain rid q force mono) rid r (quiesce_replica r)
  | ev_strip rid w b reason mono r :
      in_u64 mono → worker_boot_matches r w b = true →
      can_transition (r_lifecycle r) ReplicaLifecycle.FAILED = false →
      replica_event e (FailReplica rid w b reason mono) rid r (strip_failed reason mono r)
  | ev_fail rid w b reason mono r :
      in_u64 mono → worker_boot_matches r w b = true →
      can_transition (r_lifecycle r) ReplicaLifecycle.FAILED = true →
      replica_event e (FailReplica rid w b reason mono) rid r
        (strip_failed reason mono r <| r_lifecycle := ReplicaLifecycle.FAILED |>)
  | ev_retire rid r :
      can_transition (r_lifecycle r) ReplicaLifecycle.RETIRED = true →
      replica_event e (RetireReplica rid) rid r (retire_state r)
  | ev_obsolete sid rid reason mono wall r :
      r_set_id r = sid →
      replica_event e (TriggerFailover sid rid reason mono wall) rid r (obsolete_replica reason r)
  | ev_take_over sid failed reason mono wall rid hgen r :
      wf_id hgen → rid ≠ failed → r_set_id r = sid →
      ready_to_promote r = true → r_readiness r = ReadinessState.READY →
      r_health r = HealthState.HEALTHY ∨ r_health r = HealthState.DEGRADED →
      r_placement r = PlacementState.ASSIGNED →
      replica_event e (TriggerFailover sid failed reason mono wall) rid r (take_over hgen r).

Definition replica_change (e : CoordinatorEpoch) (a : Action) (rid : ReplicaId)
    (r r' : ReplicaState) : Prop :=
  r' = r ∨ replica_event e a rid r r'.

(** A replica table makes the moves the action allows, one per replica. *)
Definition evolves (e : CoordinatorEpoch) (a : Action) (m m' : gmap ReplicaId ReplicaState) : Prop :=
  ∀ rid, option_Forall2 (replica_change e a rid) (m !! rid) (m' !! rid).

#[global] Instance evolves_refl e a : Reflexive (evolves e a).
Proof. intros m rid. destruct (m !! rid); constructor. by left. Qed.

Lemma evolves_insert e a m rid r r' :
  m !! rid = Some r → replica_event e a rid r r' → evolves e a m (<[rid := r']> m).
Proof.
  intros Hr He k. destruct (decide (k = rid)) as [->|].
  - rewrite Hr, lookup_insert_eq. constructor. by right.
  - rewrite lookup_insert_ne by done. apply evolves_refl.
Qed.

Lemma evolves_fmap e a m (f : ReplicaState → ReplicaState) :
  (∀ rid r, replica_change e a rid r (f r)) → evolves e a m (f <$> m).
Proof. intros Hf k. rewrite lookup_fmap. destruct (m !! k); constructor. apply Hf. Qed.

Lemma evolves_insert_2 e a m rid r r' k s s' :
  m !! rid = Some r → replica_event e a rid r r' → m !! k = Some s → k ≠ rid →
  replica_event e a k s s' → evolves e a m (<[k := s']> (<[rid := r']> m)).
Proof.
  intros Hr He Hs Hk Hse j. destruct (decide (j = k)) as [->|].
  - rewrite Hs, lookup_insert_eq. constructor. by right.
  - rewrite lookup_insert_ne by done. by apply evolves_insert with r.
Qed.

(** ** The moves of one set *)

Definition set_change (s s' : ReplicaSetState) : Prop :=
  s' = s ∨ ∃ l, can_transition_set (s_lifecycle s) l = true ∧ s' = s <| s_lifecycle := l |>.
Definition sets_evolve (m m' : gmap ReplicaSetId ReplicaSetState) : Prop :=
  ∀ sid, option_Forall2 set_change (m !! sid) (m' !! sid).

#[global] Instance sets_evolve_refl : Reflexive sets_evolve.
Proof. intros m sid. destruct (m !! sid); constructor. by left. Qed.

Lemma sets_evolve_insert m sid s s' :
  m !! sid = Some s → set_change s s' → sets_evolve m (<[sid := s']> m).
Proof.
  intros Hs Hc k. destruct (decide (k = sid)) as [->|].
  - by rewrite Hs, lookup_insert_eq; constructor.
  - rewrite lookup_insert_ne by done. apply sets_evolve_refl.
Qed.

Lemma derive_set_lifecycle_change healthy s : set_change s (derive_set_lifecycle healthy s).
Proof.
  unfold derive_set_lifecycle. case_match; bool_to_prop; [right; naive_solver|].
  case_match; bool_to_prop; [right; naive_solver | by left].
Qed.

(** ** The failover's choice *)

Lemma elem_of_failover_candidates sid failed fw set m k r :
  (k, r) ∈ failover_candidates sid failed fw set m ↔
  m !! k = Some r ∧ failover_candidate sid failed set (k, r) = true.
Proof.
  unfold failover_candidates.
  rewrite (stable_sort_perm _ _), list_elem_of_filter, elem_of_entries. tauto.
Qed.

(** What the [continue] tests of the candidate loop let through. *)
Record failover_eligible (sid : ReplicaSetId) (failed : ReplicaId) (set : ReplicaSetState)
    (k : ReplicaId) (r : ReplicaState) : Prop := {
  fe_set : r_set_id r = sid;
  fe_other : k ≠ failed;
  fe_lifecycle : ready_to_promote r = true;
  fe_readiness : r_readiness r = ReadinessState.READY;
  fe_health : r_health r = HealthState.HEALTHY ∨ r_health r = HealthState.DEGRADED;
  fe_compatible : compatible_spec (s_compatibility set) (r_compatibility r);
  fe_placement : r_placement r = PlacementState.ASSIGNED;
  fe_generation : r_set_generation r = s_generation set;
}.

Lemma failover_candidate_spec sid failed set k r :
  failover_candidate sid failed set (k, r) = true ↔ failover_eligible sid failed set k r.
Proof.
  unfold failover_candidate. cbn [fst snd]. fold (ready_to_promote r).
  rewrite !andb_true_iff, check_compatibility_spec, !negb_true_iff, andb_false_iff.
  rewrite !bool_decide_eq_true, !bool_decide_eq_false. split.
  - intros H. destruct_and! H. split; try done. destruct_or!; [left|right]; by apply dec_stable.
  - intros []. split_and!; try done. destruct_or!; tauto.
Qed.

(** ** The promotion gates *)

(** What [promote_replica] asks of a replica before it grants any role. *)
Record promotable (epoch : CoordinatorEpoch) (set : ReplicaSetState) (r : ReplicaState) : Prop := {
  pr_epoch : r_coordinator_epoch r = epoch;
  pr_set_generation : r_set_generation r = s_generation set;
  pr_policy_generation : r_policy_generation r = s_policy_generation set;
  pr_artifact_generation : r_artifact_generation r = s_artifact_generation set;
  pr_ready : pp_require_ready (pb_promotion (s_policies set)) = true → ready_to_promote r = true;
  pr_readiness : r_readiness r = ReadinessState.READY;
  pr_healthy : pp_require_healthy (pb_promotion (s_policies set)) = true →
    r_health r ≠ HealthState.UNKNOWN ∧ r_health r ≠ HealthState.STARTING ∧
    r_health r ≠ HealthState.UNHEALTHY;
  pr_compatible : pp_require_compatible (pb_promotion (s_policies set)) = true →
    compatible_spec (s_compatibility set) (r_compatibility r);
  pr_placement : pp_require_placement_valid (pb_promotion (s_policies set)) = true →
    r_placement r = PlacementState.ASSIGNED;
  pr_resources : pp_require_resources (pb_promotion (s_policies set)) = true →
    r_capacity_total r ≠ 0;
}.

Lemma refused_unless (p b : bool) : p && negb b = false ↔ (p = true → b = true).
Proof. destruct p, b; naive_solver. Qed.

Lemma refused_if (p b : bool) : p && b = false ↔ (p = true → b = false).
Proof. destruct p, b; naive_solver. Qed.

Lemma if_Some_None {A} (b : bool) (x : A) (y : option A) :
  (if b then Some x else y) = None ↔ b = false ∧ y = None.
Proof. destruct b; naive_solver. Qed.

Lemma promotion_refusal_spec epoch set r :
  promotion_refusal epoch set r = None ↔ promotable epoch set r.
Proof.
  unfold promotion_refusal. rewrite !if_Some_None, !bool_decide_not.
  rewrite !refused_unless, !refused_if, !orb_false_iff, !negb_false_iff, !bool_decide_eq_true,
    !bool_decide_eq_false, Z.eqb_neq, check_compatibility_spec.
  split.
  - intros H. destruct_and! H. split; naive_solver.
  - intros []. split_and!; naive_solver.
Qed.

(** ** What one action changes *)

Section draws.
Context `{Rng G}.
Implicit Types c : Controller G.

Lemma draw_spec k c : ∃ i g, draw k c = (i, c <| rng_ := g |>) ∧ wf_id i.
Proof.
  unfold draw. pose proof (random_id_wf (k := k) (rng_ c)).
  destruct (random_id (rng_ c)) as [i g]. eauto.
Qed.
End draws.

(** Replaces every draw of the goal by an identity and an updated generator. *)
Ltac draw_all :=
  repeat match goal with
  | |- context [draw ?k ?c] => destruct (draw_spec k c) as (? & ? & -> & ?)
  end.

Section changes.
Context `{Rng G}.
Implicit Types c : Controller G.

(** [provision_replica] succeeds: its guards and the replica it stores. *)
Definition provisions (a : Action) c (rid : ReplicaId) (r : ReplicaState) : Prop :=
  match a with
  | ProvisionReplica rid' sid w compat dev cap mono wall =>
      rid' = rid ∧ ∃ set reg gen hgen,
        sets_ c !! sid = Some set ∧ workers_ c !! w = Some reg ∧
        s_lifecycle set ≠ ReplicaSetLifecycle.RETIRED ∧
        s_lifecycle set ≠ ReplicaSetLifecycle.FAILED ∧
        count_in_set sid (replicas_ c) < s_max_replicas set ∧
        wf_id gen ∧ wf_id hgen ∧
        r = provisioned rid sid w reg set compat dev cap mono wall (epoch_ c) gen hgen
  | _ => False
  end.

(** A list of branches of an operation that leave the replicas alone. *)
Ltac unchanged := try (apply evolves_refl || by apply sets_evolve_refl).

Lemma register_evolves wr c :
  evolves (epoch_ c) (RegisterWorker wr) (replicas_ c) (replicas_ (register_worker wr c).2).
Proof.
  unfold register_worker. cbn [snd]. destruct (restarted wr c); unchanged.
  apply evolves_fmap. intros rid r. case_match eqn:E; [|by left].
  bool_to_prop. right. by apply ev_restart.
Qed.

Lemma unregister_evolves w c :
  evolves (epoch_ c) (UnregisterWorker w) (replicas_ c) (replicas_ (unregister_worker w c).2).
Proof.
  unfold unregister_worker. case_match; unchanged. apply evolves_fmap. intros rid r.
  case_match eqn:E; [|by left]. case_match; [|by left]. bool_to_prop.
  right. by apply ev_disconnect.
Qed.

Lemma promote_evolves rid target w b mono wall c :
  evolves (epoch_ c) (PromoteReplica rid target w b mono wall)
    (replicas_ c) (replicas_ (promote_replica rid target w b mono wall c).2).
Proof.
  unfold promote_replica. destruct (replicas_ c !! rid) as [r|] eqn:Hr; unchanged.
  case_match; unchanged. destruct (sets_ c !! _) as [set|]; unchanged.
  destruct (promotion_refusal _ _ _) eqn:Hp; unchanged.
  apply promotion_refusal_spec in Hp as []. bool_to_prop.
  case_match; bool_to_prop; subst.
  - case_match; unchanged. case_match; unchanged. bool_to_prop. draw_all.
    unfold finish_promotion. draw_all. apply evolves_insert with r; [done|]. by apply ev_primary.
  - unfold finish_promotion. draw_all. apply evolves_insert with r; [done|]. by apply ev_standby.
Qed.

Lemma failover_evolves sid rid reason mono wall c :
  evolves (epoch_ c) (TriggerFailover sid rid reason mono wall)
    (replicas_ c) (replicas_ (trigger_failover sid rid reason mono wall c).2).
Proof.
  unfold trigger_failover. destruct (sets_ c !! sid) as [set|]; unchanged.
  destruct (replicas_ c !! rid) as [r|] eqn:Hr; unchanged. case_match; unchanged. bool_to_prop.
  destruct (failover_candidates _ _ _ _ _) as [|[k s] l] eqn:Hf; draw_all.
  - apply evolves_insert with r; [done|by apply ev_obsolete].
  - assert (Hin : (k, s) ∈ (k, s) :: l) by left.
    rewrite <-Hf in Hin. apply elem_of_failover_candidates in Hin as [Hk Hs].
    apply failover_candidate_spec in Hs as []. cbn -[obsolete_replica take_over] in *.
    rewrite lookup_insert_ne in Hk by done.
    eapply evolves_insert_2; [done|by apply ev_obsolete|done|done|]. by apply ev_take_over.
Qed.

Lemma exec_evolves a c :
  wf_action a → is_provision a = false →
  evolves (epoch_ c) a (replicas_ c) (replicas_ (after a c)).
Proof.
  unfold after. destruct a; intros Hwf Ha; try done; cbn [exec snd]; cbn in Hwf; unchanged;
    try first [apply register_evolves | apply unregister_evolves | apply promote_evolves
              | apply failover_evolves].
  - unfold create_replica_set. case_match; unchanged. case_match; unchanged.
  - unfold transition_replica_set. case_match; unchanged. case_match; unchanged.
  - unfold set_allocating. case_match; unchanged. case_match; unchanged. bool_to_prop.
    eapply evolves_insert; [done|]. apply ev_allocate; tauto.
  - unfold set_starting. case_match; unchanged. case_match; unchanged. bool_to_prop.
    eapply evolves_insert; [done|]. apply ev_start; tauto.
  - unfold warm_replica. case_match; unchanged. do 2 (case_match; unchanged).
    bool_to_prop. eapply evolves_insert; [done|]. apply ev_warm; [tauto..|].
    destruct_or!; bool_to_prop; auto.
  - unfold report_health. case_match; unchanged. do 4 (case_match; unchanged).
    bool_to_prop. eapply evolves_insert; [done|]. apply ev_health; tauto.
  - unfold report_readiness. case_match; unchanged. do 3 (case_match; unchanged). bool_to_prop.
    eapply evolves_insert; [done|]. apply ev_readiness; tauto.
  - unfold drain_replica. case_match; unchanged. do 3 (case_match; unchanged).
    rewrite !bool_decide_not, <-negb_orb in *. fold (ready_to_promote r) in *. bool_to_prop.
    destruct (can_transition _ _) eqn:E.
    + draw_all. eapply evolves_insert; [done|]. by apply ev_drain.
    + exfalso. assert (Hl : ready_to_promote r = true) by done.
      apply ready_to_promote_spec in Hl as [Hl|Hl];
        change (can_transition (r_lifecycle r) ReplicaLifecycle.DRAINING = false) in E;
        by rewrite Hl in E.
  - unfold complete_drain. case_match; unchanged. do 3 (case_match; unchanged).
    bool_to_prop. eapply evolves_insert; [done|]. apply ev_quiesce; [done|].
    destruct_or!; bool_to_prop; auto.
  - unfold fail_replica. case_match; unchanged. case_match; unchanged. bool_to_prop.
    case_match eqn:Hf; bool_to_prop; (eapply evolves_insert; [done|]);
      [apply (ev_strip _ _ _ _ reason mono) | apply (ev_fail _ _ _ _ reason mono)];
      (exact Hf || tauto).
  - unfold retire_replica. case_match; unchanged. case_match; unchanged.
    bool_to_prop. eapply evolves_insert; [done|]. by apply ev_retire.
Qed.

(** Every replica keeps its value, makes a move, or is (re-)provisioned. *)
Lemma exec_replicas a c rid :
  wf_action a →
  option_Forall2 (replica_change (epoch_ c) a rid)
    (replicas_ c !! rid) (replicas_ (after a c) !! rid) ∨
  ∃ r, provisions a c rid r ∧ replicas_ (after a c) !! rid = Some r.
Proof.
  intros Hwf. destruct (is_provision a) eqn:Ha; [|left; by apply exec_evolves].
  destruct a; try done. unfold after. cbn [exec]. unfold provision_replica.
  destruct (sets_ c !! set_id) as [set|] eqn:Hset; [|left; unchanged].
  case_match; [left; unchanged|]. case_match; [|left; unchanged].
  case_match; [left; unchanged|]. draw_all. bool_to_prop. cbn [snd].
  change (replicas_ (store_replica ?k ?v _)) with (<[k := v]> (replicas_ c)).
  destruct (decide (rid = replica_id)) as [->|]; [|left].
  - right. eexists. rewrite lookup_insert_eq. split; [|done]. cbn. split; [done|].
    eexists _, _, _, _. split_and!; [done..|]. by case_match.
  - rewrite lookup_insert_ne by done. apply evolves_refl.
Qed.

(** Every set keeps its value or moves its lifecycle along the guarded table, and a
    set appears only when [create_replica_set] accepts it. *)
Definition creates (a : Action) (sid : ReplicaSetId) (s : ReplicaSetState) : Prop :=
  match a with
  | CreateReplicaSet set _ => set = s ∧ s_id s = sid ∧ counts_invalid s = false
  | _ => False
  end.

Lemma exec_sets a c sid :
  option_Forall2 set_change (sets_ c !! sid) (sets_ (after a c) !! sid) ∨
  ∃ s, creates a sid s ∧ sets_ c !! sid = None ∧ sets_ (after a c) !! sid = Some s.
Proof.
  assert (Hsame : ∀ c', sets_ c' = sets_ c →
    option_Forall2 set_change (sets_ c !! sid) (sets_ c' !! sid)).
  { intros c' ->. apply sets_evolve_refl. }
  unfold after. destruct a; cbn [exec].
  - left. apply Hsame. unfold register_worker. cbn [snd].
    by destruct (restarted wr c).
  - left. apply Hsame. unfold unregister_worker. by case_match.
  - unfold create_replica_set. case_match eqn:Hs; [by left; apply Hsame|].
    case_match; [by left; apply Hsame|]. cbn.
    destruct (decide (sid = s_id set)) as [->|].
    + right. exists set. by rewrite lookup_insert_eq.
    + left. rewrite lookup_insert_ne by done. apply sets_evolve_refl.
  - left. unfold transition_replica_set. case_match; [|by apply Hsame].
    case_match; [by apply Hsame|]. bool_to_prop.
    eapply sets_evolve_insert; [done|]. right; eauto.
  - left. unfold provision_replica. case_match eqn:Hs; [|by apply Hsame].
    do 3 (case_match; try by apply Hsame). draw_all.
    eapply sets_evolve_insert; [done|]. case_match eqn:El; [right|by left].
    bool_to_prop. eexists. split; [|done]. by rewrite El.
  - left. apply Hsame. unfold set_allocating. by repeat case_match.
  - left. apply Hsame. unfold set_starting. by repeat case_match.
  - left. apply Hsame. unfold warm_replica. by repeat case_match.
  - left. apply Hsame. unfold report_health. by repeat case_match.
  - left. apply Hsame. unfold report_readiness. by repeat case_match.
  - left. unfold promote_replica. case_match; [|by apply Hsame].
    case_match; [by apply Hsame|]. case_match eqn:Hs; [|by apply Hsame].
    case_match; [by apply Hsame|]. case_match.
    + do 2 (case_match; [by apply Hsame|]). draw_all. unfold finish_promotion. draw_all.
      eapply sets_evolve_insert; [done|apply derive_set_lifecycle_change].
    + unfold finish_promotion. draw_all.
      eapply sets_evolve_insert; [done|apply derive_set_lifecycle_change].
  - left. apply Hsame. unfold drain_replica. do 5 (case_match; try done). by draw_all.
  - left. apply Hsame. unfold complete_drain. by repeat case_match.
  - left. apply Hsame. unfold fail_replica. by repeat case_match.
  - left. apply Hsame. unfold retire_replica. by repeat case_match.
  - left. unfold trigger_failover. case_match eqn:Hs; [|by apply Hsame].
    case_match; [|by apply Hsame]. case_match; [by apply Hsame|].
    case_match; draw_all; [by apply Hsame|]. case_match. draw_all.
    eapply sets_evolve_insert; [done|apply derive_set_lifecycle_change].
  - left. by apply Hsame.
Qed.
End changes.
