(* ===== verification/ControllerInv.v ===== *)
(** Invariants of the replica-set controller.

    [replica_inv] is what every replica satisfies, [controller_inv] what every
    reachable controller does; both are preserved move by move, so the proofs are
    inductions on [replica_event] and on the run, never on an operation's code. *)

From S2P Require Import Prelude Identity Enums Model Transition Compatibility Authority Controller ControllerRun.

(** ** One replica *)

Record replica_inv (rid : ReplicaId) (r : ReplicaState) : Prop := {
  ri_key : r_id r = rid;
  ri_wf : wf_ReplicaState r;
  (** The serving flag, the PRIMARY promotion and the PRIMARY role come and go together, *)
  ri_flag : r_serving_eligible r = bool_decide (r_promotion r = PromotionState.PRIMARY);
  ri_role : r_serving_eligible r = bool_decide (r_role r = ReplicaRole.PRIMARY);
  (** and only in SERVING. *)
  ri_serving : r_serving_eligible r = true → r_lifecycle r = ReplicaLifecycle.SERVING;
  (** READY means every readiness factor was reported set. *)
  ri_ready : r_readiness r = ReadinessState.READY → all_set (rr_factors (r_readiness_record r)) = true;
  (** A placement is assigned exactly when it has an identity. *)
  ri_placed : r_placement r = PlacementState.ASSIGNED → r_placement_id r ≠ null;
  (** Nothing counts requests or reserves capacity. *)
  ri_idle : r_active_requests r = 0 ∧ r_reserved_capacity r = 0;
}.

Definition authority_flags (r : ReplicaState) : Prop :=
  r_serving_eligible r = bool_decide (r_promotion r = PromotionState.PRIMARY) ∧
  r_serving_eligible r = bool_decide (r_role r = ReplicaRole.PRIMARY) ∧
  (r_serving_eligible r = true → r_lifecycle r = ReplicaLifecycle.SERVING).

(** Splits the conditionals of an updated replica. *)
Ltac event_cases := intros []; simpl; repeat case_match; simpl.

Lemma event_id e a rid r r' : replica_event e a rid r r' → r_id r' = r_id r ∧ r_set_id r' = r_set_id r ∧
  r_worker_id r' = r_worker_id r ∧ r_boot_id r' = r_boot_id r ∧
  r_generation r' = r_generation r ∧ r_coordinator_epoch r' = r_coordinator_epoch r ∧
  r_set_generation r' = r_set_generation r ∧ r_policy_generation r' = r_policy_generation r ∧
  r_policy_fingerprint r' = r_policy_fingerprint r ∧
  r_artifact_generation r' = r_artifact_generation r ∧ r_compatibility r' = r_compatibility r.
Proof.
  intros []; try done;
  unfold warm_progress, observe_health, observe_readiness, make_primary, take_over, obsolete_replica;
    cbn zeta; repeat case_match; done.
Qed.

Lemma event_wf e a rid r r' : replica_event e a rid r r' → wf_ReplicaState r → wf_ReplicaState r'.
Proof.
  intros [] Hwf; try exact Hwf;
  unfold warm_progress, observe_health, observe_readiness, make_primary, take_over, obsolete_replica;
    cbn zeta; repeat case_match; try exact Hwf.
  all: unfold wf_ReplicaState, wf_HealthRecord, wf_HealthEvidence, wf_WarmingRecord in *;
    destruct_and?; split_and?; try assumption; try apply u32_range; done.
Qed.

(** The flags on their own: what an event does to them does not look at the rest. *)
Definition flags_ok (l : ReplicaLifecycle) (p : PromotionState) (role : ReplicaRole) (f : bool) :
    Prop :=
  f = bool_decide (p = PromotionState.PRIMARY) ∧ f = bool_decide (role = ReplicaRole.PRIMARY) ∧
  (f = true → l = ReplicaLifecycle.SERVING).

Definition replica_flags (r : ReplicaState) : Prop :=
  flags_ok (r_lifecycle r) (r_promotion r) (r_role r) (r_serving_eligible r).

Lemma flags_down l p role :
  p ≠ PromotionState.PRIMARY → role ≠ ReplicaRole.PRIMARY → flags_ok l p role false.
Proof. intros. split_and!; [by rewrite bool_decide_false..|done]. Qed.

Lemma flags_up : flags_ok ReplicaLifecycle.SERVING PromotionState.PRIMARY ReplicaRole.PRIMARY true.
Proof. done. Qed.

(** Outside SERVING the flags are down, so the lifecycle may move. *)
Lemma flags_move l l' p role f :
  l ≠ ReplicaLifecycle.SERVING → flags_ok l p role f → flags_ok l' p role f.
Proof. intros Hl (?&?&Hs). split_and!; [done..|]. intros Hf. by destruct Hl; apply Hs. Qed.

Lemma flags_quiesce l l' p role f :
  l ≠ ReplicaLifecycle.SERVING → flags_ok l p role f → flags_ok l' p role false.
Proof.
  intros Hl (?&?&Hs). destruct f; [by destruct Hl; apply Hs|]. by split_and!.
Qed.

Lemma not_serving l to :
  can_transition l to = true → can_transition ReplicaLifecycle.SERVING to = false →
  l ≠ ReplicaLifecycle.SERVING.
Proof. congruence. Qed.

Lemma warming_not_serving l :
  bool_decide (l = ReplicaLifecycle.WARMING) || bool_decide (l = ReplicaLifecycle.STARTING) = true →
  l ≠ ReplicaLifecycle.SERVING.
Proof. by destruct l. Qed.

Lemma take_over_flags hgen r : ready_to_promote r = true → replica_flags (take_over hgen r).
Proof.
  intros _. unfold take_over. case_match; bool_to_prop; [apply flags_up|].
  assert (Hl : r_lifecycle r = ReplicaLifecycle.SERVING) by done.
  unfold replica_flags. change (r_lifecycle (grant_primary hgen r)) with (r_lifecycle r).
  rewrite Hl. apply flags_up.
Qed.

Lemma observe_health_flags ev mono r :
  let d := r_serving_eligible r && health_bad (he_state ev) in
  r_lifecycle (observe_health ev mono r) = r_lifecycle r ∧
  r_promotion (observe_health ev mono r) = (if d then PromotionState.STANDBY else r_promotion r) ∧
  r_role (observe_health ev mono r) = (if d then ReplicaRole.SECONDARY else r_role r) ∧
  r_serving_eligible (observe_health ev mono r) = (if d then false else r_serving_eligible r) ∧
  r_health (observe_health ev mono r) = he_state ev.
Proof.
  assert (E : observe_health ev mono r =
    let r1 := r <| r_health := he_state ev |>
                <| r_health_record := r_health_record (observe_health ev mono r) |> in
    if r_serving_eligible r && health_bad (he_state ev)
    then r1 <| r_serving_eligible := false |> <| r_role := ReplicaRole.SECONDARY |>
            <| r_promotion := PromotionState.STANDBY |>
    else r1).
  { unfold observe_health. cbn zeta.
    change (r_serving_eligible (set_field r_health_record _ _)) with (r_serving_eligible r).
    by destruct (r_serving_eligible r && health_bad (he_state ev)). }
  rewrite E. generalize (r_health_record (observe_health ev mono r)). intros hr.
  cbn zeta. by destruct (r_serving_eligible r && health_bad (he_state ev)).
Qed.

Lemma obsolete_lifecycle reason r :
  r_lifecycle (obsolete_replica reason r) =
  if can_transition (r_lifecycle r) ReplicaLifecycle.FAILED
  then ReplicaLifecycle.FAILED else r_lifecycle r.
Proof.
  unfold obsolete_replica. cbn zeta. case_bool_decide as E.
  - case_match eqn:F; [change (can_transition (r_lifecycle r) ReplicaLifecycle.FAILED = true) in F
                      |change (can_transition (r_lifecycle r) ReplicaLifecycle.FAILED = false) in F];
      by rewrite F.
  - change (r_lifecycle r = ReplicaLifecycle.FAILED) in E. by rewrite E.
Qed.

Lemma obsolete_authority reason r :
  r_promotion (obsolete_replica reason r) = PromotionState.NOT_PROMOTED ∧
  r_role (obsolete_replica reason r) = ReplicaRole.NONE ∧
  r_serving_eligible (obsolete_replica reason r) = false.
Proof. unfold obsolete_replica. cbn zeta. by repeat case_match. Qed.

Lemma obsolete_flags reason r : replica_flags (obsolete_replica reason r).
Proof.
  unfold replica_flags. destruct (obsolete_authority reason r) as (-> & -> & ->).
  by apply flags_down.
Qed.

Lemma event_flags e a rid r r' : replica_event e a rid r r' → replica_flags r → replica_flags r'.
Proof.
  intros He Hr. destruct He.
  - by apply flags_down.
  - by apply flags_down.
  - apply (flags_move (r_lifecycle r)); [by eapply not_serving|exact Hr].
  - apply (flags_move (r_lifecycle r)); [by eapply not_serving|exact Hr].
  - assert (Hl : r_lifecycle r ≠ ReplicaLifecycle.SERVING).
    { destruct_or!; [by eapply not_serving|congruence]. }
    unfold warm_progress. cbn zeta. repeat case_match;
      (apply (flags_move (r_lifecycle r)); [done|exact Hr]).
  - unfold replica_flags. destruct (observe_health_flags ev mono r) as (-> & -> & -> & -> & _).
    case_match; [by apply flags_down|exact Hr].
  - unfold observe_readiness. cbn zeta. repeat case_match; try exact Hr.
    apply (flags_move (r_lifecycle r)); [|exact Hr].
    match goal with E : _ && _ = true |- _ => apply andb_true_iff in E as [E _] end.
    by apply warming_not_serving.
  - assert (Ht : replica_flags (take_over hgen r)) by by apply take_over_flags.
    unfold make_primary. fold (take_over hgen r). unfold replica_flags in *.
    case_match; exact Ht.
  - apply flags_down; [done|]. cbn. by case_match.
  - by apply flags_down.
  - apply (flags_quiesce (r_lifecycle r) _ _ _ (r_serving_eligible r)); [congruence|exact Hr].
  - by apply flags_down.
  - by apply flags_down.
  - by apply flags_down.
  - apply obsolete_flags.
  - by apply take_over_flags.
Qed.

(** ** The guarded lifecycle *)

Lemma serving_may_fail l :
  l = ReplicaLifecycle.SERVING → can_transition l ReplicaLifecycle.FAILED = true.
Proof. by intros ->. Qed.

Lemma had_authority_may_fail r :
  had_authority r = true → replica_flags r →
  can_transition (r_lifecycle r) ReplicaLifecycle.FAILED = true.
Proof.
  unfold had_authority. rewrite !orb_true_iff, !bool_decide_eq_true. intros Ha (_ & _ & Hs).
  destruct_or! Ha; [apply serving_may_fail; by apply Hs|by rewrite Ha..].
Qed.

Lemma primary_lifecycle hgen r :
  r_lifecycle (take_over hgen r) = ReplicaLifecycle.SERVING ∧
  r_lifecycle (make_primary hgen r) = ReplicaLifecycle.SERVING.
Proof.
  unfold make_primary. fold (take_over hgen r).
  assert (Ht : r_lifecycle (take_over hgen r) = ReplicaLifecycle.SERVING); 
    [|split; [|case_match]; exact Ht].
  unfold take_over. by case_bool_decide.
Qed.

(** An event keeps the lifecycle or moves it along the table. *)
Lemma event_lifecycle e a rid r r' :
  replica_event e a rid r r' → replica_flags r →
  r_lifecycle r' = r_lifecycle r ∨ lifecycle_step (r_lifecycle r) (r_lifecycle r').
Proof.
  intros He Hr.
  assert (Hready : ∀ x, r_lifecycle x = ReplicaLifecycle.SERVING → ready_to_promote r = true →
    r_lifecycle x = r_lifecycle r ∨ lifecycle_step (r_lifecycle r) (r_lifecycle x)).
  { intros x ->. rewrite ready_to_promote_spec. intros [-> | ->]; [by right|by left]. }
  destruct He; try (right; done).
  - right. by apply serving_may_fail.
  - right. apply (had_authority_may_fail r); [done|exact Hr].
  - unfold warm_progress. cbn zeta. destruct_or!; [right|left].
    + repeat case_match; done.
    + by repeat case_match.
  - left. apply observe_health_flags.
  - unfold observe_readiness. cbn zeta. repeat case_match; try (by left). right.
    match goal with E : _ && _ = true |- _ => by apply andb_true_iff in E as [_ E] end.
  - apply Hready; [apply primary_lifecycle|done].
  - by left.
  - right. by destruct (proj1 (ready_to_promote_spec r) ltac:(done)) as [-> | ->].
  - right. match goal with E : _ = ReplicaLifecycle.DRAINING |- _ => by rewrite E end.
  - by left.
  - rewrite obsolete_lifecycle. case_match; [by right|by left].
  - apply Hready; [apply primary_lifecycle|done].
Qed.

(** ** Winding down *)

(** The states an operation never leads back from: DRAINING -> READY and
    QUIESCED -> READY are in the table, but no operation takes them. *)
Definition going_down (l : ReplicaLifecycle) : bool :=
  match l with
  | ReplicaLifecycle.DRAINING | ReplicaLifecycle.QUIESCED
  | ReplicaLifecycle.FAILED | ReplicaLifecycle.RETIRED => true
  | _ => false
  end.

Lemma down_stays l to :
  going_down l = true → can_transition l to = true →
  going_down to = true ∨ to = ReplicaLifecycle.READY.
Proof. destruct l, to; auto. Qed.

Lemma event_down e a rid r r' :
  replica_event e a rid r r' → going_down (r_lifecycle r) = true → going_down (r_lifecycle r') = true.
Proof.
  intros He Hd.
  assert (Hstep : ∀ to, can_transition (r_lifecycle r) to = true → to ≠ ReplicaLifecycle.READY →
    going_down to = true).
  { intros to Ht Hn. by destruct (down_stays _ _ Hd Ht). }
  assert (Hready : ready_to_promote r = false).
  { destruct (ready_to_promote r) eqn:E; [|done].
    by apply ready_to_promote_spec in E as [E|E]; rewrite E in Hd. }
  destruct He; try done; try congruence.
  - by apply (Hstep ReplicaLifecycle.ALLOCATING).
  - by apply (Hstep ReplicaLifecycle.STARTING).
  - exfalso. match goal with E : _ ∨ r_lifecycle _ = ReplicaLifecycle.WARMING |- _ =>
      destruct E as [E|E]; [by apply Hstep in E | by rewrite E in Hd] end.
  - rewrite (proj1 (observe_health_flags ev mono r)). exact Hd.
  - unfold observe_readiness. cbn zeta. repeat case_match; try exact Hd. exfalso.
    match goal with E : _ && _ = true |- _ => apply andb_true_iff in E as [E _] end.
    match goal with E : _ || _ = true |- _ => revert E Hd end.
    change (r_lifecycle (set_field _ _ _)) with (r_lifecycle r). by destruct (r_lifecycle r).
  - rewrite obsolete_lifecycle. by case_match.
Qed.

(** Only [drain_replica] makes a replica DRAINING. *)
Lemma event_draining e a rid r r' :
  replica_event e a rid r r' → r_lifecycle r' = ReplicaLifecycle.DRAINING →
  r_lifecycle r = ReplicaLifecycle.DRAINING ∨ ∃ w b mono, a = DrainReplica rid w b mono.
Proof.
  intros He Hl. destruct He; try done; try (by left); try (right; by eauto).
  - exfalso. revert Hl. unfold warm_progress. cbn zeta. by repeat case_match.
  - left. by rewrite (proj1 (observe_health_flags ev mono r)) in Hl.
  - left. revert Hl. unfold observe_readiness. cbn zeta. by repeat case_match.
  - by rewrite (proj2 (primary_lifecycle hgen r)) in Hl.
  - left. rewrite obsolete_lifecycle in Hl. by case_match.
  - by rewrite (proj1 (primary_lifecycle hgen r)) in Hl.
Qed.

(** ** The other fields of the invariant *)

Definition replica_ready (r : ReplicaState) : Prop :=
  r_readiness r = ReadinessState.READY → all_set (rr_factors (r_readiness_record r)) = true.

Lemma observe_readiness_ready rr r : replica_ready (observe_readiness rr r).
Proof.
  unfold observe_readiness. cbn zeta. case_match eqn:E; [|done]. intros _. by case_match.
Qed.

Ltac same_fields :=
  unfold warm_progress, observe_health, make_primary, take_over, obsolete_replica; cbn zeta;
  repeat case_match; (reflexivity || (split; reflexivity)).

Lemma event_readiness e a rid r r' :
  replica_event e a rid r r' →
  (r_readiness r' = r_readiness r ∧ r_readiness_record r' = r_readiness_record r) ∨
  replica_ready r'.
Proof. intros []; try (left; same_fields). right. apply observe_readiness_ready. Qed.

Lemma event_placement e a rid r r' :
  replica_event e a rid r r' →
  (r_placement r' = r_placement r ∧ r_placement_id r' = r_placement_id r) ∨
  (r_placement r' = PlacementState.ASSIGNED → r_placement_id r' ≠ null).
Proof.
  intros []; try (left; same_fields).
  - right. unfold allocate_replica. cbn. case_match; [|done].
    intros _. by apply is_null_false, negb_true_iff.
  - left. unfold observe_readiness. cbn zeta. by repeat case_match.
Qed.

Lemma event_idle e a rid r r' :
  replica_event e a rid r r' →
  (r_active_requests r' = r_active_requests r ∨ r_active_requests r' = 0) ∧
  (r_reserved_capacity r' = r_reserved_capacity r ∨ r_reserved_capacity r' = 0).
Proof.
  intros []; split; (try by right); (try by left);
    try (left; unfold observe_readiness; same_fields).
  right. same_fields.
Qed.

Lemma event_inv e a rid r r' : replica_event e a rid r r' → replica_inv rid r → replica_inv rid r'.
Proof.
  intros He []. destruct (event_flags _ _ _ _ _ He) as (?&?&?); [by split_and!|].
  split; [|by eapply event_wf|done..| | |].
  - by rewrite (proj1 (event_id _ _ _ _ _ He)).
  - destruct (event_readiness _ _ _ _ _ He) as [[-> ->]|]; done.
  - destruct (event_placement _ _ _ _ _ He) as [[-> ->]|]; done.
  - destruct (event_idle _ _ _ _ _ He) as [[-> | ->] [-> | ->]]; naive_solver.
Qed.

Lemma change_inv e a rid r r' : replica_change e a rid r r' → replica_inv rid r → replica_inv rid r'.
Proof. intros [->|He]; [done|]. by eapply event_inv. Qed.

(** ** What the actions do to the rest of the state *)

Section frame.
Context `{Rng G}.
Implicit Types c : Controller G.

(** Which component of the state each action can touch besides replicas and sets. *)
Record frame (a : Action) c c' : Prop := {
  fr_epoch : epoch_ c' = epoch_ c ∨
    match a with CreateReplicaSet _ e | SetEpoch e => epoch_ c' = e | _ => False end;
  fr_workers : workers_ c' = workers_ c ∨
    match a with
    | RegisterWorker wr => workers_ c' = <[w_worker_id wr := wr]> (workers_ c)
    | UnregisterWorker w => workers_ c' = delete w (workers_ c)
    | _ => False
    end;
  fr_promotions : promotions_ c' = promotions_ c ∨
    match a with PromoteReplica _ _ _ _ _ _ | TriggerFailover _ _ _ _ _ => True | _ => False end;
  fr_drains : drains_ c' = drains_ c ∨
    match a with DrainReplica _ _ _ _ | CompleteDrain _ _ _ _ => True | _ => False end;
  fr_failovers : failovers_ c' = failovers_ c ∨
    match a with TriggerFailover _ _ _ _ _ => True | _ => False end;
}.

Lemma exec_frame a c : frame a c (after a c).
Proof.
  unfold after. destruct a; cbn [exec].
  all: try (split; auto; fail).
  - unfold register_worker. destruct (restarted wr c); split; auto.
  - unfold unregister_worker. case_match; split; auto.
  - unfold create_replica_set. repeat case_match; split; auto.
  - unfold transition_replica_set. repeat case_match; split; auto.
  - unfold provision_replica. do 4 (case_match; try (split; auto; fail)); draw_all; split; auto.
  - unfold set_allocating. repeat case_match; split; auto.
  - unfold set_starting. repeat case_match; split; auto.
  - unfold warm_replica. do 3 (case_match; try (split; auto; fail)); split; auto.
  - unfold report_health. do 5 (case_match; try (split; auto; fail)); split; auto.
  - unfold report_readiness. do 4 (case_match; try (split; auto; fail)); split; auto.
  - unfold promote_replica. do 4 (case_match; try (split; auto; fail)). case_match.
    + do 2 (case_match; try (split; auto; fail)). draw_all. unfold finish_promotion. draw_all.
      split; auto.
    + unfold finish_promotion. draw_all. split; auto.
  - unfold drain_replica. do 4 (case_match; try (split; auto; fail)).
    case_match; draw_all; split; auto.
  - unfold complete_drain. do 4 (case_match; try (split; auto; fail)); split; auto.
  - unfold fail_replica. do 2 (case_match; try (split; auto; fail)). case_match; split; auto.
  - unfold retire_replica. do 2 (case_match; try (split; auto; fail)); split; auto.
  - unfold trigger_failover. do 3 (case_match; try (split; auto; fail)).
    case_match; draw_all; [split; auto|]. case_match. draw_all. split; auto.
Qed.
End frame.

(** ** The audit records *)

Definition open_drain (rid : ReplicaId) (d : DrainRecord) : Prop :=
  d_replica_id d = rid ∧ d_state d = DrainState.DRAINING.

Lemma finish_drain_wf rid mono q force l :
  in_u64 mono → in_u64 q → Forall wf_DrainRecord l →
  Forall wf_DrainRecord (finish_drain rid mono q force l).
Proof.
  intros Hm Hq. induction 1 as [|d l Hd Hl IH]; simpl; [constructor|].
  case_match; constructor; try done.
  unfold wf_DrainRecord in *. destruct_and!. by split_and!.
Qed.

(** Closing one replica's drain leaves every other open drain open. *)
Lemma finish_drain_others rid k mono q force l :
  k ≠ rid → Exists (open_drain k) l → Exists (open_drain k) (finish_drain rid mono q force l).
Proof.
  intros Hk. induction 1 as [d l [Hd Hs]|d l Hl IH]; simpl; case_match; bool_to_prop.
  - congruence.
  - left. by split.
  - by right.
  - by right.
Qed.

(** The first open record of the replica is the one closed. *)
Lemma finish_drain_first rid mono q force l1 d l2 :
  Forall (λ d, ¬ open_drain rid d) l1 → open_drain rid d →
  finish_drain rid mono q force (l1 ++ d :: l2) =
  l1 ++ d <| d_state := DrainState.QUIESCED |> <| d_completed_mono := mono |>
          <| d_quiesced_requests := q |> <| d_force_cancelled := force |> :: l2.
Proof.
  intros Hl [Hr Hs]. induction Hl as [|x l Hx _ IH]; simpl.
  - by rewrite Hr, Hs, !bool_decide_true by done.
  - case_match eqn:E; [|by rewrite IH]. bool_to_prop. destruct Hx. by split.
Qed.

Section audit.
Context `{Rng G}.
Implicit Types c : Controller G.

Lemma drain_effect rid w b mono c :
  after (DrainReplica rid w b mono) c = c ∨
  ∃ r did, replicas_ c !! rid = Some r ∧ wf_id did ∧
    replicas_ (after (DrainReplica rid w b mono) c) =
      <[rid := reject_new_work r <| r_lifecycle := ReplicaLifecycle.DRAINING |>]> (replicas_ c) ∧
    drains_ (after (DrainReplica rid w b mono) c) = drains_ c ++
      [mkDrainRecord did (r_id r) (r_set_id r) DrainState.DRAINING mono 0 false 0
         "drain requested: reject new work, allow existing to finish"].
Proof.
  unfold after. cbn [exec]. unfold drain_replica.
  destruct (replicas_ c !! rid) as [r|] eqn:Hr; [|by left].
  do 3 (case_match; [by left|]).
  assert (Hready : ready_to_promote r = true).
  { apply ready_to_promote_spec. bool_to_prop. destruct_or!; bool_to_prop; auto. }
  destruct (can_transition (r_lifecycle (reject_new_work r)) _) eqn:E.
  - draw_all. right. eauto 10.
  - exfalso. change (can_transition (r_lifecycle r) ReplicaLifecycle.DRAINING = false) in E.
    apply ready_to_promote_spec in Hready as [Hl|Hl]; by rewrite Hl in E.
Qed.

Lemma complete_drain_effect rid q force mono c :
  after (CompleteDrain rid q force mono) c = c ∨
  ∃ r, replicas_ c !! rid = Some r ∧ r_lifecycle r = ReplicaLifecycle.DRAINING ∧
    replicas_ (after (CompleteDrain rid q force mono) c) =
      <[rid := quiesce_replica r]> (replicas_ c) ∧
    drains_ (after (CompleteDrain rid q force mono) c) =
      finish_drain (r_id r) mono q force (drains_ c).
Proof.
  unfold after. cbn [exec]. unfold complete_drain.
  destruct (replicas_ c !! rid) as [r|] eqn:Hr; [|by left].
  do 3 (case_match; [by left|]). right. exists r. bool_to_prop. by split_and!.
Qed.

(** What a role change leaves in the audit trail. *)
Lemma promote_logs rid target w b mono wall c :
  (∀ k r, replicas_ c !! k = Some r → wf_ReplicaState r) → wf_id (epoch_ c) →
  in_u64 mono → in_i64 wall →
  ∃ ps, promotions_ (after (PromoteReplica rid target w b mono wall) c) = promotions_ c ++ ps ∧
    Forall wf_PromotionRecord ps ∧ (length ps ≤ 1)%nat.
Proof.
  intros Hwf He Hm Hw.
  assert (Hsame : ∃ ps, promotions_ c = promotions_ c ++ ps ∧
    Forall wf_PromotionRecord ps ∧ (length ps ≤ 1)%nat).
  { exists []. rewrite app_nil_r. eauto. }
  unfold after. cbn [exec]. unfold promote_replica.
  destruct (replicas_ c !! rid) as [r|] eqn:Hr; [|done]. case_match; [done|].
  case_match; [|done]. case_match; [done|].
  apply Hwf in Hr. unfold wf_ReplicaState in Hr. destruct_and! Hr.
  assert (Hrec : ∀ pid from, wf_id pid → Forall wf_PromotionRecord
    [mkPromotionRecord pid (r_id r) (r_set_id r) (r_generation r) (r_set_generation r) (epoch_ c)
      from target mono wall ("promoted to " ++ to_string target)]).
  { intros. apply Forall_singleton. unfold wf_PromotionRecord. by split_and!. }
  case_match.
  - do 2 (case_match; [done|]). draw_all. unfold finish_promotion. draw_all.
    eexists. split; [reflexivity|]. split; [|done]. unfold make_primary, take_over.
    by repeat case_match; apply Hrec.
  - unfold finish_promotion. draw_all. eexists. split; [reflexivity|]. by split; [apply Hrec|].
Qed.
End audit.

(** ** The controller *)

(** The replicas a set counts. *)
Definition members (sid : ReplicaSetId) (m : gmap ReplicaId ReplicaState) :
    gmap ReplicaId ReplicaState :=
  filter (λ kr, r_set_id kr.2 = sid) m.

Record controller_inv {G} (c : Controller G) : Prop := {
  ci_replica rid r : replicas_ c !! rid = Some r → replica_inv rid r;
  ci_set sid s : sets_ c !! sid = Some s →
    s_id s = sid ∧ wf_ReplicaSetState s ∧ counts_invalid s = false;
  ci_worker w reg : workers_ c !! w = Some reg →
    w_worker_id reg = w ∧ wf_WorkerRegistration reg;
  (** Every replica belongs to a set that exists, *)
  ci_home rid r : replicas_ c !! rid = Some r → is_Some (sets_ c !! r_set_id r);
  (** which holds at most its maximum of them. *)
  ci_capacity sid s : sets_ c !! sid = Some s →
    Z.of_nat (size (members sid (replicas_ c))) <= s_max_replicas s;
  (** A draining replica has an open drain record. *)
  ci_drain rid r : replicas_ c !! rid = Some r → r_lifecycle r = ReplicaLifecycle.DRAINING →
    Exists (open_drain rid) (drains_ c);
  ci_epoch : wf_id (epoch_ c);
  ci_promotions : Forall wf_PromotionRecord (promotions_ c);
  ci_drains : Forall wf_DrainRecord (drains_ c);
  ci_failovers : Forall wf_FailoverRecord (failovers_ c);
}.

Lemma evolves_set_id e a m m' rid r' :
  evolves e a m m' → m' !! rid = Some r' →
  ∃ r, m !! rid = Some r ∧ replica_change e a rid r r' ∧ r_set_id r' = r_set_id r.
Proof.
  intros Hev Hr. specialize (Hev rid). rewrite Hr in Hev. inversion Hev as [r x Hc|]; subst.
  exists r. split_and!; [done..|]. destruct Hc as [->|He]; [done|]. apply (event_id _ _ _ _ _ He).
Qed.

Lemma evolves_members e a m m' sid :
  evolves e a m m' → size (members sid m') = size (members sid m).
Proof.
  intros Hev. rewrite <-!size_dom. f_equal. apply set_eq. intros k.
  rewrite !elem_of_dom. unfold members. specialize (Hev k).
  split; intros [r [Hk Hs]%map_lookup_filter_Some]; rewrite Hk in Hev; inversion Hev as [x y Hc E1 E2|];
    subst; eexists; apply map_lookup_filter_Some; (split; [done|]); simpl in *;
    (destruct Hc as [->|He]; [done|]).
  - symmetry. apply (event_id _ _ _ _ _ He).
  - apply (event_id _ _ _ _ _ He).
Qed.

Lemma members_insert sid rid r m :
  (size (members sid (<[rid := r]> m)) ≤ size (members sid m) + 1)%nat.
Proof.
  unfold members.
  assert (Hsub : filter (λ kr, r_set_id kr.2 = sid) (<[rid := r]> m) ⊆
                 <[rid := r]> (filter (λ kr, r_set_id kr.2 = sid) m)).
  { apply map_subseteq_spec. intros k x [Hk Hx]%map_lookup_filter_Some.
    apply lookup_insert_Some in Hk as [[-> ->]|[Hne Hk]]; [by rewrite lookup_insert_eq|].
    rewrite lookup_insert_ne by done. by apply map_lookup_filter_Some. }
  apply subseteq_dom, subseteq_size in Hsub. rewrite !size_dom in Hsub.
  etrans; [apply Hsub|]. rewrite map_size_insert. case_match; simpl; lia.
Qed.

Lemma members_insert_other sid rid r m :
  r_set_id r ≠ sid → (size (members sid (<[rid := r]> m)) ≤ size (members sid m))%nat.
Proof.
  intros Hne. rewrite <-!size_dom.
  apply subseteq_size, subseteq_dom, map_subseteq_spec.
  intros k x [Hk Hx]%map_lookup_filter_Some. apply map_lookup_filter_Some.
  apply lookup_insert_Some in Hk as [[-> ->]|[Hk1 Hk]]; done.
Qed.

Lemma set_change_max s s' :
  set_change s s' → s_max_replicas s' = s_max_replicas s ∧ s_id s' = s_id s ∧
  (wf_ReplicaSetState s → wf_ReplicaSetState s') ∧ counts_invalid s' = counts_invalid s ∧
  s_generation s' = s_generation s ∧ s_min_healthy s' = s_min_healthy s.
Proof. intros [->|(l & _ & ->)]; done. Qed.

Section invariant.
Context `{Rng G}.
Implicit Types c : Controller G.

Lemma new_controller_inv (rng : G) : controller_inv (new_controller rng).
Proof. by split; try (intros ??; rewrite lookup_empty). Qed.

(** A failover appends one failover record, and one promotion record when it chose. *)
Lemma failover_logs sid rid reason mono wall c :
  controller_inv c → wf_id sid → wf_id rid → in_u64 mono → in_i64 wall →
  ∃ ps fs, promotions_ (after (TriggerFailover sid rid reason mono wall) c) =
      promotions_ c ++ ps ∧
    failovers_ (after (TriggerFailover sid rid reason mono wall) c) = failovers_ c ++ fs ∧
    Forall wf_PromotionRecord ps ∧ Forall wf_FailoverRecord fs ∧
    (length ps ≤ length fs)%nat ∧ (length fs ≤ 1)%nat.
Proof.
  intros Hinv Hsid Hrid Hm Hw.
  pose proof (ci_epoch c Hinv) as He.
  assert (Hsame : ∃ ps fs, promotions_ c = promotions_ c ++ ps ∧ failovers_ c = failovers_ c ++ fs ∧
    Forall wf_PromotionRecord ps ∧ Forall wf_FailoverRecord fs ∧
    (length ps ≤ length fs)%nat ∧ (length fs ≤ 1)%nat).
  { exists [], []. rewrite !app_nil_r. split_and!; (reflexivity || apply List.Forall_nil || (simpl; lia)). }
  unfold after. cbn [exec]. unfold trigger_failover.
  destruct (sets_ c !! sid) as [set|]; [|done].
  destruct (replicas_ c !! rid) as [fr|] eqn:Hfr; [|done]. case_match; [done|].
  destruct (failover_candidates _ _ _ _ _) as [|[k s] l] eqn:Hf; draw_all.
  - eexists [], _. rewrite app_nil_r. split; [reflexivity|]. split; [reflexivity|].
    split_and!; [apply List.Forall_nil| |simpl; lia|done].
    apply Forall_singleton. by split_and!.
  - assert (Hin : (k, s) ∈ (k, s) :: l) by left.
    rewrite <-Hf in Hin. apply elem_of_failover_candidates in Hin as [Hk Hs].
    apply failover_candidate_spec in Hs as [].
    change (replicas_ (store_replica rid ?x c)) with (<[rid := x]> (replicas_ c)) in Hk.
    rewrite lookup_insert_ne in Hk by done. apply Hinv in Hk as [Hkey Hwf].
    unfold wf_ReplicaState in Hwf. destruct_and! Hwf. subst k.
    eexists _, _. split; [reflexivity|]. split; [reflexivity|].
    split_and!; [| |done|done]; apply Forall_singleton; unfold take_over;
      case_match; by split_and!.
Qed.

Lemma exec_logs a c :
  wf_action a → controller_inv c →
  ∃ ps fs, promotions_ (after a c) = promotions_ c ++ ps ∧
    failovers_ (after a c) = failovers_ c ++ fs ∧
    Forall wf_PromotionRecord ps ∧ Forall wf_FailoverRecord fs ∧
    (length ps ≤ 1)%nat ∧ (length fs ≤ 1)%nat.
Proof.
  intros Ha Hinv. destruct (exec_frame a c) as [_ _ Hp _ Hf].
  assert (Hsame : promotions_ (after a c) = promotions_ c → failovers_ (after a c) = failovers_ c →
    ∃ ps fs, promotions_ (after a c) = promotions_ c ++ ps ∧
    failovers_ (after a c) = failovers_ c ++ fs ∧
    Forall wf_PromotionRecord ps ∧ Forall wf_FailoverRecord fs ∧
    (length ps ≤ 1)%nat ∧ (length fs ≤ 1)%nat).
  { intros -> ->. exists [], []. rewrite !app_nil_r. split_and!; (reflexivity || apply List.Forall_nil || (simpl; lia)). }
  destruct a; try (destruct Hp as [Hp|[]], Hf as [Hf|[]]; by apply Hsame).
  - destruct Hf as [Hf|[]]. destruct Ha as (?&?&?&?&?).
    destruct (promote_logs replica_id target worker boot mono wall c) as (ps & Eps & Hps & Hl);
      [intros k r Hk; by apply (ci_replica c Hinv) in Hk as []|apply Hinv|done|done|].
    exists ps, []. rewrite app_nil_r. split_and!; (done || apply List.Forall_nil || (simpl; lia)).
  - destruct Ha as (?&?&?&?).
    destruct (failover_logs set_id failed_replica reason mono wall c) as
      (ps & fs & Eps & Efs & Hps & Hfs & Hl & Hl'); [done..|].
    exists ps, fs. split_and!; (done || lia).
Qed.

Lemma provisioned_inv rid sid w reg set compat dev cap mono wall e gen hgen :
  wf_action (ProvisionReplica rid sid w compat dev cap mono wall) →
  wf_WorkerRegistration reg → wf_ReplicaSetState set → wf_id e → wf_id gen → wf_id hgen →
  replica_inv rid (provisioned rid sid w reg set compat dev cap mono wall e gen hgen).
Proof.
  intros Ha Hreg Hset He Hgen Hhgen. split; try done.
  cbn in Ha. unfold wf_WorkerRegistration, wf_ReplicaSetState, wf_DeviceCapability in *.
  destruct_and!. unfold wf_ReplicaState. split_and!; try done; by vm_compute.
Qed.

(** A replica of the next state was there, moved by the action, or is provisioned. *)
Lemma after_replica a c rid r' :
  wf_action a → replicas_ (after a c) !! rid = Some r' →
  (∃ r, replicas_ c !! rid = Some r ∧ replica_change (epoch_ c) a rid r r') ∨
  provisions a c rid r'.
Proof.
  intros Ha Hr. destruct (exec_replicas a c rid Ha) as [Hev|(r & Hp & Hr')].
  - left. rewrite Hr in Hev. inversion Hev; subst. eauto.
  - right. congruence.
Qed.

Lemma after_set a c sid s' :
  sets_ (after a c) !! sid = Some s' →
  (∃ s, sets_ c !! sid = Some s ∧ set_change s s') ∨
  (creates a sid s' ∧ sets_ c !! sid = None).
Proof.
  intros Hs. destruct (exec_sets a c sid) as [Hev|(s & Hc & Hn & Hs')].
  - left. rewrite Hs in Hev. inversion Hev; subst. eauto.
  - right. split; [congruence|done].
Qed.

Lemma after_set_kept a c sid s :
  sets_ c !! sid = Some s → ∃ s', sets_ (after a c) !! sid = Some s' ∧ set_change s s'.
Proof.
  intros Hs. destruct (exec_sets a c sid) as [Hev|(? & _ & Hn & _)]; [|congruence].
  rewrite Hs in Hev. inversion Hev; subst. eauto.
Qed.

Lemma after_set_id a c rid r' :
  wf_action a → replicas_ (after a c) !! rid = Some r' →
  (∃ r, replicas_ c !! rid = Some r ∧ r_set_id r' = r_set_id r) ∨
  (provisions a c rid r' ∧ is_Some (sets_ c !! r_set_id r')).
Proof.
  intros Ha Hr. destruct (after_replica a c rid r' Ha Hr) as [(r & Hr0 & [->|He])|Hp].
  - eauto.
  - left. exists r. split; [done|]. apply (event_id _ _ _ _ _ He).
  - right. split; [done|]. destruct a; try done. destruct Hp as (_ & set & ? & ? & ? & Hs & Hp).
    destruct_and! Hp. subst. cbn. eauto.
Qed.

Lemma after_replica_inv a c rid r :
  wf_action a → controller_inv c → replicas_ (after a c) !! rid = Some r → replica_inv rid r.
Proof.
  intros Ha Hinv Hr. destruct (after_replica a c rid r Ha Hr) as [(r0 & Hr0 & Hc)|Hp].
  - eapply change_inv; [done|]. by apply Hinv.
  - destruct a; try done. destruct Hp as (-> & set & reg & gen & hgen & Hs & Hw & Hp).
    destruct_and! Hp. subst. apply Hinv in Hs, Hw. destruct_and!.
    apply provisioned_inv; try done. apply Hinv.
Qed.

Lemma after_home a c rid r :
  wf_action a → controller_inv c → replicas_ (after a c) !! rid = Some r →
  is_Some (sets_ (after a c) !! r_set_id r).
Proof.
  intros Ha Hinv Hr.
  assert (Hs : is_Some (sets_ c !! r_set_id r)).
  { destruct (after_set_id a c rid r Ha Hr) as [(r0 & Hr0 & ->)|[_ Hs]]; [|done].
    by apply (ci_home c Hinv rid). }
  destruct Hs as [s Hs]. destruct (after_set_kept a c _ s Hs) as (s' & -> & _). eauto.
Qed.

(** Provisioning checks the count before it adds a replica. *)
Lemma provision_capacity a c sid s :
  wf_action a → controller_inv c → sets_ c !! sid = Some s →
  Z.of_nat (size (members sid (replicas_ (after a c)))) <= s_max_replicas s.
Proof.
  intros Ha Hinv Hs. pose proof (ci_capacity c Hinv sid s Hs) as Hcap.
  destruct (is_provision a) eqn:Hprov.
  2: { by rewrite (evolves_members _ _ _ _ sid (exec_evolves a c Ha Hprov)). }
  destruct a; try done. unfold after. cbn [exec]. unfold provision_replica.
  destruct (sets_ c !! set_id) as [set|] eqn:Hset; [|done].
  case_match; [done|]. destruct (workers_ c !! worker_id) as [reg|]; [|done].
  case_match eqn:Hcount; [done|]. draw_all. bool_to_prop. cbn [snd].
  change (replicas_ (store_replica ?k ?v _)) with (<[k := v]> (replicas_ c)).
  match goal with |- context [<[replica_id := ?x]> _] => set (r := x) end.
  assert (Hr : r_set_id r = set_id) by done.
  destruct (decide (set_id = sid)) as [->|Hne].
  - simplify_eq. pose proof (members_insert sid replica_id r (replicas_ c)).
    apply (ci_set c Hinv) in Hs as (_ & Hwf & _).
    assert (in_u32 (s_max_replicas s)) as Hmax by (unfold wf_ReplicaSetState in Hwf; tauto).
    unfold count_in_set in Hcount. fold (members sid (replicas_ c)) in Hcount.
    unfold in_u32 in *. rewrite u32_small in Hcount by (unfold in_u32; lia). lia.
  - pose proof (members_insert_other sid replica_id r (replicas_ c)) as Ho.
    rewrite Hr in Ho. specialize (Ho Hne). lia.
Qed.

Lemma after_capacity a c sid s :
  wf_action a → controller_inv c → sets_ (after a c) !! sid = Some s →
  Z.of_nat (size (members sid (replicas_ (after a c)))) <= s_max_replicas s.
Proof.
  intros Ha Hinv Hs. destruct (after_set a c sid s Hs) as [(s0 & Hs0 & Hc)|[Hcr Hn]].
  - destruct (set_change_max _ _ Hc) as (-> & _). by apply provision_capacity.
  - destruct a; try done. destruct Hcr as (-> & Hid & Hcounts).
    assert (Hzero : members sid (replicas_ c) = ∅).
    { apply map_empty. intros k. apply map_lookup_filter_None. right. intros r Hk Hr.
      simpl in Hr. destruct (ci_home c Hinv k r Hk) as [x Hx]. congruence. }
    rewrite (evolves_members _ _ _ _ sid (exec_evolves _ c Ha eq_refl)), Hzero, map_size_empty.
    destruct Ha as [Hwf _]. assert (in_u32 (s_max_replicas s)) as Hmax
      by (unfold wf_ReplicaSetState in Hwf; tauto). unfold in_u32 in Hmax. lia.
Qed.

(** Only [drain_replica] opens drains, and only [complete_drain] closes one. *)
Lemma after_open_drain a c rid r :
  wf_action a → controller_inv c → replicas_ (after a c) !! rid = Some r →
  r_lifecycle r = ReplicaLifecycle.DRAINING → Exists (open_drain rid) (drains_ (after a c)).
Proof.
  intros Ha Hinv Hr Hl.
  assert (Hkept : drains_ (after a c) = drains_ c →
    (∀ r0, replicas_ c !! rid = Some r0 → replica_event (epoch_ c) a rid r0 r →
      r_lifecycle r0 = ReplicaLifecycle.DRAINING) → Exists (open_drain rid) (drains_ (after a c))).
  { intros -> Hev. destruct (after_replica a c rid r Ha Hr) as [(r0 & Hr0 & [->|He])|Hp].
    - by apply (ci_drain c Hinv rid r0).
    - apply (ci_drain c Hinv rid r0); [done|]. by apply Hev.
    - destruct a; try done. destruct Hp as (_ & set & reg & gen & hgen & Hp).
      destruct_and! Hp. by subst. }
  assert (Hev : ∀ r0, replicas_ c !! rid = Some r0 → replica_event (epoch_ c) a rid r0 r →
    r_lifecycle r0 = ReplicaLifecycle.DRAINING ∨ ∃ w b mono, a = DrainReplica rid w b mono).
  { intros r0 _ He. by apply (event_draining _ _ _ _ _ He). }
  destruct (exec_frame a c) as [_ _ _ [Hd|Hd] _].
  - apply Hkept; [done|]. intros r0 Hr0 He. destruct (Hev r0 Hr0 He) as [|(w & b & mono & ->)];
      [done|]. destruct (drain_effect rid w b mono c) as [E|(?&?&_&_&_&E)].
    + rewrite E in Hr. by assert (r0 = r) as -> by congruence.
    + rewrite E in Hd. apply (f_equal length) in Hd. rewrite length_app in Hd. simpl in Hd. lia.
  - destruct a; try done.
    + destruct (drain_effect replica_id worker boot mono c) as [E|(x & did & Hx & _ & Er & Ed)].
      * apply Hkept; [by rewrite E|]. rewrite E in Hr. naive_solver.
      * rewrite Ed, Er in *. apply Exists_app.
        apply lookup_insert_Some in Hr as [[-> _]|[Hne Hr]].
        -- right. left. apply (ci_replica c Hinv) in Hx as [Hx _]. by split.
        -- left. by apply (ci_drain c Hinv rid r).
    + destruct (complete_drain_effect replica_id quiesced force_cancelled mono c)
        as [E|(x & Hx & _ & Er & Ed)].
      * rewrite E in *. by apply (ci_drain c Hinv rid r).
      * rewrite Ed, Er in *. apply lookup_insert_Some in Hr as [[-> <-]|[Hne Hr]]; [done|].
        apply (ci_replica c Hinv) in Hx as [Hx _]. rewrite Hx.
        apply finish_drain_others; [done|]. by apply (ci_drain c Hinv rid r).
Qed.

Lemma after_drains a c :
  wf_action a → controller_inv c → Forall wf_DrainRecord (drains_ (after a c)).
Proof.
  intros Ha Hinv. pose proof (ci_drains c Hinv) as Hd.
  destruct (exec_frame a c) as [_ _ _ [->|Hk] _]; [done|]. destruct a; try done.
  - destruct (drain_effect replica_id worker boot mono c) as [->|(r & did & Hr & Hdid & _ & ->)];
      [done|].
    apply Forall_app. split; [done|]. apply Forall_singleton.
    apply (ci_replica c Hinv) in Hr as [_ Hwf]. unfold wf_ReplicaState in Hwf. destruct_and! Hwf.
    destruct Ha as (_&_&_&Hm). by split_and!.
  - destruct (complete_drain_effect replica_id quiesced force_cancelled mono c)
      as [->|(r & _ & _ & _ & ->)]; [done|].
    destruct Ha as (_&?&?). by apply finish_drain_wf.
Qed.

(** Every operation preserves the invariant, on every one of its branches. *)
Lemma after_inv a c : wf_action a → controller_inv c → controller_inv (after a c).
Proof.
  intros Ha Hinv. destruct (exec_frame a c) as [He Hw _ _ _].
  destruct (exec_logs a c Ha Hinv) as (ps & fs & Hps & Hfs & Hps' & Hfs' & _).
  split.
  - intros rid r. by apply after_replica_inv.
  - intros sid s Hs. destruct (after_set a c sid s Hs) as [(s0 & Hs0 & Hc)|[Hcr _]].
    + apply (ci_set c Hinv) in Hs0 as (?&?&?).
      destruct (set_change_max _ _ Hc) as (_ & -> & Hwf & -> & _). auto.
    + destruct a; try done. destruct Hcr as (-> & Hid & Hcounts), Ha. by split_and!.
  - intros w reg Hreg. destruct Hw as [Hw|Hw]; [rewrite Hw in Hreg; by apply Hinv|].
    destruct a; try done; rewrite Hw in Hreg.
    + apply lookup_insert_Some in Hreg as [[<- <-]|[_ Hreg]]; [done|]. by apply Hinv.
    + apply lookup_delete_Some in Hreg as [_ Hreg]. by apply Hinv.
  - intros rid r. by apply after_home.
  - intros sid s. by apply after_capacity.
  - intros rid r. by apply after_open_drain.
  - destruct He as [->|He]; [apply Hinv|]. destruct a; try done. rewrite He. apply Ha.
  - rewrite Hps. apply Forall_app. split; [apply Hinv|done].
  - by apply after_drains.
  - rewrite Hfs. apply Forall_app. split; [apply Hinv|done].
Qed.

Lemma step_inv c c' : step c c' → controller_inv c → controller_inv c'.
Proof. intros (a & Ha & ->). by apply after_inv. Qed.

Lemma steps_inv c c' : rtc step c c' → controller_inv c → controller_inv c'.
Proof. induction 1; eauto using step_inv. Qed.

Lemma reachable_inv rng c : reachable rng c → controller_inv c.
Proof. intros Hc. eapply steps_inv; [done|]. apply new_controller_inv. Qed.
End invariant.

#[export] Hint Resolve reachable_inv after_inv : fabric.
