(* ===== verification/Scenario.v ===== *)
(** A concrete run of the controller.

    Two workers, one set, two replicas brought from DECLARED to READY and one of
    them promoted: the inputs the witnesses of the controller's theorems evaluate. *)

From S2P Require Import Prelude Identity Enums Model Transition Compatibility Authority Controller ControllerRun ControllerInv.

(** A generator that counts: any state, the next draw is its value. *)
#[global] Instance counter_rng : Rng Z.
Proof.
  refine {| rng_next g := (u64 g, g + 1) |}. intros g. apply u64_range.
Defined.

(** A deterministic identity for examples ([id_from] of the test support). *)
Definition ident {k} (n : Z) : Id k := mkId 0 n.

Definition demo_worker (n : Z) (boot : Z) : WorkerRegistration :=
  mkWorkerRegistration (ident n) (ident boot) (ident 90) default_ResourceInventory null 1.

Definition demo_set : ReplicaSetState :=
  mkReplicaSetState (ident 7) (ident 1) (ident 2) (ident 3) 1 1 2 (ident 4) null (ident 5)
    (ident 6) ReplicaSetLifecycle.CREATED default_CompatibilityRequirements default_PolicyBundle
    default_PlacementPolicy BackendKind.NONE EmptyString default_ComputeCapability 0 0.

Definition all_ready : ReadinessRecord :=
  mkReadinessRecord ReadinessState.READY
    (mkReadinessFactors true true true true true true true true true true true) 0 0 EmptyString.

Definition healthy_evidence (gen : HealthGeneration) (h : HealthState) : HealthEvidence :=
  mkHealthEvidence h HealthEvidenceKind.UNKNOWN EmptyString 0 0 0 0 gen EmptyString.

(** The actions that take replica [rid] of worker [w] to READY.  The health
    generation is the second identity a provisioning draws. *)
Definition bring_up (rid w boot : Z) (hgen : HealthGeneration) : list Action :=
  [ ProvisionReplica (ident rid) (ident 7) (ident w) default_ReplicaCompatibility
      default_DeviceCapability 1 0 0;
    SetAllocating (ident rid) (ident (100 + rid));
    SetStarting (ident rid) 0 0;
    WarmReplica (ident rid) default_WarmingRecord (ident w) (ident boot) 1;
    ReportReadiness (ident rid) all_ready (ident w) (ident boot);
    ReportHealth (ident rid) (healthy_evidence hgen HealthState.HEALTHY) (ident w) (ident boot) 2 ].

Definition demo_setup : list Action :=
  [ RegisterWorker (demo_worker 20 30); RegisterWorker (demo_worker 21 31);
    CreateReplicaSet demo_set (ident 8) ] ++
  bring_up 10 20 30 (mkId 1002 1003) ++ bring_up 11 21 31 (mkId 1006 1007).

Definition promote_first : Action :=
  PromoteReplica (ident 10) PromotionState.PRIMARY (ident 20) (ident 30) 3 3.
Definition promote_second : Action :=
  PromoteReplica (ident 11) PromotionState.PRIMARY (ident 21) (ident 31) 3 3.

(** Both replicas READY, then the first one PRIMARY. *)
Definition ready_state : Controller Z := Eval vm_compute in run demo_setup (new_controller 1000).
Definition serving_state : Controller Z := Eval vm_compute in after promote_first ready_state.

Lemma ready_state_eq : run demo_setup (new_controller 1000) = ready_state.
Proof. by vm_compute. Qed.
Lemma serving_state_eq : after promote_first ready_state = serving_state.
Proof. by vm_compute. Qed.

(** Decides a conjunction of range conditions on literals. *)
Ltac wf_literal :=
  repeat match goal with
  | |- _ ∧ _ => split
  | |- Forall _ _ => constructor
  end; first [done | by vm_compute | unfold in_u64, in_u32, in_i64, in_i32; simpl; lia].

Lemma demo_setup_wf : Forall wf_action demo_setup.
Proof. wf_literal. Qed.

Lemma ready_state_reachable : reachable 1000 ready_state.
Proof. rewrite <-ready_state_eq. apply run_reachable, demo_setup_wf. Qed.

Lemma serving_state_reachable : reachable 1000 serving_state.
Proof.
  eapply rtc_r; [apply ready_state_reachable|]. exists promote_first. split; [wf_literal|].
  by rewrite serving_state_eq.
Qed.

Example serving_state_serves : sad_eligible (servable (ident 10) serving_state) = true.
Proof. by vm_compute. Qed.

(** ** Lookups in the run *)

Definition replica_of (n : Z) (c : Controller Z) : ReplicaState :=
  default default_ReplicaState (replicas_ c !! ident n).
Definition set_of (n : Z) (c : Controller Z) : ReplicaSetState :=
  default default_ReplicaSetState (sets_ c !! ident n).

Definition drain_first : Action := DrainReplica (ident 10) (ident 20) (ident 30) 4.
Definition restart_first : WorkerRegistration := demo_worker 20 32.
Definition draining_state : Controller Z := Eval vm_compute in after drain_first serving_state.

Lemma draining_state_eq : after drain_first serving_state = draining_state.
Proof. by vm_compute. Qed.

Lemma ready_lookup_10 : replicas_ ready_state !! ident 10 = Some (replica_of 10 ready_state).
Proof. by vm_compute. Qed.
Lemma serving_lookup_10 : replicas_ serving_state !! ident 10 = Some (replica_of 10 serving_state).
Proof. by vm_compute. Qed.
Lemma serving_lookup_11 : replicas_ serving_state !! ident 11 = Some (replica_of 11 serving_state).
Proof. by vm_compute. Qed.
Lemma draining_lookup_10 :
  replicas_ draining_state !! ident 10 = Some (replica_of 10 draining_state).
Proof. by vm_compute. Qed.
Lemma ready_lookup_set : sets_ ready_state !! ident 7 = Some (set_of 7 ready_state).
Proof. by vm_compute. Qed.
Lemma serving_lookup_set : sets_ serving_state !! ident 7 = Some (set_of 7 serving_state).
Proof. by vm_compute. Qed.

Lemma draining_state_reachable : reachable 1000 draining_state.
Proof.
  eapply rtc_r; [apply serving_state_reachable|]. exists drain_first. split; [wf_literal|].
  by rewrite draining_state_eq.
Qed.

Lemma drain_first_wf : wf_action drain_first.
Proof. wf_literal. Qed.
Lemma promote_first_wf : wf_action promote_first.
Proof. wf_literal. Qed.
Lemma promote_second_wf : wf_action promote_second.
Proof. wf_literal. Qed.

(** The states of the run are evaluated, never unfolded by unification. *)
#[global] Opaque ready_state serving_state draining_state replica_of set_of.
