(* ===== verification/ControllerProps.v ===== *)
(** What the controller guarantees.

    The theorems about the operations of src/replica_set_controller.cpp, proved from
    the events of ControllerRun.v and the invariants of ControllerInv.v, each with a
    witness on the run of Scenario.v. *)

From S2P Require Import Prelude Identity Enums Model Transition Compatibility Authority Controller ControllerRun ControllerInv Scenario.

(** ** Shared lemmas *)

Section lemmas.
Context `{Rng G}.
Implicit Types c : Controller G.

Definition serves (rid : ReplicaId) c : Prop := sad_eligible (servable rid c) = true.

Lemma serves_spec rid c :
  serves rid c ↔ ∃ r s, replicas_ c !! rid = Some r ∧ sets_ c !! r_set_id r = Some s ∧
    may_serve r s (authority_context r s c).
Proof.
  unfold serves, servable. split.
  - destruct (replicas_ c !! rid) as [r|] eqn:Hr; [|done].
    destruct (sets_ c !! r_set_id r) as [s|] eqn:Hs; [|done].
    rewrite evaluate_may_serve. eauto.
  - intros (r & s & -> & -> & Hm). by apply evaluate_may_serve.
Qed.

Lemma serves_flag rid c r :
  serves rid c → replicas_ c !! rid = Some r → r_serving_eligible r = true.
Proof.
  intros (r' & s & Hr & _ & Hm)%serves_spec Hr'. simplify_eq. eauto with fabric.
Qed.

Lemma flag_down_not_serving rid c r :
  replicas_ c !! rid = Some r → r_serving_eligible r = false → ¬ serves rid c.
Proof. intros Hr Hf Hs. pose proof (serves_flag _ _ _ Hs Hr). congruence. Qed.

Lemma not_serves rid c : ¬ serves rid c ↔ sad_eligible (servable rid c) = false.
Proof. unfold serves. by rewrite not_true_iff_false. Qed.

Lemma inv_flags rid r : replica_inv rid r → replica_flags r.
Proof. intros []. by split_and!. Qed.

(** The identity an action provisions, if any. *)
Definition provisioned_id (a : Action) : option ReplicaId :=
  match a with ProvisionReplica rid _ _ _ _ _ _ _ => Some rid | _ => None end.

Lemma provisions_id a c rid r : provisions a c rid r → provisioned_id a = Some rid.
Proof. destruct a; try done. by intros [-> _]. Qed.

Lemma provisions_declared a c rid r :
  provisions a c rid r →
  r_lifecycle r = ReplicaLifecycle.DECLARED ∧ r_serving_eligible r = false.
Proof.
  destruct a; try done. intros (_ & set & reg & gen & hgen & Hp). destruct_and! Hp. by subst.
Qed.

Lemma after_replica_kept a c rid r :
  wf_action a → replicas_ c !! rid = Some r →
  ∃ r', replicas_ (after a c) !! rid = Some r' ∧
    (replica_change (epoch_ c) a rid r r' ∨ provisions a c rid r').
Proof.
  intros Ha Hr. destruct (exec_replicas a c rid Ha) as [Hev|(r' & Hp & Hr')]; [|by eauto].
  rewrite Hr in Hev. inversion Hev; subst. eauto.
Qed.

Lemma event_flag_down e a rid r r' :
  replica_event e a rid r r' → r_serving_eligible r = false → r_serving_eligible r' = true →
  (∃ w b mono wall, a = PromoteReplica rid PromotionState.PRIMARY w b mono wall) ∨
  (∃ sid failed reason mono wall, a = TriggerFailover sid failed reason mono wall ∧ rid ≠ failed).
Proof.
  intros He Hf Ht. destruct He; try done; try (exfalso; congruence); try (left; by eauto);
    try (right; by eauto 10); exfalso; revert Ht.
  - change (r_serving_eligible r = true → False). congruence.
  - change (r_serving_eligible r = true → False). congruence.
  - unfold warm_progress. cbn zeta. repeat case_match;
      change (r_serving_eligible r = true → False); congruence.
  - destruct (observe_health_flags ev mono r) as (_ & _ & _ & -> & _). by rewrite Hf.
  - unfold observe_readiness. cbn zeta. repeat case_match;
      change (r_serving_eligible r = true → False); congruence.
  - by rewrite (proj2 (proj2 (obsolete_authority reason r))).
Qed.

Lemma change_down e a rid r r' :
  replica_change e a rid r r' → going_down (r_lifecycle r) = true →
  going_down (r_lifecycle r') = true.
Proof. intros [->|He]; [done|]. by apply (event_down _ _ _ _ _ He). Qed.

Lemma down_not_flagged rid r :
  replica_inv rid r → going_down (r_lifecycle r) = true → r_serving_eligible r = false.
Proof.
  intros Hinv Hd. destruct (r_serving_eligible r) eqn:E; [|done].
  rewrite (ri_serving _ _ Hinv E) in Hd. done.
Qed.

(** A replica that is winding down keeps winding down while nobody provisions it. *)
Lemma run_down acts c rid r :
  Forall wf_action acts → Forall (λ a, provisioned_id a ≠ Some rid) acts →
  controller_inv c → replicas_ c !! rid = Some r → going_down (r_lifecycle r) = true →
  ∃ r', replicas_ (run acts c) !! rid = Some r' ∧ going_down (r_lifecycle r') = true ∧
    controller_inv (run acts c).
Proof.
  intros Hwf. revert c r. induction Hwf as [|a acts Ha Hacts IH]; intros c r Hn Hinv Hr Hd; simpl.
  { eauto. }
  apply Forall_cons in Hn as [Hna Hn].
  destruct (after_replica_kept a c rid r Ha Hr) as (r1 & Hr1 & [Hc|Hp]).
  - apply (IH _ r1); [done|by apply after_inv|done|]. by apply (change_down _ _ _ _ _ Hc).
  - by apply provisions_id in Hp.
Qed.
End lemmas.

(** ** Who may serve *)

Section authority.
Context `{Rng G}.
Implicit Types c : Controller G.

(** C1: the controller lets a replica serve exactly when it knows the replica and its
    set and every kind of authority agrees: set lifecycle, coordinator epoch, set,
    artifact, policy and health generation, policy fingerprint, worker boot
    identity, replica lifecycle, health, readiness, warmth, promotion, serving flag
    and placement. *)
Theorem servable_iff_authority rid c :
  sad_eligible (servable rid c) = true ↔
  ∃ r s, replicas_ c !! rid = Some r ∧ sets_ c !! r_set_id r = Some s ∧
    may_serve r s (authority_context r s c).
Proof. apply serves_spec. Qed.

(** C2: in every reachable state every replica is stored under its own identity in a
    set that exists, the serving flag, the PRIMARY promotion and the PRIMARY role
    coincide and imply SERVING, readiness is backed by its factors, no set holds more
    replicas than its maximum, every draining replica has an open drain record, and
    every number fits its C++ type. *)
Theorem reachable_controller_inv rng c : reachable rng c → controller_inv c.
Proof. apply reachable_inv. Qed.

(** C12: whatever action runs, a replica never disappears, and either keeps its
    lifecycle, moves it along the guarded table, or is provisioned afresh as
    DECLARED. *)
Theorem lifecycle_guarded rng c a rid r :
  reachable rng c → wf_action a → replicas_ c !! rid = Some r →
  ∃ r', replicas_ (after a c) !! rid = Some r' ∧
    (r_lifecycle r' = r_lifecycle r ∨ can_transition (r_lifecycle r) (r_lifecycle r') = true ∨
     (provisioned_id a = Some rid ∧ r_lifecycle r' = ReplicaLifecycle.DECLARED)).
Proof.
  intros Hc Ha Hr. destruct (after_replica_kept a c rid r Ha Hr) as (r' & Hr' & Hc').
  exists r'. split; [done|]. destruct Hc' as [[->|He]|Hp]; [by left| |].
  - apply reachable_inv in Hc. apply (ci_replica c Hc), inv_flags in Hr.
    destruct (event_lifecycle _ _ _ _ _ He Hr); auto.
  - right; right. split; [by apply provisions_id in Hp|]. by apply provisions_declared in Hp as [? _].
Qed.

(** C4: serving authority comes only from a PRIMARY promotion of that replica or from
    a failover that is not failing it; registrations, health, readiness, warming,
    drains and failures never raise the serving flag. *)
Theorem authority_granted_only_by_promotion c a rid r' :
  wf_action a → (∀ r, replicas_ c !! rid = Some r → r_serving_eligible r = false) →
  replicas_ (after a c) !! rid = Some r' → r_serving_eligible r' = true →
  (∃ w b mono wall, a = PromoteReplica rid PromotionState.PRIMARY w b mono wall) ∨
  (∃ sid failed reason mono wall, a = TriggerFailover sid failed reason mono wall ∧ rid ≠ failed).
Proof.
  intros Ha Hdown Hr' Hf.
  destruct (after_replica a c rid r' Ha Hr') as [(r & Hr & [->|He])|Hp].
  - by rewrite (Hdown r Hr) in Hf.
  - by apply (event_flag_down _ _ _ _ _ He); [apply Hdown|].
  - apply provisions_declared in Hp as [_ Hp]. congruence.
Qed.

(** C3: a replica that is DRAINING, QUIESCED, FAILED or RETIRED never serves again, in
    any sequence of operations that does not provision its identity anew, whatever
    stale reports, promotions or failovers the sequence contains. *)
Theorem withdrawn_never_serves rng c rid r acts :
  reachable rng c → replicas_ c !! rid = Some r → going_down (r_lifecycle r) = true →
  Forall wf_action acts → Forall (λ a, provisioned_id a ≠ Some rid) acts →
  sad_eligible (servable rid (run acts c)) = false.
Proof.
  intros Hc Hr Hd Hwf Hn.
  destruct (run_down acts c rid r) as (r' & Hr' & Hd' & Hinv'); eauto with fabric.
  apply not_serves. apply (flag_down_not_serving _ _ r'); [done|].
  apply (down_not_flagged rid); [by apply Hinv'|done].
Qed.

(** ** Workers *)

Lemma servable_same rid c c' r :
  replicas_ c !! rid = Some r → replicas_ c' !! rid = Some r → sets_ c' = sets_ c →
  epoch_ c' = epoch_ c → workers_ c' !! r_worker_id r = workers_ c !! r_worker_id r →
  servable rid c' = servable rid c.
Proof.
  intros Hr Hr' Hs He Hw. unfold servable, authority_context, worker_boot.
  by rewrite Hr, Hr', Hs, He, Hw.
Qed.

(** C5: when a worker registers under a new boot identity, no replica it hosts keeps
    serving authority, and the authority of every other worker's replicas is
    untouched. *)
Theorem restart_revokes_authority rng c wr rid r :
  reachable rng c → restarted wr c = true → replicas_ c !! rid = Some r →
  if decide (r_worker_id r = w_worker_id wr)
  then sad_eligible (servable rid (register_worker wr c).2) = false
  else servable rid (register_worker wr c).2 = servable rid c.
Proof.
  intros Hc Hre Hr. apply reachable_inv in Hc. unfold register_worker. rewrite Hre. cbn [snd].
  case_decide as Hw.
  - apply not_serves. apply (ci_replica c Hc) in Hr as Hi. destruct (bool_decide
      (r_lifecycle r = ReplicaLifecycle.SERVING)) eqn:E.
    + eapply flag_down_not_serving; [cbn; by rewrite lookup_fmap, Hr|].
      by rewrite bool_decide_true, E by done.
    + eapply flag_down_not_serving; [cbn; by rewrite lookup_fmap, Hr|].
      rewrite bool_decide_true, E by done. cbn.
      destruct (r_serving_eligible r) eqn:Ef; [|done]. bool_to_prop.
      by apply (ri_serving _ _ Hi) in Ef.
  - apply (servable_same rid _ _ r); [done| |done|done|].
    + cbn. rewrite lookup_fmap, Hr. cbn. by rewrite bool_decide_false.
    + cbn. by rewrite lookup_insert_ne by done.
Qed.

(** When a worker is unregistered, no replica it hosts serves, and the authority of
    every other worker's replicas is untouched. *)
Theorem unregister_revokes_authority rng c w reg rid r :
  reachable rng c → workers_ c !! w = Some reg → replicas_ c !! rid = Some r →
  if decide (r_worker_id r = w)
  then sad_eligible (servable rid (unregister_worker w c).2) = false
  else servable rid (unregister_worker w c).2 = servable rid c.
Proof.
  intros Hc Hreg Hr. unfold unregister_worker. rewrite Hreg. cbn [snd].
  case_decide as Hw.
  - apply not_serves. eapply flag_down_not_serving; [cbn; by rewrite lookup_fmap, Hr|].
    rewrite bool_decide_true by done. destruct (had_authority r) eqn:E; [done|].
    unfold had_authority in E. by bool_to_prop.
  - apply (servable_same rid _ _ r); [done| |done|done|].
    + cbn. rewrite lookup_fmap, Hr. cbn. by rewrite bool_decide_false.
    + cbn. by rewrite lookup_delete_ne by done.
Qed.
End authority.

(** ** Stale callers *)

(** The replica and the worker incarnation an action speaks for. *)
Definition claims_boot (a : Action) : option (ReplicaId * WorkerId * WorkerBootId) :=
  match a with
  | WarmReplica rid _ w b _ | ReportHealth rid _ w b _ | ReportReadiness rid _ w b
  | PromoteReplica rid _ w b _ _ | DrainReplica rid w b _ | FailReplica rid w b _ _ =>
      Some (rid, w, b)
  | _ => None
  end.

(** The actions that need the replica's coordinator epoch to be current. *)
Definition needs_epoch (a : Action) : option ReplicaId :=
  match a with
  | ReportHealth rid _ _ _ _ | ReportReadiness rid _ _ _ | PromoteReplica rid _ _ _ _ _
  | DrainReplica rid _ _ _ => Some rid
  | _ => None
  end.

Section stale.
Context `{Rng G}.
Implicit Types c : Controller G.

(** C15: warming, health, readiness, promotion, drain and failure reports of a worker
    that is not the replica's host, or of an older incarnation of it, are rejected
    and change nothing. *)
Theorem stale_boot_rejected c a rid w b r :
  claims_boot a = Some (rid, w, b) → replicas_ c !! rid = Some r →
  w ≠ r_worker_id r ∨ b ≠ r_boot_id r →
  exec a c = (op_rejected "stale worker boot identity", c).
Proof.
  intros Ha Hr Hne. assert (Hb : worker_boot_matches r w b = false).
  { unfold worker_boot_matches. apply andb_false_iff. rewrite !bool_decide_eq_false. naive_solver. }
  destruct a; simplify_eq/=.
  - unfold warm_replica. by rewrite Hr, Hb.
  - unfold report_health. by rewrite Hr, Hb.
  - unfold report_readiness. by rewrite Hr, Hb.
  - unfold promote_replica. by rewrite Hr, Hb.
  - unfold drain_replica. by rewrite Hr, Hb.
  - unfold fail_replica. by rewrite Hr, Hb.
Qed.

(** C16: a replica provisioned under another coordinator epoch neither serves nor
    accepts health, readiness, promotion or drain; the refused call changes nothing. *)
Theorem stale_epoch_fenced c rid r :
  replicas_ c !! rid = Some r → r_coordinator_epoch r ≠ epoch_ c →
  sad_eligible (servable rid c) = false ∧
  ∀ a, needs_epoch a = Some rid → ∃ msg, exec a c = (op_rejected msg, c).
Proof.
  intros Hr He. split.
  - apply not_serves. rewrite serves_spec. intros (r' & s & Hr' & _ & Hm).
    rewrite Hr in Hr'. injection Hr' as ->. by destruct He; apply (ms_epoch _ _ _ Hm).
  - intros a Ha. destruct a; simplify_eq/=.
    + unfold report_health. rewrite Hr. case_match; [by eauto|].
      rewrite bool_decide_true by done. eauto.
    + unfold report_readiness. rewrite Hr. case_match; [by eauto|].
      rewrite bool_decide_true by done. eauto.
    + unfold promote_replica. rewrite Hr. case_match; [by eauto|]. case_match; [|by eauto].
      unfold promotion_refusal. rewrite bool_decide_true by done. eauto.
    + unfold drain_replica. rewrite Hr. case_match; [by eauto|].
      rewrite bool_decide_true by done. eauto.
Qed.

(** Health evidence of another health generation than the replica's current one is
    rejected and changes nothing, so evidence gathered before a promotion cannot
    speak about the promoted replica. *)
Theorem stale_health_generation_rejected c rid ev w b mono r :
  replicas_ c !! rid = Some r → he_generation ev ≠ r_health_generation r →
  ∃ msg, report_health rid ev w b mono c = (op_rejected msg, c).
Proof.
  intros Hr Hg. unfold report_health. rewrite Hr. do 2 (case_match; [by eauto|]).
  rewrite bool_decide_true by done. eauto.
Qed.

(** C20: accepted evidence that a replica is FAILED or UNHEALTHY ends its serving, and
    no accepted evidence changes its lifecycle. *)
Theorem bad_health_strips_authority c rid ev w b mono r :
  replicas_ c !! rid = Some r → is_ok (report_health rid ev w b mono c).1 = true →
  ∃ r', replicas_ (report_health rid ev w b mono c).2 !! rid = Some r' ∧
    r_lifecycle r' = r_lifecycle r ∧ r_health r' = he_state ev ∧
    (health_bad (he_state ev) = true →
     sad_eligible (servable rid (report_health rid ev w b mono c).2) = false).
Proof.
  intros Hr. unfold report_health. rewrite Hr. do 4 (case_match; [done|]). intros _.
  exists (observe_health ev mono r). cbn [snd].
  assert (Hl : replicas_ (store_replica rid (observe_health ev mono r) c) !! rid =
    Some (observe_health ev mono r)) by apply lookup_insert_eq.
  destruct (observe_health_flags ev mono r) as (El & _ & _ & Ef & Eh).
  split_and!; [done..|]. intros Hb. apply not_serves. apply (flag_down_not_serving _ _ _ Hl). rewrite Ef, Hb.
  by destruct (r_serving_eligible r).
Qed.
End stale.

(** ** Promotion *)

Section promotion.
Context `{Rng G}.
Implicit Types c : Controller G.

Ltac refused :=
  right; split_and!; [done|done|intros (? & ? & ? & ? & ? & ? & ?); simplify_eq; (congruence || auto)].

(** The replica a granted promotion stores. *)
Definition granted (target : PromotionState) (hgen : HealthGeneration) (r : ReplicaState) :
    ReplicaState :=
  if bool_decide (target = PromotionState.PRIMARY) then make_primary hgen r
  else grant_standby target r.

(** What a granted promotion leaves: the replica in its new role, one record in the
    audit trail, and the set's lifecycle derived from the healthy count. *)
Definition promotion_effect (rid : ReplicaId) (target : PromotionState) (mono wall : Z)
    (r : ReplicaState) (set : ReplicaSetState) c c' : Prop :=
  ∃ hgen pid,
    replicas_ c' = <[rid := granted target hgen r]> (replicas_ c) ∧
    sets_ c' = <[r_set_id r :=
      derive_set_lifecycle (count_healthy (s_id set) (replicas_ c')) set]> (sets_ c) ∧
    promotions_ c' = promotions_ c ++
      [mkPromotionRecord pid (r_id r) (r_set_id r) (r_generation r) (r_set_generation r)
         (epoch_ c) (r_promotion r) target mono wall ("promoted to " ++ to_string target)] ∧
    workers_ c' = workers_ c ∧ epoch_ c' = epoch_ c.

Lemma granted_keeps target hgen r :
  r_id (granted target hgen r) = r_id r ∧ r_set_id (granted target hgen r) = r_set_id r ∧
  r_generation (granted target hgen r) = r_generation r ∧
  r_set_generation (granted target hgen r) = r_set_generation r.
Proof.
  unfold granted, make_primary, take_over. by repeat case_match.
Qed.

Lemma granted_primary hgen r : granted PromotionState.PRIMARY hgen r = make_primary hgen r.
Proof. unfold granted. by rewrite bool_decide_true. Qed.

Lemma finish_promotion_effect rid target mono wall r r' set hgen c :
  r' = granted target hgen r →
  is_ok (finish_promotion rid (r_set_id r) set r' (r_promotion r) target mono wall c).1 = true ∧
  promotion_effect rid target mono wall r set c
    (finish_promotion rid (r_set_id r) set r' (r_promotion r) target mono wall c).2.
Proof.
  intros Hr'. unfold finish_promotion. draw_all. split; [done|].
  destruct (granted_keeps target hgen r) as (Ei & Es & Eg & Egs). rewrite <-Hr' in *.
  exists hgen. eexists. rewrite <-Hr'. cbn. rewrite Ei, Es, Eg, Egs. by split_and!.
Qed.

Lemma promotion_effect_draw rid target mono wall r set g c c' :
  promotion_effect rid target mono wall r set (c <| rng_ := g |>) c' →
  promotion_effect rid target mono wall r set c c'.
Proof. done. Qed.

(** The two outcomes of [promote_replica], with the effect of a granted one. *)
Lemma promote_cases rid target w b mono wall c :
  (is_ok (promote_replica rid target w b mono wall c).1 = true ∧
   ∃ r set, replicas_ c !! rid = Some r ∧ worker_boot_matches r w b = true ∧
     sets_ c !! r_set_id r = Some set ∧ promotable (epoch_ c) set r ∧
     (target = PromotionState.PRIMARY → ready_to_promote r = true) ∧
     promotion_effect rid target mono wall r set c
       (promote_replica rid target w b mono wall c).2) ∨
  (is_ok (promote_replica rid target w b mono wall c).1 = false ∧
   (promote_replica rid target w b mono wall c).2 = c ∧
   ¬ ∃ r set, replicas_ c !! rid = Some r ∧ worker_boot_matches r w b = true ∧
     sets_ c !! r_set_id r = Some set ∧ promotable (epoch_ c) set r ∧
     (target = PromotionState.PRIMARY → ready_to_promote r = true)).
Proof.
  unfold promote_replica. destruct (replicas_ c !! rid) as [r|] eqn:Hr; [|by refused].
  destruct (worker_boot_matches r w b) eqn:Hb; cbn [negb]; [|by refused].
  destruct (sets_ c !! r_set_id r) as [set|] eqn:Hs; [|by refused].
  destruct (promotion_refusal (epoch_ c) set r) as [res|] eqn:Hp.
  { right. assert (Hno : ¬ promotable (epoch_ c) set r).
    { rewrite <-promotion_refusal_spec. congruence. }
    split_and!; [|done|intros (? & ? & ? & ? & ? & ? & ?); simplify_eq; (congruence || auto)]. revert Hp. unfold promotion_refusal.
    repeat (case_match; [by intros [= <-]|]). done. }
  apply promotion_refusal_spec in Hp. case_bool_decide as Ht.
  - destruct (ready_to_promote r) eqn:Hready; cbn [negb].
    2: { right. split_and!; [done..|]. intros (? & ? & ? & _ & _ & _ & Hn). simplify_eq.
         by rewrite Hn in Hready. }
    replace (bool_decide _ && _) with false.
    + left. draw_all. subst target.
      destruct (finish_promotion_effect rid PromotionState.PRIMARY mono wall r
        (make_primary x r) set x (c <| rng_ := x0 |>) eq_refl) as [Hok Heff].
      apply promotion_effect_draw in Heff.
      split; [exact Hok|]. exists r, set. split_and!; [done..|exact Heff].
    + symmetry. apply andb_false_iff. apply ready_to_promote_spec in Hready as [-> | ->]; [by right|].
      left. apply bool_decide_eq_false. auto.
  - left. assert (Hg : grant_standby target r = granted target null r).
    { unfold granted. by rewrite bool_decide_false. }
    destruct (finish_promotion_effect rid target mono wall r _ set null c Hg) as [Hok Heff].
    split; [exact Hok|]. exists r, set. split_and!; [done..|exact Heff].
Qed.

(** C6: a promotion is granted exactly when the caller speaks for the replica's current
    host and boot, the set exists, every gate of the promotion policy holds, and, for
    PRIMARY, the replica is READY or SERVING; it then leaves exactly the described
    effect, and refused it changes nothing. *)
Theorem promote_spec rid target w b mono wall c :
  (is_ok (promote_replica rid target w b mono wall c).1 = true ∧
   ∃ r set, replicas_ c !! rid = Some r ∧ worker_boot_matches r w b = true ∧
     sets_ c !! r_set_id r = Some set ∧ promotable (epoch_ c) set r ∧
     (target = PromotionState.PRIMARY → ready_to_promote r = true) ∧
     promotion_effect rid target mono wall r set c
       (promote_replica rid target w b mono wall c).2) ∨
  (is_ok (promote_replica rid target w b mono wall c).1 = false ∧
   (promote_replica rid target w b mono wall c).2 = c ∧
   ¬ ∃ r set, replicas_ c !! rid = Some r ∧ worker_boot_matches r w b = true ∧
     sets_ c !! r_set_id r = Some set ∧ promotable (epoch_ c) set r ∧
     (target = PromotionState.PRIMARY → ready_to_promote r = true)).
Proof. apply promote_cases. Qed.
End promotion.

(** ** What a promotion is worth *)

Section promotion_serves.
Context `{Rng G}.
Implicit Types c : Controller G.

Definition serving_health (h : HealthState) : Prop :=
  h = HealthState.HEALTHY ∨ h = HealthState.DEGRADED.

Lemma make_primary_fields hgen r :
  r_lifecycle (make_primary hgen r) = ReplicaLifecycle.SERVING ∧
  r_promotion (make_primary hgen r) = PromotionState.PRIMARY ∧
  r_serving_eligible (make_primary hgen r) = true ∧
  r_health (make_primary hgen r) =
    (if bool_decide (r_health r = HealthState.UNKNOWN) then HealthState.HEALTHY else r_health r) ∧
  r_readiness (make_primary hgen r) = r_readiness r ∧
  r_warmth (make_primary hgen r) = r_warmth r ∧
  r_placement (make_primary hgen r) = r_placement r ∧
  r_worker_id (make_primary hgen r) = r_worker_id r ∧
  r_boot_id (make_primary hgen r) = r_boot_id r ∧
  r_coordinator_epoch (make_primary hgen r) = r_coordinator_epoch r ∧
  r_policy_generation (make_primary hgen r) = r_policy_generation r ∧
  r_policy_fingerprint (make_primary hgen r) = r_policy_fingerprint r ∧
  r_artifact_generation (make_primary hgen r) = r_artifact_generation r.
Proof.
  split; [apply primary_lifecycle|]. unfold make_primary. fold (take_over hgen r).
  assert (Eh : r_health (take_over hgen r) = r_health r).
  { unfold take_over. by case_match. }
  rewrite Eh. unfold take_over. by case_bool_decide; case_bool_decide.
Qed.

Lemma set_change_rest s s' :
  set_change s s' →
  s_compatibility s' = s_compatibility s ∧ s_generation s' = s_generation s ∧
  s_policy_generation s' = s_policy_generation s ∧
  s_artifact_generation s' = s_artifact_generation s.
Proof. by intros [->|(l & _ & ->)]. Qed.

(** A granted PRIMARY promotion makes the replica servable exactly when the factors
    promotion does not establish itself hold: a real incarnation, the current policy
    fingerprint, a host still registered under the replica's boot id, an assigned
    placement, warmth, a serving health and a set left AVAILABLE or DEGRADED. *)
Theorem promotion_makes_servable rid w b mono wall c r set :
  is_ok (promote_replica rid PromotionState.PRIMARY w b mono wall c).1 = true →
  replicas_ c !! rid = Some r → sets_ c !! r_set_id r = Some set →
  let c' := (promote_replica rid PromotionState.PRIMARY w b mono wall c).2 in
  sad_eligible (servable rid c') = true ↔
  r_generation r ≠ null ∧ r_policy_fingerprint r = cq_policy_fingerprint (s_compatibility set) ∧
  r_boot_id r = worker_boot (r_worker_id r) c ∧ r_placement r = PlacementState.ASSIGNED ∧
  r_warmth r = WarmthState.WARM ∧
  (serving_health (r_health r) ∨ r_health r = HealthState.UNKNOWN) ∧
  (∃ set', sets_ c' !! r_set_id r = Some set' ∧
    (s_lifecycle set' = ReplicaSetLifecycle.AVAILABLE ∨
     s_lifecycle set' = ReplicaSetLifecycle.DEGRADED)).
Proof.
  intros Hok Hr Hs c'. subst c'.
  destruct (promote_cases rid PromotionState.PRIMARY w b mono wall c) as
    [(_ & r0 & set0 & Hr0 & _ & Hs0 & Hp & _ & Heff)|(Hno & _)]; [|congruence].
  simplify_eq. destruct Heff as (hgen & pid & Er & Es & _ & Ew & Ee).
  rewrite granted_primary in Er.
  set (c' := (promote_replica _ _ _ _ _ _ _).2) in *. clearbody c'.
  set (healthy := count_healthy _ _) in *. clearbody healthy.
  destruct (make_primary_fields hgen r) as (F1&F2&F3&F4&F5&F6&F7&F8&F9&F10&F11&F12&F13).
  destruct (granted_keeps PromotionState.PRIMARY hgen r) as (_ & G1 & G2 & G3).
  rewrite granted_primary in G1, G2, G3.
  destruct (set_change_rest _ _ (derive_set_lifecycle_change healthy set)) as (D1 & D2 & D3 & D4).
  set (set' := derive_set_lifecycle healthy set) in *. clearbody set'.
  set (r' := make_primary hgen r) in *. clearbody r'.
  assert (Hr' : replicas_ c' !! rid = Some r') by by rewrite Er, lookup_insert_eq.
  assert (Hs' : sets_ c' !! r_set_id r = Some set') by by rewrite Es, lookup_insert_eq.
  assert (Hb : worker_boot (r_worker_id r) c' = worker_boot (r_worker_id r) c).
  { unfold worker_boot. by rewrite Ew. }
  fold (serves rid c'). rewrite serves_spec. destruct Hp as [P1 P2 P3 P4 _ P6 _ _ _ _]. split.
  - intros (r1 & s1 & Hr1 & Hs1 & Hm). rewrite Hr' in Hr1. injection Hr1 as <-.
    rewrite G1, Hs' in Hs1. injection Hs1 as <-. destruct Hm.
    unfold authority_context in *. cbn in *. unfold serving_health.
    rewrite ?F4, ?F6, ?F7, ?F8, ?F9, ?F12, ?G2, ?D1, ?Hb in *. split_and!; try tauto.
    + case_bool_decide; tauto.
    + eauto.
  - intros (Q1 & Q2 & Q3 & Q4 & Q5 & Q6 & (s1 & Hs1 & Q7)). rewrite Hs' in Hs1.
    injection Hs1 as <-. exists r', set'. split_and!; [done|by rewrite G1|].
    split; unfold authority_context; cbn;
      rewrite ?F1, ?F2, ?F3, ?F4, ?F5, ?F6, ?F7, ?F8, ?F9, ?F10, ?F11, ?F12, ?F13, ?G2, ?G3,
        ?D1, ?D2, ?D3, ?D4, ?Hb, ?Ee; try done.
    case_bool_decide; [by left|]. unfold serving_health in Q6. tauto.
Qed.
End promotion_serves.

(** ** Failover *)

Lemma failover_ltb_weak pol fw : StrictWeak (failover_ltb pol fw).
Proof.
  assert (Htot : StrictWeak (@id_ltb ReplicaIdTag)) by apply total_weak.
  unfold failover_ltb. split.
  - intros [a ra] [b rb]. cbn.
    destruct (fp_prefer_standby_first pol), (fp_require_diversity pol),
      (bool_decide (r_worker_id ra ≠ fw)), (bool_decide (r_worker_id rb ≠ fw)),
      (Z.eqb_spec (role_rank (r_promotion ra)) (role_rank (r_promotion rb)));
      cbn; rewrite ?(Z.eqb_sym (role_rank (r_promotion rb)));
      repeat case_match; bool_to_prop; try done; try lia; by apply strict_asym.
  - intros [a ra] [b rb] [d rd]. cbn.
    destruct (fp_prefer_standby_first pol), (fp_require_diversity pol),
      (bool_decide (r_worker_id ra ≠ fw)), (bool_decide (r_worker_id rb ≠ fw)),
      (bool_decide (r_worker_id rd ≠ fw)),
      (Z.eqb_spec (role_rank (r_promotion ra)) (role_rank (r_promotion rb))),
      (Z.eqb_spec (role_rank (r_promotion ra)) (role_rank (r_promotion rd))),
      (Z.eqb_spec (role_rank (r_promotion rd)) (role_rank (r_promotion rb)));
      cbn; intros E; try done; try (by auto); try (exfalso; lia);
      try (by apply strict_cotrans); rewrite ?Z.ltb_lt in *; lia.
Qed.

Section failover.
Context `{Rng G}.
Implicit Types c : Controller G.

(** The replica a failover of [failed] takes: eligible, and no eligible replica is
    strictly before it in the policy's order. *)
Definition best_replacement (set : ReplicaSetState) (failed : ReplicaId) (fw : WorkerId)
    (m : gmap ReplicaId ReplicaState) (sid : ReplicaSetId) (k : ReplicaId) (r : ReplicaState) :
    Prop :=
  m !! k = Some r ∧ failover_eligible sid failed set k r ∧
  ∀ j rj, m !! j = Some rj → failover_eligible sid failed set j rj →
    failover_ltb (pb_failover (s_policies set)) fw (j, rj) (k, r) = false.

Lemma candidates_head sid failed fw set m k r l :
  failover_candidates sid failed fw set m = (k, r) :: l →
  best_replacement set failed fw m sid k r.
Proof.
  intros Hf. assert (Hin : (k, r) ∈ (k, r) :: l) by left.
  rewrite <-Hf in Hin. apply elem_of_failover_candidates in Hin as [Hk Hc].
  pose proof (failover_ltb_weak (pb_failover (s_policies set)) fw) as Hweak.
  split_and!; [done|by apply failover_candidate_spec|]. intros j rj Hj He.
  unfold failover_candidates in Hf.
  destruct (stable_sort_head _ _ _ _ (j, rj) Hf) as [E|E]; [|done|].
  - apply list_elem_of_filter. split; [by apply failover_candidate_spec|]. by apply elem_of_entries.
  - rewrite E. destruct (failover_ltb _ _ (k, r) (k, r)) eqn:X; [|done].
    pose proof (strict_asym _ _ X). congruence.
Qed.

Lemma candidates_nil sid failed fw set m :
  failover_candidates sid failed fw set m = [] →
  ∀ j rj, m !! j = Some rj → ¬ failover_eligible sid failed set j rj.
Proof.
  intros Hf j rj Hj He. assert ((j, rj) ∈ failover_candidates sid failed fw set m) as Hin.
  { apply elem_of_failover_candidates. split; [done|]. by apply failover_candidate_spec. }
  rewrite Hf in Hin. by apply not_elem_of_nil in Hin.
Qed.

(** C7: failing over a replica of a set strips the failed replica whatever happens; if
    some other replica is eligible, the best one by the policy's order becomes PRIMARY
    and serving with a new health generation and a COMPLETE record names it; if none
    is, the call is REJECTED, nobody is promoted, and a FAILED record is kept. *)
Theorem failover_spec sid failed reason mono wall c set fr :
  sets_ c !! sid = Some set → replicas_ c !! failed = Some fr → r_set_id fr = sid →
  let res := (trigger_failover sid failed reason mono wall c).1 in
  let c' := (trigger_failover sid failed reason mono wall c).2 in
  let m := <[failed := obsolete_replica reason fr]> (replicas_ c) in
  ¬ serves failed c' ∧
  ((∃ k r hgen fid, is_ok res = true ∧ k ≠ failed ∧
      best_replacement set failed (r_worker_id fr) m sid k r ∧
      replicas_ c' = <[k := take_over hgen r]> m ∧
      failovers_ c' = failovers_ c ++ [mkFailoverRecord fid sid failed k FailoverState.COMPLETE
        (epoch_ c) mono mono (fp_preserve_generation (pb_failover (s_policies set)))
        (lost_work fr) (reason ++ "; promoted " ++ id_str k)]) ∨
   (is_ok res = false ∧ (∀ j rj, m !! j = Some rj → ¬ failover_eligible sid failed set j rj) ∧
      replicas_ c' = m ∧ sets_ c' = sets_ c ∧ promotions_ c' = promotions_ c ∧
      ∃ fid, failovers_ c' = failovers_ c ++ [mkFailoverRecord fid sid failed null
        FailoverState.FAILED (epoch_ c) mono mono
        (fp_preserve_generation (pb_failover (s_policies set))) (lost_work fr)
        (reason ++ "; no eligible replacement")])).
Proof.
  intros Hs Hfr Hsid.
  assert (Hlost : lost_work (obsolete_replica reason fr) = lost_work fr).
  { assert (Ha : r_active_requests (obsolete_replica reason fr) = r_active_requests fr).
    { unfold obsolete_replica. cbn zeta. by repeat case_match. }
    unfold lost_work. by rewrite Ha. }
  assert (Hw : r_worker_id (obsolete_replica reason fr) = r_worker_id fr).
  { unfold obsolete_replica. cbn zeta. by repeat case_match. }
  cbn zeta. unfold trigger_failover. rewrite Hs, Hfr, bool_decide_false by auto.
  change (replicas_ (store_replica failed ?x c)) with (<[failed := x]> (replicas_ c)).
  rewrite Hw, Hlost.
  set (m := <[failed := obsolete_replica reason fr]> (replicas_ c)).
  assert (Hflag : ∀ c', replicas_ c' !! failed = Some (obsolete_replica reason fr) →
    ¬ serves failed c').
  { intros c' Hc'. apply (flag_down_not_serving _ _ _ Hc'). apply obsolete_authority. }
  destruct (failover_candidates sid failed (r_worker_id fr) set m) as [|[k r] l] eqn:Hf; draw_all.
  - split; [apply Hflag, lookup_insert_eq|]. right. split; [done|].
    split; [by eapply candidates_nil|]. split_and!; [done..|]. by eexists.
  - apply candidates_head in Hf as Hbest. destruct Hbest as (Hk & He & Hbest).
    pose proof (fe_other _ _ _ _ _ He) as Hne.
    split.
    + apply Hflag. change (<[k := take_over x r]> m !! failed = Some (obsolete_replica reason fr)).
      rewrite lookup_insert_ne by done. apply lookup_insert_eq.
    + left. exists k, r, x. eexists. by split_and!.
Qed.

(** With the default policy a failover prefers STANDBY replicas, then CANARY,
    REPLACEMENT and RECOVERED ones: no eligible replica comes before the chosen one in
    that order, and among replicas of the same promotion state, when host diversity is
    not asked for, the smallest identity is chosen. *)
Theorem failover_prefers_standby set failed fw m sid k r l j rj :
  failover_candidates sid failed fw set m = (k, r) :: l →
  fp_prefer_standby_first (pb_failover (s_policies set)) = true →
  m !! j = Some rj → failover_eligible sid failed set j rj →
  (r_promotion rj = PromotionState.STANDBY → r_promotion r = PromotionState.STANDBY) ∧
  (r_promotion rj = PromotionState.CANARY →
    r_promotion r = PromotionState.STANDBY ∨ r_promotion r = PromotionState.CANARY) ∧
  (r_promotion rj = PromotionState.REPLACEMENT → r_promotion r ≠ PromotionState.RECOVERED ∧
    r_promotion r ≠ PromotionState.PRIMARY ∧ r_promotion r ≠ PromotionState.NOT_PROMOTED) ∧
  (r_promotion rj = r_promotion r → fp_require_diversity (pb_failover (s_policies set)) = false →
    id_ltb j k = false).
Proof.
  intros (_ & _ & Hbest)%candidates_head Hp Hj He. specialize (Hbest j rj Hj He).
  unfold failover_ltb in Hbest. rewrite Hp in Hbest. cbn [fst snd andb] in Hbest.
  split_and!; [by destruct (r_promotion rj), (r_promotion r); auto..|].
  intros E Hd. by rewrite E, Hd, Z.eqb_refl in Hbest.
Qed.
End failover.

(** ** Drains, failures, provisioning, audit *)

Section lifecycle_ops.
Context `{Rng G}.
Implicit Types c : Controller G.

(** The drain of [rid] that [drain_replica] opened is closed: the records before it are
    untouched, its own says QUIESCED with the caller's numbers. *)
Definition drain_closed (rid : ReplicaId) (mono q : Z) (force : bool) c c' : Prop :=
  ∃ l1 d l2, drains_ c = l1 ++ d :: l2 ∧ open_drain rid d ∧
    Forall (λ d, ¬ open_drain rid d) l1 ∧
    drains_ c' = l1 ++ d <| d_state := DrainState.QUIESCED |> <| d_completed_mono := mono |>
      <| d_quiesced_requests := q |> <| d_force_cancelled := force |> :: l2.

Lemma first_open rid l :
  Exists (open_drain rid) l →
  ∃ l1 d l2, l = l1 ++ d :: l2 ∧ open_drain rid d ∧ Forall (λ d, ¬ open_drain rid d) l1.
Proof.
  induction l as [|d l IH]; [by intros ?%Exists_nil|].
  assert (Hdec : Decision (open_drain rid d)) by (unfold open_drain; apply _).
  intros Hex. destruct (decide (open_drain rid d)) as [Hd|Hd].
  - exists [], d, l. by split_and!.
  - apply Exists_cons in Hex as [?|Hex]; [done|]. destruct (IH Hex) as (l1 & d' & l2 & -> & ? & ?).
    exists (d :: l1), d', l2. split_and!; [done..|]. by constructor.
Qed.

(** C19: draining is two-phase.  A current caller drains exactly the READY and SERVING
    replicas of its epoch, which stop serving at once; completing the drain of a
    reachable controller succeeds exactly on DRAINING replicas, quiesces them and
    closes the first open drain record of that replica. *)
Theorem drain_two_phase rng c rid r w b mono q force :
  reachable rng c → replicas_ c !! rid = Some r → worker_boot_matches r w b = true →
  r_coordinator_epoch r = epoch_ c →
  (is_ok (drain_replica rid w b mono c).1 = ready_to_promote r ∧
   (ready_to_promote r = true → ¬ serves rid (drain_replica rid w b mono c).2)) ∧
  is_ok (complete_drain rid q force mono c).1 =
    bool_decide (r_lifecycle r = ReplicaLifecycle.DRAINING) ∧
  (r_lifecycle r = ReplicaLifecycle.DRAINING →
   replicas_ (complete_drain rid q force mono c).2 !! rid = Some (quiesce_replica r) ∧
   drain_closed rid mono q force c (complete_drain rid q force mono c).2).
Proof.
  intros Hc%reachable_inv Hr Hb He. apply (ci_replica c Hc) in Hr as Hi. split.
  - unfold drain_replica. rewrite Hr, Hb, bool_decide_false by auto. cbn [negb].
    rewrite !bool_decide_not, <-negb_orb. fold (ready_to_promote r).
    destruct (ready_to_promote r) eqn:Hready; cbn [negb]; [|done].
    change (r_lifecycle (reject_new_work r)) with (r_lifecycle r).
    assert (can_transition (r_lifecycle r) ReplicaLifecycle.DRAINING = true) as ->
      by by apply ready_to_promote_spec in Hready as [-> | ->].
    cbn [negb]. draw_all. split; [done|]. intros _.
    eapply flag_down_not_serving; [apply lookup_insert_eq|done].
  - unfold complete_drain. rewrite Hr.
    destruct (decide (r_lifecycle r = ReplicaLifecycle.DRAINING)) as [Hl|Hl].
    + rewrite bool_decide_false by auto. rewrite (proj1 (ri_idle _ _ Hi)), andb_false_r.
      rewrite Hl. cbn [can_transition negb]. rewrite (bool_decide_true (_ = _)) by done. cbn.
      split; [done|]. intros _. split; [apply lookup_insert_eq|].
      destruct (first_open rid (drains_ c)) as (l1 & d & l2 & Ed & Hd & Hl1);
        [by apply (ci_drain c Hc rid r)|].
      exists l1, d, l2. split_and!; [done..|].
      rewrite <-(finish_drain_first rid mono q force l1 d l2 Hl1 Hd), <-Ed.
      by rewrite <-(ri_key _ _ Hi).
    + rewrite bool_decide_true, (bool_decide_false (_ = _)) by done. by split.
Qed.

(** Failing a replica always ends its authority, but is reported OK only when the
    lifecycle table lets it move to FAILED: on a QUIESCED, FAILED or RETIRED replica
    the call answers REJECTED and has still stripped and re-marked the replica. *)
Theorem fail_replica_spec c rid r w b reason mono :
  replicas_ c !! rid = Some r → worker_boot_matches r w b = true →
  is_ok (fail_replica rid w b reason mono c).1 =
    can_transition (r_lifecycle r) ReplicaLifecycle.FAILED ∧
  ∃ r', replicas_ (fail_replica rid w b reason mono c).2 = <[rid := r']> (replicas_ c) ∧
    r_serving_eligible r' = false ∧ r_health r' = HealthState.FAILED ∧
    r_promotion r' = PromotionState.NOT_PROMOTED ∧
    r_lifecycle r' = (if can_transition (r_lifecycle r) ReplicaLifecycle.FAILED
                      then ReplicaLifecycle.FAILED else r_lifecycle r).
Proof.
  intros Hr Hb. unfold fail_replica. rewrite Hr, Hb. cbn [negb].
  change (r_lifecycle (strip_failed reason mono r)) with (r_lifecycle r).
  destruct (can_transition (r_lifecycle r) ReplicaLifecycle.FAILED); (split; [done|]);
    by eexists.
Qed.

(** C35: a provisioning succeeds exactly for a known, non-terminal set with room and a
    registered worker; the replica it stores is DECLARED under the worker's boot, the
    set's generations and the current epoch, does not serve, and leaves every other
    replica alone; a CREATED set starts PROVISIONING. *)
Theorem provision_spec rng c rid sid w compat dev cap mono wall :
  reachable rng c →
  let res := (provision_replica rid sid w compat dev cap mono wall c).1 in
  let c' := (provision_replica rid sid w compat dev cap mono wall c).2 in
  (is_ok res = true ∧ ∃ set reg r,
     sets_ c !! sid = Some set ∧ workers_ c !! w = Some reg ∧
     s_lifecycle set ≠ ReplicaSetLifecycle.RETIRED ∧
     s_lifecycle set ≠ ReplicaSetLifecycle.FAILED ∧
     Z.of_nat (size (members sid (replicas_ c))) < s_max_replicas set ∧
     replicas_ c' = <[rid := r]> (replicas_ c) ∧ r_id r = rid ∧ r_set_id r = sid ∧
     r_worker_id r = w ∧ r_boot_id r = w_boot_id reg ∧ r_coordinator_epoch r = epoch_ c ∧
     r_set_generation r = s_generation set ∧
     r_lifecycle r = ReplicaLifecycle.DECLARED ∧ ¬ serves rid c' ∧
     (s_lifecycle set = ReplicaSetLifecycle.CREATED → ∃ set', sets_ c' !! sid = Some set' ∧
        s_lifecycle set' = ReplicaSetLifecycle.PROVISIONING)) ∨
  (is_ok res = false ∧ c' = c ∧
     ∀ set reg, sets_ c !! sid = Some set → workers_ c !! w = Some reg →
       s_lifecycle set = ReplicaSetLifecycle.RETIRED ∨
       s_lifecycle set = ReplicaSetLifecycle.FAILED ∨
       s_max_replicas set <= Z.of_nat (size (members sid (replicas_ c)))).
Proof.
  intros Hc%reachable_inv. cbn zeta. unfold provision_replica.
  destruct (sets_ c !! sid) as [set|] eqn:Hs; [|by right].
  assert (Hcount : count_in_set sid (replicas_ c) = Z.of_nat (size (members sid (replicas_ c)))).
  { pose proof (ci_capacity c Hc sid set Hs) as Hcap. apply (ci_set c Hc) in Hs as (_ & Hwf & _).
    assert (in_u32 (s_max_replicas set)) as Hmax by (unfold wf_ReplicaSetState in Hwf; tauto).
    unfold in_u32 in Hmax. unfold count_in_set, members in *. apply u32_small.
    unfold in_u32. lia. }
  case_match eqn:Hl.
  { right. split_and!; [done..|]. intros ? ? [= <-] _. bool_to_prop.
    destruct_or! Hl; bool_to_prop; auto. }
  destruct (workers_ c !! w) as [reg|] eqn:Hw; [|right; by split_and!].
  rewrite Hcount. case_match eqn:Hroom.
  { right. split_and!; [done..|]. intros ? ? [= <-] _. bool_to_prop. auto. }
  left. draw_all. bool_to_prop. split; [done|]. eexists set, reg, _.
  split_and!; try reflexivity; try done.
  - by case_bool_decide.
  - eapply flag_down_not_serving; [apply lookup_insert_eq|done].
  - intros Hcr. rewrite (bool_decide_true _ Hcr). eexists. split; [apply lookup_insert_eq|done].
Qed.

(** C30: the audit trail only grows: promotion and failover records are appended, at
    most one of each per operation, and never changed. *)
Theorem audit_append_only rng c acts :
  reachable rng c → Forall wf_action acts →
  ∃ ps fs, promotions_ (run acts c) = promotions_ c ++ ps ∧
    failovers_ (run acts c) = failovers_ c ++ fs ∧
    (length ps ≤ length acts)%nat ∧ (length fs ≤ length acts)%nat.
Proof.
  intros Hc%reachable_inv Hacts. revert c Hc.
  induction Hacts as [|a acts Ha _ IH]; intros c Hc.
  { exists [], []. by rewrite !app_nil_r. }
  destruct (exec_logs a c Ha Hc) as (ps & fs & Hp & Hf & _ & _ & Lp & Lf).
  destruct (IH (after a c)) as (ps' & fs' & Hp' & Hf' & Lp' & Lf'); [by apply after_inv|].
  exists (ps ++ ps'), (fs ++ fs'). cbn [run foldl]. fold (run acts (after a c)).
  rewrite Hp', Hf', Hp, Hf, !app_assoc, !length_app. cbn [length]. split_and!; (done || lia).
Qed.
End lifecycle_ops.

(** Nothing makes PRIMARY exclusive: a reachable controller has two replicas of the
    same set that are both PRIMARY and both servable, because promoting one never
    demotes the other. *)
Theorem two_primaries_reachable :
  ∃ c r1 r2, reachable 1000 c ∧
    replicas_ c !! ident 10 = Some r1 ∧ replicas_ c !! ident 11 = Some r2 ∧
    r_set_id r1 = r_set_id r2 ∧
    r_promotion r1 = PromotionState.PRIMARY ∧ r_promotion r2 = PromotionState.PRIMARY ∧
    sad_eligible (servable (ident 10) c) = true ∧ sad_eligible (servable (ident 11) c) = true.
Proof.
  exists (after promote_second serving_state). eexists _, _. split_and!.
  - eapply rtc_r; [apply serving_state_reachable|]. exists promote_second. split; [apply promote_second_wf|done].
  - by vm_compute.
  - by vm_compute.
  - by vm_compute.
  - by vm_compute.
  - by vm_compute.
  - by vm_compute.
  - by vm_compute.
Qed.

(** ** Witnesses *)

Lemma reachable_controller_inv_witness : controller_inv serving_state.
Proof. exact (reachable_controller_inv 1000 serving_state serving_state_reachable). Defined.

Lemma lifecycle_guarded_witness :
  ∃ r', replicas_ (after drain_first serving_state) !! ident 10 = Some r' ∧
    (r_lifecycle r' = r_lifecycle (replica_of 10 serving_state) ∨
     can_transition (r_lifecycle (replica_of 10 serving_state)) (r_lifecycle r') = true ∨
     (provisioned_id drain_first = Some (ident 10) ∧ r_lifecycle r' = ReplicaLifecycle.DECLARED)).
Proof.
  exact (lifecycle_guarded 1000 serving_state drain_first (ident 10) (replica_of 10 serving_state)
    serving_state_reachable drain_first_wf serving_lookup_10).
Defined.

Lemma authority_granted_only_by_promotion_witness :
  (∃ w b mono wall, promote_first = PromoteReplica (ident 10) PromotionState.PRIMARY w b mono wall) ∨
  (∃ sid failed reason mono wall, promote_first = TriggerFailover sid failed reason mono wall ∧
     ident (k := ReplicaIdTag) 10 ≠ failed).
Proof.
  apply (authority_granted_only_by_promotion ready_state promote_first (ident 10)
    (replica_of 10 serving_state));
    [apply promote_first_wf| |rewrite serving_state_eq; apply serving_lookup_10|by vm_compute].
  intros r E. rewrite ready_lookup_10 in E. apply (inj Some) in E. rewrite <-E. by vm_compute.
Defined.

Lemma withdrawn_never_serves_witness :
  sad_eligible (servable (ident 10) (run [promote_first; promote_second] draining_state)) = false.
Proof.
  apply (withdrawn_never_serves 1000 draining_state (ident 10) (replica_of 10 draining_state)
    [promote_first; promote_second]);
    [apply draining_state_reachable|apply draining_lookup_10|by vm_compute
    |by repeat constructor; apply promote_first_wf || apply promote_second_wf|].
  by repeat constructor.
Defined.

Lemma restart_revokes_authority_witness :
  sad_eligible (servable (ident 10) serving_state) = true ∧
  sad_eligible (servable (ident 10) (register_worker restart_first serving_state).2) = false.
Proof.
  split; [by vm_compute|].
  exact (restart_revokes_authority 1000 serving_state restart_first (ident 10)
    (replica_of 10 serving_state) serving_state_reachable ltac:(by vm_compute) serving_lookup_10).
Defined.

Lemma unregister_revokes_authority_witness :
  servable (ident 10) (unregister_worker (ident 21) serving_state).2 =
  servable (ident 10) serving_state.
Proof.
  exact (unregister_revokes_authority 1000 serving_state (ident 21) (demo_worker 21 31) (ident 10)
    (replica_of 10 serving_state) serving_state_reachable ltac:(by vm_compute) serving_lookup_10).
Defined.

Lemma stale_boot_rejected_witness :
  exec (DrainReplica (ident 10) (ident 20) (ident 29) 4) serving_state =
  (op_rejected "stale worker boot identity", serving_state).
Proof.
  apply (stale_boot_rejected serving_state _ (ident 10) (ident 20) (ident 29)
    (replica_of 10 serving_state)); [done|apply serving_lookup_10|].
  right. apply (bool_decide_unpack _). by vm_compute.
Defined.

Lemma stale_epoch_fenced_witness :
  sad_eligible (servable (ident 10) (set_epoch (ident 9) serving_state)) = false ∧
  ∃ msg, exec drain_first (set_epoch (ident 9) serving_state) =
         (op_rejected msg, set_epoch (ident 9) serving_state).
Proof.
  destruct (stale_epoch_fenced (set_epoch (ident 9) serving_state) (ident 10)
    (replica_of 10 serving_state)) as [Hs Ha]; [apply serving_lookup_10|by vm_compute|].
  split; [exact Hs|]. by apply Ha.
Defined.

Lemma stale_health_generation_rejected_witness :
  ∃ msg, report_health (ident 10) (healthy_evidence (mkId 1002 1003) HealthState.HEALTHY)
    (ident 20) (ident 30) 5 serving_state = (op_rejected msg, serving_state).
Proof.
  apply (stale_health_generation_rejected serving_state (ident 10) _ _ _ _
    (replica_of 10 serving_state)); [apply serving_lookup_10|by vm_compute].
Defined.

Lemma bad_health_strips_authority_witness :
  let ev := healthy_evidence (r_health_generation (replica_of 10 serving_state)) HealthState.UNHEALTHY in
  sad_eligible (servable (ident 10)
    (report_health (ident 10) ev (ident 20) (ident 30) 5 serving_state).2) = false.
Proof.
  intros ev. destruct (bad_health_strips_authority serving_state (ident 10) ev (ident 20) (ident 30) 5
    (replica_of 10 serving_state) serving_lookup_10 ltac:(by vm_compute)) as (r' & _ & _ & _ & Hb).
  by apply Hb.
Defined.

Lemma promotion_makes_servable_witness :
  sad_eligible (servable (ident 10)
    (promote_replica (ident 10) PromotionState.PRIMARY (ident 20) (ident 30) 3 3 ready_state).2) = true.
Proof.
  apply (promotion_makes_servable (ident 10) (ident 20) (ident 30) 3 3 ready_state
    (replica_of 10 ready_state) (set_of 7 ready_state));
    [by vm_compute|apply ready_lookup_10|by vm_compute|].
  split_and!; try by vm_compute.
  - left. left. by vm_compute.
  - exists (set_of 7 serving_state). split; [by vm_compute|]. left. by vm_compute.
Defined.

Lemma failover_spec_witness :
  ¬ serves (ident 10) (trigger_failover (ident 7) (ident 10) "lost" 6 6 serving_state).2 ∧
  serves (ident 11) (trigger_failover (ident 7) (ident 10) "lost" 6 6 serving_state).2.
Proof.
  split; [|by vm_compute].
  apply (failover_spec (ident 7) (ident 10) "lost" 6 6 serving_state (set_of 7 serving_state)
    (replica_of 10 serving_state)); [apply serving_lookup_set|apply serving_lookup_10|by vm_compute].
Defined.

(** Two READY replicas, the first with the smaller identity but only a CANARY. *)
Definition canary_10 : ReplicaState := (replica_of 10 ready_state) <| r_promotion := PromotionState.CANARY |>.
Definition standby_11 : ReplicaState := (replica_of 11 ready_state) <| r_promotion := PromotionState.STANDBY |>.
Definition demo_table : gmap ReplicaId ReplicaState :=
  <[ident 10 := canary_10]> {[ident 11 := standby_11]}.

Lemma failover_prefers_standby_witness :
  failover_candidates (ident 7) (ident 12) null (set_of 7 ready_state) demo_table =
    [(ident 11, standby_11); (ident 10, canary_10)] ∧
  (r_promotion standby_11 = PromotionState.STANDBY ∨ r_promotion standby_11 = PromotionState.CANARY).
Proof.
  assert (Hl : failover_candidates (ident 7) (ident 12) null (set_of 7 ready_state) demo_table =
    [(ident 11, standby_11); (ident 10, canary_10)]) by by vm_compute.
  assert (He : failover_eligible (ident 7) (ident 12) (set_of 7 ready_state) (ident 10) canary_10)
    by (apply failover_candidate_spec; by vm_compute).
  assert (Hp : fp_prefer_standby_first (pb_failover (s_policies (set_of 7 ready_state))) = true)
    by by vm_compute.
  destruct (failover_prefers_standby (set_of 7 ready_state) (ident 12) null demo_table (ident 7)
    (ident 11) standby_11 _ (ident 10) canary_10 Hl Hp eq_refl He) as (_ & Hcanary & _).
  exact (conj Hl (Hcanary eq_refl)).
Defined.

Lemma drain_two_phase_witness :
  is_ok (drain_replica (ident 10) (ident 20) (ident 30) 5 serving_state).1 = true ∧
  is_ok (complete_drain (ident 10) 0 false 5 serving_state).1 = false.
Proof.
  destruct (drain_two_phase 1000 serving_state (ident 10) (replica_of 10 serving_state) (ident 20)
    (ident 30) 5 0 false) as [[H1 _] [H2 _]];
    [apply serving_state_reachable|apply serving_lookup_10|by vm_compute|by vm_compute|].
  split; [rewrite H1|rewrite H2]; by vm_compute.
Defined.

Lemma fail_replica_spec_witness :
  is_ok (fail_replica (ident 10) (ident 20) (ident 30) "crash" 7 serving_state).1 = true.
Proof.
  destruct (fail_replica_spec serving_state (ident 10) (replica_of 10 serving_state) (ident 20)
    (ident 30) "crash" 7) as [-> _]; [apply serving_lookup_10|by vm_compute|by vm_compute].
Defined.

Lemma provision_spec_witness :
  is_ok (provision_replica (ident 12) (ident 7) (ident 20) default_ReplicaCompatibility
    default_DeviceCapability 1 8 8 serving_state).1 = false.
Proof.
  destruct (provision_spec 1000 serving_state (ident 12) (ident 7) (ident 20)
    default_ReplicaCompatibility default_DeviceCapability 1 8 8 serving_state_reachable)
    as [[H _]|[H _]]; [by vm_compute in H|exact H].
Defined.

Lemma audit_append_only_witness :
  ∃ ps fs, promotions_ (run [promote_second] serving_state) = promotions_ serving_state ++ ps ∧
    failovers_ (run [promote_second] serving_state) = failovers_ serving_state ++ fs ∧
    (length ps ≤ 1)%nat ∧ (length fs ≤ 1)%nat.
Proof.
  apply (audit_append_only 1000 serving_state [promote_second]);
    [apply serving_state_reachable|by repeat constructor].
Defined.
