(* ===== verification/Mersenne.v ===== *)
(** The generator the repository instantiates: [std::mt19937_64].

    The 64-bit Mersenne twister of the C++ standard library (rand.eng.mers and
    rand.predef), as the recurrence the standard states, and its [Rng] instance.  A state
    is the last 312 words of the sequence, oldest first.  A
    [std::uniform_int_distribution<uint64_t>] over its whole range hands on the words of
    the engine. *)

From S2P Require Import Prelude Identity.

Definition mt_n : nat := 312.
Definition mt_m : nat := 156.
Definition mt_a : Z := 0xb5026f5aa96619e9.
Definition mt_f : Z := 6364136223846793005.
Definition mt_lower : Z := 0x7fffffff.
Definition mt_upper : Z := 0xffffffff80000000.

Record mt_state := mkMt { mt_words : list Z }.

(** The words after the first one that seeding fills in, [i] counting them. *)
Fixpoint mt_fill (fuel : nat) (i x : Z) : list Z :=
  match fuel with
  | O => []
  | S fuel' =>
      let x' := u64 (mt_f * Z.lxor x (Z.shiftr x 62) + i) in
      x' :: mt_fill fuel' (i + 1) x'
  end.

(** [std::mt19937_64(seed)]. *)
Definition mt19937_64 (seed : Z) : mt_state :=
  mkMt (u64 seed :: mt_fill (mt_n - 1) 1 (u64 seed)).

(** One step of the recurrence, on the words it reads. *)
Definition mt_twist (x0 x1 xm : Z) : Z :=
  let y := Z.lor (Z.land x0 mt_upper) (Z.land x1 mt_lower) in
  let odd := if Z.testbit y 0 then mt_a else 0 in
  Z.lxor (Z.lxor xm (Z.shiftr y 1)) odd.

(** The tempering of the word just produced. *)
Definition mt_temper (x : Z) : Z :=
  let z := Z.lxor x (Z.land (Z.shiftr x 29) 0x5555555555555555) in
  let z := Z.lxor z (Z.land (Z.shiftl z 17) 0x71d67fffeda60000) in
  let z := Z.lxor z (Z.land (Z.shiftl z 37) 0xfff7eee000000000) in
  Z.lxor z (Z.shiftr z 43).

(** [operator()]: the next word enters the state and leaves tempered. *)
Definition mt_next (s : mt_state) : Z * mt_state :=
  match mt_words s with
  | x0 :: (x1 :: _) as rest =>
      let x := mt_twist x0 x1 (nth (mt_m - 1) rest 0) in
      (u64 (mt_temper x), mkMt (rest ++ [x]))
  | _ => (0, s)
  end.

Lemma mt_next_range s : in_u64 (mt_next s).1.
Proof.
  unfold mt_next. destruct (mt_words s) as [|x0 [|x1 ws]]; [unfold in_u64; simpl fst; lia..|].
  apply u64_range.
Qed.

#[global] Instance mt_rng : Rng mt_state := {| rng_next := mt_next; rng_next_range := mt_next_range |}.

(** The state keeps the 312 words the recurrence reads. *)
Lemma length_mt_fill fuel i x : length (mt_fill fuel i x) = fuel.
Proof.
  revert i x. induction fuel as [|fuel IH]; intros i x; cbn [mt_fill length]; [done|].
  by rewrite IH.
Qed.

Lemma mt_seed_full seed : length (mt_words (mt19937_64 seed)) = mt_n.
Proof. unfold mt19937_64. cbn [mt_words length]. by rewrite length_mt_fill. Qed.

Lemma mt_next_full s : length (mt_words s) = mt_n → length (mt_words (mt_next s).2) = mt_n.
Proof.
  unfold mt_next. destruct s as [[|x0 [|x1 ws]]]; [done..|]. cbn [mt_words fst snd length].
  rewrite length_app. simpl length. lia.
Qed.

(** [n] draws, the last value kept. *)
Fixpoint mt_draws (n : nat) (v : Z) (s : mt_state) : Z :=
  match n with O => v | S n' => let '(v, s) := mt_next s in mt_draws n' v s end.

(** The check value of the standard: the 10000th word of the default-seeded engine. *)
Example mt_standard_value : mt_draws (Z.to_nat 10000) 0 (mt19937_64 5489) = 9981545732273789042.
Proof. by vm_compute. Qed.
