(* ===== verification/Examples.v ===== *)
(** The example programs (examples/example_util.hpp, basic.cpp, failover.cpp,
    warm_promote.cpp, drain.cpp).

    Each [main] is a function from a seeding of the generator to its exit code and the
    text it prints.  A program's state is its own generator, the one controller it
    declares and the text so far; the statements of a function body are binds of a state
    monad over it, in the order of the source. *)

From S2P Require Import Prelude Identity Enums Model Authority Controller.

Record Program (G : Type) := mkProgram {
  ex_rng : G;
  ex_ctrl : Controller G;
  ex_out : string;
}.
Arguments mkProgram {G} _ _ _.
Arguments ex_rng {G} _.
Arguments ex_ctrl {G} _.
Arguments ex_out {G} _.

Definition Step (G A : Type) : Type := Program G → A * Program G.
#[global] Instance step_ret G : MRet (Step G) := λ A x p, (x, p).
#[global] Instance step_bind G : MBind (Step G) := λ A B f m p, let '(x, p) := m p in f x p.

(** [ReplicaHandle]. *)
Record ReplicaHandle := mkReplicaHandle {
  h_id : ReplicaId;
  h_worker : WorkerId;
  h_boot : WorkerBootId;
  h_node : NodeId;
}.

Definition compute (major minor : Z) : ComputeCapability := mkComputeCapability major minor.
Definition GiB : Z := 1024 * 1024 * 1024.
Definition MiB : Z := 1024 * 1024.

(** The worker every example registers: one CUDA device, one Triton backend. *)
Definition example_device : DeviceCapability :=
  mkDeviceCapability AcceleratorKind.CUDA "cuda:0" (compute 12 0) (32 * GiB).
Definition example_registration (w : WorkerId) (b : WorkerBootId) (n : NodeId) : WorkerRegistration :=
  mkWorkerRegistration w b n
    (mkResourceInventory (64 * GiB) (64 * GiB) 1 [example_device]
       [mkBackendCapability BackendKind.TRITON "triton-3" (compute 12 0) NumericMode.FP16])
    null 1.

(** The declaration copied from the set's requirements, empty when the set is unknown. *)
Definition example_compat (sp : option ReplicaSetState) : ReplicaCompatibility :=
  match sp with
  | None => default_ReplicaCompatibility
  | Some s =>
      let q := s_compatibility s in
      mkReplicaCompatibility (cq_model_id q) EmptyString EmptyString [] (cq_backend q)
        (cq_runtime_name q) (cq_architecture q) (compute 12 0) (cq_numeric_mode q)
        (cq_artifact_generation q) EmptyString (cq_policy_fingerprint q)
  end.

(** The warming record with every step done; only example_util.hpp counts them. *)
Definition example_warm (steps : Z) : WarmingRecord :=
  mkWarmingRecord WarmthState.WARM steps steps true true true true true true true true true
    0 0 0 EmptyString.

(** The evidence names the replica's current health generation when it is known. *)
Definition example_health (source : string) (rs : option ReplicaState) : HealthEvidence :=
  mkHealthEvidence HealthState.HEALTHY HealthEvidenceKind.REPORTED source 0 0 0 0
    (match rs with Some r => r_health_generation r | None => null end) EmptyString.

Definition example_ready : ReadinessRecord :=
  mkReadinessRecord ReadinessState.READY
    (mkReadinessFactors true true true true true true true true true true true) 0 0 EmptyString.

(** The requirements and policies the examples' sets share. *)
Definition example_requirements (model : ModelId) (artifact : ArtifactGeneration) :
    CompatibilityRequirements :=
  mkCompatibilityRequirements model EmptyString EmptyString [] BackendKind.TRITON "triton-3"
    "llama" (compute 8 0) NumericMode.FP16 artifact EmptyString "fp-1".

(** [std::cout << b] of a [bool], and the words the examples print for it. *)
Definition digit (b : bool) : string := if b then "1" else "0".
Definition yes_no (b : bool) : string := if b then "yes" else "no".
Definition verdict (b : bool) : string := if b then "PASSED" else "FAILED".
Definition exit_code (ok : bool) : Z := if ok then 0 else 1.
Definition endl : string := String "010" EmptyString.

(** [final ? f(final) : "?"]. *)
Definition or_unknown {A} (f : A → string) (o : option A) : string :=
  match o with Some r => f r | None => "?" end.

(** [r.ok() ? "ok" : r.message]. *)
Definition outcome (r : OpResult) : string := if is_ok r then "ok" else message r.

Section examples.
Context `{Rng G}.

(** A draw from the program's own generator. *)
Definition fresh (k : IdKind) : Step G (Id k) := λ p,
  let '(i, g) := random_id (ex_rng p) in (i, mkProgram g (ex_ctrl p) (ex_out p)).

(** A call of the controller, and a read of it. *)
Definition call {A} (op : Controller G → A * Controller G) : Step G A := λ p,
  let '(x, c) := op (ex_ctrl p) in (x, mkProgram (ex_rng p) c (ex_out p)).
Definition ask {A} (q : Controller G → A) : Step G A := λ p, (q (ex_ctrl p), p).

(** [std::cout << ... << "\n"]. *)
Definition print (s : string) : Step G () := λ p,
  ((), mkProgram (ex_rng p) (ex_ctrl p) (ex_out p ++ s ++ endl)).

(** A program started on an empty controller: its exit code and its output. *)
Definition run_program (main : Step G Z) (rng ctrl : G) : Z * string :=
  let '(code, p) := main (mkProgram rng (new_controller ctrl) EmptyString) in
  (code, ex_out p).

(** [make_set] of example_util.hpp. *)
Definition make_set (max : Z) : Step G ReplicaSetState :=
  id ← fresh ReplicaSetIdTag;
  model ← fresh ModelIdTag;
  artifact ← fresh ArtifactIdTag;
  agen ← fresh ArtifactGenerationTag;
  gen ← fresh ReplicaSetGenerationTag;
  pgen ← fresh PolicyGenerationTag;
  workload ← fresh WorkloadIdTag;
  tenant ← fresh TenantIdTag;
  mret (mkReplicaSetState id model workload tenant (u32 max) 1 (u32 max) artifact agen gen pgen
    ReplicaSetLifecycle.CREATED (example_requirements model agen) default_PolicyBundle
    (mkPlacementPolicy ["host"]%string
       [mkSyntheticFailureDomain "rack-A" "rack"; mkSyntheticFailureDomain "rack-B" "rack"]
       true EmptyString EmptyString EmptyString EmptyString 0)
    BackendKind.TRITON "triton-3" (compute 8 0) (16 * MiB) 1).

(** The calls every example makes after the worker is registered: [place] draws the
    placement identity. *)
Definition bring_up_replica (r : ReplicaId) (set : ReplicaSetId) (w : WorkerId)
    (b : WorkerBootId) (compat : ReplicaCompatibility) (place : Step G PlacementId)
    (steps : Z) (source : string) : Step G () :=
  _ ← call (provision_replica r set w compat example_device (8 * MiB) 0 0);
  placement ← place;
  _ ← call (set_allocating r placement);
  _ ← call (set_starting r 0 0);
  _ ← call (warm_replica r (example_warm steps) w b 0);
  rs ← ask (find_replica r);
  _ ← call (report_health r (example_health source rs) w b 0);
  _ ← call (report_readiness r example_ready w b);
  mret ().

(** [provision_ready] of example_util.hpp. *)
Definition provision_ready (set : ReplicaSetId) : Step G ReplicaHandle :=
  id ← fresh ReplicaIdTag;
  worker ← fresh WorkerIdTag;
  boot ← fresh WorkerBootIdTag;
  node ← fresh NodeIdTag;
  _ ← call (register_worker (example_registration worker boot node));
  sp ← ask (find_set set);
  _ ← bring_up_replica id set worker boot (example_compat sp) (fresh PlacementIdTag) 4 "example";
  mret (mkReplicaHandle id worker boot node).

(** [main] of basic.cpp. *)
Definition basic_main : Step G Z :=
  id ← fresh ReplicaSetIdTag;
  model ← fresh ModelIdTag;
  artifact ← fresh ArtifactIdTag;
  agen ← fresh ArtifactGenerationTag;
  gen ← fresh ReplicaSetGenerationTag;
  pgen ← fresh PolicyGenerationTag;
  let set := mkReplicaSetState id model null null 1 1 1 artifact agen gen pgen
    ReplicaSetLifecycle.CREATED (example_requirements model agen) default_PolicyBundle
    default_PlacementPolicy BackendKind.TRITON EmptyString (compute 8 0) 0 0 in
  epoch ← fresh CoordinatorEpochTag;
  _ ← call (create_replica_set set epoch);
  w ← fresh WorkerIdTag;
  b ← fresh WorkerBootIdTag;
  node ← fresh NodeIdTag;
  _ ← call (register_worker (example_registration w b node));
  r ← fresh ReplicaIdTag;
  _ ← bring_up_replica r id w b (example_compat (Some set)) (fresh PlacementIdTag) 0 "probe";
  _ ← call (promote_replica r PromotionState.PRIMARY w b 0 0);
  final ← ask (find_replica r);
  _ ← print ("replica lifecycle=" ++ or_unknown (λ r, to_string (r_lifecycle r)) final ++
             " health=" ++ or_unknown (λ r, to_string (r_health r)) final ++
             " serving=" ++ or_unknown (λ r, yes_no (r_serving_eligible r)) final);
  let ok := match final with Some f => r_serving_eligible f | None => false end in
  _ ← print ("basic lifecycle example: " ++ verdict ok);
  mret (exit_code ok).

(** [main] of warm_promote.cpp. *)
Definition warm_promote_main : Step G Z :=
  set ← make_set 2;
  epoch ← fresh CoordinatorEpochTag;
  _ ← call (create_replica_set set epoch);
  h ← provision_ready (s_id set);
  r ← ask (find_replica (h_id h));
  _ ← print ("after warm/ready: lifecycle=" ++ or_unknown (λ r, to_string (r_lifecycle r)) r ++
             " readiness=" ++ or_unknown (λ r, to_string (r_readiness r)) r ++
             " health=" ++ or_unknown (λ r, to_string (r_health r)) r);
  pr ← call (promote_replica (h_id h) PromotionState.PRIMARY (h_worker h) (h_boot h) 0 0);
  _ ← print ("promote: " ++ outcome pr);
  fin ← ask (find_replica (h_id h));
  eligible ← ask (λ c, sad_eligible (servable (h_id h) c));
  let serving := match fin with Some f => r_serving_eligible f && eligible | None => false end in
  _ ← print ("serving as PRIMARY=" ++ yes_no serving ++
             " lifecycle=" ++ or_unknown (λ r, to_string (r_lifecycle r)) fin ++
             " promotion=" ++ or_unknown (λ r, to_string (r_promotion r)) fin);
  _ ← print ("warm/promote example: " ++ verdict serving);
  mret (exit_code serving).

(** [main] of drain.cpp. *)
Definition drain_main : Step G Z :=
  set ← make_set 1;
  epoch ← fresh CoordinatorEpochTag;
  _ ← call (create_replica_set set epoch);
  h ← provision_ready (s_id set);
  _ ← call (promote_replica (h_id h) PromotionState.PRIMARY (h_worker h) (h_boot h) 0 0);
  serving ← ask (find_replica (h_id h));
  _ ← print ("serving before drain=" ++
             yes_no (match serving with Some r => r_serving_eligible r | None => false end));
  dr ← call (drain_replica (h_id h) (h_worker h) (h_boot h) 0);
  draining ← ask (find_replica (h_id h));
  _ ← print ("drain: " ++ outcome dr ++
             " serving_eligible=" ++ or_unknown (λ r, digit (r_serving_eligible r)) draining ++
             " lifecycle=" ++ or_unknown (λ r, to_string (r_lifecycle r)) draining);
  cr ← call (complete_drain (h_id h) 0 false 0);
  quiesced ← ask (find_replica (h_id h));
  _ ← print ("complete_drain(quiesce): " ++ outcome cr ++
             " lifecycle=" ++ or_unknown (λ r, to_string (r_lifecycle r)) quiesced);
  rt ← call (retire_replica (h_id h));
  retired ← ask (find_replica (h_id h));
  _ ← print ("retire: " ++ outcome rt ++
             " lifecycle=" ++ or_unknown (λ r, to_string (r_lifecycle r)) retired ++
             " serving_eligible=" ++ or_unknown (λ r, digit (r_serving_eligible r)) retired);
  let ok := match retired with
            | Some r => bool_decide (r_lifecycle r = ReplicaLifecycle.RETIRED) &&
                        negb (r_serving_eligible r)
            | None => false
            end in
  _ ← print ("drain example: " ++ verdict ok);
  mret (exit_code ok).

(** [mk] and [full] of failover.cpp; [seed] makes the generator each placement identity
    is drawn from, a new one every time. *)
Definition mk : Step G ReplicaSetState :=
  id ← fresh ReplicaSetIdTag;
  model ← fresh ModelIdTag;
  artifact ← fresh ArtifactIdTag;
  agen ← fresh ArtifactGenerationTag;
  gen ← fresh ReplicaSetGenerationTag;
  pgen ← fresh PolicyGenerationTag;
  workload ← fresh WorkloadIdTag;
  tenant ← fresh TenantIdTag;
  mret (mkReplicaSetState id model workload tenant 2 1 2 artifact agen gen pgen
    ReplicaSetLifecycle.CREATED (example_requirements model agen) default_PolicyBundle
    (mkPlacementPolicy ["host"]%string [] true EmptyString EmptyString EmptyString EmptyString 0)
    BackendKind.TRITON EmptyString (compute 8 0) 0 0).
Definition full (seed : Z → G) (r : ReplicaId) (set : ReplicaSetId) (w : WorkerId)
    (b : WorkerBootId) (n : NodeId) : Step G () :=
  _ ← call (register_worker (example_registration w b n));
  sp ← ask (find_set set);
  bring_up_replica r set w b (example_compat sp) (mret (random_id (seed 9)).1 : Step G PlacementId) 0 "probe".

(** [main] of failover.cpp. *)
Definition failover_main (seed : Z → G) : Step G Z :=
  set ← mk;
  epoch ← fresh CoordinatorEpochTag;
  _ ← call (create_replica_set set epoch);
  wa ← fresh WorkerIdTag;
  ba ← fresh WorkerBootIdTag;
  na ← fresh NodeIdTag;
  wb ← fresh WorkerIdTag;
  bb ← fresh WorkerBootIdTag;
  nb ← fresh NodeIdTag;
  ra ← fresh ReplicaIdTag;
  rb ← fresh ReplicaIdTag;
  _ ← full seed ra (s_id set) wa ba na;
  _ ← full seed rb (s_id set) wb bb nb;
  _ ← call (promote_replica ra PromotionState.PRIMARY wa ba 0 0);
  _ ← call (promote_replica rb PromotionState.STANDBY wb bb 0 0);
  a ← ask (λ c, sad_eligible (servable ra c));
  b ← ask (λ c, sad_eligible (servable rb c));
  _ ← print ("A serving=" ++ digit a ++ " B serving=" ++ digit b);
  _ ← call (unregister_worker wa);
  _ ← call (trigger_failover (s_id set) ra "worker A died" 0 0);
  ok ← ask (λ c, sad_eligible (servable rb c));
  a ← ask (λ c, sad_eligible (servable ra c));
  _ ← print ("after failover, B serving=" ++ digit ok ++ " A serving=" ++ digit a);
  _ ← print ("two-replica failover example: " ++ verdict ok);
  mret (exit_code ok).

(** The four programs with the seeds their sources write. *)
Definition basic_example (seed : Z → G) : Z * string := run_program basic_main (seed 1) (seed 1).
Definition failover_example (seed : Z → G) : Z * string :=
  run_program (failover_main seed) (seed 7) (seed 7).
Definition warm_promote_example (seed : Z → G) : Z * string :=
  run_program warm_promote_main (seed 0xABCDEF) (seed 3).
Definition drain_example (seed : Z → G) : Z * string :=
  run_program drain_main (seed 0xABCDEF) (seed 4).
End examples.
