(* ===== verification/ExamplesProps.v ===== *)
(** What the example programs show.

    Bringing a replica up with the calls of example_util.hpp always ends in a replica a
    PRIMARY promotion makes servable, from any state of the controller with room in the
    set; and the four programs, with the generator and the seeds they use, exit with 0. *)

From S2P Require Import Prelude Identity Enums Model Transition Compatibility Authority Controller ControllerRun Scenario ControllerProps Mersenne Examples.

(** The sets a replica can be provisioned into and served from. *)
Definition set_open (l : ReplicaSetLifecycle) : Prop :=
  l = ReplicaSetLifecycle.CREATED ∨ l = ReplicaSetLifecycle.PROVISIONING ∨
  l = ReplicaSetLifecycle.AVAILABLE ∨ l = ReplicaSetLifecycle.DEGRADED.

(** The set after its first replica is provisioned. *)
Definition opened (set : ReplicaSetState) : ReplicaSetState :=
  if bool_decide (s_lifecycle set = ReplicaSetLifecycle.CREATED)
  then set <| s_lifecycle := ReplicaSetLifecycle.PROVISIONING |> else set.

(** Requirements the declaration of the examples meets: nothing it leaves empty is
    required. *)
Record meets_example (q : CompatibilityRequirements) : Prop := {
  me_revision : cq_model_revision q = EmptyString;
  me_vocab : cq_tokenizer_vocab q = EmptyString;
  me_adapters : cq_required_adapters q = [];
  me_abi : cq_kernel_abi q = EmptyString;
  me_compute : cc_leb (cq_min_compute q) (compute 12 0) = true;
}.

Lemma example_compat_compatible s :
  meets_example (s_compatibility s) →
  compatible_spec (s_compatibility s) (example_compat (Some s)).
Proof.
  intros []. pose proof (compatible_by_construction (s_compatibility s) (compute 12 0)) as Hc.
  unfold example_compat. rewrite me_revision0, me_vocab0, me_adapters0, me_abi0 in Hc. auto.
Qed.

Lemma derive_open n set :
  s_lifecycle set = ReplicaSetLifecycle.PROVISIONING ∨
  s_lifecycle set = ReplicaSetLifecycle.AVAILABLE ∨
  s_lifecycle set = ReplicaSetLifecycle.DEGRADED →
  s_lifecycle (derive_set_lifecycle n set) = ReplicaSetLifecycle.AVAILABLE ∨
  s_lifecycle (derive_set_lifecycle n set) = ReplicaSetLifecycle.DEGRADED.
Proof.
  unfold derive_set_lifecycle. destruct (Z.ltb_spec n (s_min_healthy set)) as [Hn|Hn];
    [rewrite (proj2 (Z.leb_gt _ _)) by done | rewrite (proj2 (Z.leb_le _ _)) by done];
    intros [E|[E|E]]; rewrite ?E; cbn; rewrite ?E; auto.
Qed.

Section bring_up.
Context `{Rng G}.
Implicit Types c : Controller G.

(** A replica that only lacks its role: the controller would promote it, and nothing but
    the promotion is missing for it to serve. *)
Record only_role_missing (rid : ReplicaId) (w : WorkerId) (b : WorkerBootId) c
    (r : ReplicaState) (set : ReplicaSetState) : Prop := {
  om_found : replicas_ c !! rid = Some r;
  om_home : sets_ c !! r_set_id r = Some set;
  om_caller : worker_boot_matches r w b = true;
  om_lifecycle : r_lifecycle r = ReplicaLifecycle.READY;
  om_promotable : promotable (epoch_ c) set r;
  om_generation : r_generation r ≠ null;
  om_fingerprint : r_policy_fingerprint r = cq_policy_fingerprint (s_compatibility set);
  om_boot : r_boot_id r = worker_boot (r_worker_id r) c;
  om_placement : r_placement r = PlacementState.ASSIGNED;
  om_warmth : r_warmth r = WarmthState.WARM;
  om_health : r_health r = HealthState.HEALTHY;
  om_open : s_lifecycle set = ReplicaSetLifecycle.PROVISIONING ∨
    s_lifecycle set = ReplicaSetLifecycle.AVAILABLE ∨
    s_lifecycle set = ReplicaSetLifecycle.DEGRADED;
}.

Lemma role_missing_serves rid w b mono wall c r set :
  only_role_missing rid w b c r set →
  is_ok (promote_replica rid PromotionState.PRIMARY w b mono wall c).1 = true ∧
  serves rid (promote_replica rid PromotionState.PRIMARY w b mono wall c).2.
Proof.
  intros [Hr Hs Hw Hl Hp Hg Hf Hb Hpl Hwm Hh Ho].
  assert (Hready : ready_to_promote r = true) by (apply ready_to_promote_spec; auto).
  destruct (promote_cases rid PromotionState.PRIMARY w b mono wall c) as
    [(Hok & r0 & set0 & Hr0 & _ & Hs0 & _ & _ & Heff)|(_ & _ & Hno)].
  2: { destruct Hno. by exists r, set. }
  simplify_eq. split; [done|]. unfold serves.
  apply (promotion_makes_servable rid w b mono wall c r set); [done..|].
  destruct Heff as (hgen & pid & _ & Es & _). split_and!; try done.
  - left. by left.
  - rewrite Es, lookup_insert_eq. eexists. split; [done|]. by apply derive_open.
Qed.

(** Provisioning a worker's replica into a set with room. *)
Lemma provision_runs rid sid w reg set compat dev cap mono wall c :
  sets_ c !! sid = Some set → set_open (s_lifecycle set) → workers_ c !! w = Some reg →
  count_in_set sid (replicas_ c) < s_max_replicas set →
  let gen := random_id (rng_ c) in
  let hgen := random_id gen.2 in
  (provision_replica rid sid w compat dev cap mono wall c).2 =
  store_replica rid
    (provisioned rid sid w reg (opened set) compat dev cap mono wall (epoch_ c) gen.1 hgen.1)
    ((store_set sid (opened set) c) <| rng_ := hgen.2 |>).
Proof.
  intros Hs Ho Hw Hn. unfold provision_replica. rewrite Hs, Hw.
  rewrite (bool_decide_false (s_lifecycle set = ReplicaSetLifecycle.RETIRED)) by
    (unfold set_open in Ho; destruct_or!; congruence).
  rewrite (bool_decide_false (s_lifecycle set = ReplicaSetLifecycle.FAILED)) by
    (unfold set_open in Ho; destruct_or!; congruence).
  cbn [orb]. rewrite (proj2 (Z.leb_gt _ _)) by done. fold (opened set).
  unfold draw. cbn [rng_ store_set]. cbn.
  destruct (random_id (rng_ c)) as [gen g1] eqn:E1. cbn.
  by destruct (random_id g1) as [hgen g2] eqn:E2.
Qed.

(** The replica as the last call of the examples' bring-up leaves it. *)
Definition brought_up (rid : ReplicaId) (sid : ReplicaSetId) (w : WorkerId)
    (reg : WorkerRegistration) (set : ReplicaSetState) (compat : ReplicaCompatibility)
    (placement : PlacementId) (steps : Z) (source : string) (epoch : CoordinatorEpoch)
    (gen : ReplicaGeneration) (hgen : HealthGeneration) : ReplicaState :=
  let r := provisioned rid sid w reg set compat example_device (8 * MiB) 0 0 epoch gen hgen in
  let r := start_replica 0 0 (allocate_replica placement r) in
  let r := warm_progress (example_warm steps) 0 r in
  observe_readiness example_ready (observe_health (example_health source (Some r)) 0 r).

Lemma brought_up_missing rid sid w reg set compat placement steps source gen hgen c :
  sets_ c !! sid = Some (opened set) → set_open (s_lifecycle set) → workers_ c !! w = Some reg →
  compatible_spec (s_compatibility set) compat → gen ≠ null → is_null placement = false →
  let r := brought_up rid sid w reg (opened set) compat placement steps source (epoch_ c) gen hgen in
  replicas_ c !! rid = Some r → only_role_missing rid w (w_boot_id reg) c r (opened set).
Proof.
  intros Hs Ho Hw Hc Hg Hp r Hr.
  assert (Eq : s_compatibility (opened set) = s_compatibility set).
  { unfold opened. by case_match. }
  assert (El : r_placement r = PlacementState.ASSIGNED).
  { unfold r, brought_up, allocate_replica. rewrite Hp. done. }
  split; try done.
  - unfold worker_boot_matches. by rewrite !bool_decide_true.
  - split; try done. intros _. by rewrite Eq.
  - change (w_boot_id reg = worker_boot w c). unfold worker_boot. by rewrite Hw.
  - unfold opened, set_open in *. case_bool_decide as E; [by left|]. tauto.
Qed.

(** ** Running the monad *)

Lemma bind_run {A B} (m : Step G A) (k : A → Step G B) p : (m ≫= k) p = k (m p).1 (m p).2.
Proof. unfold mbind, step_bind. by destruct (m p). Qed.

Lemma call_run {A} (op : Controller G → A * Controller G) g c out :
  call op (mkProgram g c out) = ((op c).1, mkProgram g (op c).2 out).
Proof. unfold call. cbn. by destruct (op c). Qed.

Lemma ask_run {A} (q : Controller G → A) g c out :
  ask q (mkProgram g c out) = (q c, mkProgram g c out).
Proof. done. Qed.

Lemma store_twice rid r r' c : store_replica rid r' (store_replica rid r c) = store_replica rid r' c.
Proof. unfold store_replica. cbn. by rewrite insert_insert_eq. Qed.

Lemma store_found rid r c : replicas_ (store_replica rid r c) !! rid = Some r.
Proof. apply lookup_insert_eq. Qed.

(** The reports of the bring-up, on the replica just stored. *)
Lemma allocating_runs rid r placement c :
  r_lifecycle r = ReplicaLifecycle.DECLARED →
  (set_allocating rid placement (store_replica rid r c)).2 =
  store_replica rid (allocate_replica placement r) c.
Proof. intros E. unfold set_allocating. rewrite store_found, E. apply store_twice. Qed.

Lemma starting_runs rid r c :
  r_lifecycle r = ReplicaLifecycle.ALLOCATING →
  (set_starting rid 0 0 (store_replica rid r c)).2 = store_replica rid (start_replica 0 0 r) c.
Proof. intros E. unfold set_starting. rewrite store_found, E. apply store_twice. Qed.

Lemma warm_runs rid r warm w b c :
  worker_boot_matches r w b = true → r_lifecycle r = ReplicaLifecycle.STARTING →
  (warm_replica rid warm w b 0 (store_replica rid r c)).2 =
  store_replica rid (warm_progress warm 0 r) c.
Proof. intros Hb E. unfold warm_replica. rewrite store_found, Hb, E. apply store_twice. Qed.

Lemma health_runs rid r source w b c :
  worker_boot_matches r w b = true → r_coordinator_epoch r = epoch_ c → terminated r = false →
  (report_health rid (example_health source (Some r)) w b 0 (store_replica rid r c)).2 =
  store_replica rid (observe_health (example_health source (Some r)) 0 r) c.
Proof.
  intros Hb He Ht. unfold report_health. rewrite store_found, Hb. cbn [epoch_ store_replica negb].
  rewrite !bool_decide_false by (cbn; auto). rewrite Ht. apply store_twice.
Qed.

Lemma readiness_runs rid r rr w b c :
  worker_boot_matches r w b = true → r_coordinator_epoch r = epoch_ c → terminated r = false →
  (report_readiness rid rr w b (store_replica rid r c)).2 =
  store_replica rid (observe_readiness rr r) c.
Proof.
  intros Hb He Ht. unfold report_readiness. rewrite store_found, Hb. cbn [epoch_ store_replica negb].
  rewrite !bool_decide_false by (cbn; auto). rewrite Ht. apply store_twice.
Qed.

(** The calls of the bring-up, run from any state with room. *)
Lemma bring_up_runs rid sid w reg set compat (place : Step G PlacementId) steps source g c out :
  sets_ c !! sid = Some set → set_open (s_lifecycle set) → workers_ c !! w = Some reg →
  count_in_set sid (replicas_ c) < s_max_replicas set →
  (∀ g c out, place (mkProgram g c out) =
    ((place (mkProgram g c out)).1, mkProgram (ex_rng (place (mkProgram g c out)).2) c out)) →
  let gen := random_id (rng_ c) in
  let hgen := random_id gen.2 in
  let c1 := (store_set sid (opened set) c) <| rng_ := hgen.2 |> in
  ∃ c0 g',
  bring_up_replica rid sid w (w_boot_id reg) compat place steps source (mkProgram g c out) =
  ((), mkProgram g'
     (store_replica rid (brought_up rid sid w reg (opened set) compat
        (place (mkProgram g c0 out)).1 steps source (epoch_ c) gen.1 hgen.1) c1) out).
Proof.
  intros Hs Ho Hw Hn Hplace gen hgen c1. unfold bring_up_replica.
  rewrite bind_run, call_run.
  rewrite (provision_runs rid sid w reg set) by done. fold gen hgen c1. cbn [fst snd].
  set (r0 := provisioned _ _ _ _ _ _ _ _ _ _ _ _ _).
  exists (store_replica rid r0 c1). eexists.
  rewrite bind_run, Hplace. cbn [fst snd]. set (pl := (place _).1). set (g' := ex_rng _).
  assert (Hb : ∀ r, r_worker_id r = w → r_boot_id r = w_boot_id reg →
    worker_boot_matches r w (w_boot_id reg) = true).
  { intros r <- <-. unfold worker_boot_matches. by rewrite !bool_decide_true. }
  rewrite bind_run, call_run, allocating_runs by done. cbn [fst snd].
  rewrite bind_run, call_run, starting_runs by done. cbn [fst snd].
  rewrite bind_run, call_run, warm_runs by (by try apply Hb). cbn [fst snd].
  rewrite bind_run, ask_run. cbn [fst snd]. unfold find_replica. rewrite store_found.
  rewrite bind_run, call_run, health_runs by (by try apply Hb). cbn [fst snd].
  rewrite bind_run, call_run, readiness_runs by (by try apply Hb). done.
Qed.

(** ** [provision_ready] *)

(** The [n]th identity drawn from a generator. *)
Fixpoint nth_identity (n : nat) (g : G) {k} : Id k :=
  match n with
  | O => (random_id g).1
  | S n' => nth_identity n' (random_id (k := k) g).2
  end.

Lemma fresh_run k g c out :
  fresh k (mkProgram g c out) =
  ((random_id g).1, mkProgram (random_id (k := k) g).2 c out).
Proof. unfold fresh. cbn. by destruct (random_id g). Qed.

(** Every identity kind draws the same words. *)
Lemma random_id_state k k' (g : G) : (random_id (k := k) g).2 = (random_id (k := k') g).2.
Proof. unfold random_id. destruct (rng_next g) as [h g1]. by destruct (rng_next g1). Qed.

(** Registering a worker keeps the sets and the members of every set. *)
Lemma register_keeps wr c :
  sets_ (register_worker wr c).2 = sets_ c ∧ epoch_ (register_worker wr c).2 = epoch_ c ∧
  rng_ (register_worker wr c).2 = rng_ c ∧
  workers_ (register_worker wr c).2 = <[w_worker_id wr := wr]> (workers_ c) ∧
  ∀ sid, count_in_set sid (replicas_ (register_worker wr c).2) = count_in_set sid (replicas_ c).
Proof.
  unfold register_worker. destruct (restarted wr c); cbn; split_and!; try done.
  intros sid. unfold count_in_set. do 2 f_equal. rewrite map_filter_fmap, map_size_fmap.
  f_equal. apply map_filter_strong_ext. intros k r. cbn. by case_match.
Qed.

(** C14: from any state of the controller with room in an open set whose requirements the
    examples' declaration meets, [provision_ready] ends in a replica that only lacks its
    role: whatever else the controller holds, promoting it PRIMARY succeeds and makes it
    servable.  Only the two identities compared with the null one must not be null. *)
Theorem provision_ready_serves sid set g c out mono wall :
  sets_ c !! sid = Some set → set_open (s_lifecycle set) →
  count_in_set sid (replicas_ c) < s_max_replicas set →
  meets_example (s_compatibility set) →
  (random_id (k := ReplicaGenerationTag) (rng_ c)).1 ≠ null →
  nth_identity (k := PlacementIdTag) 4 g ≠ null →
  let '(h, p) := provision_ready sid (mkProgram g c out) in
  let '(res, c') := promote_replica (h_id h) PromotionState.PRIMARY (h_worker h) (h_boot h)
                      mono wall (ex_ctrl p) in
  is_ok res = true ∧ sad_eligible (servable (h_id h) c') = true.
Proof.
  intros Hs Ho Hn Hm Hg Hp. unfold provision_ready.
  do 4 (rewrite bind_run, fresh_run; cbn [fst snd]).
  set (w := (random_id (k := WorkerIdTag) _).1). set (b := (random_id (k := WorkerBootIdTag) _).1).
  set (nd := (random_id (k := NodeIdTag) _).1). set (rid := (random_id g).1).
  set (wr := example_registration w b nd).
  set (g4 := (random_id (k := NodeIdTag) (random_id (k := WorkerBootIdTag)
    (random_id (k := WorkerIdTag) (random_id (k := ReplicaIdTag) g).2).2).2).2).
  rewrite bind_run, call_run. cbn [fst snd].
  destruct (register_keeps wr c) as (Ks & Ke & Kr & Kw & Kc).
  set (c1 := (register_worker wr c).2) in *. clearbody c1.
  rewrite bind_run, ask_run. cbn [fst snd]. unfold find_set. rewrite Ks, Hs.
  assert (Hw : workers_ c1 !! w = Some wr) by by rewrite Kw, lookup_insert_eq.
  destruct (bring_up_runs rid sid w wr set (example_compat (Some set))
    (fresh PlacementIdTag) 4 "example" g4 c1 out) as (c0 & g5 & Erun);
    [by rewrite ?Ks|done|done|by rewrite Kc|intros; by rewrite fresh_run|].
  cbv zeta in Erun. rewrite bind_run. change (w_boot_id wr) with b in Erun.
  rewrite Erun, fresh_run. cbn [fst snd]. clear Erun.
  unfold mret, step_ret. cbn [h_id h_worker h_boot ex_ctrl].
  set (c2 := _ <| rng_ := _ |>). set (r := brought_up _ _ _ _ _ _ _ _ _ _ _ _).
  assert (Hrole : only_role_missing rid w b (store_replica rid r c2) r (opened set)).
  { apply (brought_up_missing rid sid w wr set (example_compat (Some set)) (random_id g4).1 4
      "example" (random_id (rng_ c1)).1 (random_id (random_id (rng_ c1)).2).1
      (store_replica rid r c2)); try done.
    - apply lookup_insert_eq.
    - by apply example_compat_compatible.
    - by rewrite Kr.
    - rewrite is_null_false. unfold g4. rewrite (random_id_state ReplicaIdTag PlacementIdTag),
        (random_id_state WorkerIdTag PlacementIdTag),
        (random_id_state WorkerBootIdTag PlacementIdTag),
        (random_id_state NodeIdTag PlacementIdTag). exact Hp.
    - apply store_found. }
  destruct (role_missing_serves rid w b mono wall _ _ _ Hrole) as [Hok Hserves].
  unfold serves in Hserves. by destruct (promote_replica _ _ _ _ _ _ _) as [res c'].
Qed.
End bring_up.

(** The four example programs, run with [std::mt19937_64] and the seeds of their sources,
    return 0 and print what their success branches print. *)
Theorem examples_pass :
  basic_example mt19937_64 =
    (0, "replica lifecycle=SERVING health=HEALTHY serving=yes" ++ endl ++
        "basic lifecycle example: PASSED" ++ endl)%string ∧
  failover_example mt19937_64 =
    (0, "A serving=1 B serving=0" ++ endl ++
        "after failover, B serving=1 A serving=0" ++ endl ++
        "two-replica failover example: PASSED" ++ endl)%string ∧
  warm_promote_example mt19937_64 =
    (0, "after warm/ready: lifecycle=READY readiness=READY health=HEALTHY" ++ endl ++
        "promote: ok" ++ endl ++
        "serving as PRIMARY=yes lifecycle=SERVING promotion=PRIMARY" ++ endl ++
        "warm/promote example: PASSED" ++ endl)%string ∧
  drain_example mt19937_64 =
    (0, "serving before drain=yes" ++ endl ++
        "drain: ok serving_eligible=0 lifecycle=DRAINING" ++ endl ++
        "complete_drain(quiesce): ok lifecycle=QUIESCED" ++ endl ++
        "retire: ok lifecycle=RETIRED serving_eligible=0" ++ endl ++
        "drain example: PASSED" ++ endl)%string.
Proof. split_and!; by vm_compute. Qed.

(** ** Witness *)

(** A controller with the set of [make_set] in it, and the generator that counts. *)
Definition empty_set : ReplicaSetState * Program Z :=
  Eval vm_compute in make_set 2 (mkProgram 100 (new_controller 1000) EmptyString).
Definition declared_state : Controller Z :=
  Eval vm_compute in (create_replica_set empty_set.1 (ident 8) (new_controller 1000)).2.

Lemma provision_ready_serves_witness :
  let '(h, p) := provision_ready (s_id empty_set.1) (mkProgram 500 declared_state EmptyString) in
  let '(res, c') := promote_replica (h_id h) PromotionState.PRIMARY (h_worker h) (h_boot h)
                      3 3 (ex_ctrl p) in
  is_ok res = true ∧ sad_eligible (servable (h_id h) c') = true.
Proof.
  apply (provision_ready_serves (s_id empty_set.1) empty_set.1 500 declared_state EmptyString 3 3).
  - by vm_compute.
  - by left.
  - by vm_compute.
  - split; by vm_compute.
  - by vm_compute.
  - by vm_compute.
Defined.

(** ** What the failover example shares by accident *)

(** Each placement identity of failover.cpp comes from a generator freshly seeded with 9,
    so both replicas are placed under the same one. *)
Lemma failover_shares_placement :
  let p := (failover_main mt19937_64
              (mkProgram (mt19937_64 7) (new_controller (mt19937_64 7)) EmptyString)).2 in
  let placements := r_placement_id <$> (entries id_ltb (replicas_ (ex_ctrl p))).*2 in
  length placements = 2%nat ∧ Forall (λ i, i = (random_id (mt19937_64 9)).1) placements.
Proof. split; [by vm_compute|]. apply (bool_decide_unpack _). by vm_compute. Qed.
