(* ===== verification/Crc64.v ===== *)
(** The checksum of the snapshot format (src/snapshot.cpp).

    The table-driven CRC-64 of the code, its bit-at-a-time reference, and what a
    checksum detects: every change confined to eight consecutive bytes. *)

From S2P Require Import Prelude.

Definition crc64_poly : Z := 0xC96C5795D7870F42.

(** One iteration of the inner loop of [make_crc64_table]. *)
Definition crc64_bit (crc : Z) : Z :=
  if negb (Z.land crc 1 =? 0) then Z.lxor (Z.shiftr crc 1) crc64_poly else Z.shiftr crc 1.

(** [crc64_bits n] is the inner loop run [n] times. *)
Fixpoint crc64_bits (n : nat) (crc : Z) : Z :=
  match n with O => crc | S n' => crc64_bits n' (crc64_bit crc) end.

Definition make_crc64_table : list Z := (λ i : nat, crc64_bits 8 (Z.of_nat i)) <$> seq 0 256.

(** The body of the loop of [crc64], looking a byte up in the table. *)
Definition crc64_step (table : list Z) (crc : Z) (b : byte) : Z :=
  Z.lxor (nth (Z.to_nat (Z.lxor (u8 crc) (Z_of_byte b))) table 0) (Z.shiftr crc 8).
Definition crc64_from (crc : Z) (data : list byte) : Z :=
  foldl (crc64_step make_crc64_table) crc data.
Definition crc64 (data : list byte) : Z := crc64_from 0 data.

(** ** The bitwise reference *)

(** Polynomial division one bit at a time: the byte enters the low bits, then eight
    shifts. *)
Definition crc64_ref (crc : Z) (data : list byte) : Z :=
  foldl (λ crc b, crc64_bits 8 (Z.lxor crc (Z_of_byte b))) crc data.

(** ** Linearity *)

Lemma crc64_bit_eq crc :
  crc64_bit crc = Z.lxor (Z.shiftr crc 1) (if Z.odd crc then crc64_poly else 0).
Proof.
  unfold crc64_bit. rewrite <-Z.bit0_odd. change 1 with (Z.ones 1) at 1.
  rewrite Z.land_ones by lia. change (2 ^ 1) with 2. rewrite Zmod_odd, <-Z.bit0_odd.
  destruct (Z.testbit crc 0); simpl; [done|]. by rewrite Z.lxor_0_r.
Qed.

Lemma Z_odd_lxor a b : Z.odd (Z.lxor a b) = xorb (Z.odd a) (Z.odd b).
Proof. rewrite <-!Z.bit0_odd. by rewrite Z.lxor_spec. Qed.

Lemma crc64_bit_lxor a b : crc64_bit (Z.lxor a b) = Z.lxor (crc64_bit a) (crc64_bit b).
Proof.
  rewrite !crc64_bit_eq, Z.shiftr_lxor, Z_odd_lxor. apply Z.bits_inj'. intros n _.
  rewrite !Z.lxor_spec. destruct (Z.odd a), (Z.odd b); simpl; rewrite ?Z.bits_0;
    destruct (Z.testbit (Z.shiftr a 1) n), (Z.testbit (Z.shiftr b 1) n), (Z.testbit crc64_poly n);
    done.
Qed.

#[local] Arguments crc64_bits : simpl never.

Lemma crc64_bits_S n crc : crc64_bits (S n) crc = crc64_bits n (crc64_bit crc).
Proof. done. Qed.

Lemma crc64_bits_lxor n a b :
  crc64_bits n (Z.lxor a b) = Z.lxor (crc64_bits n a) (crc64_bits n b).
Proof. revert a b. induction n as [|n IH]; intros a b; [done|].
  by rewrite !crc64_bits_S, crc64_bit_lxor, IH. Qed.

Lemma crc64_bits_add n m crc : crc64_bits (n + m) crc = crc64_bits m (crc64_bits n crc).
Proof. revert crc. induction n as [|n IH]; intros crc; [done|]. apply IH. Qed.

(** Bits above the ones being consumed only move down. *)
Lemma crc64_bits_shiftl n h : crc64_bits n (Z.shiftl h (Z.of_nat n)) = h.
Proof.
  revert h. induction n as [|n IH]; intros h; [apply Z.shiftl_0_r|].
  rewrite crc64_bits_S, crc64_bit_eq.
  replace (Z.of_nat (S n)) with (Z.of_nat n + 1) by lia.
  rewrite <-Z.shiftl_shiftl by lia. rewrite Z.shiftr_shiftl_l by lia.
  replace (1 - 1) with 0 by lia. rewrite Z.shiftl_0_r.
  rewrite <-Z.bit0_odd, Z.shiftl_spec_low by lia. by rewrite Z.lxor_0_r.
Qed.

Lemma crc64_bits_8_shiftl h : crc64_bits 8 (Z.shiftl h 8) = h.
Proof. exact (crc64_bits_shiftl 8 h). Qed.

Lemma low_high crc w : 0 <= w → crc = Z.lxor (crc mod 2 ^ w) (Z.shiftl (Z.shiftr crc w) w).
Proof.
  intros Hw. rewrite <-Z.land_ones by done. apply Z.bits_inj'. intros n Hn.
  rewrite Z.lxor_spec, Z.land_spec.
  destruct (decide (n < w)).
  - rewrite Z.ones_spec_low, Z.shiftl_spec_low by lia. by rewrite andb_true_r, xorb_false_r.
  - rewrite Z.ones_spec_high, Z.shiftl_spec, Z.shiftr_spec by lia.
    rewrite andb_false_r, xorb_false_l. by replace (n - w + w) with n by lia.
Qed.

Lemma nth_crc64_table i : 0 <= i < 256 → nth (Z.to_nat i) make_crc64_table 0 = crc64_bits 8 i.
Proof.
  intros Hi. apply (nth_lookup_Some _ _ 0). unfold make_crc64_table.
    rewrite list_lookup_fmap, lookup_seq_lt by lia. cbn [fmap option_fmap option_map].
  rewrite Nat.add_0_l. by rewrite Z2Nat.id by lia.
Qed.

(** Words of a width are closed under exclusive or. *)
Lemma lxor_below w a b :
  0 <= w → 0 <= a < 2 ^ w → 0 <= b < 2 ^ w → 0 <= Z.lxor a b < 2 ^ w.
Proof.
  intros Hw Ha Hb.
  assert (E : Z.lxor a b = Z.lxor a b mod 2 ^ w); [|rewrite E; apply Z.mod_pos_bound; lia].
  rewrite <-(Z.mod_small a (2 ^ w)), <-(Z.mod_small b (2 ^ w)) by done.
  rewrite <-!Z.land_ones by done. apply Z.bits_inj'. intros n _.
  rewrite !Z.land_spec, !Z.lxor_spec, !Z.land_spec.
  by destruct (Z.testbit a n), (Z.testbit b n), (Z.testbit (Z.ones w) n).
Qed.

Lemma lxor_u8_range crc b : 0 <= Z.lxor (u8 crc) (Z_of_byte b) < 256.
Proof.
  apply (lxor_below 8); [lia| |apply Z_of_byte_range]. apply Z.mod_pos_bound. lia.
Qed.

(** One table step is eight bit steps on the word with the byte mixed in. *)
Lemma crc64_step_bits crc b :
  crc64_step make_crc64_table crc b = crc64_bits 8 (Z.lxor crc (Z_of_byte b)).
Proof.
  unfold crc64_step. rewrite nth_crc64_table by apply lxor_u8_range.
  rewrite (low_high crc 8) at 3 by lia. change (crc mod 2 ^ 8) with (u8 crc).
  rewrite Z.lxor_assoc, (Z.lxor_comm (Z.shiftl _ _)), <-Z.lxor_assoc.
  by rewrite (crc64_bits_lxor 8 (Z.lxor _ _) (Z.shiftl _ _)), crc64_bits_8_shiftl.
Qed.

Lemma crc64_from_ref crc data : crc64_from crc data = crc64_ref crc data.
Proof.
  unfold crc64_from, crc64_ref. revert crc. induction data as [|b data IH]; intros crc; simpl; [done|].
  by rewrite crc64_step_bits, IH.
Qed.

(** ** Range and injectivity *)

Lemma lxor_in_u64 a b : in_u64 a → in_u64 b → in_u64 (Z.lxor a b).
Proof. by apply lxor_below. Qed.

Lemma crc64_bit_range crc : in_u64 crc → in_u64 (crc64_bit crc).
Proof.
  intros Hc. rewrite crc64_bit_eq. apply lxor_in_u64.
  - unfold in_u64 in *. rewrite Z.shiftr_div_pow2 by lia. change (2 ^ 1) with 2.
    split; [apply Z.div_pos; lia|]. apply Z.div_lt_upper_bound; lia.
  - by destruct (Z.odd crc).
Qed.

Lemma crc64_bits_range n crc : in_u64 crc → in_u64 (crc64_bits n crc).
Proof. revert crc. induction n as [|n IH]; intros crc Hc; [done|]. by apply IH, crc64_bit_range. Qed.

(** The top bit of the polynomial records the bit shifted out, so nothing is lost. *)
Lemma crc64_bit_zero crc : in_u64 crc → crc64_bit crc = 0 → crc = 0.
Proof.
  intros Hc. rewrite crc64_bit_eq. destruct (Z.odd crc) eqn:Ho.
  - intros E. apply (f_equal (λ z, Z.testbit z 63)) in E.
    rewrite Z.lxor_spec, Z.bits_0, Z.shiftr_spec in E by lia.
    replace (Z.testbit crc (63 + 1)) with false in E; [done|].
    symmetry. unfold in_u64 in Hc. rewrite <-(Z.mod_small crc (2 ^ 64)) by lia.
    by apply Z.mod_pow2_bits_high.
  - rewrite Z.lxor_0_r, Z.shiftr_div_pow2 by lia. change (2 ^ 1) with 2. intros E.
    rewrite (Z.div_mod crc 2) by lia. by rewrite E, Zmod_odd, Ho.
Qed.

Lemma crc64_bits_zero n crc : in_u64 crc → crc64_bits n crc = 0 → crc = 0.
Proof.
  revert crc. induction n as [|n IH]; intros crc Hc; [done|]. rewrite crc64_bits_S. intros E.
  apply crc64_bit_zero; [done|]. apply IH; [by apply crc64_bit_range|done].
Qed.

Lemma crc64_bits_inj n a b : in_u64 a → in_u64 b → crc64_bits n a = crc64_bits n b → a = b.
Proof.
  intros Ha Hb E. apply Z.lxor_eq. apply (crc64_bits_zero n); [by apply lxor_in_u64|].
  by rewrite crc64_bits_lxor, E, Z.lxor_nilpotent.
Qed.

Lemma Z_of_byte_u64 b : in_u64 (Z_of_byte b).
Proof. pose proof (Z_of_byte_range b). unfold in_u64. lia. Qed.

Lemma crc64_from_range crc data : in_u64 crc → in_u64 (crc64_from crc data).
Proof.
  rewrite crc64_from_ref. unfold crc64_ref. revert crc.
  induction data as [|b data IH]; intros crc Hc; simpl; [done|].
  apply IH, crc64_bits_range, lxor_in_u64; [done|apply Z_of_byte_u64].
Qed.

Lemma crc64_from_app crc d1 d2 : crc64_from crc (d1 ++ d2) = crc64_from (crc64_from crc d1) d2.
Proof. apply foldl_app. Qed.

(** The same bytes take different words to different words. *)
Lemma crc64_from_inj data a b :
  in_u64 a → in_u64 b → crc64_from a data = crc64_from b data → a = b.
Proof.
  rewrite !crc64_from_ref. unfold crc64_ref. revert a b.
  induction data as [|x data IH]; intros a b Ha Hb; simpl; [done|]. intros E.
  apply IH in E; [|apply crc64_bits_range, lxor_in_u64; (done || apply Z_of_byte_u64)..].
  apply crc64_bits_inj in E; [|apply lxor_in_u64; (done || apply Z_of_byte_u64)..].
  apply (f_equal (λ z, Z.lxor z (Z_of_byte x))) in E.
  by rewrite !Z.lxor_assoc, Z.lxor_nilpotent, !Z.lxor_0_r in E.
Qed.

(** Up to eight bytes enter a word all at once. *)
Lemma crc64_from_block data crc :
  (length data ≤ 8)%nat →
  crc64_from crc data = crc64_bits (8 * length data) (Z.lxor crc (le_value data)).
Proof.
  rewrite crc64_from_ref, le_value_sum. unfold crc64_ref. revert crc.
  induction data as [|b data IH]; intros crc Hl.
  { simpl. by rewrite Z.lxor_0_r. }
  cbn [foldl length] in *. rewrite IH by lia.
  replace (8 * S (length data))%nat with (8 + 8 * length data)%nat by lia.
  rewrite crc64_bits_add. f_equal.
  change (le_sum (b :: data)) with (Z_of_byte b + 256 * le_sum data).
  assert (E : Z_of_byte b + 256 * le_sum data = Z.lxor (Z_of_byte b) (Z.shiftl (le_sum data) 8)).
  { rewrite (low_high (Z_of_byte b + 256 * le_sum data) 8) by lia. pose proof (Z_of_byte_range b).
    change (2 ^ 8) with 256. replace (Z_of_byte b + 256 * le_sum data) with
      (Z_of_byte b + le_sum data * 256) by lia.
    rewrite Z.mod_add, Z.mod_small by lia. rewrite Z.shiftr_div_pow2 by lia.
    change (2 ^ 8) with 256. rewrite Z.div_add, Z.div_small by lia. done. }
  rewrite E, <-Z.lxor_assoc. by rewrite (crc64_bits_lxor 8 (Z.lxor _ _) (Z.shiftl _ _)), crc64_bits_8_shiftl.
Qed.

(** Two blocks of the same length, at most eight bytes, give different words. *)
Lemma crc64_block_inj crc d1 d2 :
  in_u64 crc → (length d1 ≤ 8)%nat → length d1 = length d2 →
  crc64_from crc d1 = crc64_from crc d2 → d1 = d2.
Proof.
  intros Hc Hl Hlen. rewrite !crc64_from_block by lia. rewrite Hlen. intros E.
  assert (Hr : ∀ d, (length d ≤ 8)%nat → in_u64 (le_value d)).
  { intros d Hd. pose proof (le_value_range d) as Hv. unfold in_u64. split; [lia|].
    eapply Z.lt_le_trans; [apply Hv|]. apply Z.pow_le_mono_r; lia. }
  apply crc64_bits_inj in E; [|apply lxor_in_u64; (done || apply Hr; lia)..].
  apply le_value_inj; [done|].
  apply (f_equal (λ z, Z.lxor crc z)) in E. by rewrite <-!Z.lxor_assoc, Z.lxor_nilpotent in E.
Qed.

(** A burst of at most eight changed bytes always changes the checksum. *)
Lemma crc64_burst pre d1 d2 post :
  (length d1 ≤ 8)%nat → length d1 = length d2 →
  crc64 (pre ++ d1 ++ post) = crc64 (pre ++ d2 ++ post) → d1 = d2.
Proof.
  unfold crc64. rewrite !crc64_from_app. intros Hl Hlen E.
  assert (Hp : in_u64 (crc64_from 0 pre)) by (apply crc64_from_range; done).
  apply crc64_from_inj in E; [|by apply crc64_from_range..].
  by apply crc64_block_inj in E.
Qed.

(** Bytes followed by their own checksum have checksum zero. *)
Lemma crc64_codeword data : crc64 (data ++ le_bytes 8 (crc64 data)) = 0.
Proof.
  assert (Hr : in_u64 (crc64 data)) by (by apply crc64_from_range).
  unfold crc64 at 1. rewrite crc64_from_app. change (crc64_from 0 data) with (crc64 data).
  rewrite crc64_from_block by (by rewrite length_le_bytes). rewrite length_le_bytes.
  rewrite le_value_bytes, Z.mod_small by done. by rewrite Z.lxor_nilpotent.
Qed.

#[export] Hint Resolve crc64_from_range lxor_in_u64 crc64_bits_range : fabric.
