(* ===== verification/Codec.v ===== *)
(** The binary writer and reader of the snapshot format (src/snapshot.cpp,
    classes [Writer] and [Reader] and their generic helpers).

    A writer is the list of bytes it appends.  A reader consumes the bytes not read
    yet and returns the value with the rest, or the text of its sticky error (an
    enumerator out of range sets no text).  [Codec P w r] is the contract every
    reader is proved against: it accepts exactly the encodings of well-formed
    values, and gives the value back. *)

From S2P Require Import Prelude Identity Enums Model.

(** ** The reader monad *)

Definition Reader (A : Type) : Type := list byte → string + (A * list byte).

Definition rret {A} (x : A) : Reader A := λ bs, inr (x, bs).
Definition rfail {A} (msg : string) : Reader A := λ _, inl msg.
Definition rbind {A B} (r : Reader A) (k : A → Reader B) : Reader B := λ bs,
  match r bs with
  | inl e => inl e
  | inr (x, bs') => k x bs'
  end.

Declare Scope reader_scope.
Notation "x ⇐ r ; k" := (rbind r (λ x, k))
  (at level 20, r at level 100, k at level 200, right associativity) : reader_scope.
Open Scope reader_scope.

(** ** Writers *)

Definition write_u8 (v : Z) : list byte := [byte_of_Z v].
Definition write_u32 (v : Z) : list byte := le_bytes 4 v.
Definition write_u64 (v : Z) : list byte := le_bytes 8 v.
Definition write_i64 (v : Z) : list byte := write_u64 (u64 v).
(** The 64 bits of the double. *)
Definition write_f64 (v : double) : list byte := write_u64 v.
Definition write_boolean (v : bool) : list byte := write_u8 (if v then 1 else 0).
Definition write_string (s : string) : list byte :=
  write_u64 (u64 (Z.of_nat (String.length s))) ++ list_byte_of_string s.
(** The loop [w.u64(v.size()); for (const auto& x : v) write(x)]. *)
Definition write_counted {A} (w : A → list byte) (l : list A) : list byte :=
  write_u64 (u64 (Z.of_nat (length l))) ++ concat (w <$> l).
Definition write_strings (l : list string) : list byte := write_counted write_string l.
Definition write_id {k} (i : Id k) : list byte := to_bytes i.
Definition write_enum `{RfEnum E} (e : E) : list byte := write_u8 (enum_value e).

(** ** Readers *)

(** [p_[pos_ .. pos_+n)] after the bounds test, which reports [msg]. *)
Definition read_raw (msg : string) (n : Z) : Reader (list byte) := λ bs,
  if Z.of_nat (length bs) <? n then inl msg
  else inr (take (Z.to_nat n) bs, drop (Z.to_nat n) bs).

Definition read_u8 : Reader Z :=
  b ⇐ read_raw "u8 truncation" 1; rret (le_value b).
Definition read_u32 : Reader Z :=
  b ⇐ read_raw "u32 truncation" 4; rret (le_value b).
Definition read_u64 : Reader Z :=
  b ⇐ read_raw "u64 truncation" 8; rret (le_value b).
Definition read_i64 : Reader Z := u ⇐ read_u64; rret (i64 u).
Definition read_f64 : Reader double :=
  bits ⇐ read_u64;
  if f64_nan_or_inf bits then rfail "NaN/Inf double" else rret bits.
Definition read_boolean : Reader bool :=
  b ⇐ read_u8;
  if 1 <? b then rfail "invalid boolean" else rret (b =? 1).
Definition read_bytes (n : Z) : Reader (list byte) := read_raw "byte range overflow" n.
Definition read_string : Reader string :=
  n ⇐ read_u64;
  b ⇐ read_raw "string length overflow" n; rret (string_of_list_byte b).

(** The loop of [n] reads. *)
Fixpoint read_times {A} (r : Reader A) (n : nat) : Reader (list A) :=
  match n with
  | O => rret []
  | S n' => x ⇐ r; l ⇐ read_times r n'; rret (x :: l)
  end.
(** A count, tested against the bytes that remain, then that many elements. *)
Definition read_counted {A} (msg : string) (r : Reader A) : Reader (list A) :=
  n ⇐ read_u64;
  λ bs, if Z.of_nat (length bs) <? n then inl msg else read_times r (Z.to_nat n) bs.
Definition read_strings : Reader (list string) := read_counted "string vector count" read_string.
Definition read_id {k} : Reader (Id k) := b ⇐ read_bytes 16; rret (from_bytes b).
(** [u8(b) && from_int(v, b)]. *)
Definition re_enum `{RfEnum E} : Reader E :=
  b ⇐ read_u8;
  match from_int b with Some e => rret e | None => rfail EmptyString end.

(** ** The contract *)

(** On inputs a [size_t] can measure, [r] accepts exactly what [w] writes for the
    values [P] holds of. *)
Class Codec {A} (P : A → Prop) (w : A → list byte) (r : Reader A) : Prop :=
  codec bs x rest : in_u64 (Z.of_nat (length bs)) →
    r bs = inr (x, rest) ↔ P x ∧ bs = w x ++ rest.
#[global] Hint Mode Codec ! - - ! : typeclass_instances.

Section contract.
Context {A : Type} {P : A → Prop} {w : A → list byte} {r : Reader A} (Hc : Codec P w r).

Lemma codec_write x rest :
  P x → in_u64 (Z.of_nat (length (w x ++ rest))) → r (w x ++ rest) = inr (x, rest).
Proof. intros Hx Hl. by apply Hc. Qed.

Lemma codec_read bs x rest :
  in_u64 (Z.of_nat (length bs)) → r bs = inr (x, rest) → P x ∧ bs = w x ++ rest.
Proof. intros Hl. by apply Hc. Qed.

(** No encoding is a prefix of another one. *)
Lemma codec_prefix_free x y rest1 rest2 :
  P x → P y → in_u64 (Z.of_nat (length (w x ++ rest1))) →
  w x ++ rest1 = w y ++ rest2 → x = y ∧ rest1 = rest2.
Proof.
  intros Hx Hy Hl E. pose proof (codec_write x rest1 Hx Hl) as Er.
  rewrite E in Er. rewrite codec_write in Er; [|done|by rewrite <-E]. naive_solver.
Qed.
End contract.

Lemma rbind_inr {A B} (r : Reader A) (k : A → Reader B) bs y rest :
  rbind r k bs = inr (y, rest) ↔ ∃ x mid, r bs = inr (x, mid) ∧ k x mid = inr (y, rest).
Proof.
  unfold rbind. split; [|by intros (x & mid & -> & ?)].
  destruct (r bs) as [e|[x mid]]; [done|eauto].
Qed.

Lemma in_u64_suffix {A} (l1 l2 : list A) :
  in_u64 (Z.of_nat (length (l1 ++ l2))) → in_u64 (Z.of_nat (length l2)).
Proof. rewrite length_app. unfold in_u64. lia. Qed.

Lemma in_u64_prefix {A} (l1 l2 : list A) :
  in_u64 (Z.of_nat (length (l1 ++ l2))) → in_u64 (Z.of_nat (length l1)).
Proof. rewrite length_app. unfold in_u64. lia. Qed.

(** ** Composition *)

(** Reading a field, then the rest of the structure with that field known. *)
Lemma codec_bind {A B} (Pa : A → Prop) (wa : A → list byte) (ra : Reader A)
    (f : B → A) (Q : B → Prop) (w' : B → list byte) (k : A → Reader B) :
  Codec Pa wa ra → (∀ b, Q b → Pa (f b)) →
  (∀ a, Pa a → Codec (λ b, Q b ∧ f b = a) w' (k a)) →
  Codec Q (λ b, wa (f b) ++ w' b) (rbind ra k).
Proof.
  intros Ha Hf Hk bs y rest Hl. rewrite rbind_inr. split.
  - intros (x & mid & Hx & Hy). apply (codec_read Ha) in Hx as [HPx ->]; [|done].
    apply (codec_read (Hk x HPx)) in Hy as [[HQ Efx] ->]; [|by eapply in_u64_suffix].
    split; [done|]. by rewrite Efx, <-app_assoc.
  - intros [HQ ->]. rewrite <-app_assoc in *. exists (f y), (w' y ++ rest).
    split; [by apply (codec_write Ha); auto|].
    apply (codec_write (Hk (f y) (Hf y HQ))); [done|].
    by eapply in_u64_suffix.
Qed.

Lemma codec_bind_last {A B} (Pa : A → Prop) (wa : A → list byte) (ra : Reader A)
    (f : B → A) (Q : B → Prop) (k : A → Reader B) :
  Codec Pa wa ra → (∀ b, Q b → Pa (f b)) →
  (∀ a, Pa a → Codec (λ b, Q b ∧ f b = a) (λ _, []) (k a)) →
  Codec Q (λ b, wa (f b)) (rbind ra k).
Proof.
  intros Ha Hf Hk bs y rest Hl.
  pose proof (codec_bind Pa wa ra f Q (λ _, []) k Ha Hf Hk bs y rest Hl) as E.
  cbv beta in E. by rewrite app_nil_r in E.
Qed.

Lemma codec_ret {B} (Q : B → Prop) (x : B) :
  (∀ b, Q b ↔ b = x) → Codec Q (λ _, []) (rret x).
Proof.
  intros HQ bs y rest _. unfold rret. rewrite HQ. naive_solver.
Qed.

Lemma codec_weaken {A} (P Q : A → Prop) w (r : Reader A) :
  Codec P w r → (∀ x, P x ↔ Q x) → Codec Q w r.
Proof. intros Hc E bs x rest Hl. rewrite <-E. by apply Hc. Qed.

(** ** Primitives *)

Lemma read_raw_inr msg n bs x rest :
  0 <= n →
  read_raw msg n bs = inr (x, rest) ↔ Z.of_nat (length x) = n ∧ bs = x ++ rest.
Proof.
  intros Hn. unfold read_raw. case_match; bool_to_prop.
  - split; [done|]. intros [Hx ->]. rewrite length_app in *. lia.
  - split.
    + intros [= <- <-]. rewrite length_take, take_drop. split; [lia|done].
    + intros [Hx ->]. by rewrite take_app_length', drop_app_length' by lia.
Qed.

(** The little-endian words. *)
Lemma codec_word (n : nat) msg :
  Codec (λ z, 0 <= z < 2 ^ (8 * Z.of_nat n)) (le_bytes n)
    (b ⇐ read_raw msg (Z.of_nat n); rret (le_value b)).
Proof.
  intros bs z rest _. rewrite rbind_inr. setoid_rewrite read_raw_inr; [|lia]. unfold rret. split.
  - intros (b & mid & [Hb ->] & [= <- ->]). pose proof (le_value_range b).
    replace n with (length b) by lia. by rewrite le_bytes_value.
  - intros [Hz ->]. exists (le_bytes n z), rest. rewrite length_le_bytes.
    by rewrite le_value_bytes, Z.mod_small.
Qed.

#[global] Instance codec_u8 : Codec (λ z, 0 <= z < 256) write_u8 read_u8.
Proof.
  intros bs z rest Hl. pose proof (codec_word 1 "u8 truncation" bs z rest Hl) as E.
  rewrite le_bytes_S in E. exact E.
Qed.
#[global] Instance codec_u32 : Codec in_u32 write_u32 read_u32.
Proof. exact (codec_word 4 "u32 truncation"). Qed.
#[global] Instance codec_u64 : Codec in_u64 write_u64 read_u64.
Proof. exact (codec_word 8 "u64 truncation"). Qed.

(** A reader whose result is the image of another one's under a bijection. *)
Lemma codec_map {A B} (Pa : A → Prop) wa (ra : Reader A) (P : B → Prop) (f : A → B) (g : B → A) :
  Codec Pa wa ra → (∀ b, P b → Pa (g b) ∧ f (g b) = b) → (∀ a, Pa a → P (f a) ∧ g (f a) = a) →
  Codec P (λ b, wa (g b)) (a ⇐ ra; rret (f a)).
Proof.
  intros Ha Hg Hf. apply (codec_bind_last Pa wa ra g); [done|naive_solver|].
  intros a HPa. apply codec_ret. intros b. naive_solver.
Qed.

#[global] Instance codec_i64 : Codec in_i64 write_i64 read_i64.
Proof.
  apply (codec_map in_u64 write_u64 read_u64 in_i64 i64 u64); [apply _|..].
  - intros b Hb. split; [apply u64_range|by apply i64_u64].
  - intros a Ha. split; [apply i64_range|by apply u64_i64].
Qed.

#[global] Instance codec_f64 : Codec wf_f64 write_f64 read_f64.
Proof.
  apply (codec_bind_last in_u64 write_u64 read_u64 id); [apply _|by intros b []|].
  intros a Ha. case_match.
  - intros bs x rest _. unfold wf_f64, rfail, id. naive_solver congruence.
  - apply codec_ret. intros b. unfold wf_f64, id. naive_solver.
Qed.

#[global] Instance codec_boolean : Codec (λ _, True) write_boolean read_boolean.
Proof.
  apply (codec_bind_last (λ z, 0 <= z < 256) write_u8 read_u8 (λ b : bool, if b then 1 else 0)); [apply _|by intros []|].
  intros a Ha. case_match eqn:E; bool_to_prop.
  - intros bs x rest _. unfold rfail. split; [done|]. destruct x; lia.
  - apply codec_ret. assert (a = 0 ∨ a = 1) as [->| ->] by lia; intros []; naive_solver.
Qed.

#[global] Instance codec_id k : Codec (wf_id (k := k)) write_id read_id.
Proof.
  intros bs x rest _. unfold read_id, read_bytes, write_id. rewrite rbind_inr.
  setoid_rewrite read_raw_inr; [|lia]. unfold rret. split.
  - intros (b & mid & [Hb ->] & [= <- ->]).
    rewrite to_bytes_from_bytes by lia. split; [apply from_bytes_wf; lia|done].
  - intros [Hx ->]. exists (to_bytes x), rest. rewrite length_to_bytes.
    by rewrite from_bytes_to_bytes.
Qed.

#[global] Instance codec_enum `{RfEnumLaws E} : Codec (λ _ : E, True) write_enum re_enum.
Proof.
  apply (codec_bind_last (λ z, 0 <= z < 256) write_u8 read_u8 (enum_value (E := E))); [apply _|..].
  - intros e _. pose proof (value_in_table e). pose proof (table_fits_u8 (E := E)). lia.
  - intros a Ha. destruct (from_int a) as [e|] eqn:E'.
    + apply from_int_spec in E' as ->. apply codec_ret. intros b. split; [|naive_solver].
      intros [_ Eb]. apply (inj Some). by rewrite <-!from_int_value, Eb.
    + intros bs x rest _. unfold rfail. split; [done|]. intros [[_ <-] _].
      by rewrite from_int_value in E'.
Qed.

(** ** Strings and counted sequences *)

Lemma length_list_byte_of_string s : length (list_byte_of_string s) = String.length s.
Proof.
  unfold list_byte_of_string. rewrite List.length_map. induction s as [|c s IH]; simpl; [done|].
  by rewrite IH.
Qed.

#[global] Instance codec_string : Codec (λ _, True) write_string read_string.
Proof.
  intros bs x rest Hl. unfold read_string, write_string. rewrite rbind_inr. split.
  - intros (n & mid & Hn & Hx). apply (codec_read codec_u64) in Hn as [Hn ->]; [|done].
    rewrite rbind_inr in Hx. destruct Hx as (b & mid' & Hb & [= <- <-]).
    apply read_raw_inr in Hb as [Hb ->]; [|apply Hn]. split; [done|].
    rewrite <-length_list_byte_of_string, list_byte_of_string_of_list_byte.
    rewrite Hb, u64_small by done. by rewrite <-app_assoc.
  - intros [_ ->]. rewrite <-app_assoc in *. pose proof (in_u64_suffix _ _ Hl) as Hs.
    pose proof (in_u64_prefix _ _ Hs) as Hp. rewrite length_list_byte_of_string in Hp.
    exists (Z.of_nat (String.length x)), (list_byte_of_string x ++ rest).
    rewrite u64_small in * by done.
    split; [by apply (codec_write codec_u64)|].
    rewrite rbind_inr. exists (list_byte_of_string x), rest. split.
    + apply read_raw_inr; [lia|]. by rewrite length_list_byte_of_string.
    + unfold rret. by rewrite string_of_list_byte_of_string.
Qed.

Section counted.
Context {A : Type} (P : A → Prop) (w : A → list byte) (r : Reader A) (Hc : Codec P w r).

Lemma read_times_spec n bs l rest :
  in_u64 (Z.of_nat (length bs)) →
  read_times r n bs = inr (l, rest) ↔ length l = n ∧ Forall P l ∧ bs = concat (w <$> l) ++ rest.
Proof.
  revert bs l. induction n as [|n IH]; intros bs l Hl; simpl.
  { unfold rret. destruct l; naive_solver. }
  rewrite rbind_inr. split.
  - intros (x & mid & Hx & Hm). apply (codec_read Hc) in Hx as [Hx ->]; [|done].
    apply in_u64_suffix in Hl. rewrite rbind_inr in Hm. destruct Hm as (l' & mid' & Hm & [= <- <-]).
    apply IH in Hm as (Hlen & Hf & ->); [|done]. simpl. rewrite <-app_assoc. auto.
  - destruct l as [|x l]; simpl; [by intros [? _]|]. intros ([= Hlen] & [Hx Hf]%Forall_cons & ->).
    rewrite <-app_assoc in *. exists x, (concat (w <$> l) ++ rest).
    split; [by apply (codec_write Hc)|]. rewrite rbind_inr. exists l, rest.
    split; [|done]. apply IH; [|done]. by eapply in_u64_suffix.
Qed.

(** Elements take at least a byte each, so the test against the remaining bytes
    never refuses an encoding. *)
Lemma length_concat_writes l :
  (∀ x, w x ≠ []) → (length l ≤ length (concat (w <$> l)))%nat.
Proof.
  intros Hw. induction l as [|x l IH]; [done|].
  rewrite fmap_cons. cbn [concat length]. rewrite length_app.
  specialize (Hw x). destruct (w x); [done|]. cbn [length]. lia.
Qed.

Lemma codec_counted msg :
  (∀ x, w x ≠ []) → Codec (Forall P) (write_counted w) (read_counted msg r).
Proof.
  intros Hw bs l rest Hl. unfold read_counted, write_counted. rewrite rbind_inr. split.
  - intros (n & mid & Hn & Hm). apply (codec_read codec_u64) in Hn as [Hn ->]; [|done].
    case_match; [done|]. apply read_times_spec in Hm as (Hlen & Hf & ->); [|by eapply in_u64_suffix].
    split; [done|]. rewrite <-app_assoc. do 2 f_equal. unfold in_u64 in Hn.
    rewrite Hlen, Z2Nat.id by lia. by rewrite u64_small.
  - intros [Hf ->]. rewrite <-app_assoc in *. pose proof (in_u64_suffix _ _ Hl) as Hs.
    pose proof (length_concat_writes l Hw) as Hlen. rewrite length_app in Hs.
    assert (in_u64 (Z.of_nat (length l))) by (unfold in_u64 in *; lia).
    exists (Z.of_nat (length l)), (concat (w <$> l) ++ rest). rewrite u64_small in * by done.
    split; [by apply (codec_write codec_u64)|].
    rewrite length_app. case_match; bool_to_prop; [lia|].
    apply read_times_spec; [by rewrite length_app|]. by rewrite Nat2Z.id.
Qed.
End counted.

(** An encoding starts with a word, so it is not empty. *)
Lemma write_u64_cons v l : write_u64 v ++ l ≠ [].
Proof. done. Qed.

#[global] Instance codec_strings : Codec (λ _, True) write_strings read_strings.
Proof.
  eapply codec_weaken; [apply (codec_counted _ _ _ codec_string)|].
  - intros s. apply write_u64_cons.
  - intros l. split; [done|]. intros _. by apply Forall_true.
Qed.

