(* ===== verification/Records.v ===== *)
(** The encodings of the model's structures (src/snapshot.cpp).

    One writer and one reader per structure, its fields in the order of the code,
    and the contract [Codec] of each pair. *)

From S2P Require Import Prelude Identity Enums Model Codec.

(** [w.u32(static_cast<uint32_t>(v))] for an [int], and its inverse. *)
Definition write_i32 (v : Z) : list byte := write_u32 (u32 v).
Definition read_i32 : Reader Z := v ⇐ read_u32; rret (i32 v).

#[global] Instance codec_i32 : Codec in_i32 write_i32 read_i32.
Proof.
  apply (codec_map in_u32 write_u32 read_u32 in_i32 i32 u32); [apply _|..].
  - intros b Hb. split; [apply u32_range|by apply i32_u32].
  - intros a Ha. split; [apply i32_range|by apply u32_i32].
Qed.

Definition write_cc (x : ComputeCapability) : list byte :=
  write_i32 (cc_major x) ++ write_i32 (cc_minor x).
Definition read_cc : Reader ComputeCapability :=
  major ⇐ read_i32; minor ⇐ read_i32;
  rret (mkComputeCapability major minor).

Definition write_device (x : DeviceCapability) : list byte :=
  write_enum (dc_kind x) ++ write_string (dc_device_id x) ++ write_cc (dc_compute x) ++
  write_u64 (dc_memory_bytes x).
Definition read_device : Reader DeviceCapability :=
  kind ⇐ re_enum; device_id ⇐ read_string; compute ⇐ read_cc; memory_bytes ⇐ read_u64;
  rret (mkDeviceCapability kind device_id compute memory_bytes).

Definition write_backend (x : BackendCapability) : list byte :=
  write_enum (bc_kind x) ++ write_string (bc_name x) ++ write_cc (bc_compute x) ++
  write_enum (bc_numeric x).
Definition read_backend : Reader BackendCapability :=
  kind ⇐ re_enum; name ⇐ read_string; compute ⇐ read_cc; numeric ⇐ re_enum;
  rret (mkBackendCapability kind name compute numeric).

Definition write_inventory (x : ResourceInventory) : list byte :=
  write_u64 (ri_total_memory_bytes x) ++ write_u64 (ri_free_memory_bytes x) ++
  write_i32 (ri_accelerator_count x) ++ write_counted write_device (ri_devices x) ++
  write_counted write_backend (ri_backends x).
Definition read_inventory : Reader ResourceInventory :=
  total_memory_bytes ⇐ read_u64; free_memory_bytes ⇐ read_u64;
  accelerator_count ⇐ read_i32; devices ⇐ read_counted EmptyString read_device;
  backends ⇐ read_counted EmptyString read_backend;
  rret (mkResourceInventory total_memory_bytes free_memory_bytes accelerator_count devices
  backends).

Definition write_health_policy (x : HealthPolicy) : list byte :=
  write_boolean (hp_enabled x) ++ write_u64 (hp_expected_interval_ns x) ++
  write_u64 (hp_stale_after_ns x) ++ write_u64 (hp_degrade_after_ns x) ++
  write_u32 (hp_unhealthy_after_misses x) ++ write_u32 (hp_quarantine_after_failures x) ++
  write_u32 (hp_min_healthy_observations x) ++ write_f64 (hp_health_threshold x) ++
  write_enum (hp_initial x).
Definition read_health_policy : Reader HealthPolicy :=
  enabled ⇐ read_boolean; expected_interval_ns ⇐ read_u64; stale_after_ns ⇐ read_u64;
  degrade_after_ns ⇐ read_u64; unhealthy_after_misses ⇐ read_u32;
  quarantine_after_failures ⇐ read_u32; min_healthy_observations ⇐ read_u32;
  health_threshold ⇐ read_f64; initial ⇐ re_enum;
  rret (mkHealthPolicy enabled expected_interval_ns stale_after_ns degrade_after_ns
  unhealthy_after_misses quarantine_after_failures min_healthy_observations
  health_threshold initial).

Definition write_warming_policy (x : WarmingPolicy) : list byte :=
  write_boolean (wp_enabled x) ++ write_boolean (wp_require_artifact_loaded x) ++
  write_boolean (wp_require_weights_resident x) ++
  write_boolean (wp_require_adapters_active x) ++
  write_boolean (wp_require_kernel_init x) ++ write_boolean (wp_require_graph_init x) ++
  write_boolean (wp_require_allocator_init x) ++
  write_boolean (wp_require_device_context x) ++
  write_boolean (wp_require_bounded_warmup x) ++ write_boolean (wp_require_endpoint x) ++
  write_u64 (wp_warmup_work_steps x) ++ write_u64 (wp_warmup_timeout_ns x).
Definition read_warming_policy : Reader WarmingPolicy :=
  enabled ⇐ read_boolean; require_artifact_loaded ⇐ read_boolean;
  require_weights_resident ⇐ read_boolean; require_adapters_active ⇐ read_boolean;
  require_kernel_init ⇐ read_boolean; require_graph_init ⇐ read_boolean;
  require_allocator_init ⇐ read_boolean; require_device_context ⇐ read_boolean;
  require_bounded_warmup ⇐ read_boolean; require_endpoint ⇐ read_boolean;
  warmup_work_steps ⇐ read_u64; warmup_timeout_ns ⇐ read_u64;
  rret (mkWarmingPolicy enabled require_artifact_loaded require_weights_resident
  require_adapters_active require_kernel_init require_graph_init require_allocator_init
  require_device_context require_bounded_warmup require_endpoint warmup_work_steps
  warmup_timeout_ns).

Definition write_draining_policy (x : DrainingPolicy) : list byte :=
  write_boolean (dp_reject_new_work x) ++ write_boolean (dp_allow_existing_to_finish x) ++
  write_boolean (dp_allow_force_cancel x) ++ write_u64 (dp_grace_period_ns x) ++
  write_u64 (dp_force_cancel_after_ns x).
Definition read_draining_policy : Reader DrainingPolicy :=
  reject_new_work ⇐ read_boolean; allow_existing_to_finish ⇐ read_boolean;
  allow_force_cancel ⇐ read_boolean; grace_period_ns ⇐ read_u64;
  force_cancel_after_ns ⇐ read_u64;
  rret (mkDrainingPolicy reject_new_work allow_existing_to_finish allow_force_cancel
  grace_period_ns force_cancel_after_ns).

Definition write_promotion_policy (x : PromotionPolicy) : list byte :=
  write_boolean (pp_require_ready x) ++ write_boolean (pp_require_healthy x) ++
  write_enum (pp_min_health x) ++ write_boolean (pp_require_compatible x) ++
  write_boolean (pp_require_placement_valid x) ++ write_boolean (pp_require_resources x) ++
  write_boolean (pp_require_authority_current x) ++ write_boolean (pp_allow_canary x) ++
  write_boolean (pp_auto_promote_standby x).
Definition read_promotion_policy : Reader PromotionPolicy :=
  require_ready ⇐ read_boolean; require_healthy ⇐ read_boolean; min_health ⇐ re_enum;
  require_compatible ⇐ read_boolean; require_placement_valid ⇐ read_boolean;
  require_resources ⇐ read_boolean; require_authority_current ⇐ read_boolean;
  allow_canary ⇐ read_boolean; auto_promote_standby ⇐ read_boolean;
  rret (mkPromotionPolicy require_ready require_healthy min_health require_compatible
  require_placement_valid require_resources require_authority_current allow_canary
  auto_promote_standby).

Definition write_failover_policy (x : FailoverPolicy) : list byte :=
  write_boolean (fp_require_diversity x) ++ write_boolean (fp_prefer_standby_first x) ++
  write_u32 (fp_max_attempts x) ++ write_boolean (fp_preserve_generation x) ++
  write_boolean (fp_reject_ambiguous_outcome x).
Definition read_failover_policy : Reader FailoverPolicy :=
  require_diversity ⇐ read_boolean; prefer_standby_first ⇐ read_boolean;
  max_attempts ⇐ read_u32; preserve_generation ⇐ read_boolean;
  reject_ambiguous_outcome ⇐ read_boolean;
  rret (mkFailoverPolicy require_diversity prefer_standby_first max_attempts
  preserve_generation reject_ambiguous_outcome).

Definition write_policies (x : PolicyBundle) : list byte :=
  write_health_policy (pb_health x) ++ write_warming_policy (pb_warming x) ++
  write_draining_policy (pb_draining x) ++ write_promotion_policy (pb_promotion x) ++
  write_failover_policy (pb_failover x).
Definition read_policies : Reader PolicyBundle :=
  health ⇐ read_health_policy; warming ⇐ read_warming_policy;
  draining ⇐ read_draining_policy; promotion ⇐ read_promotion_policy;
  failover ⇐ read_failover_policy;
  rret (mkPolicyBundle health warming draining promotion failover).

Definition write_synthetic_domain (x : SyntheticFailureDomain) : list byte :=
  write_string (sd_label x) ++ write_string (sd_kind x).
Definition read_synthetic_domain : Reader SyntheticFailureDomain :=
  label ⇐ read_string; kind ⇐ read_string;
  rret (mkSyntheticFailureDomain label kind).

Definition write_placement_policy (x : PlacementPolicy) : list byte :=
  write_strings (pl_anti_affinity_domains x) ++
  write_counted write_synthetic_domain (pl_synthetic_domains x) ++
  write_boolean (pl_require_diversity x) ++ write_string (pl_preferred_host x) ++
  write_string (pl_preferred_numa x) ++ write_string (pl_preferred_device x) ++
  write_string (pl_preferred_failure_domain x) ++ write_u32 (pl_tie_break_strategy x).
Definition read_placement_policy : Reader PlacementPolicy :=
  anti_affinity_domains ⇐ read_strings;
  synthetic_domains ⇐ read_counted EmptyString read_synthetic_domain;
  require_diversity ⇐ read_boolean; preferred_host ⇐ read_string;
  preferred_numa ⇐ read_string; preferred_device ⇐ read_string;
  preferred_failure_domain ⇐ read_string; tie_break_strategy ⇐ read_u32;
  rret (mkPlacementPolicy anti_affinity_domains synthetic_domains require_diversity
  preferred_host preferred_numa preferred_device preferred_failure_domain
  tie_break_strategy).

Definition write_compat_req (x : CompatibilityRequirements) : list byte :=
  write_id (cq_model_id x) ++ write_string (cq_model_revision x) ++
  write_string (cq_tokenizer_vocab x) ++ write_strings (cq_required_adapters x) ++
  write_enum (cq_backend x) ++ write_string (cq_runtime_name x) ++
  write_string (cq_architecture x) ++ write_cc (cq_min_compute x) ++
  write_enum (cq_numeric_mode x) ++ write_id (cq_artifact_generation x) ++
  write_string (cq_kernel_abi x) ++ write_string (cq_policy_fingerprint x).
Definition read_compat_req : Reader CompatibilityRequirements :=
  model_id ⇐ read_id; model_revision ⇐ read_string; tokenizer_vocab ⇐ read_string;
  required_adapters ⇐ read_strings; backend ⇐ re_enum; runtime_name ⇐ read_string;
  architecture ⇐ read_string; min_compute ⇐ read_cc; numeric_mode ⇐ re_enum;
  artifact_generation ⇐ read_id; kernel_abi ⇐ read_string;
  policy_fingerprint ⇐ read_string;
  rret (mkCompatibilityRequirements model_id model_revision tokenizer_vocab
  required_adapters backend runtime_name architecture min_compute numeric_mode
  artifact_generation kernel_abi policy_fingerprint).

Definition write_replica_compat (x : ReplicaCompatibility) : list byte :=
  write_id (cr_model_id x) ++ write_string (cr_model_revision x) ++
  write_string (cr_tokenizer_vocab x) ++ write_strings (cr_adapters x) ++
  write_enum (cr_backend x) ++ write_string (cr_runtime_name x) ++
  write_string (cr_architecture x) ++ write_cc (cr_compute x) ++
  write_enum (cr_numeric_mode x) ++ write_id (cr_artifact_generation x) ++
  write_string (cr_kernel_abi x) ++ write_string (cr_policy_fingerprint x).
Definition read_replica_compat : Reader ReplicaCompatibility :=
  model_id ⇐ read_id; model_revision ⇐ read_string; tokenizer_vocab ⇐ read_string;
  adapters ⇐ read_strings; backend ⇐ re_enum; runtime_name ⇐ read_string;
  architecture ⇐ read_string; compute ⇐ read_cc; numeric_mode ⇐ re_enum;
  artifact_generation ⇐ read_id; kernel_abi ⇐ read_string;
  policy_fingerprint ⇐ read_string;
  rret (mkReplicaCompatibility model_id model_revision tokenizer_vocab adapters backend
  runtime_name architecture compute numeric_mode artifact_generation kernel_abi
  policy_fingerprint).

Definition write_health_record (x : HealthRecord) : list byte :=
  write_enum (hr_state x) ++ write_enum (hr_kind x) ++ write_string (hr_source x) ++
  write_u64 (hr_updated_at_mono x) ++ write_i64 (hr_updated_at_wall x) ++
  write_f64 (hr_confidence x) ++ write_id (hr_generation x) ++
  write_string (hr_reason x) ++ write_u32 (hr_consecutive_stale x) ++
  write_u32 (hr_consecutive_failures x).
Definition read_health_record : Reader HealthRecord :=
  st ⇐ re_enum; kind ⇐ re_enum; source ⇐ read_string; updated_at_mono ⇐ read_u64;
  updated_at_wall ⇐ read_i64; confidence ⇐ read_f64; generation ⇐ read_id;
  reason ⇐ read_string; consecutive_stale ⇐ read_u32; consecutive_failures ⇐ read_u32;
  rret (mkHealthRecord st kind source updated_at_mono updated_at_wall confidence generation
  reason consecutive_stale consecutive_failures).

Definition write_readiness_record (x : ReadinessRecord) : list byte :=
  write_enum (rr_state x) ++ write_boolean (rf_model_loaded (rr_factors x)) ++
  write_boolean (rf_artifact_validated (rr_factors x)) ++
  write_boolean (rf_adapters_present (rr_factors x)) ++
  write_boolean (rf_kernel_prepared (rr_factors x)) ++
  write_boolean (rf_graph_prepared (rr_factors x)) ++
  write_boolean (rf_memory_available (rr_factors x)) ++
  write_boolean (rf_device_context_initialized (rr_factors x)) ++
  write_boolean (rf_warmup_complete (rr_factors x)) ++
  write_boolean (rf_dependencies_ready (rr_factors x)) ++
  write_boolean (rf_endpoint_registered (rr_factors x)) ++
  write_boolean (rf_policy_current (rr_factors x)) ++ write_u64 (rr_updated_at_mono x) ++
  write_i64 (rr_updated_at_wall x) ++ write_string (rr_reason x).
Definition read_readiness_record : Reader ReadinessRecord :=
  st ⇐ re_enum; model_loaded ⇐ read_boolean; artifact_validated ⇐ read_boolean;
  adapters_present ⇐ read_boolean; kernel_prepared ⇐ read_boolean;
  graph_prepared ⇐ read_boolean; memory_available ⇐ read_boolean;
  device_context_initialized ⇐ read_boolean; warmup_complete ⇐ read_boolean;
  dependencies_ready ⇐ read_boolean; endpoint_registered ⇐ read_boolean;
  policy_current ⇐ read_boolean; updated_at_mono ⇐ read_u64; updated_at_wall ⇐ read_i64;
  reason ⇐ read_string;
  rret (mkReadinessRecord st
  (mkReadinessFactors model_loaded artifact_validated adapters_present kernel_prepared graph_prepared memory_available device_context_initialized warmup_complete dependencies_ready endpoint_registered policy_current)
  updated_at_mono updated_at_wall reason).

Definition write_warming_record (x : WarmingRecord) : list byte :=
  write_enum (wr_state x) ++ write_u64 (wr_steps_completed x) ++
  write_u64 (wr_steps_required x) ++ write_boolean (wr_artifact_loading_done x) ++
  write_boolean (wr_weights_resident x) ++ write_boolean (wr_adapters_active x) ++
  write_boolean (wr_kernel_init_done x) ++ write_boolean (wr_graph_init_done x) ++
  write_boolean (wr_allocator_init_done x) ++ write_boolean (wr_device_context_done x) ++
  write_boolean (wr_warmup_execution_done x) ++ write_boolean (wr_endpoint_registered x) ++
  write_u64 (wr_started_warming_mono x) ++ write_u64 (wr_became_warm_mono x) ++
  write_i64 (wr_became_warm_wall x) ++ write_string (wr_message x).
Definition read_warming_record : Reader WarmingRecord :=
  st ⇐ re_enum; steps_completed ⇐ read_u64; steps_required ⇐ read_u64;
  artifact_loading_done ⇐ read_boolean; weights_resident ⇐ read_boolean;
  adapters_active ⇐ read_boolean; kernel_init_done ⇐ read_boolean;
  graph_init_done ⇐ read_boolean; allocator_init_done ⇐ read_boolean;
  device_context_done ⇐ read_boolean; warmup_execution_done ⇐ read_boolean;
  endpoint_registered ⇐ read_boolean; started_warming_mono ⇐ read_u64;
  became_warm_mono ⇐ read_u64; became_warm_wall ⇐ read_i64; message ⇐ read_string;
  rret (mkWarmingRecord st steps_completed steps_required artifact_loading_done
  weights_resident adapters_active kernel_init_done graph_init_done allocator_init_done
  device_context_done warmup_execution_done endpoint_registered started_warming_mono
  became_warm_mono became_warm_wall message).

Definition write_replica_set (x : ReplicaSetState) : list byte :=
  write_id (s_id x) ++ write_id (s_model_id x) ++ write_id (s_workload_id x) ++
  write_id (s_tenant_id x) ++ write_u32 (s_desired_count x) ++
  write_u32 (s_min_healthy x) ++ write_u32 (s_max_replicas x) ++
  write_id (s_artifact_id x) ++ write_id (s_artifact_generation x) ++
  write_id (s_generation x) ++ write_id (s_policy_generation x) ++
  write_enum (s_lifecycle x) ++ write_compat_req (s_compatibility x) ++
  write_policies (s_policies x) ++ write_placement_policy (s_placement_policy x) ++
  write_enum (s_backend x) ++ write_string (s_runtime_name x) ++
  write_cc (s_min_compute x) ++ write_u64 (s_memory_requirement_bytes x) ++
  write_u32 (s_accelerator_requirement x).
Definition read_replica_set : Reader ReplicaSetState :=
  id ⇐ read_id; model_id ⇐ read_id; workload_id ⇐ read_id; tenant_id ⇐ read_id;
  desired_count ⇐ read_u32; min_healthy ⇐ read_u32; max_replicas ⇐ read_u32;
  artifact_id ⇐ read_id; artifact_generation ⇐ read_id; generation ⇐ read_id;
  policy_generation ⇐ read_id; lifecycle ⇐ re_enum; compatibility ⇐ read_compat_req;
  policies ⇐ read_policies; placement_policy ⇐ read_placement_policy; backend ⇐ re_enum;
  runtime_name ⇐ read_string; min_compute ⇐ read_cc; memory_requirement_bytes ⇐ read_u64;
  accelerator_requirement ⇐ read_u32;
  rret (mkReplicaSetState id model_id workload_id tenant_id desired_count min_healthy
  max_replicas artifact_id artifact_generation generation policy_generation lifecycle
  compatibility policies placement_policy backend runtime_name min_compute
  memory_requirement_bytes accelerator_requirement).

Definition write_replica (x : ReplicaState) : list byte :=
  write_id (r_id x) ++ write_id (r_set_id x) ++ write_id (r_generation x) ++
  write_id (r_node_id x) ++ write_id (r_worker_id x) ++ write_id (r_boot_id x) ++
  write_id (r_artifact_id x) ++ write_id (r_artifact_generation x) ++
  write_enum (r_backend x) ++ write_string (r_backend_identity x) ++
  write_string (r_device_identity x) ++ write_enum (r_accelerator x) ++
  write_cc (r_compute_capability x) ++ write_enum (r_memory_residency x) ++
  write_enum (r_warmth x) ++ write_enum (r_readiness x) ++ write_enum (r_health x) ++
  write_enum (r_lifecycle x) ++ write_id (r_placement_id x) ++
  write_enum (r_placement x) ++ write_enum (r_promotion x) ++ write_enum (r_role x) ++
  write_boolean (r_serving_eligible x) ++ write_u64 (r_active_requests x) ++
  write_u64 (r_reserved_capacity x) ++ write_u64 (r_capacity_total x) ++
  write_u64 (r_start_time_mono x) ++ write_i64 (r_start_time_wall x) ++
  write_health_record (r_health_record x) ++
  write_readiness_record (r_readiness_record x) ++
  write_warming_record (r_warming_record x) ++ write_id (r_coordinator_epoch x) ++
  write_id (r_set_generation x) ++ write_id (r_health_generation x) ++
  write_id (r_policy_generation x) ++ write_string (r_policy_fingerprint x) ++
  write_replica_compat (r_compatibility x).
Definition read_replica : Reader ReplicaState :=
  id ⇐ read_id; set_id ⇐ read_id; generation ⇐ read_id; node_id ⇐ read_id;
  worker_id ⇐ read_id; boot_id ⇐ read_id; artifact_id ⇐ read_id;
  artifact_generation ⇐ read_id; backend ⇐ re_enum; backend_identity ⇐ read_string;
  device_identity ⇐ read_string; accelerator ⇐ re_enum; compute_capability ⇐ read_cc;
  memory_residency ⇐ re_enum; warmth ⇐ re_enum; readiness ⇐ re_enum; health ⇐ re_enum;
  lifecycle ⇐ re_enum; placement_id ⇐ read_id; placement ⇐ re_enum; promotion ⇐ re_enum;
  role ⇐ re_enum; serving_eligible ⇐ read_boolean; active_requests ⇐ read_u64;
  reserved_capacity ⇐ read_u64; capacity_total ⇐ read_u64; start_time_mono ⇐ read_u64;
  start_time_wall ⇐ read_i64; health_record ⇐ read_health_record;
  readiness_record ⇐ read_readiness_record; warming_record ⇐ read_warming_record;
  coordinator_epoch ⇐ read_id; set_generation ⇐ read_id; health_generation ⇐ read_id;
  policy_generation ⇐ read_id; policy_fingerprint ⇐ read_string;
  compatibility ⇐ read_replica_compat;
  rret (mkReplicaState id set_id generation node_id worker_id boot_id artifact_id
  artifact_generation backend backend_identity device_identity accelerator
  compute_capability memory_residency warmth readiness health lifecycle placement_id
  placement promotion role serving_eligible active_requests reserved_capacity
  capacity_total start_time_mono start_time_wall health_record readiness_record
  warming_record coordinator_epoch set_generation health_generation policy_generation
  policy_fingerprint compatibility).

Definition write_worker (x : WorkerRegistration) : list byte :=
  write_id (w_worker_id x) ++ write_id (w_boot_id x) ++ write_id (w_node_id x) ++
  write_inventory (w_inventory x) ++ write_id (w_hosted_set_generation x) ++
  write_u32 (w_protocol_version x).
Definition read_worker : Reader WorkerRegistration :=
  worker_id ⇐ read_id; boot_id ⇐ read_id; node_id ⇐ read_id; inventory ⇐ read_inventory;
  hosted_set_generation ⇐ read_id; protocol_version ⇐ read_u32;
  rret (mkWorkerRegistration worker_id boot_id node_id inventory hosted_set_generation
  protocol_version).

Definition write_promotion (x : PromotionRecord) : list byte :=
  write_id (p_id x) ++ write_id (p_replica_id x) ++ write_id (p_set_id x) ++
  write_id (p_replica_generation x) ++ write_id (p_set_generation x) ++
  write_id (p_epoch x) ++ write_enum (p_from x) ++ write_enum (p_to x) ++
  write_u64 (p_when_mono x) ++ write_i64 (p_when_wall x) ++ write_string (p_reason x).
Definition read_promotion : Reader PromotionRecord :=
  id ⇐ read_id; replica_id ⇐ read_id; set_id ⇐ read_id; replica_generation ⇐ read_id;
  set_generation ⇐ read_id; epoch ⇐ read_id; from ⇐ re_enum; to ⇐ re_enum;
  when_mono ⇐ read_u64; when_wall ⇐ read_i64; reason ⇐ read_string;
  rret (mkPromotionRecord id replica_id set_id replica_generation set_generation epoch from
  to when_mono when_wall reason).

Definition write_drain (x : DrainRecord) : list byte :=
  write_id (d_id x) ++ write_id (d_replica_id x) ++ write_id (d_set_id x) ++
  write_enum (d_state x) ++ write_u64 (d_started_mono x) ++
  write_u64 (d_completed_mono x) ++ write_boolean (d_force_cancelled x) ++
  write_u64 (d_quiesced_requests x) ++ write_string (d_reason x).
Definition read_drain : Reader DrainRecord :=
  id ⇐ read_id; replica_id ⇐ read_id; set_id ⇐ read_id; st ⇐ re_enum;
  started_mono ⇐ read_u64; completed_mono ⇐ read_u64; force_cancelled ⇐ read_boolean;
  quiesced_requests ⇐ read_u64; reason ⇐ read_string;
  rret (mkDrainRecord id replica_id set_id st started_mono completed_mono force_cancelled
  quiesced_requests reason).

Definition write_failover (x : FailoverRecord) : list byte :=
  write_id (f_id x) ++ write_id (f_set_id x) ++ write_id (f_failed_replica x) ++
  write_id (f_replacement x) ++ write_enum (f_state x) ++ write_id (f_epoch x) ++
  write_u64 (f_started_mono x) ++ write_u64 (f_completed_mono x) ++
  write_boolean (f_generation_preserved x) ++
  write_counted write_enum (f_ambiguous_outcomes x) ++ write_string (f_reason x).
Definition read_failover : Reader FailoverRecord :=
  id ⇐ read_id; set_id ⇐ read_id; failed_replica ⇐ read_id; replacement ⇐ read_id;
  st ⇐ re_enum; epoch ⇐ read_id; started_mono ⇐ read_u64; completed_mono ⇐ read_u64;
  generation_preserved ⇐ read_boolean;
  ambiguous_outcomes ⇐ read_counted EmptyString re_enum; reason ⇐ read_string;
  rret (mkFailoverRecord id set_id failed_replica replacement st epoch started_mono
  completed_mono generation_preserved ambiguous_outcomes reason).

(** ** The contracts *)

(** The side condition of one field: it is well-formed because the structure is. *)
Ltac codec_field_wf unf :=
  let b := fresh "b" in
  let Hb := fresh "Hb" in
  intros b Hb;
  repeat lazymatch type of Hb with _ ∧ _ = _ => destruct Hb as [Hb _] end;
  first [ done | by apply Forall_true | unf Hb; destruct_and?; first [assumption | done] ].
(** One field: the writer's next part against the reader's next read. *)
Ltac codec_step unf :=
  lazymatch goal with
  | |- Codec ?Q ?w (rbind ?ra ?k) =>
      let H := constr:(_ : Codec _ _ ra) in
      lazymatch type of H with
      | Codec ?Pa ?wa _ =>
          lazymatch w with
          | (λ b, @app byte _ _) => simple eapply (codec_bind Pa wa ra)
          | _ => simple eapply (codec_bind_last Pa wa ra)
          end; [exact H|codec_field_wf unf|intros ? ?]
      end
  end.
(** All fields read: the structure is rebuilt from them, and well-formed. *)
Ltac codec_done unf_goal :=
  apply codec_ret; let b := fresh "b" in intros b; split;
  [ intros ?; destruct_and?; subst; first [reflexivity | by destruct b | by destruct b as [? [] ? ? ?]]
  | intros ->; repeat (split; [|reflexivity]); unf_goal; split_and?;
    first [done | assumption | by apply Forall_true] ].

(** The contract of the structure whose well-formedness is [wf]. *)
Tactic Notation "solve_codec" reference(wf) constr(w) constr(r) :=
  unfold w, r;
  repeat codec_step ltac:(fun H => unfold wf in H);
  codec_done ltac:(unfold wf).

#[global] Instance codec_outcomes :
  Codec (Forall (λ _ : WorkOutcome, True)) (write_counted write_enum) (read_counted EmptyString re_enum).
Proof. by apply (codec_counted _ _ _ codec_enum). Qed.
#[global] Instance codec_cc : Codec wf_ComputeCapability write_cc read_cc.
Proof. solve_codec wf_ComputeCapability write_cc read_cc. Qed.
#[global] Instance codec_device : Codec wf_DeviceCapability write_device read_device.
Proof. solve_codec wf_DeviceCapability write_device read_device. Qed.
#[global] Instance codec_devices :
  Codec (Forall wf_DeviceCapability) (write_counted write_device) (read_counted EmptyString read_device).
Proof. by apply (codec_counted _ _ _ codec_device). Qed.
#[global] Instance codec_backend : Codec wf_BackendCapability write_backend read_backend.
Proof. solve_codec wf_BackendCapability write_backend read_backend. Qed.
#[global] Instance codec_backends :
  Codec (Forall wf_BackendCapability) (write_counted write_backend) (read_counted EmptyString read_backend).
Proof. by apply (codec_counted _ _ _ codec_backend). Qed.
#[global] Instance codec_inventory : Codec wf_ResourceInventory write_inventory read_inventory.
Proof. solve_codec wf_ResourceInventory write_inventory read_inventory. Qed.
#[global] Instance codec_health_policy : Codec wf_HealthPolicy write_health_policy read_health_policy.
Proof. solve_codec wf_HealthPolicy write_health_policy read_health_policy. Qed.
#[global] Instance codec_warming_policy : Codec wf_WarmingPolicy write_warming_policy read_warming_policy.
Proof. solve_codec wf_WarmingPolicy write_warming_policy read_warming_policy. Qed.
#[global] Instance codec_draining_policy : Codec wf_DrainingPolicy write_draining_policy read_draining_policy.
Proof. solve_codec wf_DrainingPolicy write_draining_policy read_draining_policy. Qed.
#[global] Instance codec_promotion_policy : Codec wf_PromotionPolicy write_promotion_policy read_promotion_policy.
Proof. solve_codec wf_PromotionPolicy write_promotion_policy read_promotion_policy. Qed.
#[global] Instance codec_failover_policy : Codec wf_FailoverPolicy write_failover_policy read_failover_policy.
Proof. solve_codec wf_FailoverPolicy write_failover_policy read_failover_policy. Qed.
#[global] Instance codec_policies : Codec wf_PolicyBundle write_policies read_policies.
Proof. solve_codec wf_PolicyBundle write_policies read_policies. Qed.
#[global] Instance codec_synthetic_domain : Codec wf_SyntheticFailureDomain write_synthetic_domain read_synthetic_domain.
Proof. solve_codec wf_SyntheticFailureDomain write_synthetic_domain read_synthetic_domain. Qed.
#[global] Instance codec_synthetic_domains :
  Codec (Forall wf_SyntheticFailureDomain) (write_counted write_synthetic_domain) (read_counted EmptyString read_synthetic_domain).
Proof. by apply (codec_counted _ _ _ codec_synthetic_domain). Qed.
#[global] Instance codec_placement_policy : Codec wf_PlacementPolicy write_placement_policy read_placement_policy.
Proof. solve_codec wf_PlacementPolicy write_placement_policy read_placement_policy. Qed.
#[global] Instance codec_compat_req : Codec wf_CompatibilityRequirements write_compat_req read_compat_req.
Proof. solve_codec wf_CompatibilityRequirements write_compat_req read_compat_req. Qed.
#[global] Instance codec_replica_compat : Codec wf_ReplicaCompatibility write_replica_compat read_replica_compat.
Proof. solve_codec wf_ReplicaCompatibility write_replica_compat read_replica_compat. Qed.
#[global] Instance codec_health_record : Codec wf_HealthRecord write_health_record read_health_record.
Proof. solve_codec wf_HealthRecord write_health_record read_health_record. Qed.
#[global] Instance codec_readiness_record : Codec wf_ReadinessRecord write_readiness_record read_readiness_record.
Proof. solve_codec wf_ReadinessRecord write_readiness_record read_readiness_record. Qed.
#[global] Instance codec_warming_record : Codec wf_WarmingRecord write_warming_record read_warming_record.
Proof. solve_codec wf_WarmingRecord write_warming_record read_warming_record. Qed.
#[global] Instance codec_replica_set : Codec wf_ReplicaSetState write_replica_set read_replica_set.
Proof. solve_codec wf_ReplicaSetState write_replica_set read_replica_set. Qed.
#[global] Instance codec_replica : Codec wf_ReplicaState write_replica read_replica.
Proof. solve_codec wf_ReplicaState write_replica read_replica. Qed.
#[global] Instance codec_worker : Codec wf_WorkerRegistration write_worker read_worker.
Proof. solve_codec wf_WorkerRegistration write_worker read_worker. Qed.
#[global] Instance codec_promotion : Codec wf_PromotionRecord write_promotion read_promotion.
Proof. solve_codec wf_PromotionRecord write_promotion read_promotion. Qed.
#[global] Instance codec_drain : Codec wf_DrainRecord write_drain read_drain.
Proof. solve_codec wf_DrainRecord write_drain read_drain. Qed.
#[global] Instance codec_failover : Codec wf_FailoverRecord write_failover read_failover.
Proof. solve_codec wf_FailoverRecord write_failover read_failover. Qed.
