(* ===== verification/Snapshot.v ===== *)
(** Snapshots (src/snapshot.cpp, include/replicafabric/persistence/snapshot.hpp).

    [make_snapshot] and [decode_snapshot], and the exact set of byte strings the
    decoder accepts: the sealed encodings of well-formed states without duplicate
    set or replica identities. *)

From S2P Require Import Prelude Identity Enums Model Transition Compatibility Authority Controller Crc64 Codec Records.

Definition kMagic : list byte := list_byte_of_string "RFSNAP01".
Definition kFormatVersion : Z := 1.
Definition kSchemaVersion : Z := 1.

(** Decoded state, not installed. *)
Record RecoveredState := mkRecoveredState {
  rs_sets : gmap ReplicaSetId ReplicaSetState;
  rs_replicas : gmap ReplicaId ReplicaState;
  rs_workers : list WorkerRegistration;
  rs_promotions : list PromotionRecord;
  rs_drains : list DrainRecord;
  rs_failovers : list FailoverRecord;
}.

(** ** Writing *)

(** The six sequences and the epoch, in the order of the body. *)
Definition write_body (sets : list ReplicaSetState) (reps : list ReplicaState)
    (ws : list WorkerRegistration) (promos : list PromotionRecord) (drains : list DrainRecord)
    (fails : list FailoverRecord) (epoch : CoordinatorEpoch) : list byte :=
  write_counted write_replica_set sets ++ write_counted write_replica reps ++
  write_counted write_worker ws ++ write_counted write_promotion promos ++
  write_counted write_drain drains ++ write_counted write_failover fails ++ write_id epoch.

(** The header, the body with its length, and the checksum of all of it. *)
Definition seal_snapshot (body : list byte) : list byte :=
  let w := kMagic ++ write_u32 kFormatVersion ++ write_u32 kSchemaVersion ++
           write_u64 (u64 (Z.of_nat (length body))) ++ body in
  w ++ write_u64 (crc64 w).

(** The values of a map in the order [std::sort] leaves them: by the identity stored
    in the value, which the keys equal. *)
Definition sorted_values {k V} (key : V → Id k) (m : gmap (Id k) V) : list V :=
  stable_sort (λ a b, id_ltb (key a) (key b)) (entries id_ltb m).*2.

Definition make_snapshot {G} (ctrl : Controller G) : list byte :=
  seal_snapshot (write_body
    (sorted_values s_id (sets_ ctrl)) (sorted_values r_id (replicas_ ctrl))
    (sorted_values w_worker_id (workers_ ctrl))
    (promotions_ ctrl) (drains_ ctrl) (failovers_ ctrl) (epoch_ ctrl)).

(** [capture_and_clear_authority]: it clears nothing. *)
Definition capture_and_clear_authority {G} (ctrl : Controller G) : list byte := make_snapshot ctrl.

(** ** Reading *)

(** The caller's own message instead of the reader's, or in front of it. *)
Definition expect {A} (msg : string) (r : Reader A) : Reader A := λ bs,
  match r bs with inl _ => inl msg | inr y => inr y end.
Definition explain {A} (prefix : string) (r : Reader A) : Reader A := λ bs,
  match r bs with inl e => inl (prefix ++ e)%string | inr y => inr y end.
Definition require (b : bool) (msg : string) : Reader () :=
  if b then rret () else rfail msg.

(** [body.u64(n)], then [n > body.remaining()]. *)
Definition read_count (what : string) : Reader nat :=
  n ⇐ expect (what ++ " count") read_u64;
  λ bs, if Z.of_nat (length bs) <? n then inl (what ++ " count overflow")%string
        else inr (Z.to_nat n, bs).

(** The loop that appends every element. *)
Definition read_records {A} (what : string) (r : Reader A) : Reader (list A) :=
  n ⇐ read_count what; read_times (explain (what ++ " decode: ") r) n.

(** The loop that [emplace]s every element under its identity. *)
Fixpoint emplace_times {k V} (what dup : string) (key : V → Id k) (r : Reader V) (n : nat)
    (m : gmap (Id k) V) : Reader (gmap (Id k) V) :=
  match n with
  | O => rret m
  | S n' =>
      x ⇐ explain (what ++ " decode: ") r;
      match m !! key x with
      | Some _ => rfail dup
      | None => emplace_times what dup key r n' (<[key x := x]> m)
      end
  end.
Definition read_keyed {k V} (what dup : string) (key : V → Id k) (r : Reader V) :
    Reader (gmap (Id k) V) :=
  n ⇐ read_count what; emplace_times what dup key r n ∅.

Definition fully_consumed (msg : string) : Reader () := λ bs,
  match bs with [] => inr ((), bs) | _ => inl msg end.

Definition read_body : Reader RecoveredState :=
  sets ⇐ read_keyed "set" "duplicate replica-set id" s_id read_replica_set;
  replicas ⇐ read_keyed "replica" "duplicate replica id" r_id read_replica;
  workers ⇐ read_records "worker" read_worker;
  promotions ⇐ read_records "promotion" read_promotion;
  drains ⇐ read_records "drain" read_drain;
  failovers ⇐ read_records "failover" read_failover;
  _ ⇐ expect "epoch decode" (read_id (k := CoordinatorEpochTag));
  _ ⇐ fully_consumed "trailing bytes in body";
  rret (mkRecoveredState sets replicas workers promotions drains failovers).

(** The header read: magic, versions, then the body length. *)
Definition read_header : Reader Z :=
  _ ⇐ expect "bad magic" (read_bytes 8);
  ver ⇐ expect "header truncation" read_u32;
  schema ⇐ expect "header truncation" read_u32;
  _ ⇐ require (ver =? kFormatVersion) "incompatible format version";
  _ ⇐ require (schema =? kSchemaVersion) "incompatible schema version";
  expect "body length truncation" read_u64.

(** [inl] carries the text stored in [*error]. *)
Definition decode_snapshot (bytes : list byte) : string + RecoveredState :=
  let n := Z.of_nat (length bytes) in
  if n <? 24 + 8 then inl "snapshot too short"%string
  else if bool_decide (take 8 bytes ≠ kMagic) then inl "bad magic"%string
  else
    match read_header bytes with
    | inl e => inl e
    | inr (body_len, _) =>
        let body_end := u64 (24 + body_len) in
        if (n <? body_end) || negb (n - body_end =? 8)
        then inl "body length mismatch or trailing garbage"%string
        else
          let stored_crc := le_value (take 8 (drop (Z.to_nat body_end) bytes)) in
          if negb (crc64 (take (Z.to_nat body_end) bytes) =? stored_crc)
          then inl "checksum corruption"%string
          else
            match read_body (take (Z.to_nat body_len) (drop 24 bytes)) with
            | inl e => inl e
            | inr (state, _) => inr state
            end
    end.

(** ** What the body readers accept *)

#[global] Instance codec_expect {A} P (w : A → list byte) r msg :
  Codec P w r → Codec P w (expect msg r).
Proof.
  intros Hc bs x rest Hl. rewrite <-(Hc bs x rest Hl). unfold expect. by destruct (r bs).
Qed.

#[global] Instance codec_explain {A} P (w : A → list byte) r prefix :
  Codec P w r → Codec P w (explain prefix r).
Proof.
  intros Hc bs x rest Hl. rewrite <-(Hc bs x rest Hl). unfold explain. by destruct (r bs).
Qed.

(** The count helper succeeds like the count of [read_counted]. *)
Lemma read_count_inr {B} what (k : nat → Reader B) bs y rest :
  rbind (read_count what) k bs = inr (y, rest) ↔
  ∃ n mid, read_u64 bs = inr (n, mid) ∧ n <= Z.of_nat (length mid) ∧
           k (Z.to_nat n) mid = inr (y, rest).
Proof.
  unfold read_count. rewrite rbind_inr. unfold expect. split.
  - intros (i & mid & (n & mid' & Hn & Hi)%rbind_inr & Hk).
    destruct (read_u64 bs); [done|]. simplify_eq.
    case_match; bool_to_prop; simplify_eq. eauto 10.
  - intros (n & mid & Hn & Hle & Hk). exists (Z.to_nat n), mid. split; [|done].
    rewrite rbind_inr. exists n, mid. rewrite Hn. split; [done|]. case_match; bool_to_prop; [lia|done].
Qed.

Section records.
Context {A : Type} {P : A → Prop} {w : A → list byte} {r : Reader A} (Hc : Codec P w r).

Lemma read_records_spec what bs l rest :
  (∀ x, w x ≠ []) → in_u64 (Z.of_nat (length bs)) →
  read_records what r bs = inr (l, rest) ↔ Forall P l ∧ bs = write_counted w l ++ rest.
Proof.
  intros Hw Hl.
  rewrite <-(codec_counted P w _ (codec_explain P w r (what ++ " decode: ") Hc) EmptyString Hw bs l rest Hl).
  unfold read_records, read_counted. rewrite read_count_inr, rbind_inr. split.
  - intros (n & mid & -> & Hle & Hk). exists n, mid. split; [done|].
    case_match; bool_to_prop; [lia|done].
  - intros (n & mid & -> & Hk). exists n, mid. case_match; bool_to_prop; done.
Qed.
End records.

(** The values stored one after the other under their own identities. *)
Definition store_all {k V} (key : V → Id k) (l : list V) (m : gmap (Id k) V) : gmap (Id k) V :=
  foldl (λ m x, <[key x := x]> m) m l.

Section keyed.
Context {k : IdKind} {V : Type} {P : V → Prop} {w : V → list byte} {r : Reader V}.
Context (Hc : Codec P w r) (key : V → Id k).

(** The loop stores the elements read when their identities are new and distinct. *)
Lemma emplace_times_inr what dup n m bs m' rest :
  emplace_times what dup key r n m bs = inr (m', rest) ↔
  ∃ l, read_times (explain (what ++ " decode: ") r) n bs = inr (l, rest) ∧
       NoDup (key <$> l) ∧ Forall (λ x, m !! key x = None) l ∧ m' = store_all key l m.
Proof.
  revert m bs. induction n as [|n IH]; intros m bs; cbn [emplace_times read_times].
  { unfold rret. split.
    - intros [= <- <-]. exists []. split_and!; [done|constructor..|done].
    - by intros (l & [= <- <-] & _ & _ & ->). }
  rewrite rbind_inr. setoid_rewrite rbind_inr. setoid_rewrite rbind_inr. unfold rret, rfail. split.
  - intros (x & mid & Hx & Hm). destruct (m !! key x) eqn:Hk; [done|].
    apply IH in Hm as (l & Hl & Hnd & Hf & ->). exists (x :: l). rewrite fmap_cons, NoDup_cons.
    split_and!; [by eauto 10| |done| |done].
    + intros (y & Ey & Hy)%list_elem_of_fmap. rewrite Forall_forall in Hf. specialize (Hf y Hy).
      by rewrite <-Ey, lookup_insert_eq in Hf.
    + constructor; [done|]. eapply Forall_impl; [exact Hf|]. intros y Hy.
      by apply lookup_insert_None in Hy as [? _].
  - intros (l & (x & mid & Hx & l' & mid' & Hl & [= <- <-]) & Hnd & [Hk Hf]%Forall_cons & ->).
    rewrite fmap_cons, NoDup_cons in Hnd. destruct Hnd as [Hnew Hnd].
    exists x, mid. split; [done|]. rewrite Hk. apply IH. exists l'. split_and!; [done..| |done].
    apply Forall_forall. intros y Hy. apply lookup_insert_None. split.
    + rewrite Forall_forall in Hf. by apply Hf.
    + intros Ey. apply Hnew. rewrite Ey. by apply list_elem_of_fmap_2.
Qed.

Lemma read_keyed_spec what dup bs m rest :
  (∀ x, w x ≠ []) → in_u64 (Z.of_nat (length bs)) →
  read_keyed what dup key r bs = inr (m, rest) ↔
  ∃ l, Forall P l ∧ NoDup (key <$> l) ∧ m = store_all key l ∅ ∧
       bs = write_counted w l ++ rest.
Proof.
  intros Hw Hl. unfold read_keyed. rewrite read_count_inr. setoid_rewrite emplace_times_inr.
  transitivity (∃ l, read_records what r bs = inr (l, rest) ∧ NoDup (key <$> l) ∧
                     m = store_all key l ∅).
  - unfold read_records. setoid_rewrite read_count_inr. split.
    + intros (n & mid & Hn & Hle & l & Hl' & Hnd & _ & ->). eauto 10.
    + intros (l & (n & mid & Hn & Hle & Hl') & Hnd & ->). exists n, mid.
      split_and!; [done..|]. exists l. split_and!; [done..| |done].
      apply Forall_forall. intros x _. apply lookup_empty.
  - setoid_rewrite (read_records_spec Hc); [|done..]. naive_solver.
Qed.
End keyed.

(** ** What the decoder accepts *)

(** [st] is the state of the sequences [sets] and [reps], which are well-formed and
    free of duplicate identities, as are its records. *)
Record snapshot_of (sets : list ReplicaSetState) (reps : list ReplicaState)
    (epoch : CoordinatorEpoch) (st : RecoveredState) : Prop := {
  so_sets : Forall wf_ReplicaSetState sets;
  so_set_ids : NoDup (s_id <$> sets);
  so_set_map : rs_sets st = store_all s_id sets ∅;
  so_replicas : Forall wf_ReplicaState reps;
  so_replica_ids : NoDup (r_id <$> reps);
  so_replica_map : rs_replicas st = store_all r_id reps ∅;
  so_workers : Forall wf_WorkerRegistration (rs_workers st);
  so_promotions : Forall wf_PromotionRecord (rs_promotions st);
  so_drains : Forall wf_DrainRecord (rs_drains st);
  so_failovers : Forall wf_FailoverRecord (rs_failovers st);
  so_epoch : wf_id epoch;
}.

Definition write_state (sets : list ReplicaSetState) (reps : list ReplicaState)
    (epoch : CoordinatorEpoch) (st : RecoveredState) : list byte :=
  write_body sets reps (rs_workers st) (rs_promotions st) (rs_drains st) (rs_failovers st) epoch.

(** One sequence of the body taken off a successful read, or read back. *)
Ltac take_sequence spec E Hl :=
  let H := fresh "Hread" in
  apply rbind_inr in E as (? & ? & H & E); apply spec in H;
  [destruct H as [? ->]; apply in_u64_suffix in Hl|done..].
Ltac give_sequence x spec Hl :=
  apply rbind_inr; exists x; eexists; split;
  [apply spec; [done..|]; eauto 10|apply in_u64_suffix in Hl].

Lemma read_body_spec bs st rest :
  in_u64 (Z.of_nat (length bs)) →
  read_body bs = inr (st, rest) ↔
  rest = [] ∧ ∃ sets reps epoch, snapshot_of sets reps epoch st ∧ bs = write_state sets reps epoch st.
Proof.
  intros Hl. unfold read_body, write_state, write_body. split.
  - intros E. apply rbind_inr in E as (ms & ? & Hr & E).
    apply (read_keyed_spec codec_replica_set) in Hr as (sets & ?&?&?& ->); [|done..].
    apply in_u64_suffix in Hl. apply rbind_inr in E as (mr & ? & Hr & E).
    apply (read_keyed_spec codec_replica) in Hr as (reps & ?&?&?& ->); [|done..].
    apply in_u64_suffix in Hl. take_sequence (read_records_spec codec_worker) E Hl.
    take_sequence (read_records_spec codec_promotion) E Hl.
    take_sequence (read_records_spec codec_drain) E Hl.
    take_sequence (read_records_spec codec_failover) E Hl.
    apply rbind_inr in E as (ep & bs' & Hr & E).
    apply (codec_read (codec_expect _ _ _ _ (codec_id _))) in Hr as [? ->]; [|done].
    apply rbind_inr in E as ([] & ? & Hr & E). unfold fully_consumed in Hr.
    destruct bs'; [|done]. injection Hr as <-. injection E as <- <-.
    split; [done|]. exists sets, reps, ep. split; [by split|]. by rewrite app_nil_r.
  - intros (-> & sets & reps & ep & [] & ->). rewrite <-?app_assoc in *.
    give_sequence (rs_sets st) (read_keyed_spec codec_replica_set s_id) Hl.
    give_sequence (rs_replicas st) (read_keyed_spec codec_replica r_id) Hl.
    give_sequence (rs_workers st) (read_records_spec codec_worker) Hl.
    give_sequence (rs_promotions st) (read_records_spec codec_promotion) Hl.
    give_sequence (rs_drains st) (read_records_spec codec_drain) Hl.
    give_sequence (rs_failovers st) (read_records_spec codec_failover) Hl.
    apply rbind_inr. exists ep, []. rewrite <-(app_nil_r (write_id ep)) in *.
    split; [by apply (codec_write (codec_expect _ _ _ _ (codec_id _)))|].
    apply rbind_inr. exists (), []. split; [done|]. by destruct st.
Qed.

(** ** The frame *)

Definition header (body_len : Z) : list byte :=
  kMagic ++ write_u32 kFormatVersion ++ write_u32 kSchemaVersion ++ write_u64 body_len.

Lemma length_header l : length (header l) = 24%nat.
Proof. unfold header, write_u32, write_u64. by rewrite !length_app, !length_le_bytes. Qed.

Lemma crc64_range data : in_u64 (crc64 data).
Proof. by apply crc64_from_range. Qed.

Lemma length_seal body : length (seal_snapshot body) = (32 + length body)%nat.
Proof.
  unfold seal_snapshot, write_u32, write_u64. cbn zeta. rewrite !length_app, !length_le_bytes.
  change (length kMagic) with 8%nat. lia.
Qed.

Lemma seal_header body :
  in_u64 (Z.of_nat (length (seal_snapshot body))) →
  seal_snapshot body = header (Z.of_nat (length body)) ++ body ++
    write_u64 (crc64 (header (Z.of_nat (length body)) ++ body)).
Proof.
  rewrite length_seal. intros Hl. unfold seal_snapshot, header.
  rewrite (u64_small (Z.of_nat (length body))) by (unfold in_u64 in *; lia). by rewrite <-!app_assoc.
Qed.

(** Reading the header of a file that starts with the magic. *)
Lemma read_header_spec bytes l rest :
  in_u64 (Z.of_nat (length bytes)) → take 8 bytes = kMagic →
  read_header bytes = inr (l, rest) ↔ in_u64 l ∧ bytes = header l ++ rest.
Proof.
  intros Hl Hm. unfold read_header, header. split.
  - intros (mg & ? & Hr & E)%rbind_inr. unfold expect at 1, read_bytes in Hr.
    destruct (read_raw _ 8 bytes) as [|[mg' b']] eqn:Hraw; [done|]. injection Hr as <- <-.
    apply read_raw_inr in Hraw as [Hmg ->]; [|lia].
    rewrite take_app_length' in Hm by lia. subst mg'. apply in_u64_suffix in Hl.
    apply rbind_inr in E as (ver & ? & Hr & E).
    apply (codec_read (codec_expect _ _ _ _ codec_u32)) in Hr as [_ ->]; [|done].
    apply in_u64_suffix in Hl. apply rbind_inr in E as (schema & ? & Hr & E).
    apply (codec_read (codec_expect _ _ _ _ codec_u32)) in Hr as [_ ->]; [|done].
    apply in_u64_suffix in Hl. apply rbind_inr in E as ([] & ? & Hr & E).
    unfold require in Hr. case_match; [|done]. injection Hr as <-. bool_to_prop. subst ver.
    apply rbind_inr in E as ([] & ? & Hr & E).
    unfold require in Hr. case_match; [|done]. injection Hr as <-. bool_to_prop. subst schema.
    apply (codec_read (codec_expect _ _ _ _ codec_u64)) in E as [? ->]; [|done].
    split; [done|]. by rewrite <-!app_assoc.
  - intros [Hl' ->]. rewrite <-!app_assoc in *. apply rbind_inr. exists kMagic.
    eexists. split.
    { unfold expect, read_bytes, read_raw. rewrite length_app. change (length kMagic) with 8%nat.
      replace (_ <? 8) with false by (symmetry; apply Z.ltb_ge; lia). done. }
    apply in_u64_suffix in Hl. apply rbind_inr. exists kFormatVersion. eexists. split.
    { by apply (codec_write (codec_expect _ _ _ _ codec_u32)). }
    apply in_u64_suffix in Hl. apply rbind_inr. exists kSchemaVersion. eexists. split.
    { by apply (codec_write (codec_expect _ _ _ _ codec_u32)). }
    apply in_u64_suffix in Hl. apply rbind_inr. exists (). eexists. split; [done|].
    apply rbind_inr. exists (). eexists. split; [done|].
    by apply (codec_write (codec_expect _ _ _ _ codec_u64)).
Qed.

(** The slices the decoder takes. *)
Lemma frame_parts body crc :
  let l := Z.of_nat (length body) in
  let bytes := header l ++ body ++ crc in
  length crc = 8%nat →
  take (Z.to_nat (24 + l)) bytes = header l ++ body ∧
  take 8 (drop (Z.to_nat (24 + l)) bytes) = crc ∧
  take (Z.to_nat l) (drop 24 bytes) = body.
Proof.
  cbn zeta. intros Hcrc. rewrite Nat2Z.id.
  assert (Hlen : length (header (Z.of_nat (length body)) ++ body) = Z.to_nat (24 + Z.of_nat (length body))).
  { rewrite length_app, length_header. lia. }
  split_and!.
  - rewrite app_assoc. by rewrite take_app_length'.
  - rewrite app_assoc, drop_app_length' by done. by rewrite take_ge by lia.
  - rewrite drop_app_length' by (by rewrite length_header). by rewrite take_app_length'.
Qed.

(** The length test of the decoder, in the absence of wrap-around. *)
Lemma length_test n l :
  in_u64 n → in_u64 l → 32 <= n →
  (n <? u64 (24 + l)) || negb (n - u64 (24 + l) =? 8) = false ↔ n = 32 + l.
Proof.
  intros Hn Hl H32. unfold u64, in_u64 in *. destruct (decide (24 + l < 2 ^ 64)).
  - rewrite Z.mod_small by lia. rewrite orb_false_iff, negb_false_iff, Z.ltb_ge, Z.eqb_eq. lia.
  - rewrite <-(Z.mod_unique_pos (24 + l) (2 ^ 64) 1 (24 + l - 2 ^ 64)) by lia.
    rewrite orb_false_iff, negb_false_iff, Z.ltb_ge, Z.eqb_eq. lia.
Qed.

(** The decoder accepts a sealed body and nothing else: the length field cannot wrap
    around, and no byte is left out of the checksum. *)
Lemma decode_seal bytes st :
  in_u64 (Z.of_nat (length bytes)) →
  decode_snapshot bytes = inr st ↔
  ∃ body, bytes = seal_snapshot body ∧ read_body body = inr (st, []).
Proof.
  intros Hl. unfold decode_snapshot. split.
  - case_match eqn:Hn; [done|]. case_bool_decide as Hm; [done|].
    destruct (read_header bytes) as [|[l rest]] eqn:Hh; [done|].
    apply read_header_spec in Hh as [Hlen ->]; [|done..]. bool_to_prop. cbn zeta. intros E.
    case_match eqn:Hb; [done|]. apply length_test in Hb; [|done..].
    rewrite length_app, length_header in Hb.
    assert (∃ body crc, rest = body ++ crc ∧ length crc = 8%nat ∧ l = Z.of_nat (length body))
      as (body & crc & -> & Hcrc & ->).
    { exists (take (Z.to_nat l) rest), (drop (Z.to_nat l) rest). unfold in_u64 in Hlen.
      rewrite take_drop, length_take, length_drop. split_and!; [done|lia..]. }
    rewrite !length_app, length_header, Hcrc in Hl.
    rewrite u64_small in E by (unfold in_u64 in *; lia).
    destruct (frame_parts body crc Hcrc) as (E1 & E2 & E3). rewrite E1, E2, E3 in E.
    case_match eqn:Hc; [done|]. bool_to_prop. exists body. split.
    + rewrite seal_header by (rewrite length_seal; unfold in_u64 in *; lia). do 2 f_equal.
      rewrite Hc. unfold write_u64. rewrite <-Hcrc. symmetry. apply le_bytes_value.
    + destruct (read_body body) as [|[st' rest]] eqn:Hr; [done|]. injection E as ->.
      pose proof Hr as Hr'. apply read_body_spec in Hr' as [-> _]; [done|].
      unfold in_u64 in *. lia.
  - intros (body & -> & Hr). rewrite length_seal in *.
    rewrite seal_header by (by rewrite length_seal).
    set (l := Z.of_nat (length body)). set (crc := write_u64 _).
    assert (Hlen : in_u64 l) by (unfold in_u64, l in *; lia).
    replace (_ <? _) with false by (symmetry; apply Z.ltb_ge; lia).
    rewrite bool_decide_false by (intros Hne; by apply Hne).
    assert (read_header (header l ++ body ++ crc) = inr (l, body ++ crc)) as ->.
    { apply read_header_spec; [|done..]. unfold crc, write_u64.
      by rewrite !length_app, length_header, length_le_bytes, (Nat.add_comm (length body)). }
    cbn zeta. rewrite (proj2 (length_test (Z.of_nat (32 + length body)) l Hl Hlen ltac:(lia)))
      by (unfold l; lia).
    rewrite u64_small by (unfold in_u64, l in *; lia).
    destruct (frame_parts body crc) as (E1 & E2 & E3); [done|]. fold l in E1, E2, E3.
    rewrite E1, E2, E3. unfold crc at 1, write_u64. rewrite le_value_bytes.
    rewrite Z.mod_small by apply crc64_range. by rewrite Z.eqb_refl, Hr.
Qed.

Lemma decode_snapshot_inr bytes st :
  in_u64 (Z.of_nat (length bytes)) →
  decode_snapshot bytes = inr st ↔
  ∃ sets reps epoch, snapshot_of sets reps epoch st ∧
                     bytes = seal_snapshot (write_state sets reps epoch st).
Proof.
  intros Hl. rewrite decode_seal by done. split.
  - intros (body & -> & Hr). rewrite length_seal in Hl.
    apply read_body_spec in Hr as (_ & sets & reps & epoch & ? & ->); [|unfold in_u64 in *; lia].
    eauto 10.
  - intros (sets & reps & epoch & Hst & ->). eexists. split; [done|]. rewrite length_seal in Hl.
    apply read_body_spec; [unfold in_u64 in *; lia|]. eauto 10.
Qed.

(** Every accepted file has checksum zero, and states its own length. *)
Lemma decode_checked bytes st :
  in_u64 (Z.of_nat (length bytes)) → decode_snapshot bytes = inr st →
  crc64 bytes = 0 ∧
  take 24 bytes = header (Z.of_nat (length bytes) - 32).
Proof.
  intros Hl (body & -> & _)%decode_seal; [|done]. split; [apply crc64_codeword|].
  rewrite seal_header by done. rewrite take_app_length' by (by rewrite length_header).
  f_equal. rewrite !length_app, length_header. unfold write_u64. rewrite length_le_bytes. lia.
Qed.

Lemma header_inj l1 l2 : in_u64 l1 → in_u64 l2 → header l1 = header l2 → l1 = l2.
Proof.
  intros H1 H2 E. unfold header in E. do 3 apply app_inv_head in E.
  apply (f_equal le_value) in E. unfold write_u64 in E. rewrite !le_value_bytes in E.
  by rewrite !Z.mod_small in E.
Qed.

(** ** The values of a map that agrees with its keys *)

Section sorted_values.
Context {k : IdKind} {V : Type} (key : V → Id k) (m : gmap (Id k) V).
Context (Hkey : ∀ i x, m !! i = Some x → key x = i).

Lemma keys_of_entries : key <$> (entries id_ltb m).*2 = (entries id_ltb m).*1.
Proof.
  rewrite <-list_fmap_compose. apply list_fmap_ext. intros n [i x] Hx. simpl.
  apply list_elem_of_lookup_2, elem_of_entries in Hx. by apply Hkey.
Qed.

(** The sort of [make_snapshot] finds the values in order. *)
Lemma sorted_values_entries : sorted_values key m = (entries id_ltb m).*2.
Proof.
  apply stable_sort_id. pose proof (entries_sorted id_ltb m) as Hs.
  rewrite <-keys_of_entries in Hs. induction (entries id_ltb m).*2 as [|x l IH]; [constructor|].
  apply StronglySorted_inv in Hs as [Hs Hx]. constructor; [by apply IH|].
  exact (proj1 (Forall_fmap key (not_above id_ltb (key x)) l) Hx).
Qed.

Lemma elem_of_sorted_values x : x ∈ sorted_values key m ↔ m !! key x = Some x.
Proof.
  rewrite sorted_values_entries, list_elem_of_fmap. split.
  - intros ([i y] & -> & Hy%elem_of_entries). simpl. by rewrite (Hkey i).
  - intros Hx. exists (key x, x). by rewrite elem_of_entries.
Qed.

Lemma NoDup_sorted_values : NoDup (key <$> sorted_values key m).
Proof. rewrite sorted_values_entries, keys_of_entries. apply NoDup_fst_entries. Qed.

Lemma lookup_store_all (l : list V) (m0 : gmap (Id k) V) i :
  NoDup (key <$> l) →
  store_all key l m0 !! i =
  match list_find (λ x, key x = i) l with Some (_, x) => Some x | None => m0 !! i end.
Proof.
  unfold store_all. revert m0. induction l as [|x l IH]; intros m0; [done|].
  rewrite fmap_cons, NoDup_cons. intros [Hx Hnd]. cbn [foldl list_find].
  rewrite IH by done. destruct (decide (key x = i)) as [<-|Hi].
  - destruct (list_find _ l) as [[n y]|] eqn:Hf; [|by rewrite lookup_insert_eq].
    apply list_find_Some in Hf as (Hy & Ey & _). destruct Hx. rewrite <-Ey.
    apply list_elem_of_lookup_2 in Hy. by apply list_elem_of_fmap_2.
  - destruct (list_find _ l) as [[n y]|]; simpl; [done|]. by rewrite lookup_insert_ne.
Qed.

Lemma store_all_sorted_values : store_all key (sorted_values key m) ∅ = m.
Proof.
  apply map_eq. intros i. rewrite lookup_store_all by apply NoDup_sorted_values.
  destruct (list_find _ _) as [[n y]|] eqn:Hf.
  - apply list_find_Some in Hf as (Hy & <- & _).
    apply list_elem_of_lookup_2, elem_of_sorted_values in Hy. done.
  - apply list_find_None in Hf. rewrite lookup_empty. destruct (m !! i) as [x|] eqn:Hx; [|done].
    rewrite Forall_forall in Hf. destruct (Hf x); [|by apply Hkey].
    apply elem_of_sorted_values. by rewrite (Hkey i x Hx).
Qed.
End sorted_values.
