(* ===== verification/Recovery.v ===== *)
(** Recovery from a snapshot (src/snapshot.cpp, [validate_recovered_state] to
    [recover_into]).

    Validation, installation and their composition; what a recovered replica may do
    until it is provisioned again. *)

From S2P Require Import Prelude Identity Enums Model Transition Compatibility Authority Controller ControllerRun ControllerInv Crc64 Codec Records Snapshot.

(** ** Definitions *)

(** The first error the body of a loop returns. *)
Fixpoint first_error {A} (f : A → option string) (l : list A) : option string :=
  match l with
  | [] => None
  | x :: l' => match f x with Some e => Some e | None => first_error f l' end
  end.

Definition validate_replica (sets : gmap ReplicaSetId ReplicaSetState) (r : ReplicaState) :
    option string :=
  if is_null (r_id r) || is_null (r_set_id r) || is_null (r_generation r)
  then Some "replica with null identity in recovered state"%string
  else match sets !! r_set_id r with
       | None => Some "replica references an unknown replica set"%string
       | Some _ => None
       end.

Definition validate_set (s : ReplicaSetState) : option string :=
  if is_null (s_id s) then Some "replica set with null identity"%string
  else if counts_invalid s then Some "replica set counts invalid in recovered state"%string
  else None.

Definition validate_recovered_state (state : RecoveredState) : option string :=
  match first_error (validate_replica (rs_sets state)) (entries id_ltb (rs_replicas state)).*2 with
  | Some e => Some e
  | None => first_error validate_set (entries id_ltb (rs_sets state)).*2
  end.

(** The copy [r2] that is installed. *)
Definition clear_authority (r : ReplicaState) : ReplicaState :=
  let r := r <| r_serving_eligible := false |> in
  let r := r <| r_boot_id := null |> in
  let r := r <| r_health := HealthState.STARTING |> in
  let r := set_record_state HealthState.STARTING r in
  let r := r <| r_readiness := ReadinessState.UNKNOWN |> in
  let r := r <| r_warmth := WarmthState.COLD |> in
  let r := r <| r_promotion := PromotionState.NOT_PROMOTED |> in
  let r := r <| r_role := ReplicaRole.NONE |> in
  let r := r <| r_active_requests := 0 |> in
  r <| r_reserved_capacity := 0 |>.

(** [emplace] keeps the first registration of a worker. *)
Fixpoint emplace_workers (l : list WorkerRegistration) (m : gmap WorkerId WorkerRegistration) :
    gmap WorkerId WorkerRegistration :=
  match l with
  | [] => m
  | w :: l' =>
      emplace_workers l' (match m !! w_worker_id w with
                          | Some _ => m
                          | None => <[w_worker_id w := w]> m
                          end)
  end.

Section recovery.
Context {G : Type}.
Implicit Types c : Controller G.

(** The epoch and the generator of the controller are kept. *)
Definition install_recovered_state (state : RecoveredState) c : Controller G :=
  mkController (rs_sets state) (clear_authority <$> rs_replicas state)
    (emplace_workers (rs_workers state) ∅) (rs_promotions state) (rs_drains state)
    (rs_failovers state) (epoch_ c) (rng_ c).

(** [inl] carries the text of [*error], and the controller is left alone. *)
Definition recover_into (bytes : list byte) c : string + Controller G :=
  match decode_snapshot bytes with
  | inl e => inl e
  | inr rec =>
      match validate_recovered_state rec with
      | Some e => inl e
      | None => inr (install_recovered_state rec c)
      end
  end.

(** The state a snapshot of [c] decodes to. *)
Definition captured c : RecoveredState :=
  mkRecoveredState (sets_ c) (replicas_ c) (sorted_values w_worker_id (workers_ c))
    (promotions_ c) (drains_ c) (failovers_ c).
End recovery.

(** ** Validation *)

Lemma first_error_None {A} (f : A → option string) l :
  first_error f l = None ↔ Forall (λ x, f x = None) l.
Proof.
  induction l as [|x l IH]; simpl; [by split|]. rewrite Forall_cons, <-IH.
  destruct (f x); naive_solver.
Qed.

(** What validation lets through. *)
Record valid_state (st : RecoveredState) : Prop := {
  vs_replica i r : rs_replicas st !! i = Some r →
    r_id r ≠ null ∧ r_set_id r ≠ null ∧ r_generation r ≠ null ∧
    is_Some (rs_sets st !! r_set_id r);
  vs_set i s : rs_sets st !! i = Some s → s_id s ≠ null ∧ counts_invalid s = false;
}.

Lemma Forall_entries {K V} `{Countable K} (lt : K → K → bool) (P : V → Prop) (m : gmap K V) :
  Forall P (entries lt m).*2 ↔ ∀ k v, m !! k = Some v → P v.
Proof.
  rewrite Forall_fmap, Forall_forall. split.
  - intros Hf k v Hk. by apply (Hf (k, v)), elem_of_entries.
  - intros Hf [k v] Hk%elem_of_entries. by apply (Hf k).
Qed.

Lemma validate_replica_None sets r :
  validate_replica sets r = None ↔
  r_id r ≠ null ∧ r_set_id r ≠ null ∧ r_generation r ≠ null ∧ is_Some (sets !! r_set_id r).
Proof.
  unfold validate_replica. rewrite <-!is_null_false, <-not_eq_None_Some.
  destruct (is_null (r_id r)), (is_null (r_set_id r)), (is_null (r_generation r)); simpl;
    destruct (sets !! r_set_id r); naive_solver.
Qed.

Lemma validate_set_None s : validate_set s = None ↔ s_id s ≠ null ∧ counts_invalid s = false.
Proof.
  unfold validate_set. rewrite <-is_null_false.
  destruct (is_null (s_id s)), (counts_invalid s); naive_solver.
Qed.

Lemma validate_None st : validate_recovered_state st = None ↔ valid_state st.
Proof.
  unfold validate_recovered_state.
  assert (E : validate_recovered_state st = None ↔
    first_error (validate_replica (rs_sets st)) (entries id_ltb (rs_replicas st)).*2 = None ∧
    first_error validate_set (entries id_ltb (rs_sets st)).*2 = None).
  { unfold validate_recovered_state. destruct (first_error (validate_replica _) _); naive_solver. }
  unfold validate_recovered_state in E. rewrite E, !first_error_None, !Forall_entries.
  setoid_rewrite validate_replica_None. setoid_rewrite validate_set_None.
  split; [by intros [??]|]. by intros [].
Qed.

Lemma recover_into_inr {G} bytes (c c' : Controller G) :
  recover_into bytes c = inr c' ↔
  ∃ st, decode_snapshot bytes = inr st ∧ valid_state st ∧ c' = install_recovered_state st c.
Proof.
  unfold recover_into. setoid_rewrite <-validate_None. split.
  - destruct (decode_snapshot bytes) as [|st]; [done|].
    destruct (validate_recovered_state st) eqn:Hv; [done|]. intros [= <-]. eauto.
  - intros (st & -> & -> & ->). done.
Qed.

(** ** Cleared authority *)

(** A replica without authority that accepts no evidence from a live worker. *)
Record dormant (r : ReplicaState) : Prop := {
  do_boot : r_boot_id r = null;
  do_readiness : r_readiness r ≠ ReadinessState.READY;
}.

Lemma clear_authority_fields r :
  r_serving_eligible (clear_authority r) = false ∧ r_boot_id (clear_authority r) = null ∧
  r_readiness (clear_authority r) = ReadinessState.UNKNOWN ∧
  r_lifecycle (clear_authority r) = r_lifecycle r ∧ r_id (clear_authority r) = r_id r ∧
  r_set_id (clear_authority r) = r_set_id r.
Proof. done. Qed.

Lemma clear_authority_dormant r : dormant (clear_authority r).
Proof. by split. Qed.

(** Only a readiness report makes a replica READY. *)
Lemma event_makes_ready e a rid r r' :
  replica_event e a rid r r' → r_readiness r ≠ ReadinessState.READY →
  r_readiness r' = ReadinessState.READY →
  ∃ rr w b, a = ReportReadiness rid rr w b ∧ worker_boot_matches r w b = true.
Proof.
  intros He Hn Hr. destruct He; try (by eauto); exfalso; apply Hn; try exact Hr; revert Hr.
  - unfold warm_progress. cbn zeta. by repeat case_match.
  - unfold observe_health. cbn zeta. by repeat case_match.
  - unfold obsolete_replica. cbn zeta. by repeat case_match.
Qed.

Lemma event_dormant e a rid r r' :
  replica_event e a rid r r' → (∀ rr w, a ≠ ReportReadiness rid rr w null) →
  dormant r → dormant r'.
Proof.
  intros He Ha [Hb Hr]. split.
  - destruct (event_id _ _ _ _ _ He) as (_&_&_&->&_). done.
  - intros Hr'. destruct (event_makes_ready _ _ _ _ _ He Hr Hr') as (rr & w & b & -> & Hm).
    unfold worker_boot_matches in Hm. bool_to_prop. apply (Ha rr w). congruence.
Qed.

(** The actions that could wake a dormant replica up: provisioning its identity again,
    or a readiness report that carries the null boot identity. *)
Definition wakes (rid : ReplicaId) (a : Action) : bool :=
  match a with
  | ProvisionReplica rid' _ _ _ _ _ _ _ => bool_decide (rid' = rid)
  | ReportReadiness rid' _ _ b => bool_decide (rid' = rid) && is_null b
  | _ => false
  end.

Lemma run_dormant `{Rng G} acts (c : Controller G) rid :
  Forall wf_action acts → Forall (λ a, wakes rid a = false) acts →
  (∀ r, replicas_ c !! rid = Some r → dormant r) →
  ∀ r, replicas_ (run acts c) !! rid = Some r → dormant r.
Proof.
  intros Hwf. revert c. induction Hwf as [|a acts Ha Hacts IH]; intros c Hn Hd; simpl; [done|].
  apply Forall_cons in Hn as [Hna Hn]. apply (IH _ Hn). intros r' Hr'.
  destruct (after_replica a c rid r' Ha Hr') as [(r & Hr & [->|He])|Hp].
  - by apply Hd.
  - apply (event_dormant _ _ _ _ _ He); [|by apply Hd]. intros rr w ->. simpl in Hna.
    by rewrite bool_decide_true in Hna.
  - destruct a; try done. destruct Hp as [-> _]. simpl in Hna. by rewrite bool_decide_true in Hna.
Qed.

(** ** Recovery of a snapshot *)

Lemma emplace_workers_fresh l m :
  NoDup (w_worker_id <$> l) → Forall (λ w, m !! w_worker_id w = None) l →
  emplace_workers l m = store_all w_worker_id l m.
Proof.
  revert m. induction l as [|w l IH]; intros m; [done|]. rewrite fmap_cons, NoDup_cons.
  intros [Hw Hnd] [Hm Hf]%Forall_cons. cbn [emplace_workers]. rewrite Hm.
  rewrite IH; [done|done|]. apply Forall_forall. intros x Hx. apply lookup_insert_None.
  rewrite Forall_forall in Hf. split; [by apply Hf|]. intros E. apply Hw. rewrite E.
  by apply list_elem_of_fmap_2.
Qed.

Section snapshots.
Context {G : Type}.
Implicit Types c : Controller G.

Lemma captured_snapshot c :
  controller_inv c →
  snapshot_of (sorted_values s_id (sets_ c)) (sorted_values r_id (replicas_ c)) (epoch_ c)
    (captured c).
Proof.
  intros Hinv.
  assert (Hs : ∀ i s, sets_ c !! i = Some s → s_id s = i) by apply Hinv.
  assert (Hr : ∀ i r, replicas_ c !! i = Some r → r_id r = i) by (intros i r Hr; apply Hinv, Hr).
  assert (Hw : ∀ i w, workers_ c !! i = Some w → w_worker_id w = i) by apply Hinv.
  split; try apply Hinv.
  - apply Forall_forall. intros s Hx%elem_of_sorted_values; [|done]. by apply Hinv in Hx as (_&?&_).
  - by apply NoDup_sorted_values.
  - by rewrite store_all_sorted_values.
  - apply Forall_forall. intros r Hx%elem_of_sorted_values; [|done]. by apply Hinv in Hx as [].
  - by apply NoDup_sorted_values.
  - by rewrite store_all_sorted_values.
  - apply Forall_forall. intros w Hx%elem_of_sorted_values; [|done]. by apply Hinv in Hx as [].
Qed.

Lemma decode_make_snapshot c :
  controller_inv c → in_u64 (Z.of_nat (length (make_snapshot c))) →
  decode_snapshot (make_snapshot c) = inr (captured c).
Proof.
  intros Hinv Hl. apply decode_snapshot_inr; [done|]. do 3 eexists.
  split; [by apply captured_snapshot|done].
Qed.
End snapshots.

(** ** Recovered controllers *)

Lemma clear_authority_inv rid r : replica_inv rid r → replica_inv rid (clear_authority r).
Proof.
  intros [Hk Hwf _ _ _ _ Hp _]. split; try done.
  unfold wf_ReplicaState, wf_HealthRecord in *. destruct_and! Hwf. by split_and!.
Qed.

Lemma size_members_fmap sid (f : ReplicaState → ReplicaState) m :
  (∀ r, r_set_id (f r) = r_set_id r) → size (members sid (f <$> m)) = size (members sid m).
Proof.
  intros Hf. rewrite <-!size_dom. f_equal. apply set_eq. intros k. rewrite !elem_of_dom.
  unfold members. split; intros [r [Hk Hs]%map_lookup_filter_Some]; simpl in *.
  - rewrite lookup_fmap in Hk. apply fmap_Some in Hk as (r0 & Hk & ->).
    exists r0. apply map_lookup_filter_Some. split; [done|]. exact (eq_trans (eq_sym (Hf r0)) Hs).
  - exists (f r). apply map_lookup_filter_Some. split; [by rewrite lookup_fmap, Hk|].
    exact (eq_trans (Hf r) Hs).
Qed.

Section recovered.
Context {G : Type}.
Implicit Types c : Controller G.

(** The workers a snapshot brings back are those it captured. *)
Lemma emplace_captured_workers c :
  (∀ i w, workers_ c !! i = Some w → w_worker_id w = i) →
  emplace_workers (sorted_values w_worker_id (workers_ c)) ∅ = workers_ c.
Proof.
  intros Hw. rewrite emplace_workers_fresh; [by apply store_all_sorted_values|by apply NoDup_sorted_values|].
  apply Forall_forall. intros w _. apply lookup_empty.
Qed.

Lemma install_captured_inv c c0 :
  controller_inv c → wf_id (epoch_ c0) →
  controller_inv (install_recovered_state (captured c) c0).
Proof.
  intros Hinv He.
  assert (Hr : ∀ rid r, (clear_authority <$> replicas_ c) !! rid = Some r →
    ∃ r0, replicas_ c !! rid = Some r0 ∧ r = clear_authority r0).
  { intros rid r Hr. rewrite lookup_fmap in Hr. apply fmap_Some in Hr as (r0 & ? & ->). eauto. }
  split; try apply Hinv; try done.
  - intros rid r (r0 & Hr0 & ->)%Hr. apply clear_authority_inv. exact (ci_replica c Hinv rid r0 Hr0).
  - intros w reg. simpl. rewrite emplace_captured_workers; [|intros; by apply Hinv]. apply Hinv.
  - intros rid r (r0 & Hr0 & ->)%Hr. exact (ci_home c Hinv rid r0 Hr0).
  - intros sid s Hs. simpl. rewrite size_members_fmap by done. exact (ci_capacity c Hinv sid s Hs).
  - intros rid r (r0 & Hr0 & ->)%Hr. exact (ci_drain c Hinv rid r0 Hr0).
Qed.

(** No set or replica of the controller has a null identity. *)
Definition no_null_identity c : Prop :=
  (∀ i s, sets_ c !! i = Some s → i ≠ null) ∧
  (∀ i r, replicas_ c !! i = Some r → i ≠ null ∧ r_generation r ≠ null).

Lemma captured_valid c : controller_inv c → no_null_identity c → valid_state (captured c).
Proof.
  intros Hinv [Hs Hr]. split.
  - intros i r Hi. pose proof (ci_replica c Hinv i r Hi) as [Hk _ _ _ _ _ _ _].
    destruct (ci_home c Hinv i r Hi) as [s Hhome].
    split_and!; [rewrite Hk; by eapply Hr|by eapply Hs|by eapply Hr|by exists s].
  - intros i s Hi. destruct (ci_set c Hinv i s Hi) as (Hk & _ & ?).
    split; [rewrite Hk; by eapply Hs|done].
Qed.

Lemma valid_captured c : controller_inv c → valid_state (captured c) → no_null_identity c.
Proof.
  intros Hinv [Hr Hs]. split.
  - intros i s Hi. destruct (ci_set c Hinv i s Hi) as (Hk & _). rewrite <-Hk. by apply (Hs i s).
  - intros i r Hi. destruct (ci_replica c Hinv i r Hi) as [Hk _ _ _ _ _ _ _]. rewrite <-Hk.
    by destruct (Hr i r Hi) as (? & _ & ? & _).
Qed.

(** A snapshot of such a controller is recovered, and of no other. *)
Lemma recover_snapshot c c0 :
  controller_inv c → no_null_identity c → in_u64 (Z.of_nat (length (make_snapshot c))) →
  recover_into (make_snapshot c) c0 = inr (install_recovered_state (captured c) c0).
Proof.
  intros Hinv Hn Hl. apply recover_into_inr. exists (captured c).
  split_and!; [by apply decode_make_snapshot|by apply captured_valid|done].
Qed.

Lemma recover_snapshot_refused c c0 :
  controller_inv c → ¬ no_null_identity c → in_u64 (Z.of_nat (length (make_snapshot c))) →
  ∃ err, recover_into (make_snapshot c) c0 = inl err.
Proof.
  intros Hinv Hn Hl. destruct (recover_into (make_snapshot c) c0) as [err|c'] eqn:E; [by exists err|].
  apply recover_into_inr in E as (st & Hst & Hv & _). rewrite decode_make_snapshot in Hst by done.
  injection Hst as <-. by destruct Hn; apply valid_captured.
Qed.
End recovered.
