(* ===== verification/SnapshotProps.v ===== *)
(** What snapshots and recovery guarantee.

    The theorems about src/snapshot.cpp: the round trip of every reachable state, the
    exact language of the decoder, the corruptions it detects, and the authority that
    recovery withholds. *)

From S2P Require Import Prelude Identity Enums Model Transition Compatibility Authority Controller ControllerRun ControllerInv Scenario Crc64 Codec Records Snapshot Recovery.

(** ** The format *)

Section format.
Implicit Types bytes : list byte.

(** A file either decodes or is refused with a message. *)
Lemma decode_refused bytes :
  (∀ st, decode_snapshot bytes ≠ inr st) → ∃ e, decode_snapshot bytes = inl e.
Proof. intros Hn. destruct (decode_snapshot bytes) as [e|st]; [eauto|by destruct (Hn st)]. Qed.

Lemma lookup_store_all_Some {k V} (key : V → Id k) (l : list V) i x :
  NoDup (key <$> l) → store_all key l ∅ !! i = Some x → x ∈ l ∧ key x = i.
Proof.
  intros Hnd Hx. rewrite lookup_store_all in Hx by done.
  destruct (list_find _ l) as [[n y]|] eqn:Hf; [|by rewrite lookup_empty in Hx].
  injection Hx as <-. apply list_find_Some in Hf as (Hy & ? & _).
  by apply list_elem_of_lookup_2 in Hy.
Qed.

(** C13: the decoder accepts a byte string exactly when it is the sealed encoding of
    well-formed sets, replicas and records whose set and replica identities are
    distinct, and returns the maps and lists of that encoding: it refines the
    specification of the format, on every branch of every reader. *)
Theorem decoder_exact bytes st :
  in_u64 (Z.of_nat (length bytes)) →
  decode_snapshot bytes = inr st ↔
  ∃ sets reps epoch, snapshot_of sets reps epoch st ∧
                     bytes = seal_snapshot (write_state sets reps epoch st).
Proof. apply decode_snapshot_inr. Qed.

(** C38: whatever bytes are decoded, every number of the result fits its C++ type,
    every double is finite, and every set and replica is stored under its own
    identity. *)
Theorem decoded_well_typed bytes st :
  in_u64 (Z.of_nat (length bytes)) → decode_snapshot bytes = inr st →
  (∀ i s, rs_sets st !! i = Some s → s_id s = i ∧ wf_ReplicaSetState s) ∧
  (∀ i r, rs_replicas st !! i = Some r → r_id r = i ∧ wf_ReplicaState r) ∧
  Forall wf_WorkerRegistration (rs_workers st) ∧ Forall wf_PromotionRecord (rs_promotions st) ∧
  Forall wf_DrainRecord (rs_drains st) ∧ Forall wf_FailoverRecord (rs_failovers st).
Proof.
  intros Hl (sets & reps & epoch & [] & _)%decode_snapshot_inr; [|done].
  rewrite Forall_forall in so_sets. rewrite Forall_forall in so_replicas. split_and!; [| |done..].
  - intros i s Hs. rewrite so_set_map in Hs. apply lookup_store_all_Some in Hs as [? <-]; auto.
  - intros i r Hr. rewrite so_replica_map in Hr. apply lookup_store_all_Some in Hr as [? <-]; auto.
Qed.

(** C37: changing up to eight consecutive bytes of an accepted snapshot, wherever they
    are (magic, lengths, body or the checksum itself), makes the decoder refuse it. *)
Theorem burst_rejected pre d1 d2 post st :
  in_u64 (Z.of_nat (length (pre ++ d1 ++ post))) →
  decode_snapshot (pre ++ d1 ++ post) = inr st →
  length d2 = length d1 → (length d1 ≤ 8)%nat → d2 ≠ d1 →
  ∃ e, decode_snapshot (pre ++ d2 ++ post) = inl e.
Proof.
  intros Hl H1 Hlen H8 Hne. apply decode_refused. intros st2 H2.
  assert (Hl2 : in_u64 (Z.of_nat (length (pre ++ d2 ++ post))))
    by (rewrite !length_app in *; by rewrite Hlen).
  apply decode_checked in H1 as [H1 _]; [|done]. apply decode_checked in H2 as [H2 _]; [|done].
  apply Hne. symmetry. apply (crc64_burst pre d1 d2 post); [done..|congruence].
Qed.

(** Neither a proper prefix of an accepted snapshot nor an accepted snapshot with
    bytes after it is accepted. *)
Theorem truncation_rejected bytes extra st :
  in_u64 (Z.of_nat (length (bytes ++ extra))) → extra ≠ [] →
  (decode_snapshot bytes = inr st → ∃ e, decode_snapshot (bytes ++ extra) = inl e) ∧
  (decode_snapshot (bytes ++ extra) = inr st → ∃ e, decode_snapshot bytes = inl e).
Proof.
  intros Hl Hne.
  assert (Hno : ∀ st1 st2, decode_snapshot bytes = inr st1 →
    decode_snapshot (bytes ++ extra) = inr st2 → False).
  { intros st1 st2 H1 H2. pose proof (in_u64_prefix _ _ Hl) as Hl1.
    pose proof H1 as (body & Eb & _)%decode_seal; [|done].
    assert (H32 : (32 ≤ length bytes)%nat) by (rewrite Eb, length_seal; lia).
    apply decode_checked in H1 as [_ H1]; [|done]. apply decode_checked in H2 as [_ H2]; [|done].
    rewrite take_app_le, H1 in H2 by lia. unfold in_u64 in *. rewrite length_app in *.
    apply header_inj in H2; [|unfold in_u64; lia..].
    destruct extra; [done|]. simpl in *. lia. }
  split; intros H1; apply decode_refused; intros st2 H2; by eapply Hno.
Qed.

(** The table-driven checksum is the bit-at-a-time CRC-64 of the polynomial, and a
    64-bit word. *)
Theorem crc64_table_driven data :
  crc64 data = crc64_ref 0 data ∧ in_u64 (crc64 data).
Proof. split; [apply crc64_from_ref|apply crc64_range]. Qed.
End format.

(** ** Recovery *)

Section recovery.
Context `{Rng G}.
Implicit Types c : Controller G.

(** C10: the snapshot of every reachable controller decodes to that controller's sets,
    replicas, workers and audit records, nothing lost and nothing added. *)
Theorem snapshot_roundtrip rng c :
  reachable rng c → in_u64 (Z.of_nat (length (make_snapshot c))) →
  ∃ st, decode_snapshot (make_snapshot c) = inr st ∧
    rs_sets st = sets_ c ∧ rs_replicas st = replicas_ c ∧
    emplace_workers (rs_workers st) ∅ = workers_ c ∧ rs_promotions st = promotions_ c ∧
    rs_drains st = drains_ c ∧ rs_failovers st = failovers_ c.
Proof.
  intros Hinv%reachable_inv Hl. exists (captured c). split; [by apply decode_make_snapshot|].
  split_and!; try done. apply emplace_captured_workers. intros. by apply Hinv.
Qed.

(** The snapshot of a reachable controller without null identities is recovered
    into any controller: the sets, workers and audit records come back as they were,
    every replica comes back without authority, the epoch stays the recovering
    controller's, and the invariant of the controller holds again. *)
Theorem snapshot_recovers rng c c0 :
  reachable rng c → no_null_identity c → wf_id (epoch_ c0) →
  in_u64 (Z.of_nat (length (make_snapshot c))) →
  ∃ c', recover_into (make_snapshot c) c0 = inr c' ∧ controller_inv c' ∧
    sets_ c' = sets_ c ∧ replicas_ c' = clear_authority <$> replicas_ c ∧
    workers_ c' = workers_ c ∧ promotions_ c' = promotions_ c ∧ drains_ c' = drains_ c ∧
    failovers_ c' = failovers_ c ∧ epoch_ c' = epoch_ c0.
Proof.
  intros Hinv%reachable_inv Hn He Hl. exists (install_recovered_state (captured c) c0).
  split_and!; try done; [by apply recover_snapshot|by apply install_captured_inv|].
  apply emplace_captured_workers. intros. by apply Hinv.
Qed.

(** C11: whatever bytes were recovered, no replica serves, and none serves later in any
    sequence of operations that neither provisions its identity again nor reports it
    ready with the null boot identity, which no live worker has. *)
Theorem recovered_never_serves bytes c0 c acts rid :
  recover_into bytes c0 = inr c → Forall wf_action acts →
  Forall (λ a, wakes rid a = false) acts →
  sad_eligible (servable rid (run acts c)) = false.
Proof.
  intros (st & _ & _ & ->)%recover_into_inr Hwf Hn.
  assert (Hd : ∀ r, replicas_ (run acts (install_recovered_state st c0)) !! rid = Some r → dormant r).
  { apply run_dormant; [done..|]. intros r Hr. simpl in Hr. rewrite lookup_fmap in Hr.
    apply fmap_Some in Hr as (r0 & _ & ->). apply clear_authority_dormant. }
  apply not_true_iff_false. unfold servable.
  destruct (replicas_ _ !! rid) as [r|] eqn:Hr; [|done].
  destruct (sets_ _ !! r_set_id r); [|done]. intros []%evaluate_may_serve.
  by apply (do_readiness r (Hd r eq_refl)).
Qed.
End recovery.

(** ** Witnesses *)

Lemma serving_snapshot_length : in_u64 (Z.of_nat (length (make_snapshot serving_state))).
Proof. split; vm_compute; done. Qed.

Lemma serving_inv : controller_inv serving_state.
Proof. apply (reachable_inv 1000), serving_state_reachable. Qed.

Lemma serving_decodes : decode_snapshot (make_snapshot serving_state) = inr (captured serving_state).
Proof. apply decode_make_snapshot; [apply serving_inv|apply serving_snapshot_length]. Qed.

Lemma serving_identities : no_null_identity serving_state.
Proof.
  split.
  - apply (bool_decide_unpack (map_Forall (λ i _, i ≠ null) (sets_ serving_state))). by vm_compute.
  - apply (bool_decide_unpack
      (map_Forall (λ i r, i ≠ null ∧ r_generation r ≠ null) (replicas_ serving_state))).
    by vm_compute.
Qed.

(** The controller that restarts: empty, under a fresh epoch. *)
Definition restarted_coordinator : Controller Z := set_epoch (ident 9) (new_controller 5000).

Lemma serving_recovers :
  recover_into (make_snapshot serving_state) restarted_coordinator =
  inr (install_recovered_state (captured serving_state) restarted_coordinator).
Proof.
  apply recover_into_inr. exists (captured serving_state).
  split_and!; [apply serving_decodes| |done].
  apply captured_valid; [apply serving_inv|apply serving_identities].
Qed.

(** The first bytes of the file and the rest of it. *)
Definition serving_tail : list byte := drop 8 (make_snapshot serving_state).
Lemma seal_split body : [] ++ kMagic ++ drop 8 (seal_snapshot body) = seal_snapshot body.
Proof. reflexivity. Qed.
Lemma serving_split : [] ++ kMagic ++ serving_tail = make_snapshot serving_state.
Proof. apply seal_split. Qed.

Lemma decoder_exact_witness :
  in_u64 (Z.of_nat (length (make_snapshot serving_state))) ∧
  ∃ sets reps epoch, snapshot_of sets reps epoch (captured serving_state) ∧
    make_snapshot serving_state = seal_snapshot (write_state sets reps epoch (captured serving_state)).
Proof.
  split; [exact serving_snapshot_length|].
  exact (proj1 (decoder_exact (make_snapshot serving_state) (captured serving_state)
    serving_snapshot_length) serving_decodes).
Defined.

Lemma decoded_well_typed_witness :
  decode_snapshot (make_snapshot serving_state) = inr (captured serving_state) ∧
  ∀ i r, replicas_ serving_state !! i = Some r → r_id r = i ∧ wf_ReplicaState r.
Proof.
  split; [exact serving_decodes|].
  exact (proj1 (proj2 (decoded_well_typed (make_snapshot serving_state) (captured serving_state)
    serving_snapshot_length serving_decodes))).
Defined.

Lemma burst_rejected_witness :
  decode_snapshot ([] ++ kMagic ++ serving_tail) = inr (captured serving_state) ∧
  ∃ e, decode_snapshot ([] ++ list_byte_of_string "RFSNAP02" ++ serving_tail) = inl e.
Proof.
  assert (H1 : decode_snapshot ([] ++ kMagic ++ serving_tail) = inr (captured serving_state))
    by (rewrite serving_split; exact serving_decodes).
  split; [exact H1|].
  apply (burst_rejected [] kMagic (list_byte_of_string "RFSNAP02") serving_tail
    (captured serving_state)); [|exact H1|done|by vm_compute; lia|done].
  rewrite serving_split. exact serving_snapshot_length.
Defined.

Lemma truncation_rejected_witness :
  decode_snapshot (make_snapshot serving_state) = inr (captured serving_state) ∧
  ∃ e, decode_snapshot (make_snapshot serving_state ++ [x00]) = inl e.
Proof.
  split; [exact serving_decodes|].
  apply (truncation_rejected (make_snapshot serving_state) [x00] (captured serving_state));
    [|done|exact serving_decodes].
  split; vm_compute; done.
Defined.

Lemma snapshot_roundtrip_witness :
  reachable 1000 serving_state ∧
  ∃ st, decode_snapshot (make_snapshot serving_state) = inr st ∧
        rs_replicas st = replicas_ serving_state.
Proof.
  split; [exact serving_state_reachable|].
  destruct (snapshot_roundtrip 1000 serving_state serving_state_reachable
    serving_snapshot_length) as (st & H1 & _ & H2 & _). exists st. exact (conj H1 H2).
Defined.

Lemma snapshot_recovers_witness :
  no_null_identity serving_state ∧
  ∃ c', recover_into (make_snapshot serving_state) restarted_coordinator = inr c' ∧
        controller_inv c' ∧ epoch_ c' = ident 9.
Proof.
  split; [exact serving_identities|].
  destruct (snapshot_recovers 1000 serving_state restarted_coordinator serving_state_reachable
    serving_identities ltac:(by vm_compute) serving_snapshot_length)
    as (c' & H1 & H2 & _ & _ & _ & _ & _ & _ & H3). exists c'. exact (conj H1 (conj H2 H3)).
Defined.

Lemma recovered_never_serves_witness :
  sad_eligible (servable (ident 10) serving_state) = true ∧
  sad_eligible (servable (ident 10)
    (run [ReportReadiness (ident 10) all_ready (ident 20) (ident 30); promote_first]
      (install_recovered_state (captured serving_state) restarted_coordinator))) = false.
Proof.
  split; [exact serving_state_serves|].
  apply (recovered_never_serves (make_snapshot serving_state) restarted_coordinator);
    [exact serving_recovers|wf_literal|repeat constructor].
Defined.
