(* ===== verification/Protocol.v ===== *)
(** Protocol messages (src/protocol.cpp, include/replicafabric/distributed/protocol.hpp).

    The framed message with its authority header, its strict encoding, and the
    key=value text of payloads. *)

From S2P Require Import Prelude Identity Enums Model Codec Records.

(** [enum class MessageKind : uint8_t]: any byte is a value of it, and the decoder
    stores whatever byte it reads. *)
Abbreviation MessageKind := Z (only parsing).
Module MessageKind.
Definition HELLO : MessageKind := 1.
Definition REGISTER : MessageKind := 2.
Definition REGISTER_ACK : MessageKind := 3.
Definition CREATE_SET : MessageKind := 4.
Definition CREATE_SET_ACK : MessageKind := 5.
Definition PROVISION : MessageKind := 6.
Definition PROVISION_ACK : MessageKind := 7.
Definition WARM : MessageKind := 8.
Definition WARM_DONE : MessageKind := 9.
Definition HEALTH : MessageKind := 10.
Definition READINESS : MessageKind := 11.
Definition PROMOTE : MessageKind := 12.
Definition PROMOTE_ACK : MessageKind := 13.
Definition DRAIN : MessageKind := 14.
Definition DRAIN_ACK : MessageKind := 15.
Definition FAILOVER : MessageKind := 16.
Definition FAILOVER_ACK : MessageKind := 17.
Definition EXECUTE : MessageKind := 18.
Definition EXECUTE_RESULT : MessageKind := 19.
Definition SNAPSHOT : MessageKind := 20.
Definition MSG_ERROR : MessageKind := 21.
Definition PING : MessageKind := 22.
Definition PONG : MessageKind := 23.
Definition QUERY : MessageKind := 24.
End MessageKind.

Record Message := mkMessage {
  m_kind : MessageKind;
  m_seq : uint64_t;
  m_epoch : CoordinatorEpoch;
  m_worker : WorkerId;
  m_boot : WorkerBootId;
  m_replica : ReplicaId;
  m_set : ReplicaSetId;
  m_attempt : AttemptId;
  m_payload : string;
}.
Definition default_Message : Message :=
  mkMessage MessageKind.HELLO 0 null null null null null null EmptyString.

(** The header fits its types, and the payload its 32-bit length. *)
Definition wf_Message (m : Message) : Prop :=
  0 <= m_kind m < 256 ∧ in_u64 (m_seq m) ∧ wf_id (m_epoch m) ∧ wf_id (m_worker m) ∧
  wf_id (m_boot m) ∧ wf_id (m_replica m) ∧ wf_id (m_set m) ∧ wf_id (m_attempt m) ∧
  in_u32 (Z.of_nat (String.length (m_payload m))).

(** ** Encoding *)

Definition write_ids (m : Message) : list byte :=
  write_id (m_epoch m) ++ write_id (m_worker m) ++ write_id (m_boot m) ++
  write_id (m_replica m) ++ write_id (m_set m) ++ write_id (m_attempt m).

Definition encode_message (m : Message) : list byte :=
  write_u8 (m_kind m) ++ write_u64 (m_seq m) ++ write_ids m ++
  write_u32 (u32 (Z.of_nat (String.length (m_payload m)))) ++ list_byte_of_string (m_payload m).

(** What [decode_message] does: [OutOfBounds] is the read past the end of the buffer
    that its unchecked identity reads perform on a short message. *)
Inductive DecodeResult :=
  | Decoded (m : Message)
  | Malformed
  | OutOfBounds.

(** The message once its header is read, and its payload stored. *)
Definition read_ids (kind : MessageKind) (seq : Z) : Reader Message :=
  epoch ⇐ read_id; worker ⇐ read_id; boot ⇐ read_id; replica ⇐ read_id; set ⇐ read_id;
  attempt ⇐ read_id;
  rret (mkMessage kind seq epoch worker boot replica set attempt EmptyString).
Definition with_payload (m : Message) (payload : string) : Message :=
  mkMessage (m_kind m) (m_seq m) (m_epoch m) (m_worker m) (m_boot m) (m_replica m) (m_set m)
    (m_attempt m) payload.

Definition decode_message (bytes : list byte) : DecodeResult :=
  match (kind ⇐ read_u8; seq ⇐ read_u64; rret (kind, seq)) bytes with
  | inl _ => Malformed
  | inr ((kind, seq), rest) =>
      match read_ids kind seq rest with
      | inl _ => OutOfBounds
      | inr (m, rest) =>
          match read_u32 rest with
          | inl _ => Malformed
          | inr (plen, rest) =>
              if Z.of_nat (length rest) <? plen then Malformed
              else
                let payload := string_of_list_byte (take (Z.to_nat plen) rest) in
                if plen =? Z.of_nat (length rest) then Decoded (with_payload m payload)
                else Malformed
          end
      end
  end.

(** ** Payload text *)

Definition newline : ascii := "010"%char.

Definition set_payload (s k v : string) : string :=
  (s ++ k ++ "=" ++ v ++ String newline EmptyString)%string.

(** The lines the loop of [get_payload] visits: the text up to each line break, and
    what follows the last one. *)
Fixpoint payload_lines (s : string) : list string :=
  match s with
  | EmptyString => [EmptyString]
  | String c s' =>
      if decide (c = newline) then EmptyString :: payload_lines s'
      else match payload_lines s' with
           | l :: ls => String c l :: ls
           | [] => [String c EmptyString]
           end
  end.

(** [line.substr(needle.size())] when the line starts with the needle. *)
Fixpoint strip_prefix (needle line : string) : option string :=
  match needle, line with
  | EmptyString, _ => Some line
  | String a n, String b l => if decide (a = b) then strip_prefix n l else None
  | _, EmptyString => None
  end.

Fixpoint first_match (needle : string) (ls : list string) (def : string) : string :=
  match ls with
  | [] => def
  | l :: ls' => match strip_prefix needle l with Some v => v | None => first_match needle ls' def end
  end.

Definition get_payload (s k def : string) : string :=
  first_match (k ++ "=")%string (payload_lines s) def.

(** ** The language of the decoder *)

Lemma read_header_eq bytes kind seq rest :
  in_u64 (Z.of_nat (length bytes)) →
  (kind ⇐ read_u8; seq ⇐ read_u64; rret (kind, seq)) bytes = inr ((kind, seq), rest) ↔
  0 <= kind < 256 ∧ in_u64 seq ∧ bytes = write_u8 kind ++ write_u64 seq ++ rest.
Proof.
  intros Hl. rewrite rbind_inr. split.
  - intros (k & mid & Hk & E). apply (codec_read codec_u8) in Hk as [? ->]; [|done].
    apply in_u64_suffix in Hl. apply rbind_inr in E as (s & mid' & Hs & [= <- <- <-]).
    by apply (codec_read codec_u64) in Hs as [? ->].
  - intros (Hk & Hs & ->). exists kind. eexists.
    split; [by apply (codec_write codec_u8)|]. apply in_u64_suffix in Hl.
    apply rbind_inr. exists seq. eexists. by split; [apply (codec_write codec_u64)|].
Qed.

Definition wf_ids (m : Message) : Prop :=
  wf_id (m_epoch m) ∧ wf_id (m_worker m) ∧ wf_id (m_boot m) ∧ wf_id (m_replica m) ∧
  wf_id (m_set m) ∧ wf_id (m_attempt m).

#[global] Instance codec_ids kind seq :
  Codec (λ m, ((wf_ids m ∧ m_kind m = kind) ∧ m_seq m = seq) ∧ m_payload m = EmptyString)
    write_ids (read_ids kind seq).
Proof.
  unfold write_ids, read_ids. repeat codec_step ltac:(fun H => unfold wf_ids in H).
  apply codec_ret. intros b. split.
  - intros ?. destruct_and?. destruct b; simplify_eq/=. done.
  - intros ->. unfold wf_ids. by split_and!.
Qed.

Lemma with_payload_id m : with_payload (with_payload m EmptyString) (m_payload m) = m.
Proof. by destruct m. Qed.

(** A message is read whole, or not at all. *)
Lemma decode_message_spec bytes m :
  in_u64 (Z.of_nat (length bytes)) →
  decode_message bytes = Decoded m ↔ wf_Message m ∧ bytes = encode_message m.
Proof.
  intros Hl. unfold decode_message, encode_message. split.
  - destruct ((kind ⇐ read_u8; _) bytes) as [|[[kind seq] rest]] eqn:Hh; [done|].
    apply read_header_eq in Hh as (Hk & Hs & ->); [|done]. do 2 apply in_u64_suffix in Hl.
    destruct (read_ids kind seq rest) as [|[m0 rest']] eqn:Hi; [done|].
    apply (codec_read (codec_ids kind seq)) in Hi as [Hi ->]; [|done].
    destruct Hi as [[[Hids <-] <-] Hp]. apply in_u64_suffix in Hl.
    destruct (read_u32 rest') as [|[plen data]] eqn:Hu; [done|].
    apply (codec_read codec_u32) in Hu as [Hu ->]; [|done].
    case_match; [done|]. cbn zeta. case_match; [|done]. bool_to_prop. subst plen.
    intros [= <-]. rewrite Nat2Z.id, take_ge by done. cbn [with_payload m_payload m_kind m_seq].
    rewrite <-length_list_byte_of_string, list_byte_of_string_of_list_byte.
    rewrite u32_small by done. unfold wf_ids in Hids. destruct_and! Hids.
    split; [|done]. unfold wf_Message, with_payload; cbn.
    rewrite <-length_list_byte_of_string, list_byte_of_string_of_list_byte. destruct Hk. by split_and!.
  - intros [(Hk & Hs & He & Hw & Hb & Hr & Hst & Ha & Hp) ->].
    assert (Hh : ∀ rest, in_u64 (Z.of_nat (length (write_u8 (m_kind m) ++ write_u64 (m_seq m) ++ rest))) →
      (kind ⇐ read_u8; seq ⇐ read_u64; rret (kind, seq))
        (write_u8 (m_kind m) ++ write_u64 (m_seq m) ++ rest) = inr ((m_kind m, m_seq m), rest)).
    { intros rest Hrest. by apply read_header_eq. }
    rewrite Hh by done. do 2 apply in_u64_suffix in Hl.
    pose proof (codec_write (codec_ids (m_kind m) (m_seq m)) (with_payload m EmptyString)
      (write_u32 (u32 (Z.of_nat (String.length (m_payload m)))) ++ list_byte_of_string (m_payload m)))
      as Hi.
    change (write_ids (with_payload m EmptyString)) with (write_ids m) in Hi.
    rewrite Hi by first [done | unfold wf_ids; split_and!; done]. apply in_u64_suffix in Hl.
    rewrite (codec_write codec_u32) by (done || apply u32_range).
    rewrite length_list_byte_of_string, u32_small, Z.ltb_irrefl, Z.eqb_refl by done.
    cbn zeta. rewrite take_ge by (rewrite length_list_byte_of_string; lia).
    by rewrite string_of_list_byte_of_string, with_payload_id.
Qed.

Lemma length_encode_message m :
  length (encode_message m) = (109 + String.length (m_payload m))%nat.
Proof.
  unfold encode_message, write_ids, write_id, write_u8, write_u64, write_u32.
  rewrite !length_app, !length_to_bytes, !length_le_bytes, length_list_byte_of_string. simpl. lia.
Qed.

(** A well-typed message survives the way through its encoding. *)
Lemma decode_encode m : wf_Message m → decode_message (encode_message m) = Decoded m.
Proof.
  intros Hm. apply decode_message_spec; [|done]. rewrite length_encode_message.
  unfold wf_Message in Hm. destruct_and! Hm. unfold in_u64, in_u32 in *. lia.
Qed.

(** ** Short messages *)

Lemma rbind_raw {B} msg n (f : list byte → Reader B) bs :
  rbind (read_raw msg n) f bs =
  if Z.of_nat (length bs) <? n then inl msg else f (take (Z.to_nat n) bs) (drop (Z.to_nat n) bs).
Proof. unfold rbind, read_raw. by destruct (Z.of_nat (length bs) <? n). Qed.

Lemma rbind_assoc {A B C} (r : Reader A) (f : A → Reader B) (g : B → Reader C) bs :
  rbind (rbind r f) g bs = rbind r (λ x, rbind (f x) g) bs.
Proof. unfold rbind. by destruct (r bs) as [|[]]. Qed.

Lemma rbind_ret {A B} (x : A) (f : A → Reader B) bs : rbind (rret x) f bs = f x bs.
Proof. done. Qed.

(** Reading an identity takes 16 bytes, whatever they are. *)
Lemma rbind_read_id {k B} (f : Id k → Reader B) bs :
  rbind read_id f bs =
  if Z.of_nat (length bs) <? 16 then inl "byte range overflow"%string
  else f (from_bytes (take 16 bs)) (drop 16 bs).
Proof. unfold read_id, read_bytes. rewrite rbind_assoc. by rewrite rbind_raw. Qed.

Lemma read_ids_short kind seq bs :
  (∃ e, read_ids kind seq bs = inl e) ↔ (length bs < 96)%nat.
Proof.
  unfold read_ids. rewrite !rbind_read_id, !drop_drop. rewrite !length_drop.
  repeat (case_match; bool_to_prop; [split; [lia|eauto]|]).
  unfold rret. split; [by intros []|lia].
Qed.

Lemma decode_message_out_of_bounds bytes :
  decode_message bytes = OutOfBounds ↔ (9 ≤ length bytes < 105)%nat.
Proof.
  unfold decode_message, read_u8, read_u64. rewrite rbind_assoc, rbind_raw.
  destruct (Z.of_nat (length bytes) <? 1) eqn:H1; bool_to_prop; [split; [done|lia]|].
  rewrite rbind_ret, rbind_assoc, rbind_raw, length_drop.
  destruct (_ <? 8) eqn:H8; bool_to_prop; [split; [done|lia]|].
  rewrite rbind_ret, drop_drop. unfold rret at 1.
  change (Z.to_nat 1 + Z.to_nat 8)%nat with 9%nat. 
  destruct (read_ids _ _ (drop 9 bytes)) as [e|[m rest]] eqn:Hi.
  - pose proof (proj1 (read_ids_short _ _ _) (ex_intro _ e Hi)) as Hs. rewrite length_drop in Hs.
    split; [lia|done].
  - assert (Hn : ¬ (length (drop 9 bytes) < 96)%nat).
    { intros [e He]%(read_ids_short (le_value (take (Z.to_nat 1) bytes))
        (le_value (take (Z.to_nat 8) (drop (Z.to_nat 1) bytes)))). by rewrite Hi in He. }
    rewrite length_drop in Hn. split; [|lia]. repeat case_match; done.
Qed.

(** ** Payload text *)

(** The text built by setting the keys in order. *)
Definition build_payload (kvs : list (string * string)) : string :=
  foldl (λ s kv, set_payload s kv.1 kv.2) EmptyString kvs.

Definition no_char (c : ascii) (s : string) : Prop := c ∉ list_ascii_of_string s.

Lemma string_app_cons c (a b : string) : (String c a ++ b = String c (a ++ b))%string.
Proof. done. Qed.

Lemma payload_lines_cons c s :
  payload_lines (String c s) =
  if decide (c = newline) then EmptyString :: payload_lines s
  else match payload_lines s with
       | l :: ls => String c l :: ls
       | [] => [String c EmptyString]
       end.
Proof. done. Qed.

Lemma payload_lines_app l s :
  no_char newline l →
  payload_lines (l ++ String newline s)%string = l :: payload_lines s.
Proof.
  unfold no_char. induction l as [|c l IH]; [done|].
  cbn [list_ascii_of_string]. rewrite string_app_cons, payload_lines_cons.
  rewrite not_elem_of_cons. intros [Hc Hl]. rewrite decide_False by done. by rewrite IH.
Qed.

Lemma string_app_assoc (a b c : string) : ((a ++ b) ++ c = a ++ (b ++ c))%string.
Proof. induction a as [|x a IH]; [done|]. by rewrite !string_app_cons, IH. Qed.

Lemma string_app_nil_r (a : string) : (a ++ EmptyString = a)%string.
Proof. induction a as [|x a IH]; [done|]. by rewrite string_app_cons, IH. Qed.

Lemma string_length_app (a b : string) : String.length (a ++ b) = (String.length a + String.length b)%nat.
Proof. induction a as [|x a IH]; [done|]. rewrite string_app_cons. cbn. by rewrite IH. Qed.

Lemma list_ascii_app a b :
  list_ascii_of_string (a ++ b)%string = list_ascii_of_string a ++ list_ascii_of_string b.
Proof. induction a as [|c a IH]; [done|]. rewrite string_app_cons. cbn. by rewrite IH. Qed.

(** The text of a list of pairs, one line each. *)
Fixpoint payload_text (kvs : list (string * string)) : string :=
  match kvs with
  | [] => EmptyString
  | kv :: kvs' => ((kv.1 ++ "=" ++ kv.2) ++ String newline (payload_text kvs'))%string
  end.

Lemma build_payload_text kvs s :
  foldl (λ s kv, set_payload s kv.1 kv.2) s kvs = (s ++ payload_text kvs)%string.
Proof.
  revert s. induction kvs as [|[k v] kvs IH]; intros s; cbn [foldl payload_text].
  { by rewrite string_app_nil_r. }
  rewrite IH. unfold set_payload. cbn [fst snd]. by rewrite !string_app_assoc.
Qed.

(** Keys without the separator match only their own line. *)
Lemma strip_prefix_key k k' v :
  no_char "=" k → no_char "=" k' →
  strip_prefix (k ++ "=") (k' ++ "=" ++ v) = if decide (k' = k) then Some v else None.
Proof.
  unfold no_char. revert k'. induction k as [|a k IH]; intros [|b k'];
    rewrite ?string_app_cons; cbn [list_ascii_of_string]; rewrite ?not_elem_of_cons;
    change (EmptyString ++ ?x)%string with x; cbn [strip_prefix].
  - intros _ _. by rewrite !decide_True.
  - intros _ [Hb _]. by rewrite decide_False, decide_False by done.
  - intros [Ha _] _. by rewrite decide_False, decide_False by done.
  - intros [Ha Hk] [Hb Hk']. destruct (decide (a = b)) as [->|Hab].
    + rewrite IH by done. destruct (decide (k' = k)) as [->|Hne].
      * by rewrite decide_True.
      * rewrite decide_False; [done|congruence].
    + rewrite decide_False; [done|congruence].
Qed.

(** The value of the first pair with the key. *)
Fixpoint assoc (k : string) (kvs : list (string * string)) : option string :=
  match kvs with
  | [] => None
  | kv :: kvs' => if decide (kv.1 = k) then Some kv.2 else assoc k kvs'
  end.

(** What a payload holds, as the coordinator reads it. *)
Lemma get_payload_text kvs k def :
  Forall (λ kv, no_char "=" kv.1 ∧ no_char newline kv.1 ∧ no_char newline kv.2) kvs →
  no_char "=" k →
  get_payload (payload_text kvs) k def = default def (assoc k kvs).
Proof.
  intros Hkvs Hk. unfold get_payload.
  induction Hkvs as [|[k' v] kvs (Heq & Hnk & Hnv) Hkvs IH]; cbn [payload_text assoc fst snd] in *.
  { destruct k; done. }
  rewrite payload_lines_app.
  - cbn [first_match]. rewrite strip_prefix_key by done. by case_decide.
  - unfold no_char in *. rewrite !list_ascii_app. cbn. rewrite not_elem_of_app, not_elem_of_cons.
    split_and!; done.
Qed.

Lemma payload_lines_single l : no_char newline l → payload_lines l = [l].
Proof.
  unfold no_char. induction l as [|c l IH]; [done|]. cbn [list_ascii_of_string].
  rewrite not_elem_of_cons. intros [Hc Hl]. rewrite payload_lines_cons, decide_False, IH by done. done.
Qed.

(** A line of a pair has no line break when its parts have none. *)
Lemma line_clean k v : no_char newline k → no_char newline v → no_char newline (k ++ "=" ++ v).
Proof.
  unfold no_char. intros Hk Hv. rewrite !list_ascii_app. cbn. rewrite not_elem_of_app, not_elem_of_cons.
  by split_and!.
Qed.

(** The same when the last line is not ended. *)
Lemma get_payload_unended kvs k' v' k def :
  Forall (λ kv, no_char "=" kv.1 ∧ no_char newline kv.1 ∧ no_char newline kv.2) kvs →
  no_char "=" k' → no_char newline k' → no_char newline v' → no_char "=" k →
  get_payload (payload_text kvs ++ (k' ++ "=" ++ v')) k def = default def (assoc k (kvs ++ [(k', v')])).
Proof.
  intros Hkvs He Hk' Hv' Hk. unfold get_payload.
  induction Hkvs as [|[k1 v1] kvs (Heq & Hnk & Hnv) Hkvs IH]; cbn [payload_text assoc fst snd app] in *.
  - change (EmptyString ++ ?x)%string with x. rewrite payload_lines_single by by apply line_clean.
    cbn [first_match]. rewrite strip_prefix_key by done. by case_decide.
  - rewrite (string_app_assoc (k1 ++ "=" ++ v1)), (string_app_cons newline).
    rewrite payload_lines_app by by apply line_clean.
    cbn [first_match]. rewrite strip_prefix_key by done. by case_decide.
Qed.

(** ** Values have no line break *)

Lemma payload_lines_clean s : Forall (no_char newline) (payload_lines s).
Proof.
  unfold no_char. induction s as [|c s IH].
  { apply Forall_singleton. apply not_elem_of_nil. }
  rewrite payload_lines_cons. destruct (decide (c = newline)) as [|Hc].
  { constructor; [apply not_elem_of_nil|done]. }
  destruct (payload_lines s) as [|l ls].
  { apply Forall_singleton. cbn. rewrite list_elem_of_singleton. congruence. }
  apply Forall_cons in IH as [Hl IH]. constructor; [|done]. cbn. rewrite not_elem_of_cons. split; congruence.
Qed.

Lemma strip_prefix_clean needle line v :
  strip_prefix needle line = Some v → no_char newline line → no_char newline v.
Proof.
  unfold no_char. revert line. induction needle as [|a n IH]; intros line; cbn [strip_prefix].
  { by intros [= ->]. }
  destruct line as [|b l]; [done|]. case_decide; [|done]. intros E Hl. apply (IH l E).
  cbn in Hl. rewrite not_elem_of_cons in Hl. tauto.
Qed.

Lemma get_payload_clean s k def : no_char newline def → no_char newline (get_payload s k def).
Proof.
  intros Hd. unfold get_payload. pose proof (payload_lines_clean s) as Hl.
  induction Hl as [|l ls Hl _ IH]; cbn [first_match]; [done|].
  destruct (strip_prefix _ l) as [v|] eqn:E; [|done]. by eapply strip_prefix_clean.
Qed.

(** Values are parts of the text. *)
Lemma get_payload_length s k def :
  (String.length (get_payload s k def) ≤ String.length s + String.length def)%nat.
Proof.
  assert (Hlines : Forall (λ l, String.length l ≤ String.length s)%nat (payload_lines s)).
  { induction s as [|c s IH]; [by repeat constructor|]. rewrite payload_lines_cons. case_decide.
    - constructor; [cbn; lia|]. eapply Forall_impl; [exact IH|]. cbn. lia.
    - destruct (payload_lines s) as [|l ls]; [apply Forall_singleton; cbn; lia|].
      apply Forall_cons in IH as [Hl IH]. constructor; [cbn; lia|]. eapply Forall_impl; [exact IH|]. cbn. lia. }
  unfold get_payload. induction Hlines as [|l ls Hl _ IH]; cbn [first_match]; [lia|].
  destruct (strip_prefix _ l) as [v|] eqn:E; [|done].
  enough (String.length v ≤ String.length l)%nat by lia. clear -E. revert l E.
  generalize (k ++ "=")%string. intros n. induction n as [|a n IH]; intros l; cbn [strip_prefix].
  { by intros [= ->]. }
  destruct l as [|b l]; [done|]. case_decide; [|done]. intros E. apply IH in E. cbn. lia.
Qed.
