(* ===== verification/Transport.v ===== *)
(** Framed transport (src/transport.cpp, [TcpConnection]'s byte and frame operations).

    The operating system's [send] and [recv] are an interface, [Socket], with the
    documented behaviour the framing relies on, [SocketLaws].  The loops of
    [send_all] and [recv_exact] run on fuel; their outcome tells an exhausted loop
    from a failed one, and the fuel chosen is shown to be enough. *)

From S2P Require Import Prelude Identity Enums Model Codec Protocol.

(** One call: the bytes handed over, with the state of the connection after it.  The
    length is the [int] the code passes. *)
Class Socket (K : Type) := {
  (** [recv(sock, buf, len, 0)]: the bytes received, none for a result of 0 or less. *)
  sock_recv : Z → K → list byte * K;
  (** [send(sock, data, len, 0)]: how many bytes were taken, [None] for [SOCKET_ERROR]. *)
  sock_send : list byte → Z → K → option nat * K;
}.

(** [pending s] is what the peer's stream still holds, [sent s] what was put on the
    wire.  Asked for a positive length, a blocking [recv] returns a nonempty part of the
    stream, of at most that length, until the stream ends; a blocking [send] of a
    positive length within its data that succeeds takes a nonempty part of it; no
    [send] takes from the incoming stream.  Nothing is known of other lengths. *)
Class SocketLaws (K : Type) `{Socket K} := {
  pending : K → list byte;
  sent : K → list byte;
  recv_takes n s : 0 < n →
    pending s = (sock_recv n s).1 ++ pending (sock_recv n s).2 ∧
    Z.of_nat (length (sock_recv n s).1) <= n ∧ sent (sock_recv n s).2 = sent s ∧
    (pending s ≠ [] → (sock_recv n s).1 ≠ []);
  send_takes data len s k : 0 < len <= Z.of_nat (length data) → (sock_send data len s).1 = Some k →
    0 < Z.of_nat k <= len ∧ sent (sock_send data len s).2 = sent s ++ take k data ∧
    pending (sock_send data len s).2 = pending s;
  send_keeps data len s : pending (sock_send data len s).2 = pending s;
}.

Definition kMaxFrame : Z := 16 * 1024 * 1024.

(** The result of a loop that may exhaust its fuel. *)
Inductive Loop (A : Type) :=
  | Finished (x : A)
  | Failed
  | OutOfFuel.
Arguments Finished {A} _.
Arguments Failed {A}.
Arguments OutOfFuel {A}.

Section transport.
Context `{Socket K}.

(** A [TcpConnection]: [None] for an invalid socket. *)
Definition TcpConnection : Type := option K.

(** The loop of [send_all] with [data] left to send; the cast to [int] of the size and
    the cut at 2^20 bytes are the chunk. *)
Fixpoint send_loop (fuel : nat) (data : list byte) (s : K) : Loop () * K :=
  match data with
  | [] => (Finished (), s)
  | _ =>
      match fuel with
      | O => (OutOfFuel, s)
      | S fuel' =>
          let chunk := i32 (Z.of_nat (length data)) in
          let chunk := if 2 ^ 20 <? chunk then 2 ^ 20 else chunk in
          match sock_send data chunk s with
          | (None, s') => (Failed, s')
          | (Some k, s') => send_loop fuel' (drop k data) s'
          end
      end
  end.
Definition send_all (data : list byte) (c : TcpConnection) : bool * TcpConnection :=
  match c with
  | None => (false, None)
  | Some s =>
      match send_loop (length data) data s with
      | (Finished _, s') => (true, Some s')
      | (_, s') => (false, Some s')
      end
  end.

(** The loop of [recv_exact] with [n] bytes missing; the size is cast to [int] here too. *)
Fixpoint recv_loop (fuel : nat) (n : nat) (got : list byte) (s : K) : Loop (list byte) * K :=
  match n with
  | O => (Finished got, s)
  | _ =>
      match fuel with
      | O => (OutOfFuel, s)
      | S fuel' =>
          match sock_recv (i32 (Z.of_nat n)) s with
          | ([], s') => (Failed, s')
          | (r, s') => recv_loop fuel' (n - length r) (got ++ r) s'
          end
      end
  end.
Definition recv_exact (n : nat) (c : TcpConnection) : option (list byte) * TcpConnection :=
  match c with
  | None => (None, None)
  | Some s =>
      match recv_loop n n [] s with
      | (Finished got, s') => (Some got, Some s')
      | (_, s') => (None, Some s')
      end
  end.

(** The big-endian length prefix. *)
Definition frame_header (len : Z) : list byte := byte_of_Z <$> be_digits 8 4 len.

Definition write_frame (payload : list byte) (c : TcpConnection) : bool * TcpConnection :=
  if kMaxFrame <? Z.of_nat (length payload) then (false, c)
  else
    let len := u32 (Z.of_nat (length payload)) in
    let '(ok, c) := send_all (frame_header len) c in
    if negb ok then (false, c)
    else
      match payload with
      | [] => (true, c)
      | _ => send_all payload c
      end.

Definition read_frame (c : TcpConnection) : option (list byte) * TcpConnection :=
  match recv_exact 4 c with
  | (None, c) => (None, c)
  | (Some hdr, c) =>
      let len := be_value 8 (Z_of_byte <$> hdr) in
      if kMaxFrame <? len then (None, c)
      else if len =? 0 then (Some [], c)
      else recv_exact (Z.to_nat len) c
  end.

(** [conn->write_frame(encode_message(m))], and the receiving side. *)
Definition send_message (m : Message) (c : TcpConnection) : bool * TcpConnection :=
  write_frame (encode_message m) c.
Definition read_message (c : TcpConnection) : option DecodeResult * TcpConnection :=
  match read_frame c with
  | (Some f, c) => (Some (decode_message f), c)
  | (None, c) => (None, c)
  end.

(** The bytes of a frame on the wire. *)
Definition frame (payload : list byte) : list byte :=
  frame_header (Z.of_nat (length payload)) ++ payload.
End transport.
Arguments TcpConnection K : clear implicits.

(** ** The loops end *)

Section laws.
Context `{SocketLaws K}.

Lemma send_loop_spec fuel data s :
  (length data ≤ fuel)%nat → Z.of_nat (length data) < 2 ^ 31 →
  match send_loop fuel data s with
  | (Finished _, s') => sent s' = sent s ++ data ∧ pending s' = pending s
  | (Failed, _) => True
  | (OutOfFuel, _) => False
  end.
Proof.
  revert data s. induction fuel as [|fuel IH]; intros data s Hf Hl.
  { destruct data; [|simpl in Hf; lia]. simpl. by rewrite app_nil_r. }
  destruct data as [|b data]; [simpl; by rewrite app_nil_r|].
  cbn [send_loop]. set (d := b :: data) in *.
  assert (Hd : (0 < length d)%nat) by (simpl; lia).
  assert (Hi : i32 (Z.of_nat (length d)) = Z.of_nat (length d)).
  { unfold i32. rewrite Z.mod_small; lia. }
  rewrite Hi. cbn zeta.
  set (chunk := if 2 ^ 20 <? Z.of_nat (length d) then 2 ^ 20 else Z.of_nat (length d)).
  assert (Hc : 0 < chunk <= Z.of_nat (length d)).
  { unfold chunk. destruct (_ <? _) eqn:E; bool_to_prop; lia. }
  pose proof (send_takes d chunk s) as Hsend.
  destruct (sock_send d chunk s) as [[k|] s'] eqn:Es; [|done]. cbn [fst snd] in Hsend.
  destruct (Hsend k Hc eq_refl) as (Hk & Hs & Hp).
  specialize (IH (drop k d) s'). rewrite length_drop in IH.
  assert (Hlen : (length d - k ≤ fuel)%nat) by lia.
  specialize (IH Hlen ltac:(lia)).
  destruct (send_loop fuel (drop k d) s') as [[[]| |] s'']; [|done|done].
  destruct IH as [-> ->]. rewrite Hs, Hp, <-app_assoc, take_drop. done.
Qed.

Lemma recv_loop_spec fuel n got s :
  (n ≤ fuel)%nat → Z.of_nat n < 2 ^ 31 →
  match recv_loop fuel n got s with
  | (Finished r, s') => ∃ d, r = got ++ d ∧ length d = n ∧ pending s = d ++ pending s' ∧ sent s' = sent s
  | (Failed, s') => ∃ d, pending s = d ++ pending s' ∧ (length d < n)%nat ∧ pending s' = []
  | (OutOfFuel, _) => False
  end.
Proof.
  revert n got s. induction fuel as [|fuel IH]; intros n got s Hf Hn.
  { assert (n = 0%nat) as -> by lia. exists []. by rewrite app_nil_r. }
  destruct n as [|n]; [exists []; by rewrite app_nil_r|].
  cbn [recv_loop]. assert (Hi : i32 (Z.of_nat (S n)) = Z.of_nat (S n)) by (unfold i32; rewrite Z.mod_small; lia).
  rewrite Hi. destruct (recv_takes (Z.of_nat (S n)) s) as (Hp & Hl & Hs & Hne); [lia|].
  destruct (sock_recv _ s) as [r s'] eqn:Er. cbn [fst snd] in *.
  destruct r as [|b r].
  - exists []. simpl. split_and!; [done|lia|].
    destruct (pending s) eqn:E; [by simpl in Hp|]. by destruct Hne.
  - set (d := b :: r) in *. assert (Hd : (0 < length d)%nat) by (simpl; lia).
    specialize (IH (S n - length d)%nat (got ++ d) s' ltac:(lia) ltac:(lia)).
    destruct (recv_loop fuel _ _ s') as [[r'| |] s'']; [| |done].
    + destruct IH as (d' & -> & Hlen & Hp' & Hs'). exists (d ++ d').
      rewrite length_app, Hp, Hp', <-!app_assoc, Hs'. split_and!; [done|lia|done|done].
    + destruct IH as (d' & Hp' & Hlen & Hnil). exists (d ++ d').
      rewrite length_app, Hp, Hp', <-app_assoc. split_and!; [done|lia|done].
Qed.

(** [recv_exact] returns the next [n] bytes of the stream exactly when it has them. *)
Lemma recv_exact_spec n s d rest :
  Z.of_nat n < 2 ^ 31 → pending s = d ++ rest → length d = n →
  ∃ s', recv_exact n (Some s) = (Some d, Some s') ∧ pending s' = rest ∧ sent s' = sent s.
Proof.
  intros Hb Hp Hn. unfold recv_exact. pose proof (recv_loop_spec n n [] s (Nat.le_refl n) Hb) as Hl.
  destruct (recv_loop n n [] s) as [[r| |] s']; [| |done].
  - destruct Hl as (d' & -> & Hlen & Hp' & Hs). rewrite Hp in Hp'.
    apply app_inj_1 in Hp' as [-> ->]; [|lia]. by exists s'.
  - destruct Hl as (d' & Hp' & Hlen & Hnil). rewrite Hnil, app_nil_r in Hp'.
    apply (f_equal length) in Hp'. rewrite Hp, length_app in Hp'. lia.
Qed.

Lemma send_all_spec data s s' :
  Z.of_nat (length data) < 2 ^ 31 → send_all data (Some s) = (true, Some s') →
  sent s' = sent s ++ data ∧ pending s' = pending s.
Proof.
  intros Hl. unfold send_all. pose proof (send_loop_spec (length data) data s (Nat.le_refl _) Hl) as Hs.
  destruct (send_loop _ _ s) as [[x| |] s'']; [|done|done]. by intros [= <-].
Qed.

(** Sending leaves the incoming stream alone, also when it fails. *)
Lemma send_loop_keeps fuel data s : pending (send_loop fuel data s).2 = pending s.
Proof.
  revert data s. induction fuel as [|fuel IH]; intros data s; [by destruct data|].
  destruct data as [|b data]; [done|]. cbn [send_loop].
  set (chunk := if 2 ^ 20 <? _ then _ else _). pose proof (send_keeps (b :: data) chunk s) as Hk.
  destruct (sock_send _ chunk s) as [[k|] s']; cbn [snd] in *; [|done]. by rewrite IH.
Qed.

Lemma send_all_keeps data s :
  ∃ s', (send_all data (Some s)).2 = Some s' ∧ pending s' = pending s.
Proof.
  unfold send_all. pose proof (send_loop_keeps (length data) data s) as Hk.
  destruct (send_loop _ _ s) as [[x| |] s']; by exists s'.
Qed.

Lemma write_frame_keeps payload s :
  ∃ s', (write_frame payload (Some s)).2 = Some s' ∧ pending s' = pending s.
Proof.
  unfold write_frame. case_match; [by exists s|].
  destruct (send_all_keeps (frame_header (u32 (Z.of_nat (length payload)))) s) as (s1 & E1 & Hp1).
  destruct (send_all _ (Some s)) as [ok c]. cbn [snd] in E1. subst c.
  destruct ok; cbn [negb]; [|by exists s1]. destruct payload as [|b p]; [by exists s1|].
  destruct (send_all_keeps (b :: p) s1) as (s2 & E2 & Hp2). exists s2. split; [done|congruence].
Qed.

(** ** Frames *)

Lemma length_frame_header len : length (frame_header len) = 4%nat.
Proof. unfold frame_header. by rewrite length_fmap, length_be_digits. Qed.

Lemma frame_header_value len :
  in_u32 len → be_value 8 (Z_of_byte <$> frame_header len) = len.
Proof.
  intros Hl. unfold frame_header. rewrite be_bytes_digits. apply be_value_digits; [lia..|].
  exact Hl.
Qed.

Lemma write_frame_spec payload s s' :
  write_frame payload (Some s) = (true, Some s') →
  Z.of_nat (length payload) <= kMaxFrame ∧ sent s' = sent s ++ frame payload ∧ pending s' = pending s.
Proof.
  unfold write_frame, kMaxFrame. destruct (_ <? _) eqn:E; [done|]. bool_to_prop.
  rewrite u32_small by (unfold in_u32; lia).
  destruct (send_all (frame_header _) (Some s)) as [[] [s1|]] eqn:Eh; simpl; [| |done|done].
  - apply send_all_spec in Eh as [Hs Hp]; [|rewrite length_frame_header; lia].
    unfold frame. rewrite app_assoc, <-Hs, <-Hp. destruct payload as [|b p].
    + intros [= <-]. by rewrite app_nil_r.
    + intros Hb. apply send_all_spec in Hb as [Hs' Hp']; [done|lia].
  - unfold send_all in Eh. by repeat case_match.
Qed.

Lemma read_frame_spec s payload rest :
  Z.of_nat (length payload) <= kMaxFrame → pending s = frame payload ++ rest →
  ∃ s', read_frame (Some s) = (Some payload, Some s') ∧ pending s' = rest ∧ sent s' = sent s.
Proof.
  unfold frame, kMaxFrame. intros Hl Hp. rewrite <-app_assoc in Hp.
  destruct (recv_exact_spec 4 s _ _ eq_refl Hp (length_frame_header _)) as (s1 & Hr & Hp1 & Hs1).
  unfold read_frame. rewrite Hr, frame_header_value by (unfold in_u32; lia).
  unfold kMaxFrame. destruct (_ <? _) eqn:E; bool_to_prop; [lia|].
  destruct (_ =? 0) eqn:E0; bool_to_prop.
  - destruct payload; [|simpl in E0; lia]. by exists s1.
  - rewrite Nat2Z.id. destruct (recv_exact_spec (length payload) s1 payload rest ltac:(lia) Hp1 eq_refl)
      as (s2 & -> & Hp2 & Hs2). exists s2. by rewrite Hs2.
Qed.

Lemma recv_exact_inv n s d c :
  Z.of_nat n < 2 ^ 31 → recv_exact n (Some s) = (Some d, c) →
  ∃ s', c = Some s' ∧ length d = n ∧ pending s = d ++ pending s'.
Proof.
  intros Hb. unfold recv_exact. pose proof (recv_loop_spec n n [] s (Nat.le_refl n) Hb) as Hl.
  destruct (recv_loop n n [] s) as [[r| |] s']; [|done|done]. intros [= <- <-].
  destruct Hl as (d' & -> & Hlen & Hp & _). by exists s'.
Qed.

Lemma frame_header_read hdr :
  length hdr = 4%nat → frame_header (be_value 8 (Z_of_byte <$> hdr)) = hdr.
Proof. intros Hl. apply be_bytes_value; lia. Qed.

(** What [read_frame] returns was a frame of the stream, within the limit. *)
Lemma read_frame_inv s payload c :
  read_frame (Some s) = (Some payload, c) →
  ∃ s', c = Some s' ∧ Z.of_nat (length payload) <= kMaxFrame ∧ pending s = frame payload ++ pending s'.
Proof.
  unfold read_frame. destruct (recv_exact 4 (Some s)) as [[hdr|] c1] eqn:Eh; [|done].
  apply recv_exact_inv in Eh as (s1 & -> & Hl & Hp); [|done].
  pose proof (frame_header_read hdr Hl) as Hh. set (len := be_value 8 (Z_of_byte <$> hdr)) in *.
  assert (0 <= len) by (apply be_bytes_range; lia).
  destruct (kMaxFrame <? len) eqn:E; bool_to_prop; [done|]. destruct (len =? 0) eqn:E0; bool_to_prop.
  - intros [= <- <-]. exists s1. split_and!; [done|done|]. unfold frame.
    change (Z.of_nat (length [])) with 0. by rewrite app_nil_r, <-E0, Hh.
  - unfold kMaxFrame in E. intros Er. apply recv_exact_inv in Er as (s2 & -> & Hlp & Hp2); [|lia]. exists s2. unfold frame.
    rewrite Hlp, Z2Nat.id, Hh, <-app_assoc, <-Hp2 by done. by split_and!.
Qed.

(** A length above the limit ends the read, whatever follows. *)
Lemma read_frame_oversized s len rest :
  in_u32 len → kMaxFrame < len → pending s = frame_header len ++ rest →
  (read_frame (Some s)).1 = None.
Proof.
  intros Hl Hm Hp. destruct (recv_exact_spec 4 s _ _ eq_refl Hp (length_frame_header _)) as (s1 & Hr & _).
  unfold read_frame. rewrite Hr, frame_header_value by done.
  destruct (_ <? _) eqn:E; bool_to_prop; [done|lia].
Qed.
End laws.
