(* ===== verification/ProtocolProps.v ===== *)
(** What the message protocol and the framed transport guarantee.

    The theorems about src/protocol.cpp and src/transport.cpp: the language of the
    message decoder, the end of the transfer loops, and a message's way from one
    process to another across any socket that behaves as documented. *)

From S2P Require Import Prelude Identity Enums Model Codec Records Protocol Transport.

(** C39: the message decoder accepts exactly the encodings of messages whose fields fit
    their types and gives the message back; it never validates the kind byte; and
    every message of 9 to 104 bytes makes it read past the end of the buffer. *)
Theorem decode_message_exact bytes m :
  in_u64 (Z.of_nat (length bytes)) →
  (decode_message bytes = Decoded m ↔ wf_Message m ∧ bytes = encode_message m) ∧
  (decode_message bytes = OutOfBounds ↔ (9 ≤ length bytes < 105)%nat).
Proof. intros Hl. split; [by apply decode_message_spec|apply decode_message_out_of_bounds]. Qed.

(** A payload built from key=value lines gives back, for every key, the value of its
    first line, and the default for a key it does not have, when keys hold no
    separator and no line breaks, and values no line breaks. *)
Theorem payload_lookup kvs k def :
  Forall (λ kv, no_char "=" kv.1 ∧ no_char newline kv.1 ∧ no_char newline kv.2) kvs →
  no_char "=" k →
  get_payload (build_payload kvs) k def = default def (assoc k kvs).
Proof.
  intros Hkvs Hk. unfold build_payload. rewrite build_payload_text.
  change (EmptyString ++ payload_text kvs)%string with (payload_text kvs).
  by apply get_payload_text.
Qed.

Section transport.
Context `{SocketLaws K}.

(** C27: for sizes below 2 GiB (a frame has at most 16 MiB), the transfer loops end
    within one iteration per byte, on every socket: a [recv_exact] returns the next
    bytes of the stream when the stream has them and fails when it ends early, and a
    [send_all] that returns true has sent all. *)
Theorem transfer_loops_end (n : nat) (data : list byte) (s : K) :
  Z.of_nat n < 2 ^ 31 → Z.of_nat (length data) < 2 ^ 31 →
  (recv_loop n n [] s).1 ≠ OutOfFuel ∧ (send_loop (length data) data s).1 ≠ OutOfFuel ∧
  (∀ d rest, pending s = d ++ rest → length d = n →
    ∃ s', recv_exact n (Some s) = (Some d, Some s') ∧ pending s' = rest) ∧
  ((length (pending s) < n)%nat → (recv_exact n (Some s)).1 = None) ∧
  (∀ s', send_all data (Some s) = (true, Some s') → sent s' = sent s ++ data).
Proof.
  intros Hb Hl. pose proof (recv_loop_spec n n [] s (Nat.le_refl n) Hb) as Hr.
  pose proof (send_loop_spec (length data) data s (Nat.le_refl _) Hl) as Hs.
  split_and!.
  - by destruct (recv_loop n n [] s) as [[]].
  - by destruct (send_loop _ data s) as [[]].
  - intros d rest Hp Hn. destruct (recv_exact_spec n s d rest Hb Hp Hn) as (s' & ? & ? & _). eauto.
  - intros Hshort. unfold recv_exact. destruct (recv_loop n n [] s) as [[r| |] s']; [|done|done].
    destruct Hr as (d & _ & Hlen & Hp & _). rewrite Hp, length_app in Hshort. lia.
  - intros s' E. by apply (send_all_spec data s s' Hl) in E as [? _].
Qed.

(** C25: what [write_frame] of an encoded message puts on the wire, [read_frame] and the
    decoder at the other end turn back into the message, however the sockets cut the
    stream, and the bytes after it stay for the next read; a length above 16 MiB is
    refused by both ends. *)
Theorem message_end_to_end (m : Message) (s s' r : K) rest :
  wf_Message m → send_message m (Some s) = (true, Some s') →
  ∃ wire, sent s' = sent s ++ wire ∧
    (pending r = wire ++ rest →
     ∃ r', read_message (Some r) = (Some (Decoded m), Some r') ∧ pending r' = rest) ∧
    (∀ payload, kMaxFrame < Z.of_nat (length payload) → write_frame payload (Some s) = (false, Some s)) ∧
    (∀ len, in_u32 len → kMaxFrame < len → pending r = frame_header len ++ rest →
      (read_frame (Some r)).1 = None).
Proof.
  intros Hm E. apply write_frame_spec in E as (Hl & Hs & _). exists (frame (encode_message m)).
  split; [done|]. split_and!; [|intros payload Hp|by intros; eapply read_frame_oversized].
  2: { unfold write_frame. by rewrite (proj2 (Z.ltb_lt _ _) Hp). } intros Hp. destruct (read_frame_spec r _ rest Hl Hp) as (r' & Hr & Hp' & _).
  exists r'. unfold read_message. rewrite Hr. split; [|done]. do 2 f_equal.
  apply decode_message_spec; [|done]. unfold kMaxFrame, in_u64 in *. lia.
Qed.

(** C26: framing is strict and bounded: [read_frame] returns a payload exactly when the
    stream starts with its frame and the payload is at most 16 MiB, and takes that
    frame and no more; a successful [write_frame] put one such frame on the wire. *)
Theorem frame_bounds (s : K) payload rest :
  ((∃ s', read_frame (Some s) = (Some payload, Some s') ∧ pending s' = rest) ↔
   Z.of_nat (length payload) <= kMaxFrame ∧ pending s = frame payload ++ rest) ∧
  (∀ s', write_frame payload (Some s) = (true, Some s') →
   Z.of_nat (length payload) <= kMaxFrame ∧ sent s' = sent s ++ frame payload).
Proof.
  split; [split|].
  - intros (s' & (s1 & [= <-] & Hl & Hp)%read_frame_inv & <-). done.
  - intros [Hl Hp]. destruct (read_frame_spec s payload rest Hl Hp) as (s' & ? & ? & _). eauto.
  - intros s' (? & ? & _)%write_frame_spec. done.
Qed.
End transport.

(** ** A socket that cuts the stream into pieces *)

(** The bytes to come, and those sent; each call moves at most three of them. *)
Record Pipe := mkPipe { incoming : list byte; outgoing : list byte }.

#[global] Instance pipe_socket : Socket Pipe := {|
  sock_recv n p := (take (Nat.min (Z.to_nat n) 3) (incoming p),
                    mkPipe (drop (Nat.min (Z.to_nat n) 3) (incoming p)) (outgoing p));
  sock_send data len p := (Some (Nat.min 3 (Z.to_nat len)),
                           mkPipe (incoming p) (outgoing p ++ take (Nat.min 3 (Z.to_nat len)) data));
|}.

#[global] Instance pipe_laws : SocketLaws Pipe.
Proof.
  refine {| pending := incoming; sent := outgoing |}.
  - intros n p Hn. simpl. split_and!; [by rewrite take_drop|rewrite length_take; lia|done|].
    intros Hne Ht. apply (f_equal length) in Ht. rewrite length_take in Ht.
    destruct (incoming p); [done|simpl in *; lia].
  - intros data len p k Hlen Ek. apply (inj Some (Nat.min 3 (Z.to_nat len)) k) in Ek. subst k.
    split_and!; [lia..|done|done].
  - done.
Defined.

Definition demo_message : Message :=
  mkMessage MessageKind.PROMOTE 7 (mkId 0 8) (mkId 0 20) (mkId 0 30) (mkId 0 10) (mkId 0 7) null
    "target=5".

Lemma demo_message_wf : wf_Message demo_message.
Proof. by repeat split. Qed.

Lemma decode_message_exact_witness :
  decode_message (encode_message demo_message) = Decoded demo_message ∧
  decode_message (take 50 (encode_message demo_message)) = OutOfBounds.
Proof.
  split.
  - apply (decode_message_exact (encode_message demo_message) demo_message); [|split; [exact demo_message_wf|done]].
    by vm_compute.
  - apply (decode_message_exact (take 50 (encode_message demo_message)) demo_message); [by vm_compute|].
    vm_compute; lia.
Defined.

Lemma payload_lookup_witness :
  get_payload (build_payload [("worker", "a"); ("ccmaj", "c")]%string) "ccmaj" "8" = "c"%string.
Proof.
  apply (payload_lookup [("worker", "a"); ("ccmaj", "c")]%string "ccmaj" "8").
  - repeat constructor; apply (bool_decide_unpack _); by vm_compute.
  - apply (bool_decide_unpack _). by vm_compute.
Defined.

Lemma transfer_loops_end_witness :
  (recv_exact 5 (Some (mkPipe [x01; x02; x03; x04; x05; x06] []))).1 = Some [x01; x02; x03; x04; x05] ∧
  (recv_exact 9 (Some (mkPipe [x01; x02] []))).1 = None.
Proof.
  split.
  - destruct (transfer_loops_end 5 [] (mkPipe [x01; x02; x03; x04; x05; x06] []) ltac:(done) ltac:(done))
      as (_ & _ & Hr & _).
    destruct (Hr [x01; x02; x03; x04; x05] [x06] eq_refl eq_refl) as (s' & -> & _). done.
  - apply (transfer_loops_end 9 [] (mkPipe [x01; x02] [])); [done|done|simpl; lia].
Defined.

(** The message crosses two pipes that move three bytes at a time. *)
Lemma message_end_to_end_witness :
  ∃ s' r', send_message demo_message (Some (mkPipe [] [])) = (true, Some s') ∧
    read_message (Some (mkPipe (outgoing s' ++ [x00]) [])) = (Some (Decoded demo_message), Some r') ∧
    incoming r' = [x00].
Proof.
  assert (E : send_message demo_message (Some (mkPipe [] [])) =
    (true, Some (mkPipe [] (frame (encode_message demo_message))))) by by vm_compute.
  eexists. destruct (message_end_to_end demo_message _ _
    (mkPipe (frame (encode_message demo_message) ++ [x00]) []) [x00] demo_message_wf E)
    as (wire & Hw & Hr & _). simpl in Hw. subst wire.
  destruct (Hr eq_refl) as (r' & Hr' & Hp). exists r'. split_and!; [exact E|exact Hr'|exact Hp].
Defined.

(** A two-byte frame read through a pipe that moves three bytes at a time. *)
Lemma frame_bounds_witness :
  ∃ s', read_frame (Some (mkPipe [x00; x00; x00; x02; x0a; x0b; xff] [])) = (Some [x0a; x0b], Some s') ∧
    incoming s' = [xff].
Proof.
  destruct (frame_bounds (mkPipe [x00; x00; x00; x02; x0a; x0b; xff] []) [x0a; x0b] [xff])
    as [[_ Hread] _].
  exact (Hread ltac:(by vm_compute)).
Defined.
