(* ===== verification/Sockets.v ===== *)
(** The life of connections (src/transport.cpp, distributed/transport.hpp: [tcp_init],
    [tcp_shutdown], and the methods of [TcpConnection] that open, accept, move, time out
    and close sockets).

    Connections are objects in a store, each holding a socket handle or none; the socket
    calls of the operating system are an interface, [Winsock], with the documented
    behaviour the code relies on, [WinsockLaws].  What travels over an open connection is
    modelled in Transport.v. *)

From stdpp Require Import pretty.
From S2P Require Import Prelude.

Abbreviation SOCKET := Z (only parsing).
Definition INVALID_SOCKET : SOCKET := 2 ^ 64 - 1.

Inductive SockOpt := SO_REUSEADDR | SO_RCVTIMEO | SO_SNDTIMEO.

(** The kind of socket asked for, and the IPv4 address and port one is bound to. *)
Record SockKind := mkSockKind { ai_family : Z; ai_socktype : Z; ai_protocol : Z }.
Record SockAddr := mkSockAddr { sin_addr : Z; sin_port : Z }.

(** [Sys] is the state of the operating system, [Addr] an address of the resolver. *)
Class Winsock (Sys Addr : Type) := {
  WSAStartup : Sys → Z * Sys;
  WSACleanup : Sys → Z * Sys;
  (** Host and service, resolved as IPv4 stream addresses: [None] for an error code. *)
  getaddrinfo : string → string → Sys → option (list (SockKind * Addr)) * Sys;
  freeaddrinfo : Sys → Sys;
  sys_socket : SockKind → Sys → SOCKET * Sys;
  sys_connect : SOCKET → Addr → Sys → Z * Sys;
  sys_bind : SOCKET → SockAddr → Sys → Z * Sys;
  sys_listen : SOCKET → Sys → Z * Sys;
  sys_accept : SOCKET → Sys → SOCKET * Sys;
  setsockopt : SOCKET → SockOpt → Z → Sys → Sys;
  closesocket : SOCKET → Sys → Z * Sys;
  (** [AF_INET, SOCK_STREAM, IPPROTO_TCP] and [INADDR_ANY]. *)
  tcp_kind : SockKind;
  INADDR_ANY : Z;
}.

(** What [socket] or [accept] returning [s] did to the open sockets. *)
Definition opened (s : SOCKET) (before after : gset Z) : Prop :=
  (s = INVALID_SOCKET ∧ after = before) ∨
  (s ≠ INVALID_SOCKET ∧ (s ∉ before) ∧ after = {[s]} ∪ before).

(** What a call leaves as it was. *)
Definition keeps {Sys} {A B C D : Type} (f1 : Sys → A) (f2 : Sys → B) (f3 : Sys → C) (f4 : Sys → D)
    (o o' : Sys) : Prop :=
  f1 o' = f1 o ∧ f2 o' = f2 o ∧ f3 o' = f3 o ∧ f4 o' = f4 o.

(** A call that returns a socket opened it, and it was not open before; [accept] needs a
    socket that is open.  [closesocket] may fail and leave its socket open: [lingering]
    are the sockets it failed on.  [WSACleanup] may fail too; the one that matches the
    last start-up closes every socket.  The other calls leave the open sockets alone.
    [resolved] counts the address lists handed out and not freed, [wsa_users] the
    start-ups without their clean-up. *)
Class WinsockLaws (Sys Addr : Type) `{Winsock Sys Addr} := {
  open_sockets : Sys → gset Z;
  lingering : Sys → gset Z;
  resolved : Sys → nat;
  wsa_users : Sys → nat;
  startup_law o : open_sockets (WSAStartup o).2 = open_sockets o ∧
    lingering (WSAStartup o).2 = lingering o ∧ resolved (WSAStartup o).2 = resolved o ∧
    wsa_users (WSAStartup o).2 = (if (WSAStartup o).1 =? 0 then S (wsa_users o) else wsa_users o);
  cleanup_law o : lingering (WSACleanup o).2 = lingering o ∧ resolved (WSACleanup o).2 = resolved o ∧
    (((WSACleanup o).1 = 0 ∧ wsa_users (WSACleanup o).2 = pred (wsa_users o) ∧
      open_sockets (WSACleanup o).2 = (if (pred (wsa_users o) =? 0)%nat then ∅ else open_sockets o)) ∨
     ((WSACleanup o).1 ≠ 0 ∧ wsa_users (WSACleanup o).2 = wsa_users o ∧
      open_sockets (WSACleanup o).2 = open_sockets o));
  getaddrinfo_law h p o : open_sockets (getaddrinfo h p o).2 = open_sockets o ∧
    lingering (getaddrinfo h p o).2 = lingering o ∧ wsa_users (getaddrinfo h p o).2 = wsa_users o ∧
    resolved (getaddrinfo h p o).2 =
      match (getaddrinfo h p o).1 with Some _ => S (resolved o) | None => resolved o end;
  freeaddrinfo_law o : open_sockets (freeaddrinfo o) = open_sockets o ∧
    lingering (freeaddrinfo o) = lingering o ∧ wsa_users (freeaddrinfo o) = wsa_users o ∧
    resolved (freeaddrinfo o) = pred (resolved o);
  socket_law k o : lingering (sys_socket k o).2 = lingering o ∧ resolved (sys_socket k o).2 = resolved o ∧
    wsa_users (sys_socket k o).2 = wsa_users o ∧
    opened (sys_socket k o).1 (open_sockets o) (open_sockets (sys_socket k o).2);
  accept_law s o : lingering (sys_accept s o).2 = lingering o ∧ resolved (sys_accept s o).2 = resolved o ∧
    wsa_users (sys_accept s o).2 = wsa_users o ∧
    opened (sys_accept s o).1 (open_sockets o) (open_sockets (sys_accept s o).2) ∧
    (s ∉ open_sockets o → (sys_accept s o).1 = INVALID_SOCKET);
  connect_law s a o : keeps open_sockets lingering resolved wsa_users o (sys_connect s a o).2;
  bind_law s a o : keeps open_sockets lingering resolved wsa_users o (sys_bind s a o).2;
  listen_law s o : keeps open_sockets lingering resolved wsa_users o (sys_listen s o).2;
  setsockopt_law s k v o : keeps open_sockets lingering resolved wsa_users o (setsockopt s k v o);
  closesocket_law s o : resolved (closesocket s o).2 = resolved o ∧
    wsa_users (closesocket s o).2 = wsa_users o ∧
    (((closesocket s o).1 = 0 ∧ open_sockets (closesocket s o).2 = open_sockets o ∖ {[s]} ∧
      lingering (closesocket s o).2 = lingering o) ∨
     ((closesocket s o).1 ≠ 0 ∧ open_sockets (closesocket s o).2 = open_sockets o ∧
      lingering (closesocket s o).2 = {[s]} ∪ lingering o));
}.

(** Connection objects by address, the module's flag and the operating system. *)
Abbreviation ConnRef := nat (only parsing).
Record Sockets (Sys : Type) := mkSockets {
  g_ws_init : bool;
  conns : gmap nat SOCKET;
  sys : Sys;
}.
Arguments mkSockets {Sys} _ _ _.
Arguments g_ws_init {Sys} _.
Arguments conns {Sys} _.
Arguments sys {Sys} _.

Section sockets.
Context `{Winsock Sys Addr}.
Implicit Types w : Sockets Sys.

Definition on_sys (o : Sys) w : Sockets Sys := mkSockets (g_ws_init w) (conns w) o.

(** [sock_] of an object, and writing it. *)
Definition sock_of (c : ConnRef) w : SOCKET := default INVALID_SOCKET (conns w !! c).
Definition set_sock (c : ConnRef) (s : SOCKET) w : Sockets Sys :=
  mkSockets (g_ws_init w) (<[c := s]> (conns w)) (sys w).
Definition valid (c : ConnRef) w : bool := negb (sock_of c w =? INVALID_SOCKET).

Definition tcp_init w : bool * Sockets Sys :=
  if g_ws_init w then (true, w)
  else
    let '(e, o) := WSAStartup (sys w) in
    if negb (e =? 0) then (false, on_sys o w) else (true, mkSockets true (conns w) o).

Definition tcp_shutdown w : Sockets Sys :=
  if g_ws_init w then mkSockets false (conns w) (WSACleanup (sys w)).2 else w.

Definition close (c : ConnRef) w : Sockets Sys :=
  if valid c w then set_sock c INVALID_SOCKET (on_sys (closesocket (sock_of c w) (sys w)).2 w) else w.

(** The default constructor, the move constructor, move assignment and the destructor. *)
Definition construct (c : ConnRef) w : Sockets Sys := set_sock c INVALID_SOCKET w.
Definition move_construct (c other : ConnRef) w : Sockets Sys :=
  set_sock other INVALID_SOCKET (set_sock c (sock_of other w) w).
Definition move_assign (c other : ConnRef) w : Sockets Sys :=
  if negb (c =? other)%nat
  then
    let w := close c w in
    set_sock other INVALID_SOCKET (set_sock c (sock_of other w) w)
  else w.
Definition destroy (c : ConnRef) w : Sockets Sys :=
  let w := close c w in mkSockets (g_ws_init w) (delete c (conns w)) (sys w).

Definition set_timeout_ms (c : ConnRef) (ms : Z) w : Sockets Sys :=
  if negb (valid c w) then w
  else
    let t := u32 ms in
    let s := sock_of c w in
    on_sys (setsockopt s SO_SNDTIMEO t (setsockopt s SO_RCVTIMEO t (sys w))) w.

(** The loop of [connect_to] over the resolver's addresses: the first that connects. *)
Fixpoint connect_first (l : list (SockKind * Addr)) (o : Sys) : option SOCKET * Sys :=
  match l with
  | [] => (None, o)
  | (k, a) :: l' =>
      let '(s, o) := sys_socket k o in
      if s =? INVALID_SOCKET then connect_first l' o
      else
        let '(e, o) := sys_connect s a o in
        if e =? 0 then (Some s, o) else connect_first l' (closesocket s o).2
  end.

Definition connect_to (c : ConnRef) (host : string) (port : Z) w : bool * Sockets Sys :=
  let '(ready, w) := tcp_init w in
  if negb ready then (false, w)
  else
    match getaddrinfo host (pretty port) (sys w) with
    | (None, o) => (false, on_sys o w)
    | (Some result, o) =>
        match connect_first result o with
        | (Some s, o) => (true, on_sys (freeaddrinfo o) (set_sock c s w))
        | (None, o) => (false, on_sys (freeaddrinfo o) w)
        end
    end.

(** [htons] on the little-endian hosts Winsock runs on. *)
Definition htons (port : Z) : Z :=
  Z.lor (Z.shiftl (Z.land port 0xFF) 8) (Z.land (Z.shiftr port 8) 0xFF).

Definition listen_on (c : ConnRef) (port : Z) w : bool * Sockets Sys :=
  let '(ready, w) := tcp_init w in
  if negb ready then (false, w)
  else
    let '(s, o) := sys_socket tcp_kind (sys w) in
    if s =? INVALID_SOCKET then (false, on_sys o w)
    else
      let o := setsockopt s SO_REUSEADDR 1 o in
      let '(e, o) := sys_bind s (mkSockAddr INADDR_ANY (htons port)) o in
      if negb (e =? 0) then (false, on_sys (closesocket s o).2 w)
      else
        let '(e, o) := sys_listen s o in
        if negb (e =? 0) then (false, on_sys (closesocket s o).2 w)
        else (true, set_sock c s (on_sys o w)).

Definition accept_one (c out : ConnRef) w : bool * Sockets Sys :=
  if negb (valid c w) then (false, w)
  else
    let '(s, o) := sys_accept (sock_of c w) (sys w) in
    let w := on_sys o w in
    if s =? INVALID_SOCKET then (false, w) else (true, set_sock out s (close out w)).

(** ** Sequences of uses *)

Inductive ConnOp :=
  | Construct (c : ConnRef)
  | MoveConstruct (c other : ConnRef)
  | MoveAssign (c other : ConnRef)
  | Destroy (c : ConnRef)
  | Close (c : ConnRef)
  | SetTimeout (c : ConnRef) (ms : Z)
  | ConnectTo (c : ConnRef) (host : string) (port : Z)
  | ListenOn (c : ConnRef) (port : Z)
  | AcceptOne (c out : ConnRef)
  | TcpInit
  | TcpShutdown.

Definition conn_op (op : ConnOp) w : Sockets Sys :=
  match op with
  | Construct c => construct c w
  | MoveConstruct c other => move_construct c other w
  | MoveAssign c other => move_assign c other w
  | Destroy c => destroy c w
  | Close c => close c w
  | SetTimeout c ms => set_timeout_ms c ms w
  | ConnectTo c host port => (connect_to c host port w).2
  | ListenOn c port => (listen_on c port w).2
  | AcceptOne c out => (accept_one c out w).2
  | TcpInit => (tcp_init w).2
  | TcpShutdown => tcp_shutdown w
  end.

(** No object holds a handle of a start of the library that has ended. *)
Definition no_stale w : Prop := g_ws_init w = true ∨ ∀ c, valid c w = false.

(** C++ object lifetimes: constructors make a new object, everything else uses live ones.
    The library may be shut down at any time, also while objects hold sockets, and they
    may be used and destroyed afterwards; it is not started again while they still hold
    the old handles. *)
Definition live_use (op : ConnOp) w : Prop :=
  match op with
  | Construct c => conns w !! c = None
  | MoveConstruct c other => conns w !! c = None ∧ is_Some (conns w !! other)
  | MoveAssign c other => is_Some (conns w !! c) ∧ is_Some (conns w !! other)
  | AcceptOne c out => is_Some (conns w !! c) ∧ is_Some (conns w !! out)
  | Destroy c | Close c | SetTimeout c _ => is_Some (conns w !! c)
  | ConnectTo c _ _ | ListenOn c _ => is_Some (conns w !! c) ∧ no_stale w
  | TcpInit => no_stale w
  | TcpShutdown => True
  end.

(** The object of a new socket holds none yet. *)
Definition opens_closed (op : ConnOp) w : Prop :=
  match op with
  | ConnectTo c _ _ | ListenOn c _ => valid c w = false
  | _ => True
  end.
End sockets.
