(* ===== verification/SocketsProps.v ===== *)
(** What connection objects guarantee.

    Whatever is done with them and whichever socket calls fail, an open socket belongs to
    at most one object and a held socket is open, so none is closed twice or used after
    its close, until the library is shut down; and as long as [connect_to] and
    [listen_on] are called on objects that hold no socket, every open socket has an
    owner or is one that [closesocket] failed on. *)

From S2P Require Import Prelude Sockets.

Section laws.
Context `{WinsockLaws Sys Addr}.
Implicit Types w : Sockets Sys.
Implicit Types o : Sys.

Definition owned w (c : ConnRef) (s : SOCKET) : Prop :=
  conns w !! c = Some s ∧ s ≠ INVALID_SOCKET.

Definition held_open w : Prop := ∀ c s, owned w c s → s ∈ open_sockets (sys w).

(** While the library runs the held sockets are open; once it has been shut down, no
    socket is. *)
Record conn_inv w : Prop := {
  ow_open : held_open w ∨ (g_ws_init w = false ∧ open_sockets (sys w) = ∅);
  ow_unique c c' s : owned w c s → owned w c' s → c = c';
  ow_resolved : resolved (sys w) = 0%nat;
  ow_users : g_ws_init w = true → (0 < wsa_users (sys w))%nat;
}.

Lemma inv_held_open w : conn_inv w → g_ws_init w = true → held_open w.
Proof. intros [[?|[? _]] _ _ _]; [done|congruence]. Qed.

(** Every open socket has an owner, or could not be closed. *)
Definition tight w : Prop :=
  ∀ s, s ∈ open_sockets (sys w) → (∃ c, owned w c s) ∨ s ∈ lingering (sys w).

Lemma valid_owned c w : valid c w = true ↔ ∃ s, owned w c s.
Proof.
  unfold valid, sock_of, owned. rewrite negb_true_iff, Z.eqb_neq. split.
  - destruct (conns w !! c) as [s|]; [|done]. intros Hs. by exists s.
  - by intros (s & -> & Hs).
Qed.

Lemma valid_sock c w : valid c w = true → owned w c (sock_of c w).
Proof. rewrite valid_owned. intros (s & Hc & Hs). unfold owned, sock_of. by rewrite Hc. Qed.

Lemma invalid_not_owned c w s : valid c w = false → ¬ owned w c s.
Proof.
  intros Hv Ho. assert (valid c w = true); [|congruence]. apply valid_owned. eauto.
Qed.

Lemma owned_set_sock c s c' s' w :
  owned (set_sock c s w) c' s' ↔
  (c' = c ∧ s' = s ∧ s' ≠ INVALID_SOCKET) ∨ (c' ≠ c ∧ owned w c' s').
Proof.
  unfold owned, set_sock. cbn. rewrite lookup_insert_Some. naive_solver.
Qed.

(** Between [o] and [o'] no socket was closed, and only such as could not be closed were
    opened. *)
Record quiet o o' : Prop := {
  qu_open : open_sockets o ⊆ open_sockets o';
  qu_new : open_sockets o' ⊆ open_sockets o ∪ lingering o';
  qu_lingering : lingering o ⊆ lingering o';
  qu_resolved : resolved o' = resolved o;
  qu_users : wsa_users o' = wsa_users o;
}.

Lemma quiet_keeps o o' : keeps open_sockets lingering resolved wsa_users o o' → quiet o o'.
Proof. intros (E1 & E2 & E3 & E4). split; rewrite ?E1, ?E2; try done; set_solver. Qed.

Lemma quiet_trans o1 o2 o3 : quiet o1 o2 → quiet o2 o3 → quiet o1 o3.
Proof. intros [] []. split; [set_solver|set_solver|set_solver|congruence|congruence]. Qed.

(** A socket that is opened and closed again. *)
Lemma quiet_open_close s o o1 o2 :
  opened s (open_sockets o) (open_sockets o1) → s ≠ INVALID_SOCKET →
  lingering o1 = lingering o → resolved o1 = resolved o → wsa_users o1 = wsa_users o →
  keeps open_sockets lingering resolved wsa_users o1 o2 → quiet o (closesocket s o2).2.
Proof.
  intros [[? _]|(_ & Hnew & Eo)] Hs El Er Eu (K1 & K2 & K3 & K4); [done|].
  destruct (closesocket_law s o2) as (Cr & Cu & [(_ & Co & Cl)|(_ & Co & Cl)]).
  - split; rewrite ?Co, ?Cl, ?K1, ?K2, ?Eo, ?El; [set_solver|set_solver|done|congruence|congruence].
  - split; rewrite ?Co, ?Cl, ?K1, ?K2, ?Eo, ?El; [set_solver|set_solver|set_solver|congruence|congruence].
Qed.

Lemma on_sys_inv o w :
  quiet (sys w) o → g_ws_init w = true ∨ open_sockets o = open_sockets (sys w) →
  conn_inv w → conn_inv (on_sys o w) ∧ (tight w → tight (on_sys o w)).
Proof.
  intros [Q1 Q2 Q3 Q4 Q5] Hg Hi. pose proof Hi as [O1 O2 O3 O4]. split; [split; cbn|].
  - destruct O1 as [Hh|[Hd He]]; [left; intros c s Ho; by apply Q1, (Hh c s)|].
    destruct Hg as [?|Eo]; [congruence|]. right. by rewrite Eo.
  - exact O2.
  - congruence.
  - by rewrite Q5.
  - intros Ht s Hs. cbn in Hs |- *. apply Q2, elem_of_union in Hs as [Hs|Hs]; [|by right].
    destruct (Ht s Hs) as [Ho|Hl]; [by left|right; by apply Q3].
Qed.

Lemma on_sys_keeps o w :
  keeps open_sockets lingering resolved wsa_users (sys w) o → conn_inv w →
  conn_inv (on_sys o w) ∧ (tight w → tight (on_sys o w)).
Proof. intros Hk. apply on_sys_inv; [by apply quiet_keeps|]. right. apply Hk. Qed.

(** A new socket given to an object. *)
Lemma adopt_inv c s o w :
  opened s (open_sockets (sys w)) (open_sockets o) → s ≠ INVALID_SOCKET →
  lingering o = lingering (sys w) → resolved o = resolved (sys w) → wsa_users o = wsa_users (sys w) →
  held_open w → conn_inv w →
  conn_inv (set_sock c s (on_sys o w)) ∧
  (valid c w = false → tight w → tight (set_sock c s (on_sys o w))).
Proof.
  intros [[? _]|(_ & Hnew & Eo)] Hs El Er Eu Hh [_ O2 O3 O4]; [done|].
  assert (Hno : ∀ c', ¬ owned w c' s) by (intros c' Ho; by apply Hh in Ho).
  split; [split; cbn; rewrite ?Er, ?Eu; auto|].
  - left. intros c' s'. cbn. rewrite owned_set_sock, Eo. intros [(_ & -> & _)|[_ Ho]]; [set_solver|].
    apply elem_of_union_r. by apply (Hh c').
  - intros c1 c2 s'. rewrite !owned_set_sock.
    intros [(-> & -> & _)|[_ Ho]] [(-> & E & _)|[_ Ho']]; try done; subst.
    + by destruct (Hno c2).
    + by destruct (Hno c1).
    + eauto.
  - intros Hv Ht s' Hs'. cbn in Hs' |- *. rewrite Eo in Hs'. rewrite El.
    apply elem_of_union in Hs' as [->%elem_of_singleton|Hs'].
    + left. exists c. apply owned_set_sock. by left.
    + destruct (Ht s' Hs') as [[c' Ho]|Hl]; [|by right]. left. exists c'. apply owned_set_sock. right.
      split; [|done]. intros ->. by apply (invalid_not_owned _ _ _ Hv) in Ho.
Qed.

Lemma close_inv c w :
  conn_inv w → conn_inv (close c w) ∧ (tight w → tight (close c w)) ∧
  valid c (close c w) = false ∧ (∀ c' s, owned (close c w) c' s ↔ c' ≠ c ∧ owned w c' s).
Proof.
  intros [O1 O2 O3 O4]. unfold close. destruct (valid c w) eqn:Hv.
  2: { split_and!; [by split|done|done|]. intros c' s. split; [|naive_solver].
       intros Ho. split; [|done]. intros ->. by apply (invalid_not_owned _ _ _ Hv) in Ho. }
  apply valid_sock in Hv. set (s := sock_of c w) in *. set (o := (closesocket s (sys w)).2).
  destruct (closesocket_law s (sys w)) as (Er & Eu & Hcl). fold o in Er, Eu, Hcl.
  assert (Hown : ∀ c' s', owned (set_sock c INVALID_SOCKET (on_sys o w)) c' s' ↔ c' ≠ c ∧ owned w c' s').
  { intros c' s'. rewrite owned_set_sock. unfold owned. cbn. naive_solver. }
  assert (Hopen : ∀ s', s' ∈ open_sockets (sys w) → s' ≠ s → s' ∈ open_sockets o) by set_solver.
  assert (Hsub : open_sockets o ⊆ open_sockets (sys w)) by set_solver.
  split_and!; [split; cbn; rewrite ?Er, ?Eu; auto| | |done].
  - destruct O1 as [Hh|[Hd He]]; [left|right; split; [done|set_solver]].
    intros c' s' [Hne Ho]%Hown. apply Hopen; [by apply (Hh c')|]. intros ->. destruct Hne. eauto.
  - intros c1 c2 s' [_ H1]%Hown [_ H2]%Hown. eauto.
  - intros Ht s' Hs'. cbn in Hs' |- *. destruct (decide (s' = s)) as [->|Hne].
    + right. destruct Hcl as [(_ & Eo & _)|(_ & _ & ->)]; [|set_solver]. rewrite Eo in Hs'. set_solver.
    + destruct (Ht s' (Hsub _ Hs')) as [[c' Ho]|Hl]; [left|right; set_solver].
      exists c'. apply Hown. split; [|done]. intros ->. unfold owned in *. naive_solver.
  - unfold valid, sock_of. cbn. by rewrite lookup_insert_eq.
Qed.

(** Moving hands the socket over: the source holds none afterwards. *)
Lemma move_inv c other w :
  c ≠ other → valid c w = false → conn_inv w →
  let w' := set_sock other INVALID_SOCKET (set_sock c (sock_of other w) w) in
  conn_inv w' ∧ (tight w → tight w').
Proof.
  intros Hne Hv [O1 O2 O3 O4] w'.
  assert (Hown : ∀ c' s, owned w' c' s ↔
    (c' = c ∧ owned w other s) ∨ (c' ≠ c ∧ c' ≠ other ∧ owned w c' s)).
  { intros c' s. unfold w'. rewrite !owned_set_sock. unfold owned, sock_of.
    destruct (conns w !! other) as [so|] eqn:E; cbn; naive_solver. }
  split; [split; auto|].
  - destruct O1 as [Hh|?]; [left|by right]. intros c' s [[_ Ho]|(_ & _ & Ho)]%Hown; by eapply Hh.
  - intros c1 c2 s [[-> H1]|(N1 & M1 & H1)]%Hown [[-> H2]|(N2 & M2 & H2)]%Hown; [done|..].
    + by destruct M2; apply (O2 _ _ s).
    + by destruct M1; apply (O2 _ _ s).
    + eauto.
  - intros Ht s Hs. destruct (Ht s Hs) as [[c' Ho]|Hl]; [left|by right].
    destruct (decide (c' = other)) as [->|Ho'].
    + exists c. apply Hown. by left.
    + exists c'. apply Hown. right. split_and!; [|done..].
      intros ->. by apply (invalid_not_owned _ _ _ Hv) in Ho.
Qed.

(** An object that holds nothing may come and go. *)
Lemma forget_inv w conns' :
  (∀ c' s, owned (mkSockets (g_ws_init w) conns' (sys w)) c' s ↔ owned w c' s) → conn_inv w →
  conn_inv (mkSockets (g_ws_init w) conns' (sys w)) ∧
  (tight w → tight (mkSockets (g_ws_init w) conns' (sys w))).
Proof.
  intros Hown [O1 O2 O3 O4]. split; [split; auto|].
  - destruct O1 as [Hh|?]; [left|by right]. intros c' s Ho%Hown. by eapply Hh.
  - intros c1 c2 s H1%Hown H2%Hown. eauto.
  - intros Ht s Hs. destruct (Ht s Hs) as [[c' Ho]|Hl]; [left|by right]. exists c'. by apply Hown.
Qed.

Lemma init_inv w :
  conn_inv w → no_stale w → conn_inv (tcp_init w).2 ∧ (tight w → tight (tcp_init w).2) ∧
  conns (tcp_init w).2 = conns w ∧ ((tcp_init w).1 = true → g_ws_init (tcp_init w).2 = true).
Proof.
  intros Hi Hns. pose proof Hi as [O1 O2 O3 O4]. unfold tcp_init. destruct (g_ws_init w) eqn:Hg; [done|].
  destruct (startup_law (sys w)) as (Eo & El & Er & Eu).
  destruct (WSAStartup (sys w)) as [e o]. cbn [fst snd] in *.
  destruct (e =? 0); cbn [negb fst snd].
  - split_and!; [split; cbn; rewrite ?Er, ?Eu; [|done|done|lia]| |done|done].
  2: { intros Ht s Hs. cbn in Hs |- *. rewrite Eo in Hs. rewrite El. by apply Ht. }
    left. intros c s Ho. destruct Hns as [?|Hno]; [congruence|]. by apply (invalid_not_owned c w s (Hno c)) in Ho.
  - destruct (on_sys_keeps o w) as [? ?]; [by split_and!|done|]. by split_and!.
Qed.

(** The sockets [connect_first] does not return, it closes. *)
Lemma connect_first_law (l : list (SockKind * Addr)) o :
  let '(r, o') := connect_first l o in
  match r with
  | Some s => s ≠ INVALID_SOCKET ∧ ∃ o1, quiet o o1 ∧ opened s (open_sockets o1) (open_sockets o') ∧
      lingering o' = lingering o1 ∧ resolved o' = resolved o1 ∧ wsa_users o' = wsa_users o1
  | None => quiet o o'
  end.
Proof.
  revert o. induction l as [|[k a] l IH]; intros o; cbn [connect_first]; [by apply quiet_keeps|].
  destruct (socket_law k o) as (Sl & Sr & Su & Hop).
  destruct (sys_socket k o) as [s o1]. cbn [fst snd] in *.
  assert (Hnext : ∀ o2, quiet o o2 → let '(r, o') := connect_first l o2 in
    match r with
    | Some s => s ≠ INVALID_SOCKET ∧ ∃ o1, quiet o o1 ∧ opened s (open_sockets o1) (open_sockets o') ∧
        lingering o' = lingering o1 ∧ resolved o' = resolved o1 ∧ wsa_users o' = wsa_users o1
    | None => quiet o o'
    end).
  { intros o2 Hq. specialize (IH o2). destruct (connect_first l o2) as [[s'|] o']; [|by eapply quiet_trans].
    destruct IH as (Hs & o3 & Hq3 & Hrest). split; [done|]. exists o3. split; [by eapply quiet_trans|done]. }
  destruct (Z.eqb_spec s INVALID_SOCKET) as [->|Hs].
  { apply Hnext, quiet_keeps. destruct Hop as [[_ Eo]|[? _]]; [|done]. by split_and!. }
  pose proof (connect_law s a o1) as Hk. destruct (sys_connect s a o1) as [e o2]. cbn [snd] in Hk.
  destruct (e =? 0).
  - split; [done|]. exists o. destruct Hk as (K1 & K2 & K3 & K4).
    split_and!; [by apply quiet_keeps|by rewrite K1|congruence..].
  - apply Hnext. by eapply quiet_open_close.
Qed.

Lemma connect_inv c host port w :
  conn_inv w → no_stale w → conn_inv (connect_to c host port w).2 ∧
  (valid c w = false → tight w → tight (connect_to c host port w).2).
Proof.
  intros Hi Hns. unfold connect_to. destruct (init_inv w Hi Hns) as (Hi1 & Ht1 & Ec & Hg).
  assert (Ev : valid c (tcp_init w).2 = valid c w) by (unfold valid, sock_of; by rewrite Ec).
  destruct (tcp_init w) as [ready w1]. cbn [fst snd] in *. rewrite <-Ev. clear Ev Ec.
  destruct ready; cbn [negb snd]; [|by auto]. specialize (Hg eq_refl).
  destruct (getaddrinfo_law host (pretty.pretty port) (sys w1)) as (Go & Gl & Gu & Gr).
  destruct (getaddrinfo _ _ (sys w1)) as [[l|] o1]; cbn [fst snd] in *.
  2: { destruct (on_sys_keeps o1 w1) as [? ?]; [by split_and!|done|]. auto. }
  pose proof (connect_first_law l o1) as Hl. destruct (connect_first l o1) as [[s|] o2]; cbn [snd].
  - destruct Hl as (Hs & o3 & [Q1 Q2 Q3 Q4 Q5] & Hop & Hl3 & Hr3 & Hu3).
    destruct (freeaddrinfo_law o3) as (Fo & Fl & Fu & Fr).
    destruct (freeaddrinfo_law o2) as (Fo2 & Fl2 & Fu2 & Fr2). rewrite (ow_resolved _ Hi1) in Gr.
    destruct (on_sys_inv (freeaddrinfo o3) w1) as [Hi3 Ht3]; [|by left|done|].
    { split; rewrite ?Fo, ?Fl, ?Fr, ?Fu, ?(ow_resolved _ Hi1); try congruence.
      - by rewrite <-Go.
      - by rewrite <-Go.
      - by rewrite <-Gl.
      - by rewrite Q4, Gr. }
    destruct (adopt_inv c s (freeaddrinfo o2) (on_sys (freeaddrinfo o3) w1)) as [Ha Hat];
      [cbn; by rewrite Fo, Fo2|done|cbn; congruence|cbn; by rewrite Fr, Fr2, Hr3|cbn; congruence|
       by apply inv_held_open|done|].
    split; [exact Ha|]. intros Hv Ht. exact (Hat Hv (Ht3 (Ht1 Ht))).
  - destruct (freeaddrinfo_law o2) as (Fo & Fl & Fu & Fr). destruct Hl as [Q1 Q2 Q3 Q4 Q5].
    rewrite (ow_resolved _ Hi1) in Gr.
    destruct (on_sys_inv (freeaddrinfo o2) w1) as [Hi3 Ht3]; [|by left|done|by auto].
    split; rewrite ?Fo, ?Fl, ?Fr, ?Fu, ?(ow_resolved _ Hi1); try congruence.
    + by rewrite <-Go.
    + by rewrite <-Go.
    + by rewrite <-Gl.
    + by rewrite Q4, Gr.
Qed.

Lemma listen_inv c port w :
  conn_inv w → no_stale w → conn_inv (listen_on c port w).2 ∧
  (valid c w = false → tight w → tight (listen_on c port w).2).
Proof.
  intros Hi Hns. unfold listen_on. destruct (init_inv w Hi Hns) as (Hi1 & Ht1 & Ec & Hg).
  assert (Ev : valid c (tcp_init w).2 = valid c w) by (unfold valid, sock_of; by rewrite Ec).
  destruct (tcp_init w) as [ready w1]. cbn [fst snd] in *. rewrite <-Ev. clear Ev Ec.
  destruct ready; cbn [negb snd]; [|by auto]. specialize (Hg eq_refl).
  destruct (socket_law tcp_kind (sys w1)) as (El1 & Er1 & Eu1 & Hop).
  destruct (sys_socket tcp_kind (sys w1)) as [s o1]. cbn [fst snd] in *.
  destruct (Z.eqb_spec s INVALID_SOCKET) as [->|Hs].
  { destruct Hop as [[_ Eo]|[? _]]; [|done]. destruct (on_sys_keeps o1 w1) as [? ?]; [by split_and!|done|]. auto. }
  destruct (setsockopt_law s SO_REUSEADDR 1 o1) as (A1 & A2 & A3 & A4).
  set (o2 := setsockopt _ _ _ _) in *.
  destruct (bind_law s (mkSockAddr INADDR_ANY (htons port)) o2) as (B1 & B2 & B3 & B4).
  destruct (sys_bind s _ o2) as [e o3]. cbn [fst snd] in *.
  assert (Hclose : ∀ o, keeps open_sockets lingering resolved wsa_users o1 o →
    conn_inv (on_sys (closesocket s o).2 w1) ∧ (tight w1 → tight (on_sys (closesocket s o).2 w1))).
  { intros o Hk. apply on_sys_inv; [by eapply quiet_open_close|by left|done]. }
  destruct (e =? 0); cbn [negb snd].
  2: { destruct (Hclose o3); [split_and!; congruence|]. auto. }
  destruct (listen_law s o3) as (C1 & C2 & C3 & C4).
  destruct (sys_listen s o3) as [e' o4]. cbn [fst snd] in *. destruct (e' =? 0); cbn [negb snd].
  2: { destruct (Hclose o4); [split_and!; congruence|]. auto. }
  destruct (adopt_inv c s o4 w1) as [Ha Hat];
    [by rewrite C1, B1, A1|done|congruence..|by apply inv_held_open|done|]. auto.
Qed.

(** What closing does to the open sockets. *)
Lemma close_sockets c w s :
  (s ∈ open_sockets (sys w) → ¬ owned w c s → s ∈ open_sockets (sys (close c w))) ∧
  (s ∈ open_sockets (sys (close c w)) → s ∈ open_sockets (sys w)) ∧
  (s ∈ open_sockets (sys (close c w)) → owned w c s → s ∈ lingering (sys (close c w))) ∧
  (s ∈ lingering (sys w) → s ∈ lingering (sys (close c w))).
Proof.
  unfold close. destruct (valid c w) eqn:Hv.
  2: { split_and!; [done..| |done]. intros _ Ho. by apply (invalid_not_owned _ _ _ Hv) in Ho. }
  pose proof (valid_sock c w Hv) as Hown. cbn.
  destruct (closesocket_law (sock_of c w) (sys w)) as (_ & _ & [(_ & -> & ->)|(_ & -> & ->)]).
  - split_and!; [|set_solver| |done].
    + intros Hs Hn. apply elem_of_difference. split; [done|]. intros ->%elem_of_singleton. done.
    + intros [_ Hs]%elem_of_difference [E _]. destruct Hs. unfold sock_of. rewrite E. set_solver.
  - split_and!; [done..| |set_solver]. intros _ [E _]. unfold sock_of. rewrite E. set_solver.
Qed.

(** The socket an object held is closed after its successor has been accepted. *)
Lemma accept_over out s o w :
  s ≠ INVALID_SOCKET → (s ∉ open_sockets (sys w)) → open_sockets o = {[s]} ∪ open_sockets (sys w) →
  lingering o = lingering (sys w) → resolved o = resolved (sys w) → wsa_users o = wsa_users (sys w) →
  held_open w → conn_inv w →
  let w' := set_sock out s (close out (on_sys o w)) in conn_inv w' ∧ (tight w → tight w').
Proof.
  intros Hs Hnew Eo El Er Eu Hh [O1 O2 O3 O4] w'.
  assert (Hh1 : held_open (on_sys o w)) by (intros c' s' Ho%Hh; cbn; rewrite Eo; by apply elem_of_union_r).
  assert (Hi1 : conn_inv (on_sys o w)).
  { split; [by left|exact O2|cbn; congruence|]. cbn. by rewrite Eu. }
  destruct (close_inv out (on_sys o w) Hi1) as ([C1 _ C3 C4] & _ & _ & Hown).
  pose proof (close_sockets out (on_sys o w)) as Hcl.
  assert (Hno : ∀ c', ¬ owned w c' s) by (intros c' Ho; by apply Hh in Ho).
  assert (Hin : s ∈ open_sockets (sys (close out (on_sys o w)))).
  { apply (Hcl s); [cbn; rewrite Eo; set_solver|]. apply Hno. }
  assert (Hw' : ∀ c' s', owned w' c' s' ↔ (c' = out ∧ s' = s) ∨ (c' ≠ out ∧ owned w c' s')).
  { intros c' s'. unfold w'. rewrite owned_set_sock, Hown. split; [naive_solver|].
    intros [[-> ->]|?]; [by left|right; naive_solver]. }
  split; [split; [left| |exact C3|exact C4]|].
  - intros c' s' [[_ ->]|[Hne Ho]]%Hw'; [exact Hin|]. apply (Hcl s'); [by apply (Hh1 c')|].
    intros Ho'. destruct Hne. by apply (O2 _ _ s').
  - intros c1 c2 s' [[-> ->]|[N1 H1]]%Hw' [[-> E]|[N2 H2]]%Hw'; [done|by destruct (Hno c2)| |eauto].
    subst s'. by destruct (Hno c1).
  - intros Ht s' Hs'. change (sys w') with (sys (close out (on_sys o w))) in *.
    destruct (Hcl s') as (_ & Hopen & Hling & Hmono). pose proof (Hopen Hs') as Hs0. cbn in Hs0, Hmono.
    rewrite Eo in Hs0. rewrite El in Hmono. apply elem_of_union in Hs0 as [->%elem_of_singleton|Hs0].
    { left. exists out. apply Hw'. by left. }
    destruct (Ht s' Hs0) as [[c' Ho]|Hl]; [|right; auto]. destruct (decide (c' = out)) as [->|Hne].
    + right. by apply Hling.
    + left. exists c'. apply Hw'. by right.
Qed.

Lemma accept_inv c out w :
  conn_inv w → conn_inv (accept_one c out w).2 ∧ (tight w → tight (accept_one c out w).2).
Proof.
  intros Hi. unfold accept_one. destruct (valid c w); cbn [negb snd]; [|by auto].
  destruct (accept_law (sock_of c w) (sys w)) as (El & Er & Eu & Hop & Hstale).
  destruct (sys_accept (sock_of c w) (sys w)) as [s o]. cbn [fst snd] in *.
  destruct (Z.eqb_spec s INVALID_SOCKET) as [->|Hs]; cbn [snd].
  { destruct Hop as [[_ Eo]|[? _]]; [|done]. by apply on_sys_keeps. }
  assert (Hin : sock_of c w ∈ open_sockets (sys w)).
  { destruct (decide (sock_of c w ∈ open_sockets (sys w))) as [|Hn]; [done|]. by destruct (Hs (Hstale Hn)). }
  assert (Hh : held_open w).
  { destruct (ow_open w Hi) as [?|[_ He]]; [done|]. rewrite He in Hin. set_solver. }
  destruct Hop as [[? _]|(_ & Hnew & Eo)]; [done|]. by apply accept_over.
Qed.

(** ** Every use *)

Lemma absent_invalid c w : conns w !! c = None → valid c w = false.
Proof. intros E. unfold valid, sock_of. by rewrite E. Qed.

(** Shutting down while objects hold sockets closes them all under them. *)
Lemma shutdown_inv w : conn_inv w → conn_inv (tcp_shutdown w) ∧ (tight w → tight (tcp_shutdown w)).
Proof.
  intros Hi. unfold tcp_shutdown. destruct (g_ws_init w) eqn:Hg; [|auto].
  pose proof (inv_held_open w Hi Hg) as Hh. destruct Hi as [_ O2 O3 _].
  destruct (cleanup_law (sys w)) as (El & Er & Hcl).
  assert (Ho : open_sockets (WSACleanup (sys w)).2 = ∅ ∨
    open_sockets (WSACleanup (sys w)).2 = open_sockets (sys w)).
  { destruct Hcl as [(_ & _ & ->)|(_ & _ & ->)]; [|by right]. case_match; auto. }
  split; [split; cbn|].
  - destruct Ho as [->| Eo]; [by right|left]. intros c s. cbn. rewrite Eo. apply Hh.
  - exact O2.
  - congruence.
  - done.
  - intros Ht s Hs. cbn in Hs |- *. rewrite El. destruct Ho as [Eo|Eo]; rewrite Eo in Hs; [set_solver|].
    by apply Ht.
Qed.

Lemma conn_op_inv op w :
  conn_inv w → live_use op w →
  conn_inv (conn_op op w) ∧ (tight w → opens_closed op w → tight (conn_op op w)).
Proof.
  intros Hi Hl. destruct op as [c|c oth|c oth|c|c|c ms|c h p|c p|c out| |]; cbn [conn_op live_use opens_closed] in *.
  - apply absent_invalid in Hl. unfold construct, set_sock.
    destruct (forget_inv w (<[c := INVALID_SOCKET]> (conns w))) as [? ?]; [|done|auto].
    intros c' s. fold (set_sock c INVALID_SOCKET w). rewrite owned_set_sock.
    split; [naive_solver|]. intros Ho. right. split; [|done]. intros ->.
    by apply (invalid_not_owned _ _ _ Hl) in Ho.
  - destruct Hl as [Hc [so Ho]]. destruct (move_inv c oth w) as [? ?];
      [intros ->; congruence|by apply absent_invalid|done|auto].
  - unfold move_assign. destruct (Nat.eqb_spec c oth) as [->|Hne]; cbn [negb]; [auto|].
    destruct (close_inv c w Hi) as (Hi' & Ht' & Hv & _).
    destruct (move_inv c oth (close c w) Hne Hv Hi'). auto.
  - unfold destroy. destruct (close_inv c w Hi) as (Hi' & Ht' & Hv & _).
    destruct (forget_inv (close c w) (delete c (conns (close c w)))) as [? ?]; [|done|auto].
    intros c' s. unfold owned at 1. cbn. rewrite lookup_delete_Some. split; [by intros [[_ ?] ?]|].
    intros Ho. destruct Ho as [E Hs]. split_and!; [|done..]. intros <-.
    by apply (invalid_not_owned _ _ s Hv).
  - destruct (close_inv c w Hi) as (? & ? & _). auto.
  - unfold set_timeout_ms. destruct (valid c w); cbn [negb]; [|auto].
    set (s := sock_of c w). set (t := u32 ms).
    destruct (setsockopt_law s SO_RCVTIMEO t (sys w)) as (A1 & A2 & A3 & A4).
    destruct (setsockopt_law s SO_SNDTIMEO t (setsockopt s SO_RCVTIMEO t (sys w))) as (B1 & B2 & B3 & B4).
    destruct (on_sys_keeps (setsockopt s SO_SNDTIMEO t (setsockopt s SO_RCVTIMEO t (sys w))) w);
      [split_and!; congruence|done|auto].
  - destruct (connect_inv c h p w Hi (proj2 Hl)). auto.
  - destruct (listen_inv c p w Hi (proj2 Hl)). auto.
  - destruct (accept_inv c out w Hi). auto.
  - destruct (init_inv w Hi Hl) as (? & ? & _). auto.
  - destruct (shutdown_inv w Hi). auto.
Qed.

(** A sequence of uses, each of live objects; [tidy] adds that sockets are only opened
    into objects that hold none. *)
Fixpoint conn_ops (ops : list ConnOp) w : Sockets Sys :=
  match ops with [] => w | op :: ops => conn_ops ops (conn_op op w) end.
Fixpoint live_uses (ops : list ConnOp) w : Prop :=
  match ops with [] => True | op :: ops => live_use op w ∧ live_uses ops (conn_op op w) end.
Fixpoint tidy (ops : list ConnOp) w : Prop :=
  match ops with [] => True | op :: ops => opens_closed op w ∧ tidy ops (conn_op op w) end.

Lemma conn_ops_inv ops w :
  conn_inv w → live_uses ops w →
  conn_inv (conn_ops ops w) ∧ (tight w → tidy ops w → tight (conn_ops ops w)).
Proof.
  revert w. induction ops as [|op ops IH]; intros w Hi; cbn; [auto|]. intros [Hl Hls].
  destruct (conn_op_inv op w Hi Hl) as [Hi' Ht']. destruct (IH _ Hi' Hls) as [Hi'' Ht''].
  split; [done|]. intros Ht [Hc Htd]. auto.
Qed.

(** Before the first use. *)
Definition no_connections (o : Sys) : Sockets Sys := mkSockets false ∅ o.
Definition sys_idle (o : Sys) : Prop :=
  open_sockets o = ∅ ∧ resolved o = 0%nat ∧ wsa_users o = 0%nat.

Lemma no_connections_inv o :
  sys_idle o → conn_inv (no_connections o) ∧ tight (no_connections o).
Proof.
  intros (Eo & Er & Eu). split; [split|].
  - left. by intros c s [E _].
  - by intros c c' s [E _].
  - exact Er.
  - done.
  - intros s Hs. cbn in Hs. rewrite Eo in Hs. set_solver.
Qed.

(** C31: whatever is done with live connection objects, whichever socket calls fail, a socket
    an object holds is open and no other object holds it, so nothing is closed twice or
    used after its close; only once the library has been shut down, which may be at any
    time, can objects hold handles that are no longer open, and then no socket is.  Every
    address list has been freed, and while the module's flag is set the library is
    started.  If sockets are only opened into objects that hold none, every open socket
    has its owner or is one that [closesocket] failed on, and those are all that is open
    once the objects are destroyed. *)
Theorem connections_owned o ops :
  sys_idle o → live_uses ops (no_connections o) →
  let w := conn_ops ops (no_connections o) in
  conn_inv w ∧
  (tidy ops (no_connections o) → tight w ∧ (conns w = ∅ → open_sockets (sys w) ⊆ lingering (sys w))).
Proof.
  intros Ho Hl w. destruct (no_connections_inv o Ho) as [Hi Ht].
  destruct (conn_ops_inv ops _ Hi Hl) as [Hi' Ht']. split; [done|]. intros Htd.
  assert (Htight : tight w) by by apply Ht'. split; [done|]. intros Hc s Hs.
  destruct (Htight s Hs) as [(c & Hown & _)|?]; [|done]. by rewrite Hc in Hown.
Qed.

(** Connecting an object that already holds a socket loses that socket: it stays open and
    no object holds it. *)
Lemma reconnect_leaks c host port w s0 :
  conn_inv w → g_ws_init w = true → owned w c s0 → (connect_to c host port w).1 = true →
  let w' := (connect_to c host port w).2 in
  s0 ∈ open_sockets (sys w') ∧ ∀ c', ¬ owned w' c' s0.
Proof.
  intros Hi Hg Hown. unfold connect_to, tcp_init. rewrite Hg. cbn [negb].
  destruct (getaddrinfo_law host (pretty.pretty port) (sys w)) as (Eo & _).
  destruct (getaddrinfo _ _ (sys w)) as [[l|] o]; cbn [fst snd] in *; [|done].
  pose proof (connect_first_law l o) as Hl. destruct (connect_first l o) as [[s|] o2];
    cbn [fst snd]; [|done]. intros _.
  destruct Hl as (Hs & o1 & Hq & [[? ?]|(_ & Hnew & Eo2)] & _); [by destruct Hs|].
  pose proof (inv_held_open w Hi Hg c s0 Hown) as Hopen.
  assert (Hin : s0 ∈ open_sockets o1) by (apply (qu_open _ _ Hq); by rewrite Eo). split.
  - cbn. rewrite (proj1 (freeaddrinfo_law o2)), Eo2. set_solver.
  - intros c' Ho. change (owned (set_sock c s w) c' s0) in Ho.
    apply owned_set_sock in Ho as [(-> & -> & _)|[Hne Ho]]; [done|].
    destruct Hne. by apply (ow_unique _ Hi _ _ s0).
Qed.
End laws.

(** ** Witness *)

(** A system that gives out a new handle each time; every call succeeds but [accept] on a
    socket that is not open. *)
Record ToySys := mkToySys { toy_open : gset Z; toy_lists : nat; toy_users : nat }.
Definition toy_handle (o : ToySys) : SOCKET := 2 ^ 64 + foldr Z.max 0 (elements (toy_open o)) + 1.
Definition toy_opened (o : ToySys) : SOCKET * ToySys :=
  (toy_handle o, mkToySys ({[toy_handle o]} ∪ toy_open o) (toy_lists o) (toy_users o)).

#[global] Instance toy_winsock : Winsock ToySys Z := {
  WSAStartup o := (0, mkToySys (toy_open o) (toy_lists o) (S (toy_users o)));
  WSACleanup o :=
    (0, mkToySys (if (pred (toy_users o) =? 0)%nat then ∅ else toy_open o) (toy_lists o)
          (pred (toy_users o)));
  getaddrinfo _ _ o :=
    (Some [(mkSockKind 2 1 6, 0)], mkToySys (toy_open o) (S (toy_lists o)) (toy_users o));
  freeaddrinfo o := mkToySys (toy_open o) (pred (toy_lists o)) (toy_users o);
  sys_socket _ o := toy_opened o;
  sys_connect _ _ o := (0, o);
  sys_bind _ _ o := (0, o);
  sys_listen _ o := (0, o);
  sys_accept s o := if decide (s ∈ toy_open o) then toy_opened o else (INVALID_SOCKET, o);
  setsockopt _ _ _ o := o;
  closesocket s o := (0, mkToySys (toy_open o ∖ {[s]}) (toy_lists o) (toy_users o));
  tcp_kind := mkSockKind 2 1 6;
  INADDR_ANY := 0;
}.

Lemma toy_opened_law o :
  opened (toy_opened o).1 (toy_open o) (toy_open (toy_opened o).2).
Proof.
  assert (Hmax : ∀ l x, x ∈ l → x <= foldr Z.max 0 l).
  { induction l as [|y l IH]; intros x Hx; [by apply not_elem_of_nil in Hx|].
    apply elem_of_cons in Hx as [->|Hx]; cbn; [lia|]. specialize (IH x Hx). lia. }
  assert (Hnn : ∀ l, 0 <= foldr Z.max 0 l) by (induction l; cbn; lia).
  right. cbn. unfold toy_handle, INVALID_SOCKET. split_and!; [|intros Hin|done].
  - specialize (Hnn (elements (toy_open o))). lia.
  - apply elem_of_elements, Hmax in Hin. lia.
Qed.

#[global] Instance toy_winsock_laws : WinsockLaws ToySys Z.
Proof.
  refine {| open_sockets := toy_open; lingering := λ _, ∅; resolved := toy_lists;
            wsa_users := toy_users |}.
  - done.
  - intros o. split_and!; [done..|]. by left.
  - done.
  - done.
  - intros k o. split_and!; [done..|apply toy_opened_law].
  - intros s o. cbn. destruct (decide (s ∈ toy_open o)); cbn.
    + split_and!; [done..|apply toy_opened_law|done].
    + split_and!; [done..|by left|done].
  - done.
  - done.
  - done.
  - done.
  - intros s o. split_and!; [done..|]. by left.
Defined.

(** A server accepts a client and is shut down while both sockets are still open; the
    objects are destroyed afterwards. *)
Definition toy_idle : ToySys := mkToySys ∅ 0 0.
Definition toy_uses : list ConnOp :=
  [TcpInit; Construct 1; ListenOn 1 9200; Construct 2; AcceptOne 1 2; SetTimeout 2 500; MoveConstruct 3 2;
   Destroy 2; TcpShutdown; Destroy 3; Destroy 1].

Lemma connections_owned_witness :
  conn_inv (conn_ops toy_uses (no_connections toy_idle)) ∧
  tight (conn_ops toy_uses (no_connections toy_idle)) ∧
  open_sockets (sys (conn_ops toy_uses (no_connections toy_idle))) = ∅.
Proof.
  destruct (connections_owned toy_idle toy_uses) as [Hi Ht]; [done| |].
  - assert (Hfresh : no_stale (no_connections toy_idle)) by by right.
    assert (Hup : no_stale (conn_ops (take 2 toy_uses) (no_connections toy_idle))) by by left.
    repeat split; first [exact Hfresh|exact Hup|by eexists].
  - destruct Ht as [Ht He].
    { cbn [tidy toy_uses opens_closed]. split_and!; first [exact I|by vm_compute]. }
    split_and!; [exact Hi|exact Ht|].
    assert (Hc : conns (conn_ops toy_uses (no_connections toy_idle)) = ∅) by by vm_compute.
    apply set_eq. intros s. split; [apply (He Hc)|intros []%not_elem_of_empty].
Defined.
