(* ===== verification/Doubles.v ===== *)
(** Doubles.

    The [double] of the code as the Standard Library's executable IEEE-754 binary64
    ([spec_float]), rounding to nearest even, with bounds on the magnitude of results:
    operations on numbers far from the limits neither overflow nor give NaN. *)

From S2P Require Import Prelude.
From Stdlib Require Export SpecFloat.

Abbreviation f64 := spec_float (only parsing).
(** A [double] from an integer, rounded. *)
Definition f64_of_Z (z : Z) : f64 := binary_normalize 53 1024 z 0 false.
Definition f64_add (x y : f64) : f64 := SFadd 53 1024 x y.
Definition f64_mul (x y : f64) : f64 := SFmul 53 1024 x y.
Definition f64_div (x y : f64) : f64 := SFdiv 53 1024 x y.
Definition f64_ltb (x y : f64) : bool := SFltb x y.
Definition f64_eqb (x y : f64) : bool := SFeqb x y.
(** The literals of the code: [n], and [n.5]. *)
Definition f64_half (n : Z) : f64 := f64_div (f64_of_Z (2 * n + 1)) (f64_of_Z 2).
(** [std::min(1.0, x)]. *)
Definition min_1 (x : f64) : f64 := if f64_ltb x (f64_of_Z 1) then x else f64_of_Z 1.

Definition is_nan (f : f64) : bool := match f with S754_nan => true | _ => false end.

(** ** Binary digits *)

Lemma digits_log2 p : Z.pos (digits2_pos p) = Z.log2 (Z.pos p) + 1.
Proof.
  induction p as [p IH|p IH|]; [| |done]; simpl digits2_pos; rewrite Pos2Z.inj_succ, IH.
  - rewrite (Pos2Z.inj_xI p), Z.log2_succ_double; lia.
  - rewrite (Pos2Z.inj_xO p), Z.log2_double; lia.
Qed.

Lemma digits_le m k : 0 <= m → 0 <= k → Zdigits2 m <= k ↔ m < 2 ^ k.
Proof.
  intros Hm Hk. destruct m as [|p|p]; [|cbn [Zdigits2]; rewrite digits_log2|lia].
  - simpl. pose proof (Z.pow_pos_nonneg 2 k). lia.
  - rewrite Z.log2_lt_pow2 by lia. lia.
Qed.

Lemma digits_nonneg m : 0 <= Zdigits2 m.
Proof. by destruct m. Qed.

Lemma digits_zero m : Zdigits2 m = 0 ↔ m = 0.
Proof. by destruct m. Qed.

Lemma digits_mono m n : 0 <= m <= n → Zdigits2 m <= Zdigits2 n.
Proof.
  intros ?. apply digits_le; [lia|apply digits_nonneg|].
  assert (n < 2 ^ Zdigits2 n); [|lia]. apply digits_le; [lia|apply digits_nonneg|lia].
Qed.

(** [m] has [k] digits or fewer exactly when [m < 2 ^ k]; this gives both bounds. *)
Lemma digits_bounds m : 0 < m → 2 ^ (Zdigits2 m - 1) <= m < 2 ^ Zdigits2 m.
Proof.
  intros Hm. assert (0 < Zdigits2 m) by (pose proof (digits_nonneg m); pose proof (digits_zero m); lia).
  pose proof (digits_le m (Zdigits2 m)). pose proof (digits_le m (Zdigits2 m - 1)). lia.
Qed.

Lemma digits_div m n : 0 <= m → 0 <= n → Zdigits2 (m / 2 ^ n) = Z.max 0 (Zdigits2 m - n).
Proof.
  intros Hm Hn. assert (H2 : 0 < 2 ^ n) by (apply Z.pow_pos_nonneg; lia).
  assert (Hd : 0 <= m / 2 ^ n) by (apply Z.div_pos; lia).
  assert (Hk : ∀ k, 0 <= k → Zdigits2 (m / 2 ^ n) <= k ↔ Zdigits2 m <= k + n).
  { intros k Hk. rewrite !digits_le by lia. rewrite Z.pow_add_r by lia.
    rewrite (Z.mul_comm (2 ^ k)). split; intros ?.
    - pose proof (Z.mul_succ_div_gt m (2 ^ n) H2). nia.
    - apply Z.div_lt_upper_bound; lia. }
  pose proof (Hk (Z.max 0 (Zdigits2 m - n)) ltac:(lia)).
  pose proof (Hk (Zdigits2 (m / 2 ^ n)) (digits_nonneg _)).
  pose proof (digits_nonneg (m / 2 ^ n)). lia.
Qed.

Lemma digits_shift m n : 0 <= m → 0 <= n → Zdigits2 (m * 2 ^ n) = if m =? 0 then 0 else Zdigits2 m + n.
Proof.
  intros Hm Hn. assert (H2 : 0 < 2 ^ n) by (apply Z.pow_pos_nonneg; lia).
  destruct (Z.eqb_spec m 0) as [->|]; [done|].
  pose proof (digits_div (m * 2 ^ n) n ltac:(nia) Hn) as Hd. rewrite Z.div_mul in Hd by lia.
  assert (0 < Zdigits2 m) by (pose proof (digits_nonneg m); pose proof (digits_zero m); lia). lia.
Qed.

Lemma digits_mul m n : 0 < m → 0 < n → Zdigits2 (m * n) <= Zdigits2 m + Zdigits2 n.
Proof.
  intros Hm Hn. pose proof (digits_nonneg m). pose proof (digits_nonneg n).
  apply digits_le; [nia|lia|]. rewrite Z.pow_add_r by lia.
  pose proof (digits_bounds m Hm). pose proof (digits_bounds n Hn). nia.
Qed.

Lemma digits_succ m : 0 <= m → Zdigits2 (m + 1) <= Zdigits2 m + 1.
Proof.
  intros Hm. pose proof (digits_nonneg m). apply digits_le; [lia|lia|].
  rewrite Z.pow_add_r by lia. destruct (Z.eq_dec m 0) as [->|]; [done|].
  pose proof (digits_bounds m). lia.
Qed.

(** ** Rounding *)

(** Shifting right divides, whatever the bits shifted out. *)
Lemma shr_1_half r : 0 <= shr_m r → shr_m (shr_1 r) = shr_m r / 2.
Proof.
  destruct r as [m ? ?]; simpl. intros Hm. rewrite <-Z.div2_div. by destruct m as [|[]|].
Qed.

Lemma iter_shr p r : 0 <= shr_m r → shr_m (iter_pos shr_1 p r) = shr_m r / 2 ^ Z.pos p.
Proof.
  assert (Hc : ∀ m a b, 0 <= a → 0 <= b → m / 2 ^ a / 2 ^ b = m / 2 ^ (a + b)).
  { intros m a b Ha Hb. rewrite Z.div_div by lia. by rewrite Z.pow_add_r. }
  assert (Hp : ∀ m a, 0 <= m → 0 <= a → 0 <= m / 2 ^ a) by (intros; apply Z.div_pos; lia).
  revert r. induction p as [p IH|p IH|]; intros r Hr; simpl iter_pos.
  - pose proof (shr_1_half r Hr) as H1. change 2 with (2 ^ 1) in H1.
    pose proof (IH (shr_1 r)) as H2. rewrite H1, Hc in H2 by lia.
    rewrite IH, H2, Hc; rewrite ?H2; auto with lia. do 2 f_equal. lia.
  - rewrite (IH (iter_pos shr_1 p r)), IH, Hc; rewrite ?IH; auto with lia. do 2 f_equal. lia.
  - by apply shr_1_half.
Qed.

(** The least exponent at which a number of magnitude [d] is rounded. *)
Lemma fexp_eq d : fexp 53 1024 d = Z.max (d - 53) (-1074).
Proof. done. Qed.

Lemma shr_fexp_spec m e l :
  0 <= m →
  let '(r, e') := shr_fexp 53 1024 m e l in
  0 <= shr_m r ∧ e' = Z.max e (fexp 53 1024 (Zdigits2 m + e)) ∧
  Zdigits2 (shr_m r) + e' = Z.max e' (Zdigits2 m + e).
Proof.
  intros Hm. unfold shr_fexp. set (n := fexp 53 1024 _ - e).
  assert (Hr : shr_m (shr_record_of_loc m l) = m) by by destruct l as [|[]].
  unfold shr. destruct n as [|p|p] eqn:En; rewrite ?Hr.
  - pose proof (digits_nonneg m). lia.
  - rewrite iter_shr, Hr by lia. assert (0 <= m / 2 ^ Z.pos p) by (apply Z.div_pos; lia).
    rewrite digits_div by lia. lia.
  - pose proof (digits_nonneg m). lia.
Qed.

Lemma round_even_bounds m l : 0 <= m → m <= round_nearest_even m l <= m + 1.
Proof. intros ?. destruct l as [|[]]; simpl; try case_match; lia. Qed.

(** A number of magnitude [d] rounds to one of magnitude [d] or [d + 1], to zero only
    below the least subnormal, and never to infinity far from the limit. *)
Lemma round_aux_spec s m e l d :
  0 <= m → Zdigits2 m + e <= d → -1074 <= d <= 970 →
  match binary_round_aux 53 1024 s m e l with
  | S754_zero _ => m = 0 ∨ Zdigits2 m + e <= -1074
  | S754_finite s' m' e' => s' = s ∧ Zdigits2 m + e <= Z.pos (digits2_pos m') + e' <= d + 1
  | _ => False
  end.
Proof.
  intros Hm Hd Hr. unfold binary_round_aux.
  pose proof (shr_fexp_spec m e l Hm) as H1.
  destruct (shr_fexp 53 1024 m e l) as [r1 e1]. destruct H1 as (Hm1 & He1 & Hd1).
  set (m1 := round_nearest_even _ _).
  pose proof (round_even_bounds (shr_m r1) (loc_of_shr_record r1) Hm1) as Hb.
  fold m1 in Hb. clearbody m1.
  pose proof (digits_mono (shr_m r1) m1 ltac:(lia)). pose proof (digits_succ (shr_m r1) Hm1).
  pose proof (digits_mono m1 (shr_m r1 + 1) ltac:(lia)).
  pose proof (shr_fexp_spec m1 e1 loc_Exact ltac:(lia)) as H2.
  destruct (shr_fexp 53 1024 m1 e1 loc_Exact) as [r2 e2]. destruct H2 as (Hm2 & He2 & Hd2).
  rewrite fexp_eq in *. pose proof (digits_nonneg m). pose proof (digits_zero m).
  destruct (shr_m r2) as [|p|p]; cbn [Zdigits2] in Hd2; [| |lia].
  - lia.
  - assert (e2 <= 1024 - 53) as ->%Z.leb_le by lia. split; [done|]. lia.
Qed.

(** ** Numbers far from the limits *)

(** [x] is zero or a number with [|x| < 2 ^ d]. *)
Definition below (d : Z) (x : f64) : Prop :=
  match x with
  | S754_zero _ => True
  | S754_finite _ m e => Z.pos (digits2_pos m) + e <= d
  | _ => False
  end.
(** [x] is a positive number with [2 ^ d <= x]. *)
Definition above (d : Z) (x : f64) : Prop :=
  match x with S754_finite false m e => d < Z.pos (digits2_pos m) + e | _ => False end.

Lemma below_number d x : below d x → is_nan x = false.
Proof. by destruct x. Qed.

Lemma below_weaken d d' x : below d x → d <= d' → below d' x.
Proof. destruct x; simpl; [done|done|done|lia]. Qed.

Lemma above_weaken d d' x : above d x → d' <= d → above d' x.
Proof. destruct x as [| | |[]]; simpl; [done|done|done|done|lia]. Qed.

Lemma round_below s m e l d :
  0 <= m → Zdigits2 m + e <= d → -1074 <= d <= 970 →
  below (d + 1) (binary_round_aux 53 1024 s m e l).
Proof.
  intros Hm Hd Hr. pose proof (round_aux_spec s m e l d Hm Hd Hr) as H.
  destruct (binary_round_aux _ _ _ _ _ _); simpl; [done|done|done|lia].
Qed.

Lemma iter_xO m p : Z.pos (Pos.iter xO m p) = Z.pos m * 2 ^ Z.pos p.
Proof.
  induction p as [|p IH] using Pos.peano_ind; [simpl; lia|].
  rewrite Pos.iter_succ, Pos2Z.inj_succ, Z.pow_succ_r, Pos2Z.inj_xO, IH by lia. lia.
Qed.

(** Aligning keeps the value. *)
Lemma shl_align_spec m e e' :
  let '(m', e'') := shl_align m e e' in
  e'' = Z.min e e' ∧ Z.pos m' = Z.pos m * 2 ^ (e - e'') ∧
  Z.pos (digits2_pos m') + e'' = Z.pos (digits2_pos m) + e.
Proof.
  unfold shl_align. destruct (e' - e) as [|p|p] eqn:E.
  - rewrite Z.sub_diag. lia.
  - rewrite Z.sub_diag. lia.
  - pose proof (digits_shift (Z.pos m) (Z.pos p) ltac:(lia) ltac:(lia)) as Hd.
    rewrite <-iter_xO in Hd. cbn [Zdigits2 Z.eqb] in Hd. rewrite iter_xO.
    replace (e - e') with (Z.pos p) by lia. lia.
Qed.

Lemma binary_round_spec s m e d :
  Z.pos (digits2_pos m) + e <= d → -1074 <= d <= 970 →
  match binary_round 53 1024 s m e with
  | S754_zero _ => Z.pos (digits2_pos m) + e <= -1074
  | S754_finite s' m' e' =>
      s' = s ∧ Z.pos (digits2_pos m) + e <= Z.pos (digits2_pos m') + e' <= d + 1
  | _ => False
  end.
Proof.
  intros Hd Hr. unfold binary_round.
  pose proof (shl_align_spec m e (fexp 53 1024 (Z.pos (digits2_pos m) + e))) as Ha.
  destruct (shl_align _ _ _) as [mz ez]. destruct Ha as (_ & _ & Ha).
  pose proof (round_aux_spec s (Z.pos mz) ez loc_Exact d ltac:(lia)) as Hs. cbn [Zdigits2] in Hs.
  specialize (Hs ltac:(lia) Hr). rewrite Ha in Hs.
  destruct (binary_round_aux _ _ _ _ _ _); [destruct Hs; [done|lia]|done..].
Qed.

Lemma normalize_below z e b d :
  Zdigits2 z + e <= d → -1074 <= d <= 970 → below (d + 1) (binary_normalize 53 1024 z e b).
Proof.
  intros Hd Hr. destruct z as [|p|p]; [done|..]; cbn [binary_normalize Zdigits2] in *;
    [pose proof (binary_round_spec false p e d Hd Hr) as H|pose proof (binary_round_spec true p e d Hd Hr) as H];
    destruct (binary_round _ _ _ _ _); simpl; [done|done|done|lia..].
Qed.

Lemma normalize_above z e b d :
  0 < z → d < Zdigits2 z + e → -1074 < Zdigits2 z + e <= 970 →
  above d (binary_normalize 53 1024 z e b).
Proof.
  intros Hz Hd Hr. destruct z as [|p|p]; [lia| |lia]. cbn [binary_normalize Zdigits2] in *.
  pose proof (binary_round_spec false p e _ (Z.le_refl _) ltac:(lia)) as H.
  destruct (binary_round _ _ _ _ _) as [| | |s m' e']; simpl; [lia|done|done|].
  destruct H as [-> H]. lia.
Qed.

(** ** The operations *)

Lemma of_Z_below z d : Z.abs z < 2 ^ d → 0 <= d <= 970 → below (d + 1) (f64_of_Z z).
Proof.
  intros Hz Hd. apply normalize_below; [|lia].
  assert (Zdigits2 (Z.abs z) <= d) by (apply digits_le; lia). destruct z; simpl in *; lia.
Qed.

Lemma of_Z_above z d : 2 ^ d <= z < 2 ^ 970 → 0 <= d → above d (f64_of_Z z).
Proof.
  intros Hz Hd. assert (0 < 2 ^ d) by (apply Z.pow_pos_nonneg; lia).
  pose proof (digits_le z d). assert (Zdigits2 z <= 970) by (apply digits_le; lia).
  apply normalize_above; lia.
Qed.

Lemma mul_below dx dy x y :
  below dx x → below dy y → -1074 <= dx + dy <= 970 → below (dx + dy + 1) (f64_mul x y).
Proof.
  intros Hx Hy Hd. destruct x as [| | |sx mx ex], y as [| | |sy my ey]; try done.
  apply round_below; [lia| |lia].
  pose proof (digits_mul (Z.pos mx) (Z.pos my)) as Hm. simpl in *. lia.
Qed.

(** An operand of a sum, aligned: at most [2 ^ k] for its magnitude. *)
Lemma aligned_bound m e ez d :
  Z.pos (digits2_pos m) + e <= d → ez <= e →
  let a := Z.pos (fst (shl_align m e ez)) in 0 < a < 2 ^ (d - ez).
Proof.
  intros Hd He. pose proof (shl_align_spec m e ez) as Ha. destruct (shl_align m e ez) as [m' e''].
  destruct Ha as (-> & _ & Ha). rewrite Z.min_r in Ha by lia. simpl. split; [lia|].
  apply (digits_le (Z.pos m')); simpl; lia.
Qed.

Lemma add_below d x y :
  below d x → below d y → -1074 <= d <= 960 → below (d + 2) (f64_add x y).
Proof.
  intros Hx Hy Hd.
  destruct x as [[]|[]| |sx mx ex], y as [[]|[]| |sy my ey]; try done; try (simpl in *; lia).
  unfold f64_add, SFadd. set (ez := Z.min ex ey).
  pose proof (aligned_bound mx ex ez d Hx ltac:(lia)) as Hax.
  pose proof (aligned_bound my ey ez d Hy ltac:(lia)) as Hay.
  cbn zeta in Hax, Hay. set (ax := Z.pos (fst (shl_align mx ex ez))) in *. set (ay := Z.pos (fst (shl_align my ey ez))) in *. clearbody ax ay.
  replace (d + 2) with (d + 1 + 1) by lia. apply normalize_below; [|lia].
  set (z := cond_Zopp sx ax + cond_Zopp sy ay).
  assert (Hz : Z.abs z < 2 ^ (d + 1 - ez)).
  { replace (d + 1 - ez) with (1 + (d - ez)) by lia. simpl in Hx. rewrite Z.pow_add_r by lia.
    unfold z, cond_Zopp. destruct sx, sy; lia. }
  assert (Zdigits2 (Z.abs z) <= d + 1 - ez) by (apply digits_le; simpl in *; lia).
  destruct z; simpl in *; lia.
Qed.

Lemma add_above d x y k :
  above d x → above d y → below k x → below k y → -1074 < d → k <= 960 → above d (f64_add x y).
Proof.
  intros Hx Hy Kx Ky Hd Hk.
  destruct x as [| | |[] mx ex], y as [| | |[] my ey]; try done.
  unfold f64_add, SFadd. set (ez := Z.min ex ey).
  pose proof (aligned_bound mx ex ez k Kx ltac:(lia)) as Hax.
  pose proof (aligned_bound my ey ez k Ky ltac:(lia)) as Hay.
  pose proof (shl_align_spec mx ex ez) as Ha. destruct (shl_align mx ex ez) as [m' e''].
  destruct Ha as (-> & _ & Ha). rewrite Z.min_r in Ha by lia. simpl fst in *. cbn [cond_Zopp].
  cbn zeta in Hax, Hay. set (ay := Z.pos (fst _)) in *. clearbody ay. simpl in Hx, Kx.
  pose proof (digits_mono (Z.pos m') (Z.pos m' + ay) ltac:(lia)) as Hm. cbn [Zdigits2] in Hm.
  assert (Zdigits2 (Z.pos m' + ay) <= k + 1 - ez).
  { apply digits_le; [lia..|]. replace (k + 1 - ez) with (1 + (k - ez)) by lia.
    rewrite Z.pow_add_r by lia. lia. }
  apply normalize_above; lia.
Qed.

Lemma digits_quot q m n :
  0 <= q → 0 < m → q * m <= n → q = 0 ∨ Zdigits2 q + Zdigits2 m <= Zdigits2 n + 1.
Proof.
  intros Hq Hm Hn. destruct (Z.eq_dec q 0); [by left|right].
  pose proof (digits_bounds q ltac:(lia)) as [Hbq _]. pose proof (digits_bounds m Hm) as [Hbm _].
  pose proof (digits_bounds n ltac:(nia)) as [_ Hbn].
  assert (0 < Zdigits2 q) by (pose proof (digits_nonneg q); pose proof (digits_zero q); lia).
  assert (0 < Zdigits2 m) by (pose proof (digits_nonneg m); pose proof (digits_zero m); lia).
  assert (Hp : 2 ^ (Zdigits2 q - 1 + (Zdigits2 m - 1)) < 2 ^ Zdigits2 n).
  { rewrite Z.pow_add_r by lia. nia. }
  apply Z.pow_lt_mono_r_iff in Hp; [lia|lia|apply digits_nonneg].
Qed.

Lemma div_below dx dy x y :
  below dx x → above dy y → -1074 <= dx - dy <= 970 → below (dx - dy + 1) (f64_div x y).
Proof.
  intros Hx Hy Hd. destruct x as [| | |sx mx ex], y as [| | |[] my ey]; try done.
  unfold f64_div, SFdiv, SFdiv_core_binary.
  set (e' := Z.min _ _). assert (He : 0 <= ex - ey - e') by lia.
  assert (He' : e' <= fexp 53 1024 (Zdigits2 (Z.pos mx) + ex - (Zdigits2 (Z.pos my) + ey))) by lia.
  clearbody e'.
  replace (match ex - ey - e' with Z0 => Z.pos mx | Z.pos _ => Z.shiftl (Z.pos mx) (ex - ey - e')
    | Z.neg _ => 0 end) with (Z.pos mx * 2 ^ (ex - ey - e')).
  2: { destruct (ex - ey - e') eqn:E; [simpl; lia|by rewrite Z.shiftl_mul_pow2 by lia|lia]. }
  pose proof (digits_shift (Z.pos mx) (ex - ey - e') ltac:(lia) He) as Hs. cbn [Zdigits2 Z.eqb] in Hs.
  set (n := _ * _) in *. assert (Hn : 0 < n) by (apply Z.mul_pos_pos; [lia|apply Z.pow_pos_nonneg; lia]).
  clearbody n. pose proof (Z_div_mod n (Z.pos my) eq_refl) as Hq.
  destruct (Z.div_eucl n (Z.pos my)) as [q r]. destruct Hq as [Hq Hr].
  assert (0 <= q) by nia. pose proof (digits_quot q (Z.pos my) n) as Hqd.
  rewrite fexp_eq in He'. cbn [Zdigits2 below above] in *.
  apply round_below; [done| |lia].
  destruct Hqd as [->|Hqd]; [lia|lia|nia|simpl; lia|lia].
Qed.

Lemma min_1_below d x : below d x → 1 <= d → below d (min_1 x).
Proof. intros Hx Hd. unfold min_1. case_match; [done|]. by apply (below_weaken 1). Qed.
