(* ===== verification/Placement.v ===== *)
(** The placement engine (src/placement.cpp,
    include/replicafabric/placement/placement.hpp).

    [place] with its hard constraints, its weighted factors computed in the doubles of
    Doubles.v, and its selection. *)

From S2P Require Import Prelude Identity Enums Model Authority Doubles.
From Stdlib Require Import DecimalString.

(** ** Text *)

(** [std::to_string] of an integer. *)
Definition dec_str (z : Z) : string := NilZero.string_of_int (Z.to_int z).

(** ** Data *)

Record PlacementHost := mkPlacementHost {
  ph_worker_id : WorkerId;
  ph_boot_id : WorkerBootId;
  ph_node_id : NodeId;
  ph_host : string;
  ph_numa : string;
  ph_rack : string;
  ph_failure_domain_labels : list string;
  ph_device : DeviceCapability;
  ph_inventory : ResourceInventory;
  ph_artifact_distance : uint64_t;
  ph_has_warm_model : bool;
}.
Definition default_PlacementHost : PlacementHost :=
  mkPlacementHost null null null EmptyString EmptyString EmptyString [] default_DeviceCapability
    default_ResourceInventory 0 false.

(** What the types of the fields the scores read can hold. *)
Definition wf_PlacementHost (h : PlacementHost) : Prop :=
  wf_ComputeCapability (dc_compute (ph_device h)) ∧ wf_ResourceInventory (ph_inventory h) ∧
  in_u64 (ph_artifact_distance h).

Record PlacedReplica := mkPlacedReplica {
  pr_id : ReplicaId;
  pr_host : string;
  pr_numa : string;
  pr_device_id : string;
  pr_failure_domain_labels : list string;
}.

Record PlacementFactor := mkPlacementFactor {
  pf_name : string;
  pf_weight : f64;
  pf_score : f64;
  pf_contribution : f64;
  pf_detail : string;
}.

Record PlacementCandidate := mkPlacementCandidate {
  pc_host : PlacementHost;
  pc_eligible : bool;
  pc_rejection : string;
  pc_factors : list PlacementFactor;
  pc_total : f64;
  pc_summary : string;
}.

Record PlacementDecision := mkPlacementDecision {
  pd_placed : bool;
  pd_chosen : PlacementHost;
  pd_candidates : list PlacementCandidate;
  pd_note : string;
}.

Definition find_candidate (d : PlacementDecision) (w : WorkerId) : option PlacementCandidate :=
  snd <$> list_find (λ c, ph_worker_id (pc_host c) = w) (pd_candidates d).

(** ** Scoring *)

Definition normalize_mem (free total : Z) : f64 :=
  if total =? 0 then f64_of_Z 0 else f64_div (f64_of_Z free) (f64_of_Z total).

Definition has_backend (h : PlacementHost) (kind : BackendKind) : bool :=
  if decide (kind = BackendKind.NONE) then true
  else existsb (λ b, bool_decide (bc_kind b = kind)) (ri_backends (ph_inventory h)).

(** The lambda [occupied]. *)
Definition occupied (existing : list PlacedReplica) (h : PlacementHost) (domain : string) : bool :=
  existsb (λ e,
    (bool_decide (domain = "host") && bool_decide (pr_host e = ph_host h) &&
       negb (string_empty (pr_host e))) ||
    (bool_decide (domain = "numa") && bool_decide (pr_numa e = ph_numa h) &&
       negb (string_empty (pr_numa e))) ||
    (bool_decide (domain = "device") && bool_decide (pr_device_id e = dc_device_id (ph_device h)) &&
       negb (string_empty (pr_device_id e))) ||
    (bool_decide (domain = "rack") &&
       existsb (λ lbl, existsb (λ hl, bool_decide (lbl = hl)) (ph_failure_domain_labels h))
         (pr_failure_domain_labels e)) ||
    existsb (λ dom, existsb (λ edm, bool_decide (domain = edm) && bool_decide (dom = edm))
         (pr_failure_domain_labels e)) (ph_failure_domain_labels h))%string existing.

(** The key of the candidate order, and of the tie break.  [std::sort] leaves the order
    of equal keys open; the model keeps the one of the input. *)
Definition host_key (h : PlacementHost) : string :=
  (id_str (ph_worker_id h) ++ "|" ++ dc_device_id (ph_device h))%string.
Definition host_ltb (a b : PlacementHost) : bool := String.ltb (host_key a) (host_key b).

(** The hard constraints: empty when all hold. *)
Definition hard_reject (set : ReplicaSetState) (h : PlacementHost) : string :=
  if negb (has_backend h (s_backend set))
  then "missing required backend " ++ to_string (s_backend set)
  else if cc_ltb (dc_compute (ph_device h)) (s_min_compute set)
  then "compute capability too low"
  else if ri_free_memory_bytes (ph_inventory h) <? s_memory_requirement_bytes set
  then "insufficient free memory"
  else if ri_accelerator_count (ph_inventory h) <? i32 (s_accelerator_requirement set)
  then "insufficient accelerators"
  else EmptyString.

(** The lambda [add_factor]. *)
Definition factor (name : string) (weight score : f64) (detail : string) : PlacementFactor :=
  mkPlacementFactor name weight score (f64_mul weight score) detail.

(** The loop over the anti-affinity domains: the first occupied one. *)
Fixpoint shared_domain (existing : list PlacedReplica) (h : PlacementHost) (doms : list string) :
    option string :=
  match doms with
  | [] => None
  | dom :: doms' => if occupied existing h dom then Some dom else shared_domain existing h doms'
  end.

Definition preference (pol : PlacementPolicy) (h : PlacementHost) : f64 :=
  let pref := f64_of_Z 0 in
  let pref :=
    if negb (string_empty (pl_preferred_host pol)) && bool_decide (ph_host h = pl_preferred_host pol)
    then f64_add pref (f64_half 0) else pref in
  let pref :=
    if negb (string_empty (pl_preferred_device pol)) &&
       bool_decide (dc_device_id (ph_device h) = pl_preferred_device pol)
    then f64_add pref (f64_half 0) else pref in
  if negb (string_empty (pl_preferred_failure_domain pol)) &&
     existsb (λ lbl, bool_decide (lbl = pl_preferred_failure_domain pol)) (ph_failure_domain_labels h)
  then f64_add pref (f64_half 0) else pref.

Definition placement_factors (set : ReplicaSetState) (existing : list PlacedReplica)
    (h : PlacementHost) : list PlacementFactor :=
  let inv := ph_inventory h in
  let cc := dc_compute (ph_device h) in
  let mem := normalize_mem (ri_free_memory_bytes inv) (ri_total_memory_bytes inv) in
  let compute := f64_div (f64_add (f64_mul (f64_of_Z (cc_major cc)) (f64_of_Z 10))
                                  (f64_of_Z (cc_minor cc))) (f64_of_Z 200) in
  let warm := if ph_has_warm_model h then f64_of_Z 1 else f64_of_Z 0 in
  let locality :=
    if ph_artifact_distance h =? 0 then f64_of_Z 1
    else f64_div (f64_of_Z 1) (f64_add (f64_of_Z 1) (f64_of_Z (ph_artifact_distance h))) in
  let shared := shared_domain existing h (pl_anti_affinity_domains (s_placement_policy set)) in
  [ factor "free_memory" (f64_of_Z 3) mem (dec_str (ri_free_memory_bytes inv) ++ " free bytes");
    factor "accelerator_capability" (f64_of_Z 2) (min_1 compute)
      ("compute " ++ dec_str (cc_major cc) ++ "." ++ dec_str (cc_minor cc));
    factor "warm_state" (f64_half 2) warm
      (if ph_has_warm_model h then "warm model resident" else "cold model");
    factor "artifact_locality" (f64_half 1) locality
      ("artifact distance " ++ dec_str (ph_artifact_distance h));
    factor "failure_domain_diversity" (f64_of_Z 4)
      (match shared with Some _ => f64_of_Z 0 | None => f64_of_Z 1 end)
      (match shared with
       | Some dom => "shares " ++ dom ++ " domain with an existing replica"
       | None => "unique across affinity domains"
       end);
    factor "preference" (f64_of_Z 1) (min_1 (preference (s_placement_policy set) h))
      "placement preference bonus" ]%string.

(** The body of the candidate loop. *)
Definition candidate (set : ReplicaSetState) (existing : list PlacedReplica) (h : PlacementHost) :
    PlacementCandidate :=
  let reject := hard_reject set h in
  if negb (string_empty reject)
  then mkPlacementCandidate h false reject [] (f64_of_Z 0) EmptyString
  else
    let fs := placement_factors set existing h in
    mkPlacementCandidate h true EmptyString fs
      (foldl (λ total f, f64_add total (pf_contribution f)) (f64_of_Z 0) fs) (host_key h).

(** ** Selection *)

(** [c.total > best->total || (c.total == best->total && c.summary < best->summary)]. *)
Definition better (c best : PlacementCandidate) : bool :=
  f64_ltb (pc_total best) (pc_total c) ||
  (f64_eqb (pc_total c) (pc_total best) && String.ltb (pc_summary c) (pc_summary best)).

Definition select_step (best : option PlacementCandidate) (c : PlacementCandidate) :
    option PlacementCandidate :=
  if negb (pc_eligible c) then best
  else match best with
       | None => Some c
       | Some b => if better c b then Some c else best
       end.
Definition select (cs : list PlacementCandidate) : option PlacementCandidate :=
  foldl select_step None cs.

Definition place (set : ReplicaSetState) (hosts : list PlacementHost)
    (existing : list PlacedReplica) : PlacementDecision :=
  let cs := candidate set existing <$> stable_sort host_ltb hosts in
  match select cs with
  | None => mkPlacementDecision false default_PlacementHost cs
              "no eligible placement: all candidates failed hard constraints"
  | Some best => mkPlacementDecision true (pc_host best) cs
                   ("chosen host " ++ id_str (ph_worker_id (pc_host best)))%string
  end.

(** ** The orders *)

Definition comparison_key (f : f64) : Z * Z * Z :=
  match f with
  | S754_infinity true => (-2, 0, 0)
  | S754_finite true m e => (-1, - e, - Z.pos m)
  | S754_zero _ => (0, 0, 0)
  | S754_finite false m e => (1, e, Z.pos m)
  | S754_infinity false => (2, 0, 0)
  | S754_nan => (3, 0, 0)
  end.

(** Comparison of numbers is the lexicographic order of their keys. *)
Definition lex3 (a b : Z * Z * Z) : Prop :=
  a.1.1 < b.1.1 ∨ (a.1.1 = b.1.1 ∧ (a.1.2 < b.1.2 ∨ (a.1.2 = b.1.2 ∧ a.2 < b.2))).

Lemma SFcompare_key a b :
  is_nan a = false → is_nan b = false →
  match SFcompare a b with
  | Some Lt => lex3 (comparison_key a) (comparison_key b)
  | Some Eq => comparison_key a = comparison_key b
  | Some Gt => lex3 (comparison_key b) (comparison_key a)
  | None => False
  end.
Proof.
  unfold lex3. destruct a as [|[]| |[] ma ea], b as [|[]| |[] mb eb]; simpl; try done; intros _ _;
    try lia; change (Pos.compare_cont Eq ma mb) with (Pos.compare ma mb);
    destruct (Z.compare_spec ea eb); subst; try lia; destruct (Pos.compare_spec ma mb); subst;
    simpl; lia || (f_equal; lia) || idtac.
Qed.

Lemma f64_ltb_key a b :
  is_nan a = false → is_nan b = false →
  f64_ltb a b = true ↔ lex3 (comparison_key a) (comparison_key b).
Proof.
  intros Ha Hb. pose proof (SFcompare_key a b Ha Hb) as Hc. unfold f64_ltb, SFltb.
  destruct (SFcompare a b) as [[]|]; [| | |done]; unfold lex3 in *; split; try done.
  - rewrite Hc. lia.
  - lia.
Qed.

Lemma f64_eqb_key a b :
  is_nan a = false → is_nan b = false →
  f64_eqb a b = true ↔ comparison_key a = comparison_key b.
Proof.
  intros Ha Hb. pose proof (SFcompare_key a b Ha Hb) as Hc. unfold f64_eqb, SFeqb.
  destruct (SFcompare a b) as [[]|]; [| | |done]; unfold lex3 in *; split; try done;
    intros E; rewrite E in Hc; lia.
Qed.

Lemma ascii_compare_N a b : Ascii.compare a b = N.compare (N_of_ascii a) (N_of_ascii b).
Proof. done. Qed.

#[global] Instance string_ltb_total : StrictTotal String.ltb.
Proof.
  unfold String.ltb. split; [split|].
  - intros a b. rewrite (String.compare_antisym b a). by destruct (String.compare a b).
  - intros a. induction a as [|x a IH]; intros [|y b] [|z c]; simpl; try done; try (by left); try (by right).
    rewrite !ascii_compare_N.
    destruct (N.compare_spec (N_of_ascii x) (N_of_ascii y)) as [E1|E1|E1]; [| |done]; intros Hab;
    destruct (N.compare_spec (N_of_ascii x) (N_of_ascii z)) as [E2|E2|E2]; try (by left);
    destruct (N.compare_spec (N_of_ascii z) (N_of_ascii y)) as [E3|E3|E3]; try (by right); try lia.
    by apply IH.
  - intros a b. rewrite (String.compare_antisym b a).
    destruct (String.compare a b) eqn:E; [|done..]. intros _ _. by apply String.compare_eq_iff.
Qed.

(** The comparator of the hosts: total once the keys are distinct. *)
#[global] Instance host_ltb_weak : StrictWeak host_ltb.
Proof.
  unfold host_ltb. split.
  - intros a b. apply strict_asym.
  - intros a b c. apply strict_cotrans.
Qed.

Lemma strict_trans {A} (lt : A → A → bool) `{!StrictWeak lt} a b c :
  lt a b = true → lt b c = true → lt a c = true.
Proof.
  intros Hab Hbc. destruct (strict_cotrans a b c Hab) as [?|Hcb]; [done|].
  by rewrite (strict_asym b c Hbc) in Hcb.
Qed.

Lemma string_ltb_irrefl s : String.ltb s s = false.
Proof. destruct (String.ltb s s) eqn:E; [|done]. by rewrite (strict_asym s s E) in E. Qed.

(** ** Selection *)

(** A candidate whose total is a number. *)
Definition scored (c : PlacementCandidate) : Prop := is_nan (pc_total c) = false.

Lemma better_spec c b :
  scored c → scored b →
  better c b = true ↔
  lex3 (comparison_key (pc_total b)) (comparison_key (pc_total c)) ∨
  (comparison_key (pc_total c) = comparison_key (pc_total b) ∧
   String.ltb (pc_summary c) (pc_summary b) = true).
Proof.
  intros Hc Hb. unfold better. rewrite orb_true_iff, andb_true_iff.
  by rewrite f64_ltb_key, f64_eqb_key.
Qed.

Lemma better_trans d c b :
  scored d → scored c → scored b → better d c = true → better c b = true → better d b = true.
Proof.
  intros Hd Hc Hb. rewrite !better_spec by done. unfold lex3.
  intros [H1|[H1 L1]] [H2|[H2 L2]].
  - left. lia.
  - left. by rewrite <-H2.
  - left. by rewrite H1.
  - right. split; [congruence|exact (strict_trans String.ltb _ _ _ L1 L2)].
Qed.

Lemma select_app cs c : select (cs ++ [c]) = select_step (select cs) c.
Proof. unfold select. by rewrite foldl_app. Qed.

Lemma elem_of_snoc {A} (x y : A) l : x ∈ l ++ [y] ↔ x ∈ l ∨ x = y.
Proof. by rewrite elem_of_app, list_elem_of_singleton. Qed.

(** Nothing is better than itself. *)
Lemma better_irrefl c : scored c → better c c = false.
Proof.
  intros Hc. destruct (better c c) eqn:E; [|done]. apply better_spec in E; [|done..].
  unfold lex3 in E. rewrite string_ltb_irrefl in E. destruct E as [|[]]; [lia|done].
Qed.

(** The selected candidate is eligible and no eligible one is better. *)
Lemma select_spec cs :
  (∀ c, c ∈ cs → pc_eligible c = true → scored c) →
  match select cs with
  | None => ∀ c, c ∈ cs → pc_eligible c = false
  | Some b => b ∈ cs ∧ pc_eligible b = true ∧
              ∀ c, c ∈ cs → pc_eligible c = true → better c b = false
  end.
Proof.
  induction cs as [|c cs IH] using rev_ind; intros Hs; [by intros ? ?%not_elem_of_nil|].
  rewrite select_app. unfold select_step.
  assert (Hs' : ∀ d, d ∈ cs → pc_eligible d = true → scored d) by set_solver.
  specialize (IH Hs'). destruct (pc_eligible c) eqn:Ec; simpl.
  - assert (Hc : scored c) by (apply Hs; [set_solver|done]).
    destruct (select cs) as [b|].
    + destruct IH as (Hb & Eb & Hbest). destruct (better c b) eqn:Ecb.
      * split_and!; [set_solver|done|]. intros d [Hd| ->]%elem_of_snoc Ed.
        -- destruct (better d c) eqn:Edc; [|done].
           rewrite <-(Hbest d Hd Ed). symmetry. apply (better_trans d c b); auto.
        -- by apply better_irrefl.
      * split_and!; [set_solver|done|]. intros d [Hd| ->]%elem_of_snoc Ed; auto.
    + split_and!; [set_solver|done|]. intros d [Hd| ->]%elem_of_snoc Ed.
      * by rewrite IH in Ed.
      * by apply better_irrefl.
  - destruct (select cs) as [b|].
    + destruct IH as (Hb & Eb & Hbest). split_and!; [set_solver|done|].
      intros d [Hd| ->]%elem_of_snoc Ed; [auto|congruence].
    + intros d [Hd| ->]%elem_of_snoc; auto.
Qed.

(** Something is selected exactly when something is eligible, whatever the scores. *)
Lemma select_None cs : select cs = None ↔ ∀ c, c ∈ cs → pc_eligible c = false.
Proof.
  induction cs as [|c cs IH] using rev_ind; [by split; [intros _ ? ?%not_elem_of_nil|]|].
  rewrite select_app. unfold select_step. destruct (pc_eligible c) eqn:Ec; simpl.
  - split; [by repeat case_match|]. intros Hf. rewrite Hf in Ec; [done|set_solver].
  - rewrite IH. set_solver.
Qed.

Lemma select_elem cs b : select cs = Some b → b ∈ cs ∧ pc_eligible b = true.
Proof.
  revert b. induction cs as [|c cs IH] using rev_ind; intros b; [done|].
  rewrite select_app. unfold select_step. destruct (pc_eligible c) eqn:Ec; simpl.
  - destruct (select cs) as [b'|]; [case_match|]; intros [= <-]; [set_solver|..|set_solver].
    destruct (IH b' eq_refl). set_solver.
  - intros E. apply IH in E as [??]. set_solver.
Qed.

(** ** Hard constraints *)

(** What a host must offer. *)
Record satisfies (set : ReplicaSetState) (h : PlacementHost) : Prop := {
  sat_backend : s_backend set = BackendKind.NONE ∨
    ∃ b, b ∈ ri_backends (ph_inventory h) ∧ bc_kind b = s_backend set;
  sat_compute : cc_ltb (dc_compute (ph_device h)) (s_min_compute set) = false;
  sat_memory : s_memory_requirement_bytes set <= ri_free_memory_bytes (ph_inventory h);
  sat_accelerators : i32 (s_accelerator_requirement set) <= ri_accelerator_count (ph_inventory h);
}.

Lemma has_backend_spec h kind :
  has_backend h kind = true ↔
  kind = BackendKind.NONE ∨ ∃ b, b ∈ ri_backends (ph_inventory h) ∧ bc_kind b = kind.
Proof.
  unfold has_backend. case_decide as E; [tauto|]. rewrite existsb_exists.
  setoid_rewrite bool_decide_eq_true. setoid_rewrite <-list_elem_of_In. naive_solver.
Qed.

Lemma hard_reject_spec set h : string_empty (hard_reject set h) = true ↔ satisfies set h.
Proof.
  unfold hard_reject. split.
  - intros E. repeat (case_match; [done|]). bool_to_prop. split; try done; [by apply has_backend_spec].
  - intros [Hb%has_backend_spec Hc Hm Ha]. rewrite Hb, Hc. simpl.
    by rewrite (proj2 (Z.ltb_ge _ _) Hm), (proj2 (Z.ltb_ge _ _) Ha).
Qed.

Lemma candidate_fields set existing h :
  pc_host (candidate set existing h) = h ∧
  (pc_eligible (candidate set existing h) = true ↔ satisfies set h) ∧
  pc_rejection (candidate set existing h) = hard_reject set h.
Proof.
  rewrite <-hard_reject_spec. unfold candidate. cbn zeta.
  destruct (hard_reject set h); simpl; done.
Qed.

(** The candidate order does not depend on the order of the hosts. *)
Lemma sorted_hosts_unique hosts hosts' :
  NoDup (host_key <$> hosts) → hosts ≡ₚ hosts' →
  stable_sort host_ltb hosts = stable_sort host_ltb hosts'.
Proof.
  intros Hnd Hp. apply (StronglySorted_unique_strong (not_above host_ltb));
    [|apply stable_sort_sorted; apply _..|by rewrite !stable_sort_perm].
  intros a b Ha Hb Hab Hba. rewrite stable_sort_perm in Ha. rewrite stable_sort_perm, <-Hp in Hb.
  unfold not_above, host_ltb in *. pose proof (total_tie _ _ Hba Hab) as E.
  apply list_elem_of_lookup in Ha as [i Ha]. apply list_elem_of_lookup in Hb as [j Hb].
  assert (i = j) as ->; [|congruence].
  eapply NoDup_lookup; [exact Hnd| |].
  - rewrite list_lookup_fmap, Ha. done.
  - rewrite list_lookup_fmap, Hb. simpl. by rewrite E.
Qed.

(** ** The scores are numbers *)

Lemma u64_below z : in_u64 z → below 65 (f64_of_Z z).
Proof. unfold in_u64. intros ?. apply (of_Z_below z 64); lia. Qed.
Lemma i32_below z : in_i32 z → below 33 (f64_of_Z z).
Proof. unfold in_i32. intros ?. apply (of_Z_below z 32); lia. Qed.
Lemma u64_above z : in_u64 z → z ≠ 0 → above 0 (f64_of_Z z).
Proof.
  unfold in_u64. intros ??. apply of_Z_above; [|done].
  pose proof (Z.pow_lt_mono_r 2 64 970). lia.
Qed.

Lemma normalize_mem_below free total :
  in_u64 free → in_u64 total → below 66 (normalize_mem free total).
Proof.
  intros Hf Ht. unfold normalize_mem. case_match eqn:E; [done|]. apply Z.eqb_neq in E.
  apply (div_below 65 0); [by apply u64_below|by apply u64_above|lia].
Qed.

Lemma compute_below major minor :
  in_i32 major → in_i32 minor →
  below 66 (min_1 (f64_div (f64_add (f64_mul (f64_of_Z major) (f64_of_Z 10)) (f64_of_Z minor))
                           (f64_of_Z 200))).
Proof.
  intros Hj Hn. apply min_1_below; [|lia]. apply (below_weaken (40 - 7 + 1)); [|lia].
  apply div_below; [|by vm_compute|lia]. apply (add_below 38); [|apply (below_weaken 33); [by apply i32_below|lia]|lia].
  apply (mul_below 33 4); [by apply i32_below|by vm_compute|lia].
Qed.

Lemma locality_below dist :
  in_u64 dist → dist ≠ 0 →
  below 66 (f64_div (f64_of_Z 1) (f64_add (f64_of_Z 1) (f64_of_Z dist))).
Proof.
  intros Hd Hn. apply (below_weaken (1 - 0 + 1)); [|lia]. apply div_below; [by vm_compute| |lia].
  apply (add_above 0 _ _ 65); [by vm_compute|by apply u64_above|by vm_compute|by apply u64_below|lia..].
Qed.

Lemma preference_below pol h : below 66 (min_1 (preference pol h)).
Proof. unfold preference. repeat case_match; by vm_compute. Qed.

Lemma factor_below name weight score detail :
  below 3 weight → below 66 score → below 70 (pf_contribution (factor name weight score detail)).
Proof. intros. by apply (mul_below 3 66). Qed.

Lemma placement_factors_below set existing h :
  wf_PlacementHost h →
  Forall (λ f, below 70 (pf_contribution f)) (placement_factors set existing h).
Proof.
  intros ((Hj & Hn) & (Ht & Hf & _) & Hd). unfold placement_factors. cbn zeta.
  repeat apply Forall_cons_2; [..|apply Forall_nil_2]; (apply factor_below; [by vm_compute|]).
  - by apply normalize_mem_below.
  - by apply compute_below.
  - by case_match.
  - case_match eqn:E; [by vm_compute|]. apply locality_below; [done|lia].
  - by case_match.
  - apply preference_below.
Qed.

Lemma sum_below d fs x :
  below d x → 0 <= d → d + 2 * Z.of_nat (length fs) <= 960 →
  Forall (λ f, below d (pf_contribution f)) fs →
  below (d + 2 * Z.of_nat (length fs)) (foldl (λ total f, f64_add total (pf_contribution f)) x fs).
Proof.
  revert d x. induction fs as [|f fs IH]; intros d x Hx Hd Hl Hfs.
  - by rewrite Z.add_0_r.
  - apply Forall_cons in Hfs as [Hf Hfs]. cbn [foldl length].
    replace (d + 2 * Z.of_nat (S (length fs))) with (d + 2 + 2 * Z.of_nat (length fs)) by lia.
    cbn [length] in Hl. apply IH; [apply add_below; (done || lia)|lia|lia|].
    eapply Forall_impl; [exact Hfs|]. intros g Hg. by apply (below_weaken d); [|lia].
Qed.

(** The total of a host whose fields fit their types is a number, far from the limits. *)
Lemma candidate_below set existing h :
  wf_PlacementHost h → below 82 (pc_total (candidate set existing h)).
Proof.
  intros Hh. unfold candidate. cbn zeta. case_match; [done|].
  apply (sum_below 70 (placement_factors set existing h) (f64_of_Z 0)); [done|lia|by cbn|].
  by apply placement_factors_below.
Qed.
