(* ===== verification/PlacementProps.v ===== *)
(** What the placement engine guarantees.

    The theorems about src/placement.cpp: the hard constraints decide, the scores
    choose among the hosts that meet them, and the order of the inputs does not
    matter. *)

From S2P Require Import Prelude Identity Enums Model Authority Doubles Placement.

(** The candidate that was chosen, and the others. *)
Definition chosen_best (d : PlacementDecision) : Prop :=
  ∃ b, b ∈ pd_candidates d ∧ pc_host b = pd_chosen d ∧ pc_eligible b = true ∧
    ∀ c, c ∈ pd_candidates d → pc_eligible c = true → better c b = false.

Lemma candidates_hosts set hosts existing :
  pc_host <$> (candidate set existing <$> stable_sort host_ltb hosts) ≡ₚ hosts.
Proof.
  rewrite <-list_fmap_compose. rewrite <-(stable_sort_perm host_ltb hosts) at 2.
  rewrite <-(list_fmap_id (stable_sort host_ltb hosts)) at 2. apply reflexive_eq.
  apply list_fmap_ext. intros i h _. apply candidate_fields.
Qed.

(** C28: every host gets one candidate, eligible exactly when the host meets the hard
    constraints (backend, compute capability, memory, accelerators) and otherwise
    rejected with the first one it fails; a placement is found exactly when some host
    meets them, and is one of those hosts; and when the hosts' numbers fit their types
    every total is a number below 2^82 in magnitude, and no eligible candidate has a
    greater total than the chosen one, or the same total and a smaller key. *)
Theorem place_decides set hosts existing :
  let d := place set hosts existing in
  pc_host <$> pd_candidates d ≡ₚ hosts ∧
  (∀ c, c ∈ pd_candidates d →
    (pc_eligible c = true ↔ satisfies set (pc_host c)) ∧
    pc_rejection c = hard_reject set (pc_host c)) ∧
  (pd_placed d = true ↔ ∃ h, h ∈ hosts ∧ satisfies set h) ∧
  (pd_placed d = true → pd_chosen d ∈ hosts ∧ satisfies set (pd_chosen d)) ∧
  (Forall wf_PlacementHost hosts →
    (∀ c, c ∈ pd_candidates d → below 82 (pc_total c)) ∧ (pd_placed d = true → chosen_best d)).
Proof.
  unfold place. set (cs := candidate set existing <$> stable_sort host_ltb hosts).
  assert (Hperm : pc_host <$> cs ≡ₚ hosts) by apply candidates_hosts.
  assert (Hc : ∀ c, c ∈ cs → (pc_eligible c = true ↔ satisfies set (pc_host c)) ∧
                             pc_rejection c = hard_reject set (pc_host c)).
  { intros c (h & -> & _)%list_elem_of_fmap.
    destruct (candidate_fields set existing h) as (-> & ? & ?). done. }
  assert (Hin : ∀ c, c ∈ cs → pc_host c ∈ hosts).
  { intros c Hcs. rewrite <-Hperm. by apply list_elem_of_fmap_2. }
  assert (Hex : (∃ c, c ∈ cs ∧ pc_eligible c = true) ↔ ∃ h, h ∈ hosts ∧ satisfies set h).
  { split.
    - intros (c & Hcs & He). exists (pc_host c). split; [by apply Hin|by apply (Hc c)].
    - intros (h & Hh & Hs). rewrite <-Hperm in Hh. apply list_elem_of_fmap in Hh as (c & -> & Hcs).
      exists c. split; [done|by apply (Hc c)]. }
  assert (Hnum : Forall wf_PlacementHost hosts → ∀ c, c ∈ cs → below 82 (pc_total c)).
  { intros Hwf c Hcs. pose proof (Hin c Hcs) as Hc'.
    apply list_elem_of_fmap in Hcs as (h & -> & _). apply candidate_below.
    apply (proj1 (Forall_forall _ _) Hwf). by destruct (candidate_fields set existing h) as (<- & _). }
  destruct (select cs) as [b|] eqn:Hsel; cbn [pd_candidates pd_placed pd_chosen].
  - destruct (select_elem cs b Hsel) as [Hb Eb]. split_and!; [done|done|..].
    + split; [|done]. intros _. apply Hex. eauto.
    + intros _. split; [by apply Hin|by apply (Hc b)].
    + intros Hwf. split; [by apply Hnum|]. intros _. exists b.
      assert (Hs : ∀ c, c ∈ cs → pc_eligible c = true → scored c).
      { intros c Hcs _. by apply (below_number 82), Hnum. }
      pose proof (select_spec cs Hs) as Hspec. rewrite Hsel in Hspec.
      by destruct Hspec as (_ & _ & ?).
  - assert (Hnone : ¬ ∃ h, h ∈ hosts ∧ satisfies set h).
    { rewrite <-Hex. intros (c & Hcs & He). apply select_None with (c := c) in Hsel; congruence. }
    split_and!; [done|done|done|done|]. intros Hwf. split; [by apply Hnum|done].
Qed.

Lemma existsb_perm {A} (f : A → bool) l l' : l ≡ₚ l' → existsb f l = existsb f l'.
Proof. induction 1; simpl; [done|congruence| |congruence]. by destruct (f x), (f y). Qed.

Lemma candidate_existing set existing existing' h :
  existing ≡ₚ existing' → candidate set existing h = candidate set existing' h.
Proof.
  intros Hp. unfold candidate. cbn zeta.
  assert (E : placement_factors set existing h = placement_factors set existing' h); [|by rewrite E].
  unfold placement_factors.
  assert (Es : ∀ doms, shared_domain existing h doms = shared_domain existing' h doms).
  { induction doms as [|dom doms IH]; [done|]. cbn [shared_domain]. rewrite IH.
    unfold occupied. by rewrite (existsb_perm _ _ _ Hp). }
  by rewrite Es.
Qed.

(** C40: the decision depends on neither the order in which the hosts are listed, as long
    as no two of them share worker identity and device, nor the order of the replicas
    already placed: ties are broken deterministically. *)
Theorem place_order_independent set hosts hosts' existing existing' :
  NoDup (host_key <$> hosts) → hosts ≡ₚ hosts' → existing ≡ₚ existing' →
  place set hosts existing = place set hosts' existing'.
Proof.
  intros Hnd Hh He. unfold place. rewrite (sorted_hosts_unique _ _ Hnd Hh).
  assert (E : candidate set existing <$> stable_sort host_ltb hosts' =
              candidate set existing' <$> stable_sort host_ltb hosts').
  { apply list_fmap_ext. intros i h _. by apply candidate_existing. }
  by rewrite E.
Qed.

(** ** Two hosts *)

Definition demo_inventory (free : Z) : ResourceInventory :=
  mkResourceInventory 100 free 1 [] [mkBackendCapability BackendKind.TRITON "triton-3" (mkComputeCapability 12 0) NumericMode.FP16].
Definition demo_host (n : Z) (name : string) (free : Z) (warm : bool) : PlacementHost :=
  mkPlacementHost (mkId 0 n) null null name EmptyString EmptyString []
    (mkDeviceCapability AcceleratorKind.CUDA "cuda:0" (mkComputeCapability 12 0) 100)
    (demo_inventory free) 0 warm.
Definition spread_set : ReplicaSetState :=
  mkReplicaSetState null null null null 1 1 2 null null null null ReplicaSetLifecycle.CREATED
    default_CompatibilityRequirements default_PolicyBundle
    (mkPlacementPolicy ["host"%string] [] true EmptyString EmptyString EmptyString EmptyString 0)
    BackendKind.TRITON "triton-3" (mkComputeCapability 8 0) 10 1.
Definition placed_on (name : string) : PlacedReplica :=
  mkPlacedReplica null name EmptyString EmptyString [].

(** Anti-affinity is one weighted factor: a host that already holds a replica of the set
    is chosen over a free one that meets every constraint, although the policy sets
    [require_diversity]. *)
Lemma anti_affinity_overridden :
  pl_require_diversity (s_placement_policy spread_set) = true ∧
  pd_chosen (place spread_set [demo_host 1 "a" 100 true; demo_host 2 "b" 10 false] [placed_on "a"]) =
    demo_host 1 "a" 100 true ∧
  hard_reject spread_set (demo_host 2 "b" 10 false) = EmptyString ∧
  occupied [placed_on "a"] (demo_host 1 "a" 100 true) "host" = true.
Proof. by vm_compute. Qed.

Lemma place_order_independent_witness :
  NoDup (host_key <$> [demo_host 1 "a" 100 true; demo_host 2 "b" 10 false]) ∧
  place spread_set [demo_host 1 "a" 100 true; demo_host 2 "b" 10 false] [] =
  place spread_set [demo_host 2 "b" 10 false; demo_host 1 "a" 100 true] [].
Proof.
  assert (Hnd : NoDup (host_key <$> [demo_host 1 "a" 100 true; demo_host 2 "b" 10 false]))
    by (apply (bool_decide_unpack _); by vm_compute).
  split; [exact Hnd|].
  apply (place_order_independent spread_set); [exact Hnd|apply Permutation_swap|done].
Defined.

(** The replica goes to the warm host. *)
Lemma place_decides_witness :
  let d := place spread_set [demo_host 1 "a" 100 true; demo_host 2 "b" 5 false] [] in
  pd_placed d = true ∧ pd_chosen d = demo_host 1 "a" 100 true ∧ chosen_best d.
Proof.
  cbn zeta. set (d := place _ _ _).
  assert (Hp : pd_placed d = true) by by vm_compute.
  split_and!; [exact Hp|by vm_compute|].
  apply (place_decides spread_set [demo_host 1 "a" 100 true; demo_host 2 "b" 5 false] []); [|exact Hp].
  repeat constructor; (done || (cbn; lia)).
Defined.
