(* ===== verification/Kernel.v ===== *)
(** The device code (src/cuda/cuda_replica.cu, [rf_scale_add]).

    A thread of the kernel is a small program of loads and stores in the device's memory;
    a launch makes one thread per index of the grid, and the device runs their accesses in
    any order.  [grid_result] shows that every complete order computes the same buffer:
    the kernel has no race, and no order gets stuck or runs for ever. *)

From S2P Require Import Prelude Doubles.

(** ** [float] *)

Abbreviation f32 := spec_float (only parsing).
Definition f32_of_Z (z : Z) : f32 := binary_normalize 24 128 z 0 false.
Definition f32_add (x y : f32) : f32 := SFadd 24 128 x y.
Definition f32_mul (x y : f32) : f32 := SFmul 24 128 x y.
Definition f32_sub (x y : f32) : f32 := SFsub 24 128 x y.
Definition f32_div (x y : f32) : f32 := SFdiv 24 128 x y.
(** [float] to [double]: every finite single is a double. *)
Definition f64_of_f32 (x : f32) : f64 :=
  match x with
  | S754_finite s m e => binary_normalize 53 1024 (cond_Zopp s (Zpos m)) e s
  | _ => x
  end.

(** [x * 2.0f + 1.0f]. *)
Definition scale_add (x : f32) : f32 := f32_add (f32_mul x (f32_of_Z 2)) (f32_of_Z 1).

(** ** Threads *)

(** A device pointer, null being 0, and the buffers allocated. *)
Abbreviation DevPtr := Z (only parsing).
Abbreviation DevMem := (gmap Z (list spec_float)) (only parsing).

Inductive Thread :=
  | Exited
  | Load (p : DevPtr) (i : Z) (k : f32 → Thread)
  | Store (p : DevPtr) (i : Z) (v : f32) (k : Thread).

(** The body of [rf_scale_add], with the built-in variables it reads. *)
Definition rf_scale_add (inp out : DevPtr) (n : Z) (blockIdx blockDim threadIdx : Z) : Thread :=
  let i := i32 (u32 (blockIdx * blockDim + threadIdx)) in
  if i <? n then Load inp i (λ v, Store out i (scale_add v) Exited) else Exited.

(** [kernel<<<blocks, threads>>>(...)]: the threads of the grid, block by block. *)
Definition grid (blocks threads : Z) (kernel : Z → Z → Z → Thread) : list Thread :=
  (λ j, kernel (j / threads) threads (j mod threads)) <$> seqZ 0 (blocks * threads).

(** One access of a thread; an access outside a buffer has no step. *)
Inductive thread_step : DevMem → Thread → DevMem → Thread → Prop :=
  | step_load m p i k (buf : list spec_float) v :
      0 <= i → m !! p = Some buf → buf !! Z.to_nat i = Some v →
      thread_step m (Load p i k) m (k v)
  | step_store m p i v k (buf : list spec_float) :
      0 <= i → m !! p = Some buf → (Z.to_nat i < length buf)%nat →
      thread_step m (Store p i v k) (<[p := <[Z.to_nat i := v]> buf]> m) k.

Definition GridState : Type := gmap Z (list spec_float) * list Thread.
Inductive grid_step : GridState → GridState → Prop :=
  | step_thread m ts j t m' t' :
      ts !! j = Some t → thread_step m t m' t' → grid_step (m, ts) (m', <[j := t']> ts).

(** Every thread has returned. *)
Definition exited (t : Thread) : bool := match t with Exited => true | _ => false end.
Definition grid_done (s : GridState) : Prop := Forall (λ t, exited t = true) s.2.

(** ** The kernel has no race *)

(** What the kernel makes of a buffer: its first [n] numbers. *)
Definition scaled (n : Z) (inp out : list f32) : list f32 :=
  (scale_add <$> take (Z.to_nat n) inp) ++ drop (Z.to_nat n) out.

(** The grid covers the indices below [n], in [int] range. *)
Record covers (blocks threads n : Z) : Prop := {
  cov_threads : 0 < threads;
  cov_blocks : 0 <= blocks;
  cov_n : n <= blocks * threads;
  cov_int : blocks * threads <= 2 ^ 31;
}.

(** The accesses a grid's threads still have to make. *)
Definition weight (t : Thread) : nat :=
  match t with Exited => 0 | Load _ _ _ => 2 | Store _ _ _ _ => 1 end.
Definition remaining (s : GridState) : nat := sum_list_with weight s.2.

Lemma insert_sum_list {A} (f : A → nat) (l : list A) j x y :
  l !! j = Some x →
  (sum_list_with f (<[j := y]> l) + f x = sum_list_with f l + f y)%nat.
Proof.
  revert j. induction l as [|z l IH]; intros [|j] Hj; simplify_eq/=; [lia|].
  specialize (IH j Hj). lia.
Qed.

Section race.
Context (inp out : DevPtr) (m0 : gmap Z (list spec_float)) (a b : list spec_float) (n blocks threads : Z).
Context (Ha : m0 !! inp = Some a) (Hb : m0 !! out = Some b) (Hne : inp ≠ out).
Context (Hn : 0 <= n) (Hla : n <= Z.of_nat (length a)) (Hlb : n <= Z.of_nat (length b)).
Context (Hc : covers blocks threads n).

Definition start_threads : list Thread := grid blocks threads (rf_scale_add inp out n).

(** Where thread [j] may be, and what the output holds at its index then. *)
Inductive at_point (j : nat) (o : list spec_float) : Thread → Prop :=
  | at_idle : n <= Z.of_nat j → at_point j o Exited
  | at_load : Z.of_nat j < n → o !! j = b !! j →
      at_point j o (Load inp (Z.of_nat j) (λ v, Store out (Z.of_nat j) (scale_add v) Exited))
  | at_store v : Z.of_nat j < n → o !! j = b !! j → a !! j = Some v →
      at_point j o (Store out (Z.of_nat j) (scale_add v) Exited)
  | at_exit v : Z.of_nat j < n → a !! j = Some v → o !! j = Some (scale_add v) →
      at_point j o Exited.

(** The memory differs from the start in the output only, below [n]. *)
Definition grid_inv (s : GridState) : Prop :=
  ∃ o, s.1 = <[out := o]> m0 ∧ length o = length b ∧
    length s.2 = Z.to_nat (blocks * threads) ∧
    (∀ j t, s.2 !! j = Some t → at_point j o t) ∧
    (∀ j, n <= Z.of_nat j → o !! j = b !! j).

Lemma start_thread j :
  (j < Z.to_nat (blocks * threads))%nat →
  start_threads !! j = Some
    (if Z.of_nat j <? n
     then Load inp (Z.of_nat j) (λ v, Store out (Z.of_nat j) (scale_add v) Exited) else Exited).
Proof.
  intros Hj. destruct Hc. unfold start_threads, grid. rewrite list_lookup_fmap, lookup_seqZ_lt by lia.
  cbn [fmap option_fmap option_map]. rewrite Z.add_0_l. unfold rf_scale_add.
  replace (Z.of_nat j / threads * threads + Z.of_nat j mod threads) with (Z.of_nat j).
  2: { rewrite Z.mul_comm. apply Z.div_mod. lia. }
  rewrite u32_small by (unfold in_u32; lia).
  replace (i32 (Z.of_nat j)) with (Z.of_nat j); [done|]. unfold i32. rewrite Z.mod_small; lia.
Qed.

Lemma start_inv : grid_inv (m0, start_threads).
Proof.
  exists b. cbn [fst snd]. split_and!; [by rewrite insert_id|done|..|done].
  - unfold start_threads, grid. by rewrite length_fmap, length_seqZ.
  - intros j t Ht. pose proof (lookup_lt_Some _ _ _ Ht) as Hj.
    unfold start_threads, grid in Hj. rewrite length_fmap, length_seqZ in Hj.
    rewrite start_thread in Ht by done. injection Ht as <-.
    destruct (Z.ltb_spec (Z.of_nat j) n); by constructor.
Qed.

(** An access keeps the invariant: a thread touches its own index only. *)
Lemma at_point_insert j k o v t :
  j ≠ k → at_point j o t → at_point j (<[k := v]> o) t.
Proof.
  intros Hjk Ht. assert (E : (<[k := v]> o : list spec_float) !! j = o !! j) by
    by rewrite list_lookup_insert_ne.
  inversion Ht; subst; [by apply at_idle|by apply at_load; rewrite ?E|
    by apply (at_store _ _ v0); rewrite ?E|by apply (at_exit _ _ v0); rewrite ?E].
Qed.

Lemma grid_step_inv s s' : grid_inv s → grid_step s s' → grid_inv s'.
Proof.
  intros (o & Em & Elo & Elt & Hts & Hrest) Hs. destruct Hs as [m ts j t m' t' Hj Hstep].
  cbn [fst snd] in *. subst m. pose proof (Hts j t Hj) as Ht.
  pose proof (lookup_lt_Some _ _ _ Hj) as Hlt.
  assert (Hin : <[out := o]> m0 !! inp = Some a) by by rewrite lookup_insert_ne.
  inversion Ht; subst; inversion Hstep; subst; simplify_eq; rewrite ?Nat2Z.id in *.
  - exists o. cbn [fst snd]. split_and!; [done|done|by rewrite length_insert| |done].
    intros k t Hk. apply list_lookup_insert_Some in Hk as [(<- & <- & _)|[_ Hk]]; [|by apply Hts].
    by apply at_store.
  - match goal with H : <[out := o]> m0 !! out = Some _ |- _ =>
      rewrite lookup_insert_eq in H; injection H as <- end.
    exists (<[j := scale_add v]> o). cbn [fst snd].
    split_and!; [by rewrite insert_insert_eq|by rewrite length_insert|by rewrite length_insert| |].
    + intros k t Hk. apply list_lookup_insert_Some in Hk as [(<- & <- & _)|[Hne' Hk]].
      * apply (at_exit _ _ v); [done..|]. by apply list_lookup_insert_eq.
      * apply at_point_insert; [done|]. by apply Hts.
    + intros k Hk. rewrite list_lookup_insert_ne by lia. by apply Hrest.
Qed.

Lemma steps_inv' s s' : rtc grid_step s s' → grid_inv s → grid_inv s'.
Proof. induction 1; eauto using grid_step_inv. Qed.

(** A grid whose threads have all returned holds the result. *)
Lemma done_scaled s : grid_inv s → grid_done s → s.1 = <[out := scaled n a b]> m0.
Proof.
  intros (o & Em & Elo & Elt & Hts & Hrest) Hd. rewrite Em. f_equal.
  apply list_eq. intros j. unfold scaled. destruct Hc.
  destruct (Z.lt_ge_cases (Z.of_nat j) n) as [Hj|Hj].
  - assert (Hjt : is_Some (s.2 !! j)) by (apply lookup_lt_is_Some_2; lia).
    destruct Hjt as [t Ht]. pose proof (Hts j t Ht) as Hp.
    unfold grid_done in Hd. rewrite Forall_lookup in Hd. specialize (Hd j t Ht).
    inversion Hp; subst; try done; [lia|]. rewrite lookup_app_l by (rewrite length_fmap, length_take; lia).
    rewrite list_lookup_fmap, lookup_take_lt by lia. by simplify_option_eq.
  - rewrite (Hrest j Hj), lookup_app_r by (rewrite length_fmap, length_take; lia).
    rewrite length_fmap, length_take, lookup_drop. f_equal. lia.
Qed.

Lemma grid_complete s :
  rtc grid_step (m0, start_threads) s → grid_done s → s.1 = <[out := scaled n a b]> m0.
Proof. intros Hs. apply done_scaled. eauto using steps_inv', start_inv. Qed.

(** A grid that is not done can always step. *)
Lemma grid_progress s : grid_inv s → grid_done s ∨ ∃ s', grid_step s s'.
Proof.
  destruct s as [m ts]. intros (o & Em & Elo & Elt & Hts & Hrest). cbn [fst snd] in *. subst m.
  destruct (Forall_Exists_dec (λ t, exited t = true) (λ t, exited t = false)
    (λ t, Sumbool.sumbool_of_bool (exited t)) ts) as [Hd|He]; [by left|].
  right. apply Exists_exists in He as (t & [j Hj]%list_elem_of_lookup & Hx).
  pose proof (Hts j t Hj) as Ht.
  assert (Hin : <[out := o]> m0 !! inp = Some a) by by rewrite lookup_insert_ne.
  inversion Ht; subst; try done.
  - destruct (lookup_lt_is_Some_2 a j) as [v Hv]; [lia|].
    eexists. eapply (step_thread _ _ j _ _ _ Hj).
    apply (step_load _ _ _ _ a v); [lia|done|by rewrite Nat2Z.id].
  - eexists. eapply (step_thread _ _ j _ _ _ Hj).
    apply (step_store _ _ _ _ _ o); [lia|apply lookup_insert_eq|rewrite Nat2Z.id; lia].
Qed.

(** Every access brings its thread nearer to its end, so no order runs for ever. *)
Lemma step_remaining s s' : grid_inv s → grid_step s s' → (remaining s' < remaining s)%nat.
Proof.
  intros (o & _ & _ & _ & Hts & _) Hs. destruct Hs as [m ts j t m' t' Hj Hstep].
  cbn [fst snd] in *. pose proof (Hts j t Hj) as Ht. unfold remaining. cbn [snd].
  pose proof (insert_sum_list weight ts j t t' Hj).
  inversion Ht; subst; inversion Hstep; subst; cbn [weight] in *; lia.
Qed.

Lemma steps_remaining k s s' :
  nsteps grid_step k s s' → grid_inv s → (k + remaining s' ≤ remaining s)%nat.
Proof.
  induction 1 as [|k s s' s'' Hs _ IH]; [lia|]. intros Hi.
  pose proof (step_remaining _ _ Hi Hs). specialize (IH (grid_step_inv _ _ Hi Hs)). lia.
Qed.

Lemma start_remaining : (remaining (m0, start_threads) ≤ 2 * Z.to_nat (blocks * threads))%nat.
Proof.
  unfold remaining, start_threads, grid. cbn [snd].
  rewrite <-(length_seqZ 0 (blocks * threads)). generalize (seqZ 0 (blocks * threads)) as js.
  induction js as [|j js IH]; [done|]. rewrite fmap_cons. cbn [length sum_list_with].
  assert ((weight (rf_scale_add inp out n (j / threads) threads (j mod threads)) ≤ 2)%nat);
    [unfold rf_scale_add; case_match; simpl; lia|]. lia.
Qed.
(** From the launch. *)
Lemma reached_progress s :
  rtc grid_step (m0, start_threads) s → grid_done s ∨ ∃ s', grid_step s s'.
Proof. intros Hs. apply grid_progress. eauto using steps_inv', start_inv. Qed.

Lemma reached_remaining k s :
  nsteps grid_step k (m0, start_threads) s → (k ≤ 2 * Z.to_nat (blocks * threads))%nat.
Proof.
  intros Hs. pose proof (steps_remaining k _ s Hs start_inv). pose proof start_remaining. lia.
Qed.
End race.

(** C34: launched over a grid that covers the buffer, the kernel computes [x * 2 + 1] of every
    element whatever order the device runs its threads' loads and stores in, leaves the
    rest of the device's memory alone, never gets stuck outside a buffer, and ends after
    at most two accesses per thread. *)
Theorem kernel_race_free inp out m0 (a b : list spec_float) n blocks threads :
  m0 !! inp = Some a → m0 !! out = Some b → inp ≠ out → 0 <= n →
  n <= Z.of_nat (length a) → n <= Z.of_nat (length b) → covers blocks threads n →
  let s0 := (m0, grid blocks threads (rf_scale_add inp out n)) in
  (∀ s, rtc grid_step s0 s → grid_done s → s.1 = <[out := scaled n a b]> m0) ∧
  (∀ s, rtc grid_step s0 s → grid_done s ∨ ∃ s', grid_step s s') ∧
  (∀ k s, nsteps grid_step k s0 s → (k ≤ 2 * Z.to_nat (blocks * threads))%nat).
Proof.
  intros Ha Hb Hne Hn Hla Hlb Hc s0.
  split_and!.
  - intros s. by apply grid_complete.
  - intros s. by eapply reached_progress.
  - intros k s. by eapply reached_remaining.
Qed.
