(* ===== verification/Cuda.v ===== *)
(** The CUDA replica path (src/cuda/cuda_replica.cu, cuda/cuda_replica.hpp,
    examples/cuda_demo.cpp).

    Cold start, warmup, execution with CPU verification, and teardown, as functions on the
    four globals of the module, the device, and the host arrays allocated with [new].  The
    CUDA runtime is an interface, [CudaRuntime], with the documented behaviour the code
    relies on, [CudaLaws]; the kernel it launches is the one of Kernel.v. *)

From S2P Require Import Prelude Doubles Kernel.

Abbreviation cudaError_t := Z (only parsing).
Definition cudaSuccess : cudaError_t := 0.

(** [D] is the state of the device and its driver. *)
Class CudaRuntime (D : Type) := {
  cudaGetDeviceCount : D → cudaError_t * Z;
  (** The major and minor compute capability; its error code is ignored. *)
  cudaGetDeviceProperties : Z → D → Z * Z;
  cudaSetDevice : Z → D → cudaError_t * D;
  (** Free and total bytes. *)
  cudaMemGetInfo : D → cudaError_t * (Z * Z);
  (** [cudaMalloc(&p, bytes)]: the value of [p] before and after. *)
  cudaMalloc : DevPtr → Z → D → cudaError_t * DevPtr * D;
  cudaFree : DevPtr → D → D;
  cudaMemcpyHostToDevice : DevPtr → list f32 → D → cudaError_t * D;
  (** [cudaMemcpy(host, p, ...)]: the floats to copy, over the host array as it was. *)
  cudaMemcpyDeviceToHost : list f32 → DevPtr → nat → D → cudaError_t * list f32 * D;
  (** A kernel launch, asynchronous: the threads of its grid. *)
  cudaLaunch : list Thread → D → D;
  cudaDeviceSynchronize : D → cudaError_t * D;
  cudaDeviceReset : D → cudaError_t * D;
  cudaGetErrorString : cudaError_t → string;
}.

(** [device_mem] is what is allocated on the device.  An allocation that succeeds makes a
    new buffer (or, of no bytes, may return null) and one that fails leaves the pointer
    alone; a free removes its buffer, and of null does nothing; a copy that succeeds copies;
    no other call changes which buffers there are.

    A launch may fail - no kernel image for the device, a grid of no blocks or too many -
    and says so only through [cudaGetLastError], which the code never calls: [launched]
    is whether it did not.  A synchronization that succeeds after a launch means that the
    threads of a successful launch have run to their end, in some order, and that one that
    failed ran none. *)
Class CudaLaws (D : Type) `{CudaRuntime D} := {
  device_mem : D → gmap Z (list spec_float);
  null_unmapped d : device_mem d !! 0 = None;
  set_device_mem i d : device_mem (cudaSetDevice i d).2 = device_mem d;
  malloc_mem p bytes d err p' d' : cudaMalloc p bytes d = (err, p', d') → 0 <= bytes →
    (err = cudaSuccess ∧ p' ≠ 0 ∧ device_mem d !! p' = None ∧
     ∃ buf : list spec_float, length buf = Z.to_nat (bytes / 4) ∧
       device_mem d' = <[p' := buf]> (device_mem d)) ∨
    (err = cudaSuccess ∧ bytes = 0 ∧ p' = 0 ∧ device_mem d' = device_mem d) ∨
    (err ≠ cudaSuccess ∧ p' = p ∧ device_mem d' = device_mem d);
  free_device_mem p d : device_mem (cudaFree p d) = delete p (device_mem d);
  to_device_sizes p src d :
    length <$> device_mem (cudaMemcpyHostToDevice p src d).2 = length <$> device_mem d;
  to_device_copies p src d d' (buf : list spec_float) :
    cudaMemcpyHostToDevice p src d = (cudaSuccess, d') → device_mem d !! p = Some buf →
    (length src ≤ length buf)%nat →
    device_mem d' = <[p := src ++ drop (length src) buf]> (device_mem d);
  to_host_mem dst p n d : device_mem (cudaMemcpyDeviceToHost dst p n d).2 = device_mem d;
  to_host_copies dst p n d dst' d' (buf : list spec_float) :
    cudaMemcpyDeviceToHost dst p n d = (cudaSuccess, dst', d') → device_mem d !! p = Some buf →
    (n ≤ length buf)%nat → dst' = take n buf ++ drop n dst;
  launch_sizes ts d : length <$> device_mem (cudaLaunch ts d) = length <$> device_mem d;
  sync_sizes d : length <$> device_mem (cudaDeviceSynchronize d).2 = length <$> device_mem d;
  launched : list Thread → D → bool;
  launch_runs ts d d' : launched ts d = true →
    cudaDeviceSynchronize (cudaLaunch ts d) = (cudaSuccess, d') →
    ∃ s, rtc grid_step (device_mem d, ts) s ∧ grid_done s ∧ device_mem d' = s.1;
  launch_lost ts d d' : launched ts d = false →
    cudaDeviceSynchronize (cudaLaunch ts d) = (cudaSuccess, d') → device_mem d' = device_mem d;
  reset_mem d d' : cudaDeviceReset d = (cudaSuccess, d') → device_mem d' = ∅;
}.

(** [CudaDeviceInfo] and [CudaPathResult]. *)
Record CudaDeviceInfo := mkCudaDeviceInfo {
  ci_count : Z;
  ci_total_memory : Z;
  ci_free_memory : Z;
  ci_compute_major : Z;
  ci_compute_minor : Z;
}.
Record CudaPathResult := mkCudaPathResult {
  cp_ok : bool;
  cp_error : string;
  cp_kernel_checksum : f64;
  cp_cpu_checksum : f64;
  cp_bytes_allocated : Z;
}.
Definition f64_zero : f64 := S754_zero false.
Definition cuda_failed (error : string) : CudaPathResult :=
  mkCudaPathResult false error f64_zero f64_zero 0.

(** The globals of the module, the device, and how many arrays [new] has handed out. *)
Record Cuda (D : Type) := mkCuda {
  g_d_in : DevPtr;
  g_d_out : DevPtr;
  g_allocated : Z;
  g_pre_start_free : Z;
  device : D;
  host_arrays : nat;
}.
Arguments mkCuda {D} _ _ _ _ _ _.
Arguments g_d_in {D} _.
Arguments g_d_out {D} _.
Arguments g_allocated {D} _.
Arguments g_pre_start_free {D} _.
Arguments device {D} _.
Arguments host_arrays {D} _.

(** A call returns, [new float[n]] throws on a negative size, or a signed multiplication
    overflows. *)
Inductive HostCall (A : Type) :=
  | HostReturns (x : A)
  | BadArrayLength
  | SignedOverflow.
Arguments HostReturns {A} _.
Arguments BadArrayLength {A}.
Arguments SignedOverflow {A}.

Section cuda.
Context `{CudaRuntime D}.
Implicit Types s : Cuda D.

Definition succeeded (e : cudaError_t) : bool := e =? cudaSuccess.

Definition on_device (d : D) s : Cuda D :=
  mkCuda (g_d_in s) (g_d_out s) (g_allocated s) (g_pre_start_free s) d (host_arrays s).
Definition set_in (p : DevPtr) s : Cuda D :=
  mkCuda p (g_d_out s) (g_allocated s) (g_pre_start_free s) (device s) (host_arrays s).
Definition set_out (p : DevPtr) s : Cuda D :=
  mkCuda (g_d_in s) p (g_allocated s) (g_pre_start_free s) (device s) (host_arrays s).

Definition free_mem s : Z :=
  let '(e, (free_b, _)) := cudaMemGetInfo (device s) in
  if negb (succeeded e) then 0 else u64 free_b.

Definition cuda_device_info s : CudaDeviceInfo :=
  let '(e, count) := cudaGetDeviceCount (device s) in
  if negb (succeeded e) then mkCudaDeviceInfo count 0 0 0 0
  else if count <? 1 then mkCudaDeviceInfo count 0 0 0 0
  else
    let '(major, minor) := cudaGetDeviceProperties 0 (device s) in
    let '(e, (free_b, total_b)) := cudaMemGetInfo (device s) in
    if succeeded e then mkCudaDeviceInfo count (u64 total_b) (u64 free_b) major minor
    else mkCudaDeviceInfo count 0 0 major minor.

Definition cuda_replica_start (max_bytes index : Z) s : CudaPathResult * Cuda D :=
  let '(de, d) := cudaSetDevice index (device s) in
  let s := on_device d s in
  if negb (succeeded de)
  then (cuda_failed ("cudaSetDevice failed: " ++ cudaGetErrorString de), s)
  else
    let s := mkCuda (g_d_in s) (g_d_out s) (g_allocated s) (free_mem s) (device s) (host_arrays s) in
    let '(e, (free_b, _)) := cudaMemGetInfo (device s) in
    if negb (succeeded e) then (cuda_failed "cudaMemGetInfo failed", s)
    else
      let bytes := Z.min max_bytes (u64 free_b / 2) in
      let '(e, p, d) := cudaMalloc (g_d_in s) bytes (device s) in
      let s := set_in p (on_device d s) in
      if negb (succeeded e) then (cuda_failed "cudaMalloc d_in failed", s)
      else
        let '(e, p, d) := cudaMalloc (g_d_out s) bytes (device s) in
        let s := set_out p (on_device d s) in
        if negb (succeeded e)
        then (cuda_failed "cudaMalloc d_out failed",
              set_in 0 (on_device (cudaFree (g_d_in s) (device s)) s))
        else
          let s := mkCuda (g_d_in s) (g_d_out s) bytes (g_pre_start_free s) (device s)
                     (host_arrays s) in
          let '(e, d) := cudaDeviceSynchronize (device s) in
          let s := on_device d s in
          if negb (succeeded e) then (cuda_failed "device sync failed", s)
          else (mkCudaPathResult true "cold start ok" f64_zero f64_zero bytes, s).

(** [new float[n]] and [delete[]], and freeing a device buffer. *)
Definition new_array s : Cuda D :=
  mkCuda (g_d_in s) (g_d_out s) (g_allocated s) (g_pre_start_free s) (device s) (S (host_arrays s)).
Definition delete_array s : Cuda D :=
  mkCuda (g_d_in s) (g_d_out s) (g_allocated s) (g_pre_start_free s) (device s)
    (pred (host_arrays s)).
Definition cuda_free (p : DevPtr) s : Cuda D := on_device (cudaFree p (device s)) s.

(** The warmup data: [i % 7] as floats. *)
Definition warm_data (count : Z) : list f32 := (λ i, f32_of_Z (Z.rem i 7)) <$> seqZ 0 count.

(** The body of [cuda_replica_warm] from the host array on, [count] being [n * 4]. *)
Definition warm_buffer (count : Z) s : HostCall CudaPathResult * Cuda D :=
  let h := warm_data count in
  let size := u64 (u64 count * 4) in
  let s := new_array s in
  let '(e, b, d) := cudaMalloc 0 size (device s) in
  let s := on_device d s in
  if negb (succeeded e) then (HostReturns (cuda_failed "warm alloc failed"), delete_array s)
  else
    let '(e, d) := cudaMemcpyHostToDevice b h (device s) in
    let s := on_device d s in
    if negb (succeeded e)
    then (HostReturns (cuda_failed "warm memcpy failed"), cuda_free b (delete_array s))
    else
      let '(e, b2, d) := cudaMalloc 0 size (device s) in
      let s := on_device d s in
      if negb (succeeded e)
      then (HostReturns (cuda_failed "warm out alloc failed"), cuda_free b (delete_array s))
      else if 2 ^ 31 <=? count + 255 then (SignedOverflow, s)
      else
        let blocks := Z.quot (count + 255) 256 in
        let s := on_device (cudaLaunch (grid blocks 256 (rf_scale_add b b2 count)) (device s)) s in
        let '(k, d) := cudaDeviceSynchronize (device s) in
        let s := delete_array (cuda_free b2 (cuda_free b (on_device d s))) in
        (HostReturns
           (if negb (succeeded k)
            then cuda_failed ("warmup kernel failed: " ++ cudaGetErrorString k)
            else mkCudaPathResult true "warm ok" f64_zero f64_zero (g_allocated s)), s).

Definition cuda_replica_warm (bytes : Z) s : HostCall CudaPathResult * Cuda D :=
  let '(e, d) := cudaSetDevice 0 (device s) in
  let s := on_device d s in
  if negb (succeeded e) then (HostReturns (cuda_failed "device reset needed"), s)
  else
    let n := i32 (bytes / 4 / 4) in
    if negb (bool_decide (- 2 ^ 31 <= n * 4 < 2 ^ 31)) then (SignedOverflow, s)
    else if n * 4 <? 0 then (BadArrayLength, s)
    else warm_buffer (n * 4) s.

(** The two running sums of the verification loop. *)
Definition checksum (l : list f32) : f64 :=
  foldl (λ acc x, f64_add acc (f64_of_f32 x)) f64_zero l.
(** [fabs(kern - cpu) > 1e-3 * n]; the literal is the double nearest to it. *)
Definition f64_milli : f64 := f64_div (f64_of_Z 1) (f64_of_Z 1000).
Definition verification_failed (kern cpu : f64) (n : Z) : bool :=
  f64_ltb (f64_mul f64_milli (f64_of_Z n)) (SFabs (SFsub 53 1024 kern cpu)).

(** [n] is a [size_t]; [host_in] and [host_out] hold at least [n] floats. *)
Definition cuda_replica_execute (host_in host_out : list f32) (n : Z) s :
    CudaPathResult * list f32 * Cuda D :=
  if (g_d_in s =? 0) || (g_d_out s =? 0) then (cuda_failed "replica not started", host_out, s)
  else
    let need := u64 (n * 4) in
    if g_allocated s <? need then (cuda_failed "buffer too small", host_out, s)
    else
      let '(e, d) := cudaMemcpyHostToDevice (g_d_in s) (take (Z.to_nat (need / 4)) host_in) (device s) in
      let s := on_device d s in
      if negb (succeeded e) then (cuda_failed "H2D failed", host_out, s)
      else
        let blocks := i32 (u64 (n + 255) / 256) in
        let s := on_device
          (cudaLaunch (grid blocks 256 (rf_scale_add (g_d_in s) (g_d_out s) (i32 n))) (device s)) s in
        let '(e, d) := cudaDeviceSynchronize (device s) in
        let s := on_device d s in
        if negb (succeeded e) then (cuda_failed "kernel sync failed", host_out, s)
        else
          let '(e, out, d) :=
            cudaMemcpyDeviceToHost host_out (g_d_out s) (Z.to_nat (need / 4)) (device s) in
          let s := on_device d s in
          if negb (succeeded e) then (cuda_failed "D2H failed", out, s)
          else
            let kern := checksum (take (Z.to_nat n) out) in
            let cpu := checksum (scale_add <$> take (Z.to_nat n) host_in) in
            if verification_failed kern cpu n
            then (cuda_failed "CPU reference verification failed", out, s)
            else (mkCudaPathResult true "execute ok" kern cpu (g_allocated s), out, s).

Definition cuda_replica_teardown s : CudaPathResult * Cuda D :=
  let s := if g_d_in s =? 0 then s else set_in 0 (cuda_free (g_d_in s) s) in
  let s := if g_d_out s =? 0 then s else set_out 0 (cuda_free (g_d_out s) s) in
  let '(e, d) := cudaDeviceSynchronize (device s) in
  let s := on_device d s in
  if negb (succeeded e) then (cuda_failed "teardown sync failed", s)
  else
    let '(e, d) := cudaDeviceReset (device s) in
    let s := on_device d s in
    if negb (succeeded e) then (cuda_failed "device reset failed", s)
    else
      let recovered := g_pre_start_free s <=? free_mem s in
      (mkCudaPathResult recovered
         (if recovered then "teardown ok; memory recovered"
          else "teardown: memory not fully recovered") f64_zero f64_zero 0, s).

(** ** The demonstration program *)

(** [in[i] = (i % 101) / 7.0f], and the spot check of the outputs [0, 4099, 8198, ...]
    against [1e-4f]. *)
Definition demo_size : Z := 2 ^ 20.
Definition demo_input : list f32 :=
  (λ i, f32_div (f32_of_Z (i mod 101)) (f32_of_Z 7)) <$> seqZ 0 demo_size.
Definition f32_tolerance : f32 := f32_div (f32_of_Z 1) (f32_of_Z 10000).
Definition spot_ok (x y : f32) : bool :=
  negb (SFltb f32_tolerance (SFabs (f32_sub y (scale_add x)))).
Fixpoint spot_check (fuel : nat) (i : Z) (inp out : list f32) : bool :=
  match fuel with
  | O => true
  | S fuel' =>
      if demo_size <=? i then true
      else if spot_ok (nth (Z.to_nat i) inp S754_nan) (nth (Z.to_nat i) out S754_nan)
      then spot_check fuel' (i + 4099) inp out else false
  end.

(** [main] of cuda_demo.cpp: its exit code; [None] when the warmup does not return. *)
Definition cuda_demo s : option Z * Cuda D :=
  let info := cuda_device_info s in
  if ci_count info <? 1 then (Some 2, s)
  else
    let buf_bytes := 64 * 1024 * 1024 in
    let '(start, s) := cuda_replica_start buf_bytes 0 s in
    if negb (cp_ok start) then (Some 1, s)
    else
      match cuda_replica_warm (buf_bytes / 4) s with
      | (HostReturns warm, s) =>
          if negb (cp_ok warm) then (Some 1, s)
          else
            let '(exec, out, s) :=
              cuda_replica_execute demo_input (replicate (Z.to_nat demo_size) (S754_zero false))
                demo_size s in
            if negb (cp_ok exec) then (Some 1, s)
            else if negb (spot_check (Z.to_nat demo_size) 0 demo_input out) then (Some 1, s)
            else
              let '(teardown, s) := cuda_replica_teardown s in
              if negb (cp_ok teardown) then (Some 1, s) else (Some 0, s)
      | (_, s) => (None, s)
      end.
End cuda.
#[global] Opaque demo_size demo_input.
