(* ===== verification/CudaToy.v ===== *)
(** A concrete device for the witnesses of the CUDA theorems.

    It allocates at addresses not yet in use, fails the allocations that do not fit, and
    runs the threads of a launch one after the other when it synchronizes; after a given
    number of launches the next ones fail.  It keeps the laws of [CudaLaws], which are therefore satisfiable. *)

From S2P Require Import Prelude Doubles Kernel Cuda.

Record ToyGpu := mkToy {
  toy_cells : gmap Z (list spec_float);
  toy_queue : list Thread;
  toy_launches : nat;
}.

(** Nothing is ever allocated at null. *)
Definition toy_mem (d : ToyGpu) : gmap Z (list spec_float) := delete 0 (toy_cells d).

Fixpoint toy_thread (fuel : nat) (t : Thread) (m : gmap Z (list spec_float)) :
    option (gmap Z (list spec_float)) :=
  match fuel with
  | O => None
  | S fuel' =>
      match t with
      | Exited => Some m
      | Load p i k => buf ← m !! p; v ← buf !! Z.to_nat i;
                      if 0 <=? i then toy_thread fuel' (k v) m else None
      | Store p i v k => buf ← m !! p;
                         if (0 <=? i) && (Z.to_nat i <? length buf)%nat
                         then toy_thread fuel' k (<[p := <[Z.to_nat i := v]> buf]> m) else None
      end
  end.
Fixpoint toy_run (ts : list Thread) (m : gmap Z (list spec_float)) :
    option (gmap Z (list spec_float)) :=
  match ts with
  | [] => Some m
  | t :: ts' => m ← toy_thread 3 t m; toy_run ts' m
  end.

(** An address above every buffer. *)
Definition toy_next (m : gmap Z (list spec_float)) : Z := 1 + foldr Z.max 0 (map_to_list m).*1.

Definition toy_capacity : Z := 64 * 1024.
Definition toy_used (m : gmap Z (list spec_float)) : Z :=
  4 * Z.of_nat (sum_list_with length (map_to_list m).*2).

#[global] Instance toy_runtime : CudaRuntime ToyGpu := {
  cudaGetDeviceCount d := (0, 1);
  cudaGetDeviceProperties i d := (12, 0);
  cudaSetDevice i d := (0, d);
  cudaMemGetInfo d := (0, (toy_capacity - toy_used (toy_mem d), toy_capacity));
  cudaMalloc p bytes d :=
    let q := toy_next (toy_mem d) in
    if toy_used (toy_mem d) + bytes <=? toy_capacity
    then (0, q, mkToy (<[q := replicate (Z.to_nat (bytes / 4)) S754_nan]> (toy_mem d)) (toy_queue d) (toy_launches d))
    else (2, p, d);
  cudaFree p d := mkToy (delete p (toy_mem d)) (toy_queue d) (toy_launches d);
  cudaMemcpyHostToDevice p src d :=
    match toy_mem d !! p with
    | Some buf => if (length src <=? length buf)%nat
                  then (0, mkToy (<[p := src ++ drop (length src) buf]> (toy_mem d)) (toy_queue d) (toy_launches d))
                  else (1, d)
    | None => (1, d)
    end;
  cudaMemcpyDeviceToHost dst p n d :=
    match toy_mem d !! p with
    | Some buf => (0, take n buf ++ drop n dst, d)
    | None => (1, dst, d)
    end;
  cudaLaunch ts d :=
    match toy_launches d with
    | O => mkToy (toy_mem d) [] O
    | S k => mkToy (toy_mem d) ts k
    end;
  cudaDeviceSynchronize d :=
    match toy_run (toy_queue d) (toy_mem d) with
    | Some m => (0, mkToy m [] (toy_launches d))
    | None => (1, mkToy (toy_mem d) [] (toy_launches d))
    end;
  cudaDeviceReset d := (0, mkToy ∅ [] (toy_launches d));
  cudaGetErrorString e := "error"%string;
}.

(** ** The laws hold *)

Lemma toy_mem_insert p buf d q k :
  p ≠ 0 → toy_mem (mkToy (<[p := buf]> (toy_mem d)) q k) = <[p := buf]> (toy_mem d).
Proof.
  intros Hp. unfold toy_mem. cbn [toy_cells]. rewrite delete_insert_ne by auto.
  by rewrite delete_delete_eq.
Qed.

Lemma sizes_insert (m : gmap Z (list spec_float)) p (buf buf' : list spec_float) :
  m !! p = Some buf → length buf' = length buf →
  length <$> <[p := buf']> m = length <$> m.
Proof.
  intros Hp Hl. rewrite fmap_insert, Hl. apply insert_id. by rewrite lookup_fmap, Hp.
Qed.

Lemma toy_thread_steps fuel t m m' (ts : list Thread) j :
  ts !! j = Some t → toy_thread fuel t m = Some m' →
  rtc grid_step (m, ts) (m', <[j := Exited]> ts) ∧ length <$> m' = length <$> m.
Proof.
  revert t m ts. induction fuel as [|fuel IH]; intros t m ts Hj Ht; [done|].
  destruct t as [|p i k|p i v k]; cbn [toy_thread] in Ht.
  - injection Ht as <-. by rewrite list_insert_id.
  - destruct (m !! p) as [buf|] eqn:Hp; [|done]. cbn [mbind option_bind] in Ht.
    destruct (buf !! Z.to_nat i) as [v|] eqn:Hv; [|done]. cbn [mbind option_bind] in Ht.
    destruct (Z.leb_spec 0 i); [|done].
    destruct (IH (k v) m (<[j := k v]> ts)) as [Hr Hs];
      [apply list_lookup_insert_eq; by eapply lookup_lt_Some|done|].
    rewrite list_insert_insert_eq in Hr. split; [|done]. eapply rtc_l; [|exact Hr].
    apply (step_thread _ _ j _ _ _ Hj). by apply (step_load _ _ _ _ buf).
  - destruct (m !! p) as [buf|] eqn:Hp; [|done]. cbn [mbind option_bind] in Ht.
    destruct (Z.leb_spec 0 i); [|done]. cbn [andb] in Ht.
    destruct (Nat.ltb_spec (Z.to_nat i) (length buf)); [|done].
    destruct (IH k (<[p := <[Z.to_nat i := v]> buf]> m) (<[j := k]> ts)) as [Hr Hs];
      [apply list_lookup_insert_eq; by eapply lookup_lt_Some|done|].
    rewrite list_insert_insert_eq in Hr. split.
    + eapply rtc_l; [|exact Hr]. apply (step_thread _ _ j _ _ _ Hj). by apply step_store.
    + rewrite Hs. apply (sizes_insert _ _ buf); [done|]. apply length_insert.
Qed.

Lemma toy_run_steps ts m m' (pre : list Thread) :
  toy_run ts m = Some m' → Forall (λ t, exited t = true) pre →
  (∃ post, rtc grid_step (m, pre ++ ts) (m', post) ∧ Forall (λ t, exited t = true) post) ∧
  length <$> m' = length <$> m.
Proof.
  revert m pre. induction ts as [|t ts IH]; intros m pre Hr Hpre; cbn [toy_run] in Hr.
  { injection Hr as <-. split; [|done]. exists pre. by rewrite app_nil_r. }
  destruct (toy_thread 3 t m) as [m1|] eqn:Et; [|done]. cbn in Hr.
  destruct (toy_thread_steps 3 t m m1 (pre ++ t :: ts) (length pre)) as [Hs Hl];
    [by apply list_lookup_middle|done|].
  rewrite insert_app_r_alt, Nat.sub_diag in Hs by lia. cbn in Hs.
  destruct (IH m1 (pre ++ [Exited]) Hr) as [(post & Hp & Hd) Hl'].
  { apply Forall_app. split; [done|]. by constructor. }
  rewrite <-app_assoc in Hp. split; [|congruence]. exists post. split; [by etrans|done].
Qed.

(** A run allocates nothing, so nothing at null either. *)
Lemma toy_mem_run ts d m' q k :
  toy_run ts (toy_mem d) = Some m' → toy_mem (mkToy m' q k) = m'.
Proof.
  intros Hr. destruct (toy_run_steps _ _ _ [] Hr) as [_ Hs]; [done|].
  unfold toy_mem at 1. cbn. apply delete_id.
  assert (E : (length <$> m') !! 0 = (length <$> toy_mem d) !! 0) by by rewrite Hs.
  rewrite !lookup_fmap in E. unfold toy_mem in E. rewrite lookup_delete_eq in E.
  by destruct (m' !! 0).
Qed.

Lemma toy_mem_same d q k : toy_mem (mkToy (toy_mem d) q k) = toy_mem d.
Proof. unfold toy_mem. cbn. apply delete_delete_eq. Qed.

Lemma toy_mem_null d : toy_mem d !! 0 = None.
Proof. apply lookup_delete_eq. Qed.

Lemma max_upper (l : list Z) x : x ∈ l → x <= foldr Z.max 0 l.
Proof. induction 1; cbn; lia. Qed.
Lemma max_nonneg (l : list Z) : 0 <= foldr Z.max 0 l.
Proof. induction l; cbn; lia. Qed.

Lemma toy_next_fresh m : toy_next m ≠ 0 ∧ m !! toy_next m = None.
Proof.
  unfold toy_next. pose proof (max_nonneg (map_to_list m).*1). split; [lia|].
  destruct (m !! _) as [buf|] eqn:E; [|done]. apply elem_of_map_to_list in E.
  apply (list_elem_of_fmap_2 fst), max_upper in E. cbn [fst] in E. lia.
Qed.

Lemma toy_malloc p bytes d err p' d' :
  cudaMalloc p bytes d = (err, p', d') → 0 <= bytes →
  (err = cudaSuccess ∧ p' ≠ 0 ∧ toy_mem d !! p' = None ∧
   ∃ buf : list spec_float, length buf = Z.to_nat (bytes / 4) ∧
     toy_mem d' = <[p' := buf]> (toy_mem d)) ∨
  (err = cudaSuccess ∧ bytes = 0 ∧ p' = 0 ∧ toy_mem d' = toy_mem d) ∨
  (err ≠ cudaSuccess ∧ p' = p ∧ toy_mem d' = toy_mem d).
Proof.
  unfold cudaMalloc. cbn [toy_runtime]. intros E Hb.
  destruct (toy_next_fresh (toy_mem d)) as [Hq Hd].
  set (q := toy_next _) in *. clearbody q.
  case_match; injection E as <- <- <-; [left|right; right; by split_and!].
  split_and!; [done..|].
  eexists. split; [apply length_replicate|]. by apply toy_mem_insert.
Qed.

Lemma toy_to_device p src d :
  (length <$> toy_mem (cudaMemcpyHostToDevice p src d).2 = length <$> toy_mem d) ∧
  ∀ d' (buf : list spec_float), cudaMemcpyHostToDevice p src d = (cudaSuccess, d') →
    toy_mem d !! p = Some buf → (length src ≤ length buf)%nat →
    toy_mem d' = <[p := src ++ drop (length src) buf]> (toy_mem d).
Proof.
  unfold cudaMemcpyHostToDevice. cbn [toy_runtime].
  destruct (toy_mem d !! p) as [buf|] eqn:Hp; [|done].
  assert (p ≠ 0) by (intros ->; by rewrite toy_mem_null in Hp).
  destruct (Nat.leb_spec (length src) (length buf)); [|done]. cbn [snd]. split.
  - rewrite toy_mem_insert by done. apply (sizes_insert _ _ buf); [done|].
    rewrite length_app, length_drop. lia.
  - intros d' buf' [= <-] [= <-] _. by apply toy_mem_insert.
Qed.

Lemma toy_sync d :
  (length <$> toy_mem (cudaDeviceSynchronize d).2 = length <$> toy_mem d) ∧
  ∀ d', cudaDeviceSynchronize d = (cudaSuccess, d') →
    ∃ s, rtc grid_step (toy_mem d, toy_queue d) s ∧ grid_done s ∧ toy_mem d' = s.1.
Proof.
  unfold cudaDeviceSynchronize. cbn [toy_runtime].
  destruct (toy_run (toy_queue d) (toy_mem d)) as [m|] eqn:Hr; cbn [snd].
  - rewrite (toy_mem_run _ _ _ _ _ Hr).
    destruct (toy_run_steps _ _ _ [] Hr) as [(post & Hs & Hd) Hl]; [done|]. split; [done|].
    intros d' [= <-]. exists (m, post). split_and!; [done..|]. by apply (toy_mem_run _ _ _ _ _ Hr).
  - split; [|done]. unfold toy_mem. cbn [toy_cells]. by rewrite delete_delete_eq.
Qed.

#[global] Instance toy_laws : CudaLaws ToyGpu.
Proof.
  refine {| device_mem := toy_mem; malloc_mem := toy_malloc;
            launched _ d := (0 <? toy_launches d)%nat |}.
  - apply toy_mem_null.
  - done.
  - intros p d. change (toy_mem (mkToy (delete p (toy_mem d)) (toy_queue d) (toy_launches d)) = delete p (toy_mem d)).
    unfold toy_mem. cbn [toy_cells]. by rewrite (delete_delete _ 0 p), delete_delete_eq.
  - intros p src d. apply toy_to_device.
  - intros p src d d' buf. apply toy_to_device.
  - intros dst p n d. unfold cudaMemcpyDeviceToHost. cbn. by destruct (toy_mem d !! p).
  - intros dst p n d dst' d' buf. unfold cudaMemcpyDeviceToHost. cbn. intros E Hp _.
    rewrite Hp in E. by injection E as <- _.
  - intros ts d. unfold cudaLaunch. cbn [toy_runtime]. case_match; by rewrite toy_mem_same.
  - intros d. apply toy_sync.
  - intros ts d d' Hl E. apply toy_sync in E. unfold cudaLaunch in E.
    cbn [toy_runtime] in E. destruct (toy_launches d); [done|]. by rewrite toy_mem_same in E.
  - intros ts d d' Hl E. unfold cudaLaunch, cudaDeviceSynchronize in E.
    cbn [toy_runtime] in E. destruct (toy_launches d); [|done]. cbn [toy_queue toy_run] in E.
    injection E as <-. by rewrite !toy_mem_same.
  - intros d d' [= <-]. apply delete_empty.
Defined.

(** A device with nothing allocated that launches four kernels, and an input. *)
Definition toy_empty : ToyGpu := mkToy ∅ [] 4.
Definition toy_input : list spec_float := f32_of_Z <$> [1; 2; 3; 4; 5].
