(* ===== verification/CudaProps.v ===== *)
(** What the CUDA replica path guarantees.

    Every pointer the module hands to the runtime is null or an allocated buffer big
    enough for the call; the warmup gives back what it takes on every path; an execution
    that reports success passed the host's own check, and computed the kernel's function
    unless its launch failed, which the code does not look at; and a demonstration that
    exits 0 leaves nothing allocated. *)

From S2P Require Import Prelude Doubles Kernel Cuda CudaToy.

(** ** The verification *)

(** No sign bit: what sums of magnitudes and products of them are. *)
Definition unsigned (f : f64) : Prop :=
  match f with S754_finite s _ _ | S754_infinity s => s = false | _ => True end.

Lemma round_unsigned m e : unsigned (binary_round 53 1024 false m e).
Proof. unfold binary_round, binary_round_aux. by repeat case_match. Qed.

Lemma of_Z_unsigned n : 0 <= n → unsigned (f64_of_Z n).
Proof. intros Hn. destruct n; [done|apply round_unsigned|lia]. Qed.

Lemma milli_unsigned : unsigned f64_milli.
Proof. by vm_compute. Qed.

Lemma mul_unsigned x y : unsigned x → unsigned y → unsigned (f64_mul x y).
Proof.
  unfold f64_mul, SFmul, binary_round_aux. destruct x as [sx|sx| |sx mx ex], y as [sy|sy| |sy my ey];
    cbn; try done; intros -> ->; try done. by repeat case_match.
Qed.

(** A sum compared with itself differs by zero or by nothing comparable. *)
Lemma sub_self p e x : SFsub p e x x = S754_nan ∨ ∃ s, SFsub p e x x = S754_zero s.
Proof.
  destruct x as [s|s| |s m ex]; cbn; [right|left|by left|right].
  - destruct s; eauto.
  - by destruct s.
  - rewrite Z.sub_diag. eauto.
Qed.

Lemma not_below_zero t s : unsigned t → f64_ltb t (SFabs (S754_zero s)) = false.
Proof. destruct t as [|[]| |[] ? ?]; by cbn. Qed.

Lemma verification_self x n : 0 <= n → verification_failed x x n = false.
Proof.
  intros Hn. unfold verification_failed.
  assert (Ht : unsigned (f64_mul f64_milli (f64_of_Z n))) by
    auto using mul_unsigned, milli_unsigned, of_Z_unsigned.
  destruct (sub_self 53 1024 x) as [->|[s ->]]; [|by apply not_below_zero].
  by destruct (f64_mul _ _) as [| | |[]].
Qed.

Section cuda_laws.
Context `{CudaLaws D}.
Implicit Types s : Cuda D.

(** How many floats each buffer of the device holds. *)
Definition sizes (d : D) : gmap Z nat := length <$> device_mem d.

Lemma sizes_null d : sizes d !! 0 = None.
Proof. unfold sizes. by rewrite lookup_fmap, null_unmapped. Qed.

Lemma sizes_set_device i d : sizes (cudaSetDevice i d).2 = sizes d.
Proof. unfold sizes. by rewrite set_device_mem. Qed.

Lemma sizes_free p d : sizes (cudaFree p d) = delete p (sizes d).
Proof. unfold sizes. by rewrite free_device_mem, fmap_delete. Qed.

Lemma sizes_to_host dst p n d : sizes (cudaMemcpyDeviceToHost dst p n d).2 = sizes d.
Proof. unfold sizes. by rewrite to_host_mem. Qed.

(** The outcomes of an allocation: a new buffer, null for no bytes, or a failure. *)
Inductive allocated (p : DevPtr) (bytes : Z) (d : D) : cudaError_t * DevPtr * D → Prop :=
  | alloc_new p' d' :
      p' ≠ 0 → sizes d !! p' = None → sizes d' = <[p' := Z.to_nat (bytes / 4)]> (sizes d) →
      allocated p bytes d (cudaSuccess, p', d')
  | alloc_null d' : bytes = 0 → sizes d' = sizes d → allocated p bytes d (cudaSuccess, 0, d')
  | alloc_failed err d' :
      err ≠ cudaSuccess → sizes d' = sizes d → allocated p bytes d (err, p, d').

Lemma malloc_allocated p bytes d : 0 <= bytes → allocated p bytes d (cudaMalloc p bytes d).
Proof.
  intros Hb. destruct (cudaMalloc p bytes d) as [[err p'] d'] eqn:E.
  destruct (malloc_mem _ _ _ _ _ _ E Hb) as
    [(-> & Hp & Hn & buf & Hl & Hm)|[(-> & -> & -> & Hm)|(He & -> & Hm)]].
  - apply alloc_new; [done|unfold sizes; by rewrite lookup_fmap, Hn|].
    unfold sizes. by rewrite Hm, fmap_insert, Hl.
  - apply alloc_null; [done|]. unfold sizes. by rewrite Hm.
  - apply alloc_failed; [done|]. unfold sizes. by rewrite Hm.
Qed.

(** Freeing what an allocation that succeeded returned undoes it. *)
Lemma allocated_free p bytes d p' d' :
  allocated p bytes d (cudaSuccess, p', d') → delete p' (sizes d') = sizes d.
Proof.
  intros Ha. inversion Ha as [p1 d1 Hp Hn E|d1 Hb E|err d1 He E]; subst; [| |done]; rewrite E.
  - by apply delete_insert_id.
  - apply delete_id, sizes_null.
Qed.

Lemma allocated_two p q bytes d b d1 b2 d2 :
  allocated p bytes d (cudaSuccess, b, d1) → ∀ d1', sizes d1' = sizes d1 →
  allocated q bytes d1' (cudaSuccess, b2, d2) →
  delete b2 (delete b (sizes d2)) = sizes d.
Proof.
  intros H1 d1' E H2. rewrite delete_delete, (allocated_free _ _ _ _ _ H2), E.
  by apply (allocated_free _ _ _ _ _ H1).
Qed.

(** ** Warmup *)

(** What a call of the warmup leaves as it was: the globals, the device's buffers and the
    arrays of the host. *)
Record kept s s' : Prop := {
  kept_in : g_d_in s' = g_d_in s;
  kept_out : g_d_out s' = g_d_out s;
  kept_allocated : g_allocated s' = g_allocated s;
  kept_free : g_pre_start_free s' = g_pre_start_free s;
  kept_sizes : sizes (device s') = sizes (device s);
  kept_arrays : host_arrays s' = host_arrays s;
}.

Lemma warm_buffer_kept count s :
  0 <= count < 2 ^ 31 - 255 →
  ∃ r s', warm_buffer count s = (HostReturns r, s') ∧ kept s s' ∧
    (cp_ok r = true → cp_bytes_allocated r = g_allocated s).
Proof.
  intros Hc. unfold warm_buffer. cbv zeta. set (size := u64 _).
  assert (Hs : 0 <= size) by (unfold size, u64; apply Z.mod_pos_bound; lia).
  pose proof (malloc_allocated 0 size (device (new_array s)) Hs) as H1.
  destruct (cudaMalloc _ _ _) as [[e1 b] d1]. unfold succeeded. cbn [device on_device].
  destruct (Z.eqb_spec e1 cudaSuccess) as [->|He1]; cbn [negb].
  2: { do 2 eexists. split; [done|]. split; [|done]. inversion H1; subst; by split. }
  pose proof (to_device_sizes b (warm_data count) d1) as H2. fold (sizes d1) in H2.
  destruct (cudaMemcpyHostToDevice _ _ _) as [e2 d2]. cbn [snd device on_device] in *.
  fold (sizes d2) in H2.
  destruct (Z.eqb_spec e2 cudaSuccess) as [->|He2]; cbn [negb].
  2: { do 2 eexists. split; [done|]. split; [|done]. split; try done. cbn.
       rewrite sizes_free, H2. by apply (allocated_free _ _ _ _ _ H1). }
  pose proof (malloc_allocated 0 size d2 Hs) as H3.
  destruct (cudaMalloc _ _ _) as [[e3 b2] d3]. cbn [device on_device] in *.
  destruct (Z.eqb_spec e3 cudaSuccess) as [->|He3]; cbn [negb].
  2: { do 2 eexists. split; [done|]. split; [|done]. split; try done. cbn.
       inversion H3; subst; try done. rewrite sizes_free.
       match goal with E : sizes d3 = _ |- _ => rewrite E, H2 end.
       by apply (allocated_free _ _ _ _ _ H1). }
  rewrite (proj2 (Z.leb_gt _ _)) by lia.
  set (d4 := cudaLaunch _ _). pose proof (sync_sizes d4) as H4.
  destruct (cudaDeviceSynchronize d4) as [k d5]. cbn [snd] in H4.
  do 2 eexists. split; [done|]. split; [|by case_match].
  split; try done. cbn. rewrite !sizes_free.
  unfold sizes at 1. rewrite H4. unfold d4. rewrite launch_sizes. fold (sizes d3).
  by apply (allocated_two _ _ _ _ _ _ _ _ H1 d2 H2 H3).
Qed.

Lemma warm_cases bytes s :
  0 <= bytes < 2 ^ 33 - 1024 →
  ∃ r s', cuda_replica_warm bytes s = (HostReturns r, s') ∧ kept s s' ∧
    (cp_ok r = true → cp_bytes_allocated r = g_allocated s).
Proof.
  intros Hb. unfold cuda_replica_warm. pose proof (sizes_set_device 0 (device s)) as Hd.
  destruct (cudaSetDevice 0 (device s)) as [e d]. cbn [snd] in Hd.
  destruct (succeeded e); cbn [negb].
  2: { do 2 eexists. split; [done|]. split; [by split|done]. }
  assert (Hn : 0 <= bytes / 4 / 4 <= 2 ^ 29 - 65).
  { split; [apply Z.div_pos; [apply Z.div_pos|]; lia|].
    rewrite Z.div_div by lia. apply Z.lt_succ_r, Z.div_lt_upper_bound; lia. }
  assert (Hi : i32 (bytes / 4 / 4) = bytes / 4 / 4) by (unfold i32; rewrite Z.mod_small; lia).
  rewrite Hi, bool_decide_true by lia. cbn [negb].
  rewrite (proj2 (Z.ltb_ge _ _)) by lia.
  destruct (warm_buffer_kept (bytes / 4 / 4 * 4) (on_device d s)) as (r & s' & Hr & Hk & Ha); [lia|].
  exists r, s'. split; [done|]. split; [|done]. destruct Hk. split; try done. by rewrite <-Hd.
Qed.

(** ** The module's invariant *)

(** A pointer of the module is null or a buffer of at least the bytes recorded. *)
Definition buffer_ok (sz : gmap Z nat) (bytes : Z) (p : DevPtr) : Prop :=
  p = 0 ∨ ∃ k, sz !! p = Some k ∧ bytes / 4 <= Z.of_nat k.

Record cuda_inv s : Prop := {
  ci_in : buffer_ok (sizes (device s)) (g_allocated s) (g_d_in s);
  ci_out : buffer_ok (sizes (device s)) (g_allocated s) (g_d_out s);
  ci_distinct : g_d_in s = 0 ∨ g_d_in s ≠ g_d_out s;
  ci_bytes : 0 <= g_allocated s;
}.

Lemma cuda_inv_same s s' :
  cuda_inv s → g_d_in s' = g_d_in s → g_d_out s' = g_d_out s → g_allocated s' = g_allocated s →
  sizes (device s') = sizes (device s) → cuda_inv s'.
Proof. intros [] E1 E2 E3 E4. split; by rewrite ?E1, ?E2, ?E3, ?E4. Qed.

Lemma kept_inv s s' : kept s s' → cuda_inv s → cuda_inv s'.
Proof. intros [] Hi. by apply (cuda_inv_same s). Qed.

Lemma buffer_grow sz bytes p q k : sz !! q = None → buffer_ok sz bytes p → buffer_ok (<[q := k]> sz) bytes p.
Proof.
  intros Hq [->|(j & Hj & Hl)]; [by left|]. right. exists j. split; [|done].
  rewrite lookup_insert_ne; [done|congruence].
Qed.

Lemma buffer_new sz bytes p : 0 <= bytes → buffer_ok (<[p := Z.to_nat (bytes / 4)]> sz) bytes p.
Proof.
  intros Hb. right. eexists. split; [apply lookup_insert_eq|].
  pose proof (Z.div_pos bytes 4). lia.
Qed.

Lemma allocated_buffer p bytes d p' d' b q :
  allocated p bytes d (cudaSuccess, p', d') → buffer_ok (sizes d) b q → buffer_ok (sizes d') b q.
Proof.
  intros Ha Hq. inversion Ha as [p1 d1 Hp Hn E|d1 Hb E|err d1 He E]; subst; [| |done]; rewrite E;
    [by apply buffer_grow|done].
Qed.

Lemma allocated_new p bytes d p' d' :
  0 <= bytes → allocated p bytes d (cudaSuccess, p', d') → buffer_ok (sizes d') bytes p'.
Proof.
  intros Hb Ha. inversion Ha as [p1 d1 Hp Hn E|d1 Hz E|err d1 He E]; subst; [|by left|done].
  rewrite E. by apply buffer_new.
Qed.

Lemma allocated_fresh p bytes d p' d' b q :
  allocated p bytes d (cudaSuccess, p', d') → buffer_ok (sizes d) b q → q = 0 ∨ q ≠ p'.
Proof.
  intros Ha [->|(k & Hk & _)]; [by left|]. right. intros ->.
  inversion Ha; subst; [congruence|by rewrite sizes_null in Hk|done].
Qed.

(** ** Cold start *)

(** What a start leaves: on success two new buffers of the recorded size, on failure
    nothing new on the device, except that a failed synchronization keeps both. *)
Definition start_post (max_bytes : Z) s (r : CudaPathResult) s' : Prop :=
  cuda_inv s' ∧ host_arrays s' = host_arrays s ∧
  (cp_ok r = true →
     cp_bytes_allocated r = g_allocated s' ∧ g_allocated s' <= max_bytes ∧
     delete (g_d_out s') (delete (g_d_in s') (sizes (device s'))) = sizes (device s)) ∧
  (cp_ok r = false → sizes (device s') = sizes (device s) ∨
     cp_error r = "device sync failed"%string ∧
     delete (g_d_out s') (delete (g_d_in s') (sizes (device s'))) = sizes (device s)).

(** From the first buffer on. *)
Definition start_second (bytes : Z) s : CudaPathResult * Cuda D :=
  let '(e, p, d) := cudaMalloc (g_d_out s) bytes (device s) in
  let s := set_out p (on_device d s) in
  if negb (succeeded e)
  then (cuda_failed "cudaMalloc d_out failed",
        set_in 0 (on_device (cudaFree (g_d_in s) (device s)) s))
  else
    let s := mkCuda (g_d_in s) (g_d_out s) bytes (g_pre_start_free s) (device s) (host_arrays s) in
    let '(e, d) := cudaDeviceSynchronize (device s) in
    let s := on_device d s in
    if negb (succeeded e) then (cuda_failed "device sync failed", s)
    else (mkCudaPathResult true "cold start ok" f64_zero f64_zero bytes, s).

Lemma start_second_post max_bytes bytes s p d d1 :
  0 <= bytes <= max_bytes → cuda_inv s → sizes d = sizes (device s) →
  allocated (g_d_in s) bytes d (cudaSuccess, p, d1) →
  ∀ free, let s2 := mkCuda p (g_d_out s) (g_allocated s) free d1 (host_arrays s) in
  let '(r, s') := start_second bytes s2 in start_post max_bytes s r s'.
Proof.
  intros Hb Hi Hd H1 free s2. unfold start_second, succeeded.
  pose proof (malloc_allocated (g_d_out s2) bytes (device s2) (proj1 Hb)) as H2.
  destruct (cudaMalloc _ bytes _) as [[e2 q] d2].
  destruct (Z.eqb_spec e2 cudaSuccess) as [->|He2]; cbn [negb].
  - cbn [device on_device set_out g_d_in g_d_out s2] in *.
    pose proof (sync_sizes d2) as H3. destruct (cudaDeviceSynchronize d2) as [e3 d3].
    cbn [snd] in H3. fold (sizes d3) (sizes d2) in H3.
    assert (Hfree : delete q (delete p (sizes d3)) = sizes (device s)).
    { rewrite H3, <-Hd. by apply (allocated_two _ _ _ _ _ _ _ _ H1 d1 eq_refl H2). }
    assert (Hi3 : cuda_inv (mkCuda p q bytes free d3 (host_arrays s))).
    { pose proof (allocated_new _ _ _ _ _ (proj1 Hb) H1) as Hp. split; cbn; rewrite ?H3; [| | |lia].
      - by apply (allocated_buffer _ _ _ _ _ _ _ H2).
      - by apply (allocated_new _ _ _ _ _ (proj1 Hb) H2).
      - by apply (allocated_fresh _ _ _ _ _ _ _ H2 Hp). }
    destruct (Z.eqb_spec e3 cudaSuccess) as [->|He3]; cbn [negb];
      (split; [exact Hi3|]; split; [done|]; split; [intros Hok|intros Hok]);
      [split_and!; [done|cbn; lia|exact Hfree]|done|done|right; split; [done|exact Hfree]].
  - inversion H2 as [| |? ? ? E]; subst; try done. cbn [g_d_in device on_device set_out s2] in *.
    assert (Hfree : sizes (cudaFree p d2) = sizes (device s)).
    { rewrite sizes_free, E, <-Hd. by apply (allocated_free _ _ _ _ _ H1). }
    destruct Hi. split_and!; [|done|done|by left].
    split; cbn; rewrite ?Hfree; auto; by left.
Qed.

Lemma start_cases max_bytes index s :
  0 <= max_bytes → cuda_inv s →
  let '(r, s') := cuda_replica_start max_bytes index s in start_post max_bytes s r s'.
Proof.
  intros Hm Hi. unfold cuda_replica_start. cbv zeta.
  pose proof (sizes_set_device index (device s)) as Hd.
  destruct (cudaSetDevice index (device s)) as [de d]. cbn [snd] in Hd.
  unfold succeeded. cbn [device on_device].
  destruct (Z.eqb_spec de cudaSuccess) as [->|He]; cbn [negb].
  2: { split_and!; [by apply (cuda_inv_same s)|done|done|by left]. }
  set (s1 := mkCuda _ _ _ (free_mem _) _ _).
  assert (Hi1 : cuda_inv s1) by by apply (cuda_inv_same s).
  destruct (cudaMemGetInfo _) as [e [free_b total]].
  destruct (Z.eqb_spec e cudaSuccess) as [->|He]; cbn [negb].
  2: { split_and!; [done..|by left]. }
  set (bytes := Z.min max_bytes (u64 free_b / 2)).
  assert (Hb : 0 <= bytes <= max_bytes).
  { unfold bytes. pose proof (Z.div_pos (u64 free_b) 2). pose proof (u64_range free_b).
    unfold in_u64 in *. lia. }
  pose proof (malloc_allocated (g_d_in s1) bytes d (proj1 Hb)) as H1. cbn [g_d_in g_d_out set_in] in *.
  destruct (cudaMalloc _ bytes d) as [[e1 p] d1].
  destruct (Z.eqb_spec e1 cudaSuccess) as [->|He1]; cbn [negb].
  2: { inversion H1 as [| |? ? ? E]; subst; try done.
       split_and!; [apply (cuda_inv_same s); try done; cbn; congruence|done|done|left; cbn; congruence]. }
  apply (start_second_post max_bytes bytes s p d d1 Hb Hi Hd H1).
Qed.

(** ** Execution *)

(** The runtime calls an execution can be refused or lost on. *)
Definition execute_errors : list string :=
  ["replica not started"; "buffer too small"; "H2D failed"; "kernel sync failed"; "D2H failed"]%string.

(** A call that leaves the module's pointers and the device's buffers where they were. *)
Lemma sizes_to_device p src d : sizes (cudaMemcpyHostToDevice p src d).2 = sizes d.
Proof. apply to_device_sizes. Qed.
Lemma sizes_launched ts d : sizes (cudaDeviceSynchronize (cudaLaunch ts d)).2 = sizes d.
Proof. unfold sizes. by rewrite sync_sizes, launch_sizes. Qed.

Lemma buffer_found d bytes p :
  p ≠ 0 → buffer_ok (sizes d) bytes p →
  ∃ buf, device_mem d !! p = Some buf ∧ bytes / 4 <= Z.of_nat (length buf).
Proof.
  intros Hp [->|(k & Hk & Hl)]; [done|]. unfold sizes in Hk.
  rewrite lookup_fmap in Hk. apply fmap_Some in Hk as (buf & Hbuf & ->). eauto.
Qed.

Lemma kernel_blocks n : 0 <= n < 2 ^ 31 → covers (i32 (u64 (n + 255) / 256)) 256 n.
Proof.
  intros Hn. rewrite u64_small by (unfold in_u64; lia).
  pose proof (Z.div_mod (n + 255) 256). pose proof (Z.mod_pos_bound (n + 255) 256).
  unfold i32. rewrite Z.mod_small by lia. split; lia.
Qed.

(** The device side of an execution that synchronizes: what the output buffer then holds. *)
Lemma kernel_outcome p q n d d' a b :
  device_mem d !! p = Some a → device_mem d !! q = Some b → p ≠ q → 0 <= n < 2 ^ 31 →
  n <= Z.of_nat (length a) → n <= Z.of_nat (length b) →
  let ts := grid (i32 (u64 (n + 255) / 256)) 256 (rf_scale_add p q n) in
  cudaDeviceSynchronize (cudaLaunch ts d) = (cudaSuccess, d') →
  device_mem d' !! q = Some (if launched ts d then scaled n a b else b).
Proof.
  intros Ha Hb Hpq Hn Hla Hlb ts Hrun. destruct (launched ts d) eqn:Hl.
  - apply launch_runs in Hrun as (st & Hst & Hd & ->); [|done].
    assert (E : st.1 = <[q := scaled n a b]> (device_mem d)) by
      (eapply grid_complete; eauto using kernel_blocks).
    rewrite E. apply lookup_insert_eq.
  - apply launch_lost in Hrun as ->; done.
Qed.

(** Whether the launch of an execution succeeds, on the device that the copy of its input
    left, and what the output buffer held before. *)
Definition execute_launched (host_in : list spec_float) (n : Z) s : bool :=
  launched (grid (i32 (u64 (n + 255) / 256)) 256 (rf_scale_add (g_d_in s) (g_d_out s) n))
    (cudaMemcpyHostToDevice (g_d_in s) (take (Z.to_nat n) host_in) (device s)).2.
Definition previous_output s : list spec_float :=
  default [] (device_mem (device s) !! g_d_out s).

(** What an execution returns and leaves behind. *)
Record execute_post (host_in host_out : list spec_float) (n : Z) s (r : CudaPathResult)
    (out : list spec_float) s' : Prop := {
  ep_kept : kept s s';
  ep_ok : cp_ok r = true →
    g_d_in s ≠ 0 ∧ g_d_out s ≠ 0 ∧ n * 4 <= g_allocated s ∧
    out = (if execute_launched host_in n s then scale_add <$> take (Z.to_nat n) host_in
           else take (Z.to_nat n) (previous_output s)) ++ drop (Z.to_nat n) host_out ∧
    cp_kernel_checksum r = checksum (take (Z.to_nat n) out) ∧
    cp_cpu_checksum r = checksum (scale_add <$> take (Z.to_nat n) host_in) ∧
    verification_failed (cp_kernel_checksum r) (cp_cpu_checksum r) n = false ∧
    (execute_launched host_in n s = true → cp_kernel_checksum r = cp_cpu_checksum r) ∧
    cp_bytes_allocated r = g_allocated s;
  ep_failed : cp_ok r = false →
    cp_error r ∈ execute_errors ∨
    execute_launched host_in n s = false ∧ cp_error r = "CPU reference verification failed"%string;
}.

Lemma execute_refused host_in host_out n s e out s' :
  kept s s' → e ∈ execute_errors → execute_post host_in host_out n s (cuda_failed e) out s'.
Proof. split; [done..|by left]. Qed.

Lemma scaled_take n (host_in buf b : list spec_float) :
  0 <= n <= Z.of_nat (length host_in) →
  take (Z.to_nat n) (scaled n (take (Z.to_nat n) host_in ++ drop (Z.to_nat n) buf) b) =
  scale_add <$> take (Z.to_nat n) host_in.
Proof.
  intros Hn. assert (Hl : length (take (Z.to_nat n) host_in) = Z.to_nat n).
  { rewrite length_take. lia. }
  unfold scaled. rewrite (take_app_length' (take _ host_in)) by lia.
  rewrite take_app_length'; [done|]. rewrite length_fmap. lia.
Qed.

(** The check of the sums, on what the device returned. *)
Lemma execute_verified host_in host_out n s (b out : list spec_float) s' :
  kept s s' → g_d_in s ≠ 0 → g_d_out s ≠ 0 → 0 <= n → n * 4 <= g_allocated s →
  n <= Z.of_nat (length host_in) → n <= Z.of_nat (length b) →
  device_mem (device s) !! g_d_out s = Some b →
  out = (if execute_launched host_in n s then scale_add <$> take (Z.to_nat n) host_in
         else take (Z.to_nat n) b) ++ drop (Z.to_nat n) host_out →
  let kern := checksum (take (Z.to_nat n) out) in
  let cpu := checksum (scale_add <$> take (Z.to_nat n) host_in) in
  let '(r, out, s') :=
    if verification_failed kern cpu n
    then (cuda_failed "CPU reference verification failed", out, s')
    else (mkCudaPathResult true "execute ok" kern cpu (g_allocated s'), out, s') in
  execute_post host_in host_out n s r out s'.
Proof.
  intros Hk Ei Eo Hn Ha Hli Hlb Hb Hout kern cpu.
  assert (Hkern : execute_launched host_in n s = true → kern = cpu).
  { intros Hl. rewrite Hl in Hout. unfold kern, cpu. rewrite Hout, take_app_length'; [done|].
    rewrite length_fmap, length_take. lia. }
  destruct (verification_failed kern cpu n) eqn:Hv.
  - split; [done..|]. intros _. right. split; [|done].
    destruct (execute_launched host_in n s) eqn:Hl; [|done]. rewrite Hkern, verification_self in Hv by done.
    done.
  - split; [done| |done]. intros _. unfold previous_output. rewrite Hb. cbn [default].
    split_and!; try done. apply Hk.
Qed.

Lemma execute_cases host_in host_out n s :
  cuda_inv s → 0 <= n < 2 ^ 31 → n <= Z.of_nat (length host_in) →
  let '(r, out, s') := cuda_replica_execute host_in host_out n s in
  execute_post host_in host_out n s r out s'.
Proof.
  intros [Hin Hout Hne Ha] Hn Hli. unfold cuda_replica_execute, succeeded. cbv zeta.
  destruct (Z.eqb_spec (g_d_in s) 0) as [Ei|Ei]; [by apply execute_refused; [split|set_solver]|].
  destruct (Z.eqb_spec (g_d_out s) 0) as [Eo|Eo]; [by apply execute_refused; [split|set_solver]|].
  cbn [orb]. rewrite u64_small by (unfold in_u64; lia).
  destruct (Z.ltb_spec (g_allocated s) (n * 4)) as [Hb|Hb];
    [by apply execute_refused; [split|set_solver]|].
  rewrite Z.div_mul by lia.
  assert (Hq : n <= g_allocated s / 4) by (apply Z.div_le_lower_bound; lia).
  destruct (buffer_found _ _ _ Ei Hin) as (bi & Hbi & Hli').
  destruct (buffer_found _ _ _ Eo Hout) as (bo & Hbo & Hlo').
  set (src := take (Z.to_nat n) host_in).
  assert (Hsrc : length src = Z.to_nat n) by (unfold src; rewrite length_take; lia).
  pose proof (sizes_to_device (g_d_in s) src (device s)) as S1.
  assert (Hla : execute_launched host_in n s = launched (grid (i32 (u64 (n + 255) / 256)) 256
    (rf_scale_add (g_d_in s) (g_d_out s) n)) (cudaMemcpyHostToDevice (g_d_in s) src (device s)).2) by done.
  destruct (cudaMemcpyHostToDevice _ src _) as [e d1] eqn:E1. cbn [snd] in S1, Hla.
  destruct (Z.eqb_spec e cudaSuccess) as [->|He]; cbn [negb];
    [|by apply execute_refused; [split|set_solver]].
  apply (to_device_copies _ _ _ _ bi) in E1; [|done|lia].
  cbn [device on_device g_d_in g_d_out] in *.
  replace (i32 n) with n by (unfold i32; rewrite Z.mod_small; lia).
  set (ts := grid _ _ _). pose proof (sizes_launched ts d1) as S2.
  destruct (cudaDeviceSynchronize (cudaLaunch ts d1)) as [e2 d2] eqn:E2. cbn [snd] in S2.
  destruct (Z.eqb_spec e2 cudaSuccess) as [->|He]; cbn [negb];
    [|by apply execute_refused; [split; try done; cbn; congruence|set_solver]].
  eapply (kernel_outcome _ _ n d1 d2 (src ++ drop (length src) bi) bo) in E2;
    [|rewrite E1; apply lookup_insert_eq|rewrite E1; by rewrite lookup_insert_ne by naive_solver
     |naive_solver|lia|rewrite length_app, length_drop; lia|lia].
  cbv zeta in E2. rewrite <-Hla in E2.
  pose proof (sizes_to_host host_out (g_d_out s) (Z.to_nat n) d2) as S3.
  cbn [device on_device g_d_in g_d_out].
  destruct (cudaMemcpyDeviceToHost _ _ _ d2) as [[e3 out] d3] eqn:E3. cbn [snd] in S3.
  assert (Hk : kept s (on_device d3 (on_device d2 (on_device d1 s)))).
  { split; try done. cbn. congruence. }
  destruct (Z.eqb_spec e3 cudaSuccess) as [->|He]; cbn [negb];
    [|by apply execute_refused; [|set_solver]].
  eapply (to_host_copies _ _ _ _ _ _ _) in E3; [|exact E2|].
  2: { case_match; [unfold scaled; rewrite length_app, length_fmap, length_take,
      length_app, !length_drop; lia|lia]. }
  apply (execute_verified host_in host_out n s bo); try first [done|lia].
  rewrite E3. f_equal. case_match; [|done]. rewrite Hsrc. apply scaled_take. lia.
Qed.

(** ** Teardown *)

Lemma free_pointer_sizes p s :
  sizes (device (if p =? 0 then s else cuda_free p s)) = delete p (sizes (device s)).
Proof.
  destruct (Z.eqb_spec p 0) as [->|Hp]; [|apply sizes_free].
  by rewrite delete_id by apply sizes_null.
Qed.

Record teardown_post s (r : CudaPathResult) s' : Prop := {
  tp_in : g_d_in s' = 0;
  tp_out : g_d_out s' = 0;
  tp_inv : cuda_inv s';
  tp_arrays : host_arrays s' = host_arrays s;
  tp_ok : cp_ok r = true →
    device_mem (device s') = ∅ ∧ g_pre_start_free s <= free_mem s';
}.

Lemma teardown_cases s :
  cuda_inv s → let '(r, s') := cuda_replica_teardown s in teardown_post s r s'.
Proof.
  intros Hi. unfold cuda_replica_teardown, succeeded. cbv zeta.
  set (s1 := if g_d_in s =? 0 then s else _).
  set (s2 := if g_d_out s1 =? 0 then s1 else _).
  assert (H2 : g_d_in s2 = 0 ∧ g_d_out s2 = 0 ∧ g_allocated s2 = g_allocated s ∧
    host_arrays s2 = host_arrays s ∧ g_pre_start_free s2 = g_pre_start_free s).
  { unfold s2, s1. destruct (Z.eqb_spec (g_d_in s) 0); cbn;
      destruct (Z.eqb_spec (g_d_out s) 0); cbn; by split_and!. }
  clearbody s2. destruct H2 as (E1 & E2 & E3 & E4 & E5).
  assert (Hinv : ∀ d, cuda_inv (on_device d s2)).
  { intros d. destruct Hi. split; cbn; rewrite ?E1, ?E2, ?E3; auto; by left. }
  destruct (cudaDeviceSynchronize (device s2)) as [e d].
  destruct (e =? cudaSuccess); cbn [negb]; [|by split].
  cbn [device on_device]. destruct (cudaDeviceReset d) as [e' d'] eqn:Er.
  destruct (Z.eqb_spec e' cudaSuccess) as [->|He]; cbn [negb]; [|split; try done; apply Hinv].
  split; [done..|by apply Hinv|done|]. intros Hok. cbn [cp_ok] in Hok.
  split; [by apply reset_mem in Er|]. apply Z.leb_le in Hok. cbn in *. by rewrite <-E5.
Qed.

(** ** Any sequence of calls *)

Inductive CudaOp :=
  | OpStart (max_bytes index : Z)
  | OpWarm (bytes : Z)
  | OpExecute (host_in host_out : list spec_float) (n : Z)
  | OpTeardown.

Definition cuda_op (o : CudaOp) s : Cuda D :=
  match o with
  | OpStart max_bytes index => (cuda_replica_start max_bytes index s).2
  | OpWarm bytes => (cuda_replica_warm bytes s).2
  | OpExecute host_in host_out n => (cuda_replica_execute host_in host_out n s).2
  | OpTeardown => (cuda_replica_teardown s).2
  end.

(** Sizes the types hold, and arrays as long as the count says. *)
Definition wf_cuda_op (o : CudaOp) : Prop :=
  match o with
  | OpStart max_bytes _ => in_u64 max_bytes
  | OpWarm bytes => 0 <= bytes < 2 ^ 33 - 1024
  | OpExecute host_in _ n => 0 <= n < 2 ^ 31 ∧ n <= Z.of_nat (length host_in)
  | OpTeardown => True
  end.

Lemma cuda_op_inv o s :
  wf_cuda_op o → cuda_inv s → cuda_inv (cuda_op o s) ∧ host_arrays (cuda_op o s) = host_arrays s.
Proof.
  intros Ho Hi. destruct o as [mb i|b|hi ho n|]; cbn [cuda_op wf_cuda_op] in *.
  - pose proof (start_cases mb i s (proj1 Ho) Hi) as Hs.
    destruct (cuda_replica_start mb i s) as [r s']. by destruct Hs as (? & ? & _).
  - destruct (warm_cases b s Ho) as (r & s' & -> & Hk & _). cbn [snd].
    split; [by apply (kept_inv s)|apply Hk].
  - pose proof (execute_cases hi ho n s Hi (proj1 Ho) (proj2 Ho)) as He.
    destruct (cuda_replica_execute hi ho n s) as [[r out] s']. destruct He as [Hk _ _].
    split; [by apply (kept_inv s)|apply Hk].
  - pose proof (teardown_cases s Hi) as Ht.
    destruct (cuda_replica_teardown s) as [r s']. by destruct Ht.
Qed.

(** Before the first call: both pointers null, nothing recorded. *)
Definition cuda_fresh (d : D) : Cuda D := mkCuda 0 0 0 0 d 0.

Lemma cuda_fresh_inv d : cuda_inv (cuda_fresh d).
Proof. split; [by left..|done]. Qed.

Definition cuda_ops (ops : list CudaOp) s : Cuda D := foldl (λ s o, cuda_op o s) s ops.

Lemma cuda_ops_inv ops s :
  Forall wf_cuda_op ops → cuda_inv s →
  cuda_inv (cuda_ops ops s) ∧ host_arrays (cuda_ops ops s) = host_arrays s.
Proof.
  intros Hops. revert s. induction Hops as [|o ops Ho _ IH]; intros s Hi; [done|].
  destruct (cuda_op_inv o s Ho Hi) as [Hi' <-]. apply (IH _ Hi').
Qed.

(** C33: whatever sequence of starts, warmups of fewer than 8 GiB, executions of fewer than
    2^31 numbers and teardowns is run, whichever runtime calls fail in it, each of the two device pointers is always null or a
    buffer still allocated, of at least the recorded size and different from the other,
    and every host array has been given back. *)
Theorem cuda_calls_safe d ops :
  Forall wf_cuda_op ops →
  cuda_inv (cuda_ops ops (cuda_fresh d)) ∧ host_arrays (cuda_ops ops (cuda_fresh d)) = 0%nat.
Proof. intros Hops. apply cuda_ops_inv; [done|apply cuda_fresh_inv]. Qed.

(** A warmup of fewer than 8 GiB returns on every path, and whichever of its five
    runtime calls fails, it frees both device buffers and the host array it took, and
    leaves the module's globals alone. *)
Theorem warm_leaks_nothing bytes s :
  0 <= bytes < 2 ^ 33 - 1024 →
  ∃ r s', cuda_replica_warm bytes s = (HostReturns r, s') ∧ kept s s' ∧
    (cp_ok r = true → cp_bytes_allocated r = g_allocated s).
Proof. apply warm_cases. Qed.

(** C32: after any calls, an execution of fewer than 2^31 numbers whose launch succeeds and
    that reports success wrote [x * 2 + 1] of each of the [n] inputs over the first [n]
    outputs, with the kernel's checksum equal to the host's.  The code does not ask
    whether the launch succeeded: when it failed, success means that the output buffer's
    previous content passed the check of the sums, and that is what was copied out.  An
    execution that does not report success was refused for its state or lost a runtime
    call; the check rejects the output only after a launch that failed.  The module's
    buffers stay in every case. *)
Theorem execute_spec host_in host_out n s :
  cuda_inv s → 0 <= n < 2 ^ 31 → n <= Z.of_nat (length host_in) →
  let '(r, out, s') := cuda_replica_execute host_in host_out n s in
  execute_post host_in host_out n s r out s'.
Proof. apply execute_cases. Qed.

(** ** The demonstration program *)

Lemma spot_ok_same x : spot_ok x (scale_add x) = true.
Proof.
  unfold spot_ok, f32_sub. destruct (sub_self 24 128 (scale_add x)) as [->|[s ->]]; [done|].
  by destruct s; vm_compute.
Qed.

Lemma spot_check_same fuel i inp :
  0 <= i → Z.of_nat (length inp) = demo_size → spot_check fuel i inp (scale_add <$> inp) = true.
Proof.
  intros Hi Hl. revert i Hi. induction fuel as [|fuel IH]; intros i Hi; [done|]. cbn [spot_check].
  destruct (Z.leb_spec demo_size i); [done|].
  assert (Hin : (Z.to_nat i < length inp)%nat) by lia.
  assert (E : nth (Z.to_nat i) (scale_add <$> inp) S754_nan =
    scale_add (nth (Z.to_nat i) inp S754_nan)).
  { rewrite (nth_indep _ _ (scale_add S754_nan)) by (rewrite length_fmap; lia).
    apply map_nth. }
  rewrite E, spot_ok_same. apply IH. lia.
Qed.

Lemma length_demo_input : Z.of_nat (length demo_input) = demo_size.
Proof. Transparent demo_input demo_size. unfold demo_input. rewrite length_fmap, length_seqZ.
  unfold demo_size. lia. Qed.
Opaque demo_input demo_size.

Lemma demo_size_range : 0 <= demo_size < 2 ^ 31.
Proof. Transparent demo_size. unfold demo_size. lia. Qed.
Opaque demo_size.

(** The outputs of a successful execution that was launched pass the spot check. *)
Lemma demo_execution s :
  cuda_inv s →
  let '(r, out, s') := cuda_replica_execute demo_input
    (replicate (Z.to_nat demo_size) (S754_zero false)) demo_size s in
  cuda_inv s' ∧ host_arrays s' = host_arrays s ∧
  (cp_ok r = true → execute_launched demo_input demo_size s = true →
   spot_check (Z.to_nat demo_size) 0 demo_input out = true).
Proof.
  intros Hi. pose proof length_demo_input as Hl. pose proof demo_size_range as Hr.
  pose proof (execute_cases demo_input (replicate (Z.to_nat demo_size) (S754_zero false))
    demo_size s Hi Hr ltac:(lia)) as He.
  destruct (cuda_replica_execute _ _ _ _) as [[r out] s']. destruct He as [Hk Hok _].
  split_and!; [by apply (kept_inv s)|apply Hk|]. intros Hr' Hl'.
  destruct (Hok Hr') as (_ & _ & _ & -> & _). rewrite Hl'.
  rewrite take_ge, drop_ge, app_nil_r by (rewrite ?length_replicate; lia).
  by apply spot_check_same.
Qed.

(** Started in any valid state, the demonstration always returns, with 0, 1 or 2; 2
    only when no device is found, and 0 only after the device was reset with
    nothing left allocated, both pointers null and no host array kept. *)
Theorem cuda_demo_clean s :
  cuda_inv s →
  let '(code, s') := cuda_demo s in
  host_arrays s' = host_arrays s ∧ cuda_inv s' ∧
  ((code = Some 2 ∧ ci_count (cuda_device_info s) < 1 ∧ s' = s) ∨ code = Some 1 ∨
   (code = Some 0 ∧ device_mem (device s') = ∅ ∧ g_d_in s' = 0 ∧ g_d_out s' = 0)).
Proof.
  intros Hi. unfold cuda_demo. cbv zeta.
  destruct (Z.ltb_spec (ci_count (cuda_device_info s)) 1); [by split_and!; auto|].
  pose proof (start_cases (64 * 1024 * 1024) 0 s ltac:(lia) Hi) as Hs.
  destruct (cuda_replica_start _ 0 s) as [r1 s1]. destruct Hs as (Hi1 & Ha1 & _).
  destruct (cp_ok r1); cbn [negb]; [|by split_and!; auto].
  destruct (warm_cases (64 * 1024 * 1024 / 4) s1) as (r2 & s2 & -> & Hk & _);
    [change (64 * 1024 * 1024 / 4) with 16777216; lia|].
  assert (Hi2 : cuda_inv s2) by by apply (kept_inv s1). pose proof (kept_arrays _ _ Hk) as Ha2.
  destruct (cp_ok r2); cbn [negb]; [|by rewrite Ha2, Ha1; split_and!; auto].
  pose proof (demo_execution s2 Hi2) as He.
  destruct (cuda_replica_execute _ _ _ _) as [[r3 out] s3]. destruct He as (Hi3 & Ha3 & _).
  destruct (cp_ok r3); cbn [negb]; [|by rewrite Ha3, Ha2, Ha1; split_and!; auto].
  destruct (spot_check _ 0 demo_input out); cbn [negb]; [|by rewrite Ha3, Ha2, Ha1; split_and!; auto].
  pose proof (teardown_cases s3 Hi3) as Ht.
  destruct (cuda_replica_teardown s3) as [r4 s4]. destruct Ht as [T1 T2 T3 T4 T5].
  rewrite <-Ha1, <-Ha2, <-Ha3, <-T4. destruct (cp_ok r4); cbn [negb]; [|by split_and!; auto].
  destruct (T5 eq_refl) as [Hm _]. split_and!; auto. do 2 right. auto.
Qed.

(** ** What goes wrong *)

(** A warmup of 8 GiB or more overflows the [int] the sizes are computed in. *)
Lemma warm_overflows s :
  (cudaSetDevice 0 (device s)).1 = cudaSuccess →
  (cuda_replica_warm (2 ^ 33) s).1 = SignedOverflow.
Proof.
  intros He. unfold cuda_replica_warm, succeeded. destruct (cudaSetDevice 0 (device s)) as [e d].
  cbn [fst] in He. by subst e.
Qed.

Lemma thread_index p q n j :
  0 <= j < 2 ^ 32 →
  rf_scale_add p q n (j / 256) 256 (j mod 256) =
  if i32 j <? n then Load p (i32 j) (λ v, Store q (i32 j) (scale_add v) Exited) else Exited.
Proof.
  intros Hj. unfold rf_scale_add. rewrite (Z.mul_comm (j / 256)), <-Z.div_mod by lia.
  by rewrite u32_small by done.
Qed.

(** The kernel takes its count as an [int].  For [2^31] numbers it gets a negative one and
    no thread computes anything; for more, some thread reads before the buffer. *)
Lemma large_count_lost p q n :
  2 ^ 31 <= n < 2 ^ 32 →
  let ts := grid (i32 (u64 (n + 255) / 256)) 256 (rf_scale_add p q (i32 n)) in
  if n =? 2 ^ 31 then Forall (λ t, t = Exited) ts else ∃ i k, Load p i k ∈ ts ∧ i < 0.
Proof.
  intros Hn ts. assert (En : i32 n = n - 2 ^ 32).
  { unfold i32. replace (n + 2 ^ 31) with (n - 2 ^ 31 + 1 * 2 ^ 32) by lia.
    rewrite Z.mod_add, Z.mod_small by lia. lia. }
  assert (Eb : i32 (u64 (n + 255) / 256) = (n + 255) / 256).
  { rewrite u64_small by (unfold in_u64; lia). unfold i32.
    pose proof (Z.div_pos (n + 255) 256). pose proof (Z.div_lt_upper_bound (n + 255) 256 (2 ^ 25)).
    rewrite Z.mod_small; lia. }
  unfold ts. rewrite Eb, En. clear ts Eb En. destruct (Z.eqb_spec n (2 ^ 31)) as [->|Hne].
  - apply Forall_forall. unfold grid. intros t (j & -> & Hj)%list_elem_of_fmap.
    apply elem_of_seqZ in Hj. change ((2 ^ 31 + 255) / 256 * 256) with (2 ^ 31) in Hj.
    rewrite thread_index by lia. rewrite (proj2 (Z.ltb_ge _ _)); [done|].
    unfold i32. rewrite Z.mod_small; lia.
  - exists (- 2 ^ 31). eexists. split; [|lia]. unfold grid. apply list_elem_of_fmap.
    exists (2 ^ 31). split.
    + rewrite thread_index by lia. change (i32 (2 ^ 31)) with (- 2 ^ 31).
      by rewrite (proj2 (Z.ltb_lt _ _)) by lia.
    + apply elem_of_seqZ. pose proof (Z.div_le_lower_bound (n + 255) 256 (2 ^ 23 + 1)). lia.
Qed.

(** A second start overwrites both pointers: the buffers of the first stay allocated and
    nothing names them any more. *)
Lemma second_start_leaks max1 max2 i j s :
  0 <= max1 → 0 <= max2 → cuda_inv s →
  let '(r1, s1) := cuda_replica_start max1 i s in
  let '(r2, s2) := cuda_replica_start max2 j s1 in
  cp_ok r1 = true → cp_ok r2 = true →
  delete (g_d_out s2) (delete (g_d_in s2) (sizes (device s2))) = sizes (device s1) ∧
  delete (g_d_out s1) (delete (g_d_in s1) (sizes (device s1))) = sizes (device s).
Proof.
  intros H1 H2 Hi. pose proof (start_cases max1 i s H1 Hi) as Hs1.
  destruct (cuda_replica_start max1 i s) as [r1 s1]. destruct Hs1 as (Hi1 & _ & Hok1 & _).
  pose proof (start_cases max2 j s1 H2 Hi1) as Hs2.
  destruct (cuda_replica_start max2 j s1) as [r2 s2]. destruct Hs2 as (_ & _ & Hok2 & _).
  intros E1 E2. split; [by apply Hok2|by apply Hok1].
Qed.

(** The comparison of the sums is false of NaN, so a NaN from the device passes. *)
Lemma nan_passes_verification cpu n : verification_failed S754_nan cpu n = false.
Proof. unfold verification_failed. cbn [SFsub SFabs]. by destruct (f64_mul _ _) as [| | |[]]. Qed.
End cuda_laws.

(** ** Witnesses *)

(** The toy device with a replica started in 64 bytes, and an execution on it. *)
Definition toy_started : Cuda ToyGpu := (cuda_replica_start 64 0 (cuda_fresh toy_empty)).2.

Lemma toy_started_inv : cuda_inv toy_started.
Proof. apply (cuda_op_inv (OpStart 64 0)); [by vm_compute|apply cuda_fresh_inv]. Qed.

Example toy_execution :
  let '(r, out, _) := cuda_replica_execute toy_input (replicate 5 f64_zero) 5 toy_started in
  cp_ok r = true ∧ out = f32_of_Z <$> [3; 5; 7; 9; 11].
Proof. vm_compute. by split. Qed.

(** A launch that fails goes unnoticed when the sums agree: the second execution reports
    success and copies out the results of the first. *)
Example lost_launch_unnoticed :
  let gpu := mkToy ∅ [] 1 in
  let s := (cuda_replica_start 64 0 (cuda_fresh gpu)).2 in
  let '(r1, out1, s1) := cuda_replica_execute (f32_of_Z <$> [1; 2]) (replicate 2 f64_zero) 2 s in
  let '(r2, out2, _) := cuda_replica_execute (f32_of_Z <$> [2; 1]) (replicate 2 f64_zero) 2 s1 in
  cp_ok r1 = true ∧ cp_ok r2 = true ∧ cp_error r2 = "execute ok"%string ∧
  out1 = f32_of_Z <$> [3; 5] ∧ out2 = f32_of_Z <$> [3; 5].
Proof. vm_compute. by split_and!. Qed.

Lemma warm_leaks_nothing_witness :
  ∃ r s', cuda_replica_warm 64 toy_started = (HostReturns r, s') ∧ kept toy_started s' ∧
    (cp_ok r = true → cp_bytes_allocated r = g_allocated toy_started).
Proof. apply (warm_leaks_nothing 64 toy_started). lia. Defined.

Lemma execute_spec_witness :
  let '(r, out, s') := cuda_replica_execute toy_input (replicate 5 f64_zero) 5 toy_started in
  execute_post toy_input (replicate 5 f64_zero) 5 toy_started r out s'.
Proof.
  apply (execute_spec toy_input (replicate 5 f64_zero) 5 toy_started);
    [apply toy_started_inv|lia|by vm_compute].
Defined.

Lemma cuda_calls_safe_witness :
  let ops := [OpStart 64 0; OpWarm 64; OpExecute toy_input toy_input 5; OpTeardown] in
  cuda_inv (cuda_ops ops (cuda_fresh toy_empty)) ∧
  host_arrays (cuda_ops ops (cuda_fresh toy_empty)) = 0%nat.
Proof.
  apply (cuda_calls_safe toy_empty [OpStart 64 0; OpWarm 64; OpExecute toy_input toy_input 5; OpTeardown]).
  repeat apply Forall_cons_2; try apply Forall_nil_2; cbn; unfold in_u64; lia.
Defined.

Lemma cuda_demo_clean_witness :
  let '(code, s') := cuda_demo (cuda_fresh toy_empty) in
  host_arrays s' = host_arrays (cuda_fresh toy_empty) ∧ cuda_inv s' ∧
  ((code = Some 2 ∧ ci_count (cuda_device_info (cuda_fresh toy_empty)) < 1 ∧
    s' = cuda_fresh toy_empty) ∨ code = Some 1 ∨
   (code = Some 0 ∧ device_mem (device s') = ∅ ∧ g_d_in s' = 0 ∧ g_d_out s' = 0)).
Proof. apply (cuda_demo_clean (cuda_fresh toy_empty)). apply cuda_fresh_inv. Defined.

Lemma kernel_race_free_witness :
  let m0 := {[1 := toy_input; 2 := replicate 6 S754_nan]} : gmap Z (list spec_float) in
  let s0 := (m0, grid 1 256 (rf_scale_add 1 2 5)) in
  (∀ s, rtc grid_step s0 s → grid_done s →
     s.1 = <[2 := scaled 5 toy_input (replicate 6 S754_nan)]> m0) ∧
  (∀ s, rtc grid_step s0 s → grid_done s ∨ ∃ s', grid_step s s') ∧
  (∀ k s, nsteps grid_step k s0 s → (k ≤ 2 * Z.to_nat (1 * 256))%nat).
Proof.
  apply (kernel_race_free 1 2 {[1 := toy_input; 2 := replicate 6 S754_nan]} toy_input
    (replicate 6 S754_nan) 5 1 256); done.
Defined.
