(* ===== verification/Coordinator.v ===== *)
(** The coordinator process (src/apps/distributed/rf_coordinator.cpp).

    Message handlers over the replica-set controller, the connection threads as a
    step function over network events, and the number parsing of the payloads.
    A handler may end in an exception no thread catches, or read a value the code
    leaves indeterminate; both are outcomes of the model.  Here each event is one step;
    Threads.v takes the same handlers apart into single calls, which is what the
    controller's mutex makes atomic. *)

From S2P Require Import Prelude Identity Enums Model Transition Compatibility Authority Controller Snapshot Codec Protocol Transport Placement.

(** ** Outcomes *)

Inductive Outcome (A : Type) :=
  | Returns (x : A)
  (** An exception leaves the thread's function: [std::terminate]. *)
  | Throws
  (** Undefined behaviour: an indeterminate value, or a read out of bounds. *)
  | Undefined.
Arguments Returns {A} _.
Arguments Throws {A}.
Arguments Undefined {A}.

Definition obind {A B} (o : Outcome A) (k : A → Outcome B) : Outcome B :=
  match o with Returns x => k x | Throws => Throws | Undefined => Undefined end.
Notation "x ⟵ o ; k" := (obind o (λ x, k))
  (at level 20, o at level 100, k at level 200, right associativity) : reader_scope.

(** ** Numbers in payloads *)

(** [std::isspace] in the "C" locale. *)
Definition is_space (c : ascii) : bool :=
  (char_code c =? 32) || ((9 <=? char_code c) && (char_code c <=? 13)).
Fixpoint skip_space (s : list ascii) : list ascii :=
  match s with c :: s' => if is_space c then skip_space s' else s | [] => [] end.

Definition digit_of (base : Z) (c : ascii) : option Z :=
  let d := hex_digit c in if (0 <=? d) && (d <? base) then Some d else None.

(** The longest prefix of digits; [None] when there is none. *)
Fixpoint read_digits (base : Z) (s : list ascii) (acc : option Z) : option Z :=
  match s with
  | c :: s' =>
      match digit_of base c with
      | Some d => read_digits base s' (Some (default 0 acc * base + d))
      | None => acc
      end
  | [] => acc
  end.

(** The subject sequence after white space and sign; base 16 takes an [0x] that a
    digit follows. *)
Definition read_magnitude (base : Z) (s : list ascii) : option Z :=
  match s with
  | z :: x :: d :: s' =>
      if (base =? 16) && bool_decide (z = "0"%char) &&
         (bool_decide (x = "x"%char) || bool_decide (x = "X"%char)) &&
         bool_decide (is_Some (digit_of base d))
      then read_digits base (d :: s') None
      else read_digits base s None
  | _ => read_digits base s None
  end.

(** [std::stoul] and [std::stoull] at a width: [invalid_argument] without digits,
    [out_of_range] above the width, negation modulo the width after a minus sign. *)
Definition parse_unsigned (base width : Z) (s : string) : Outcome Z :=
  let s := skip_space (list_ascii_of_string s) in
  let neg := match s with c :: _ => bool_decide (c = "-"%char) | [] => false end in
  let s := match s with
           | c :: s' => if bool_decide (c = "-"%char) || bool_decide (c = "+"%char) then s' else s
           | [] => []
           end in
  match read_magnitude base s with
  | None => Throws
  | Some v =>
      if 2 ^ width <=? v then Throws
      else Returns (if neg then (- v) mod 2 ^ width else v)
  end.

(** [unsigned long] is 32 bits wide on the platform of the transport (Winsock). *)
Definition stoul10 (s : string) : Outcome Z := parse_unsigned 10 32 s.
Definition hexu (s : string) : Outcome Z := parse_unsigned 16 64 s.
Definition hexi (s : string) : Outcome Z := v ⟵ parse_unsigned 16 32 s; Returns (i32 v).
Definition parse_id {k} (s : string) : Outcome (Id k) :=
  match from_string s with inr i => Returns i | inl _ => Throws end.
(** [E v; from_int(v, n)] whose result is not looked at. *)
Definition from_int_unchecked `{RfEnum E} (n : Z) : Outcome E :=
  match from_int n with Some v => Returns v | None => Undefined end.

(** ** Structures built from payloads *)

(** [numeric_mode], [policy_fingerprint] and the compatibility fields are the code's. *)
Definition build_set (m : Message) : Outcome ReplicaSetState :=
  let get := get_payload (m_payload m) in
  model_id ⟵ parse_id (get "model" EmptyString);
  workload_id ⟵ parse_id (get "workload" EmptyString);
  tenant_id ⟵ parse_id (get "tenant" EmptyString);
  desired ⟵ stoul10 (get "desired" "2");
  min ⟵ stoul10 (get "min" "1");
  max ⟵ stoul10 (get "max" "2");
  artifact_id ⟵ parse_id (get "artifact" EmptyString);
  agen ⟵ parse_id (get "agen" EmptyString);
  sgen ⟵ parse_id (get "sgen" EmptyString);
  pgen ⟵ parse_id (get "pgen" EmptyString);
  backend ⟵ hexi (get "backend" "2");
  bk ⟵ from_int_unchecked backend;
  let runtime := get "runtime" "triton-3"%string in
  let arch := get "arch" "llama"%string in
  ccmaj ⟵ hexi (get "ccmaj" "8");
  ccmin ⟵ hexi (get "ccmin" "0");
  mem ⟵ hexu (get "mem" "0x1000000");
  accel ⟵ stoul10 (get "accel" "1");
  let cc := mkComputeCapability ccmaj ccmin in
  Returns (mkReplicaSetState (m_set m) model_id workload_id tenant_id (u32 desired) (u32 min)
    (u32 max) artifact_id agen sgen pgen ReplicaSetLifecycle.CREATED
    (mkCompatibilityRequirements model_id EmptyString EmptyString [] bk runtime arch cc
       NumericMode.FP16 agen EmptyString "fp-1")
    default_PolicyBundle default_PlacementPolicy bk runtime cc mem (u32 accel)).

Definition build_worker_reg (m : Message) : Outcome WorkerRegistration :=
  let get := get_payload (m_payload m) in
  node ⟵ parse_id (get "node_hex" EmptyString);
  backend ⟵ hexi (get "backend" "2");
  bk ⟵ from_int_unchecked backend;
  mem ⟵ hexu (get "mem" "0x800000000");
  ccmaj ⟵ hexi (get "ccmaj" "c");
  devmem ⟵ hexu (get "devmem" "0x800000000");
  let cc := mkComputeCapability ccmaj 0 in
  Returns (mkWorkerRegistration (m_worker m) (m_boot m) node
    (mkResourceInventory mem mem 1
      [mkDeviceCapability AcceleratorKind.CUDA (get "device" "cuda:0") cc devmem]
      [mkBackendCapability bk "triton-3" cc NumericMode.FP16]) null 1).

Definition warming_from (payload : string) : Outcome WarmingRecord :=
  steps ⟵ hexu (get_payload payload "steps" "0");
  Returns (mkWarmingRecord WarmthState.WARM steps 4 true true true true true true true true true
    0 0 0 EmptyString).

(** The compatibility a provisioned replica declares: its set's, with the device's
    compute capability. *)
Definition derived_compat (proto : option ReplicaSetState) (cc : ComputeCapability) :
    ReplicaCompatibility :=
  match proto with
  | Some s =>
      let q := s_compatibility s in
      mkReplicaCompatibility (cq_model_id q) (cq_model_revision q) (cq_tokenizer_vocab q)
        (cq_required_adapters q) (cq_backend q) (cq_runtime_name q) (cq_architecture q) cc
        (cq_numeric_mode q) (cq_artifact_generation q) (cq_kernel_abi q) (cq_policy_fingerprint q)
  | None => mkReplicaCompatibility null EmptyString EmptyString [] BackendKind.NONE EmptyString
              EmptyString cc NumericMode.UNKNOWN null EmptyString EmptyString
  end.

Definition health_from (m : Message) (hs : HealthState) (gen : HealthGeneration) (wall : Z) :
    HealthEvidence :=
  mkHealthEvidence hs HealthEvidenceKind.REPORTED (get_payload (m_payload m) "source" "worker")
    0 wall 0 0x3FEFAE147AE147AE gen EmptyString.

(** Bit [i] of the readiness mask. *)
Definition mask_bit (mask i : Z) : bool := negb (Z.land mask (2 ^ i) =? 0).
Definition readiness_from (mask : Z) : ReadinessRecord :=
  mkReadinessRecord ReadinessState.READY
    (mkReadinessFactors (mask_bit mask 0) (mask_bit mask 1) (mask_bit mask 2) (mask_bit mask 3)
       (mask_bit mask 4) (mask_bit mask 5) (mask_bit mask 6) (mask_bit mask 7) (mask_bit mask 8)
       (mask_bit mask 9) (mask_bit mask 10)) 0 0 EmptyString.

(** ** State *)

Abbreviation ConnId := nat (only parsing).

(** What the threads share: the controller, the epoch drawn at start-up, the
    connection of each worker, the last results, and the placement generator.  A
    connection in [worker_conns] is an accepted socket that nothing closes while it
    is there, so its [valid()] holds. *)
Record Coordinator (G : Type) := mkCoordinator {
  co_ctrl : Controller G;
  co_epoch : CoordinatorEpoch;
  co_conns : gmap WorkerId ConnId;
  co_results : gmap ReplicaId string;
  co_rng : G;
}.
Arguments mkCoordinator {G} _ _ _ _ _.
Arguments co_ctrl {G} _.
Arguments co_epoch {G} _.
Arguments co_conns {G} _.
Arguments co_results {G} _.
Arguments co_rng {G} _.

(** A call of [write_frame]: the connection, the message, and whether its frame went out;
    a frame above the limit and one the connection does not take do not. *)
Record Output := mkOutput { o_conn : ConnId; o_msg : Message; o_sent : bool }.

Section handlers.
Context `{Rng G}.
(** The readings of the clocks during one event, in the order they are taken, and
    whether a connection takes a frame. *)
Context (mono_at wall_at : nat → Z) (wire : ConnId → Message → bool).
Implicit Types co : Coordinator G.

Definition with_ctrl (c : Controller G) co : Coordinator G :=
  mkCoordinator c (co_epoch co) (co_conns co) (co_results co) (co_rng co).
Definition with_conns (conns : gmap WorkerId ConnId) co : Coordinator G :=
  mkCoordinator (co_ctrl co) (co_epoch co) conns (co_results co) (co_rng co).
Definition with_rng (g : G) co : Coordinator G :=
  mkCoordinator (co_ctrl co) (co_epoch co) (co_conns co) (co_results co) g.

Definition stash_result (id : ReplicaId) (res : string) co : Coordinator G :=
  mkCoordinator (co_ctrl co) (co_epoch co) (co_conns co) (<[id := res]> (co_results co)) (co_rng co).
Definition peek_result (id : ReplicaId) co : string := default EmptyString (co_results co !! id).

(** [write_frame] refuses a frame above the limit, then sends it. *)
Definition send_frame (conn : ConnId) (m : Message) : bool :=
  (Z.of_nat (length (encode_message m)) <=? kMaxFrame) && wire conn m.
(** A call of [write_frame]; handlers look at its result only in [send_to_worker]. *)
Definition write_to (conn : ConnId) (m : Message) : Output := mkOutput conn m (send_frame conn m).
(** The result, and the call if there was a connection to write to. *)
Definition send_to_worker (w : WorkerId) (m : Message) co : bool * list Output :=
  match co_conns co !! w with
  | None => (false, [])
  | Some conn => (send_frame conn m, [write_to conn m])
  end.

(** [std::string(r.ok() ? "ok" : "err") + " " + r.message]. *)
Definition result_text (r : OpResult) : string :=
  ((if is_ok r then "ok" else "err") ++ " " ++ message r)%string.
Definition ack_message (m : Message) (kind : MessageKind) (payload : string) co : Message :=
  mkMessage kind (m_seq m) (co_epoch co) null null null null null payload.

(** The boot identity a control request acts with: the current one of the replica's
    worker, or the message's when the replica is unknown. *)
Definition acting_worker (m : Message) co : WorkerId :=
  match find_replica (m_replica m) (co_ctrl co) with
  | Some r => r_worker_id r
  | None => m_worker m
  end.
Definition acting_boot (m : Message) co : WorkerBootId :=
  match find_replica (m_replica m) (co_ctrl co) with
  | Some _ => current_boot_for (m_replica m) (co_ctrl co)
  | None => m_boot m
  end.

Definition handle_create_set (m : Message) (conn : ConnId) co :
    Outcome (Coordinator G * list Output) :=
  s ⟵ build_set m;
  let '(r, c) := create_replica_set s (co_epoch co) (co_ctrl co) in
  Returns (with_ctrl c co, [write_to conn (ack_message m MessageKind.CREATE_SET_ACK (result_text r) co)]).

Definition handle_provision (m : Message) (conn : ConnId) co :
    Outcome (Coordinator G * list Output) :=
  let get := get_payload (m_payload m) in
  let reid := m_replica m in
  w ⟵ parse_id (get "worker" EmptyString);
  let proto := find_set (m_set m) (co_ctrl co) in
  ccmaj ⟵ hexi (get "ccmaj" "c");
  let cc := mkComputeCapability ccmaj 0 in
  let compat := derived_compat proto cc in
  devmem ⟵ hexu (get "devmem" "0x800000000");
  let dev := mkDeviceCapability AcceleratorKind.CUDA (get "device" "cuda:0") cc devmem in
  cap ⟵ hexu (get "capacity" "0x1000000");
  let '(r, c) := provision_replica reid (m_set m) w compat dev cap (mono_at 0) (wall_at 0)
                   (co_ctrl co) in
  let ack := write_to conn (ack_message m MessageKind.PROVISION_ACK (result_text r) co) in
  let co := with_ctrl c co in
  if is_ok r
  then
    let '(pid, g) := random_id (co_rng co) in
    let c := (set_allocating reid pid (co_ctrl co)).2 in
    let c := (set_starting reid (mono_at 2) (wall_at 1) c).2 in
    let co := with_rng g (with_ctrl c co) in
    let warm := mkMessage MessageKind.WARM 0 (co_epoch co) w null reid (m_set m) null "steps=4" in
    Returns (co, ack :: (send_to_worker w warm co).2)
  else Returns (co, [ack]).

Definition handle_promote (m : Message) (conn : ConnId) co :
    Outcome (Coordinator G * list Output) :=
  n ⟵ hexi (get_payload (m_payload m) "target" "5");
  target ⟵ from_int_unchecked n;
  let '(r, c) := promote_replica (m_replica m) target (acting_worker m co) (acting_boot m co)
                   (mono_at 0) (wall_at 0) (co_ctrl co) in
  Returns (with_ctrl c co, [write_to conn (ack_message m MessageKind.PROMOTE_ACK (result_text r) co)]).

Definition handle_drain (m : Message) (conn : ConnId) co : Outcome (Coordinator G * list Output) :=
  let '(r, c) := drain_replica (m_replica m) (acting_worker m co) (acting_boot m co) (mono_at 0)
                   (co_ctrl co) in
  Returns (with_ctrl c co, [write_to conn (ack_message m MessageKind.DRAIN_ACK (result_text r) co)]).

Definition handle_failover (m : Message) (conn : ConnId) co :
    Outcome (Coordinator G * list Output) :=
  failed ⟵ parse_id (get_payload (m_payload m) "failed" EmptyString);
  let '(r, c) := trigger_failover (m_set m) failed (get_payload (m_payload m) "reason" "failover")
                   (mono_at 0) (wall_at 0) (co_ctrl co) in
  Returns (with_ctrl c co, [write_to conn (ack_message m MessageKind.FAILOVER_ACK (result_text r) co)]).

Definition handle_execute (m : Message) (conn : ConnId) co :
    Outcome (Coordinator G * list Output) :=
  let reply payload := write_to conn (ack_message m MessageKind.MSG_ERROR payload co) in
  match find_replica (m_replica m) (co_ctrl co) with
  | None => Returns (co, [reply "err unknown replica"%string])
  | Some rs =>
      let fwd := mkMessage (m_kind m) (m_seq m) (co_epoch co) (m_worker m) (m_boot m)
                   (m_replica m) (m_set m) (m_attempt m) (m_payload m) in
      let '(sent_ok, outs) := send_to_worker (r_worker_id rs) fwd co in
      Returns (co, outs ++ [reply (if sent_ok then "ok forwarded" else "err worker unreachable")%string])
  end.

Definition query_text (m : Message) co : string :=
  let q := get_payload (m_payload m) "q" "?" in
  if decide (q = "result"%string) then "result=" ++ peek_result (m_replica m) co
  else if decide (q = "state"%string) then
    match find_replica (m_replica m) (co_ctrl co) with
    | None => "err unknown replica"
    | Some rs =>
        "lifecycle=" ++ to_string (r_lifecycle rs) ++
        " serving=" ++ (if r_serving_eligible rs then "1" else "0") ++
        " role=" ++ to_string (r_role rs) ++ " boot=" ++ id_str (r_boot_id rs)
    end
  else "err unknown query".

(** The snapshot in hexadecimal, two digits a byte. *)
Definition hex_byte (b : byte) : list ascii :=
  [ default "0"%char (kHex !! Z.to_nat (Z.shiftr (Z_of_byte b) 4));
    default "0"%char (kHex !! Z.to_nat (Z.land (Z_of_byte b) 15)) ].
Definition snapshot_text co : string :=
  let bytes := make_snapshot (co_ctrl co) in
  "len=" ++ dec_str (Z.of_nat (length bytes)) ++ String newline EmptyString ++ "hex=" ++
  string_of_list_ascii (concat (hex_byte <$> bytes)).

Definition handle_control (m : Message) (conn : ConnId) co :
    Outcome (Coordinator G * list Output) :=
  let reply kind payload := Returns (co, [write_to conn (ack_message m kind payload co)]) in
  if m_kind m =? MessageKind.CREATE_SET then handle_create_set m conn co
  else if m_kind m =? MessageKind.PROVISION then handle_provision m conn co
  else if m_kind m =? MessageKind.PROMOTE then handle_promote m conn co
  else if m_kind m =? MessageKind.DRAIN then handle_drain m conn co
  else if m_kind m =? MessageKind.FAILOVER then handle_failover m conn co
  else if m_kind m =? MessageKind.EXECUTE then handle_execute m conn co
  else if m_kind m =? MessageKind.QUERY then reply MessageKind.QUERY (query_text m co)
  else if m_kind m =? MessageKind.SNAPSHOT then reply MessageKind.SNAPSHOT (snapshot_text co)
  else reply MessageKind.MSG_ERROR "err unknown control command"%string.

(** ** Worker connections *)

(** The first message of a worker: its registration and the acknowledgement. *)
Definition handle_register (m : Message) (conn : ConnId) co :
    Outcome (WorkerId * Coordinator G * list Output) :=
  wr ⟵ build_worker_reg m;
  let '(r, c) := register_worker wr (co_ctrl co) in
  let co := with_conns (<[w_worker_id wr := conn]> (co_conns co)) (with_ctrl c co) in
  let ack := mkMessage MessageKind.REGISTER_ACK 0 (co_epoch co) null null null null null
               (result_text r) in
  Returns (w_worker_id wr, co, [write_to conn ack]).

Definition pong : Message :=
  mkMessage MessageKind.PONG 0 null null null null null null EmptyString.

Definition result_line (k : string) (m : Message) : string :=
  (k ++ "=" ++ get_payload (m_payload m) k "?")%string.

(** A later message of a worker.  [EXECUTE_RESULT] falls through to [PING]. *)
Definition handle_worker (m : Message) (conn : ConnId) co :
    Outcome (Coordinator G * list Output) :=
  let c := co_ctrl co in
  if m_kind m =? MessageKind.WARM_DONE then
    w ⟵ warming_from (m_payload m);
    Returns (with_ctrl (warm_replica (m_replica m) w (m_worker m) (m_boot m) (mono_at 0) c).2 co, [])
  else if m_kind m =? MessageKind.HEALTH then
    n ⟵ hexi (get_payload (m_payload m) "state" "2");
    match from_int n with
    | None => Returns (co, [])
    | Some hs =>
        let gen := match find_replica (m_replica m) c with
                   | Some rs => r_health_generation rs
                   | None => null
                   end in
        let ev := health_from m hs gen (wall_at 0) in
        Returns (with_ctrl (report_health (m_replica m) ev (m_worker m) (m_boot m) (mono_at 0) c).2 co, [])
    end
  else if m_kind m =? MessageKind.READINESS then
    mask ⟵ hexu (get_payload (m_payload m) "mask" "0");
    Returns (with_ctrl (report_readiness (m_replica m) (readiness_from mask) (m_worker m) (m_boot m) c).2 co, [])
  else if m_kind m =? MessageKind.EXECUTE_RESULT then
    let res := (result_line "req" m ++ String newline EmptyString ++ result_line "outcome" m ++
                String newline EmptyString ++ result_line "result" m)%string in
    Returns (stash_result (m_replica m) res co, [write_to conn pong])
  else if m_kind m =? MessageKind.PING then Returns (co, [write_to conn pong])
  else Returns (co, []).

(** The connection ends: its worker is unregistered, whoever registered it last. *)
Definition worker_gone (w : WorkerId) co : Coordinator G :=
  with_conns (delete w (co_conns co)) (with_ctrl (unregister_worker w (co_ctrl co)).2 co).

(** ** Connection threads *)

(** Where the thread of a connection is. *)
Inductive ConnState :=
  | AwaitFirst
  | OfWorker (w : WorkerId)
  | OfControl
  | Finished_.

(** What [read_frame] returns to it. *)
Inductive NetEvent :=
  | GotFrame (bytes : list byte)
  | ReadFailed.

(** One iteration of the thread. *)
Definition conn_step (conn : ConnId) (st : ConnState) (ev : NetEvent) co :
    Outcome (ConnState * Coordinator G * list Output) :=
  match st, ev with
  | Finished_, _ => Returns (Finished_, co, [])
  | OfWorker w, ReadFailed => Returns (Finished_, worker_gone w co, [])
  | _, ReadFailed => Returns (Finished_, co, [])
  | AwaitFirst, GotFrame bytes =>
      match decode_message bytes with
      | OutOfBounds => Undefined
      | Malformed => Returns (Finished_, co, [])
      | Decoded m =>
          if m_kind m =? MessageKind.REGISTER
          then x ⟵ handle_register m conn co; Returns (OfWorker x.1.1, x.1.2, x.2)
          else x ⟵ handle_control m conn co; Returns (OfControl, x.1, x.2)
      end
  | OfWorker w, GotFrame bytes =>
      match decode_message bytes with
      | OutOfBounds => Undefined
      | Malformed => Returns (OfWorker w, co, [])
      | Decoded m => x ⟵ handle_worker m conn co; Returns (OfWorker w, x.1, x.2)
      end
  | OfControl, GotFrame bytes =>
      match decode_message bytes with
      | OutOfBounds => Undefined
      | Malformed => Returns (OfControl, co, [])
      | Decoded m => x ⟵ handle_control m conn co; Returns (OfControl, x.1, x.2)
      end
  end.
End handlers.
