(* ===== verification/CoordinatorRun.v ===== *)
(** Runs of the coordinator, and the controller operations they perform.

    [net_step] is one event of one connection thread, [net_reachable] what sequences of
    them lead to from start-up.  [conn_step_runs] refines the coordinator to its
    controller: whatever a network event does to the shared controller is a sequence
    of well-typed public operations, so what holds of every run of the controller holds
    behind the network. *)

From S2P Require Import Prelude Identity Enums Model Transition Compatibility Authority Controller ControllerRun ControllerInv Snapshot Codec Protocol Transport Placement Coordinator.

(** ** Outcomes *)

Lemma obind_Returns {A B} (o : Outcome A) (k : A → Outcome B) y :
  obind o k = Returns y ↔ ∃ x, o = Returns x ∧ k x = Returns y.
Proof. destruct o; simpl; naive_solver. Qed.

(** Takes a successful sequence of reads apart. *)
Ltac outcome_inv E :=
  repeat lazymatch type of E with
  | obind _ _ = Returns _ =>
      let H := fresh "Hread" in
      apply obind_Returns in E as (? & H & E)
  end.

(** Takes a handler's successful result apart down to the state it leaves. *)
Ltac handler_inv E :=
  outcome_inv E;
  repeat match type of E with
  | context [let '(_, _) := ?p in _] => destruct p
  | context [match ?p with (_, _) => _ end] => destruct p
  end.

(** ** Payload values fit their types *)

Lemma digit_of_range base c d : digit_of base c = Some d → 0 <= d < base.
Proof. unfold digit_of. case_match; [|done]. intros [= <-]. bool_to_prop. lia. Qed.

Lemma read_digits_nonneg base s acc v :
  0 < base → 0 <= default 0 acc → read_digits base s acc = Some v → 0 <= v.
Proof.
  intros Hb. revert acc. induction s as [|c s IH]; intros acc Ha; simpl; [by intros ->|].
  destruct (digit_of base c) as [d|] eqn:Hd; [|by intros ->].
  apply digit_of_range in Hd. apply IH. simpl. nia.
Qed.

Lemma parse_unsigned_range base width s v :
  0 < base → 0 <= width → parse_unsigned base width s = Returns v → 0 <= v < 2 ^ width.
Proof.
  intros Hb Hw. unfold parse_unsigned. destruct (read_magnitude _ _) as [n|] eqn:Hn; [|done].
  assert (0 <= n).
  { unfold read_magnitude in Hn. repeat case_match; by eapply (read_digits_nonneg base _ None). }
  destruct (2 ^ width <=? n) eqn:Hle; [done|]. bool_to_prop. intros E. injection E as <-.
  destruct (match skip_space _ with [] => false | _ => _ end); [apply Z.mod_pos_bound; lia|lia].
Qed.

Lemma hexu_range s v : hexu s = Returns v → in_u64 v.
Proof. by apply parse_unsigned_range. Qed.

Lemma stoul10_range s v : stoul10 s = Returns v → in_u32 v.
Proof. by apply parse_unsigned_range. Qed.

Lemma hexi_range s v : hexi s = Returns v → in_i32 v.
Proof. unfold hexi. intros E. outcome_inv E. injection E as <-. apply i32_range. Qed.

Lemma parse_id_wf {k} s (i : Id k) : parse_id s = Returns i → wf_id i.
Proof.
  unfold parse_id. destruct (from_string s) as [|j] eqn:E; [done|]. intros [= <-].
  by apply from_string_spec in E as [? _].
Qed.

#[export] Hint Resolve hexu_range stoul10_range hexi_range parse_id_wf u32_range : fabric.

(** Proves a conjunction of range conditions on values read from a payload. *)
Ltac wf_read :=
  split_and?; first [ done | by eauto 3 with fabric | by apply Forall_nil | by vm_compute ].

Lemma build_set_wf m s : wf_Message m → build_set m = Returns s → wf_ReplicaSetState s.
Proof.
  intros Hm E. unfold build_set in E. outcome_inv E. injection E as <-.
  unfold wf_Message in Hm. destruct_and! Hm.
  unfold wf_ReplicaSetState, wf_CompatibilityRequirements, wf_ComputeCapability. simpl. wf_read.
Qed.

Lemma build_worker_reg_wf m wr :
  wf_Message m → build_worker_reg m = Returns wr → wf_WorkerRegistration wr.
Proof.
  intros Hm E. unfold build_worker_reg in E. outcome_inv E. injection E as <-.
  unfold wf_Message in Hm. destruct_and! Hm.
  unfold wf_WorkerRegistration, wf_ResourceInventory. simpl.
  assert (in_i32 1) by done.
  split_and?; try (by eauto 3 with fabric); try done; apply Forall_singleton;
    unfold wf_DeviceCapability, wf_BackendCapability, wf_ComputeCapability; simpl; wf_read.
Qed.

Lemma warming_from_wf p w : warming_from p = Returns w → wf_WarmingRecord w.
Proof.
  intros E. unfold warming_from in E. outcome_inv E. injection E as <-.
  unfold wf_WarmingRecord. simpl. wf_read.
Qed.

(** ** The operations behind an event *)

(** The operations a connection may cause, by what its first message made of it. *)
Definition control_action (a : Action) : bool :=
  match a with
  | CreateReplicaSet _ _ | ProvisionReplica _ _ _ _ _ _ _ _ | SetAllocating _ _
  | SetStarting _ _ _ | PromoteReplica _ _ _ _ _ _ | DrainReplica _ _ _ _
  | TriggerFailover _ _ _ _ _ => true
  | _ => false
  end.
(** The operations that may grant serving authority, and the control operations that
    do not. *)
Definition grants (a : Action) : bool :=
  match a with PromoteReplica _ _ _ _ _ _ | TriggerFailover _ _ _ _ _ => true | _ => false end.
Definition quiet_action (a : Action) : bool := control_action a && negb (grants a).
Definition worker_action (a : Action) : bool :=
  match a with
  | WarmReplica _ _ _ _ _ | ReportHealth _ _ _ _ _ | ReportReadiness _ _ _ _
  | UnregisterWorker _ => true
  | _ => false
  end.
Definition register_action (a : Action) : bool :=
  match a with RegisterWorker _ => true | _ => false end.
Definition allowed (st : ConnState) (a : Action) : bool :=
  match st with
  | AwaitFirst => control_action a || register_action a
  | OfWorker _ => worker_action a
  | OfControl => control_action a
  | Finished_ => false
  end.

Definition wf_conn (st : ConnState) : Prop :=
  match st with OfWorker w => wf_id w | _ => True end.
Definition wf_event (ev : NetEvent) : Prop :=
  match ev with GotFrame bytes => in_u64 (Z.of_nat (length bytes)) | ReadFailed => True end.

(** ** What one event of a connection does *)

Section effect.
Context `{Rng G} (mono_at wall_at : nat → Z) (wire : ConnId → Message → bool).
Implicit Types co : Coordinator G.

(** The moves of a connection's thread that return. *)
Inductive conn_effect (conn : ConnId) co :
    ConnState → NetEvent → ConnState → Coordinator G → list Output → Prop :=
  | eff_idle st ev st' :
      (st' = st ∨ st' = Finished_ ∧ ∀ w, st ≠ OfWorker w) → conn_effect conn co st ev st' co []
  | eff_gone w : conn_effect conn co (OfWorker w) ReadFailed Finished_ (worker_gone w co) []
  | eff_register bytes m w co' outs :
      decode_message bytes = Decoded m → m_kind m = MessageKind.REGISTER →
      handle_register wire m conn co = Returns (w, co', outs) →
      conn_effect conn co AwaitFirst (GotFrame bytes) (OfWorker w) co' outs
  | eff_control st bytes m co' outs :
      decode_message bytes = Decoded m →
      st = OfControl ∨ st = AwaitFirst ∧ m_kind m ≠ MessageKind.REGISTER →
      handle_control mono_at wall_at wire m conn co = Returns (co', outs) →
      conn_effect conn co st (GotFrame bytes) OfControl co' outs
  | eff_worker w bytes m co' outs :
      decode_message bytes = Decoded m →
      handle_worker mono_at wall_at wire m conn co = Returns (co', outs) →
      conn_effect conn co (OfWorker w) (GotFrame bytes) (OfWorker w) co' outs.

Lemma conn_step_effect conn st ev co st' co' outs :
  conn_step mono_at wall_at wire conn st ev co = Returns (st', co', outs) →
  conn_effect conn co st ev st' co' outs.
Proof.
  intros E. unfold conn_step in E. destruct st as [|w| |], ev as [bytes|];
    try (destruct (decode_message bytes) as [m| |] eqn:Hm; [| |done]);
    try (injection E as <- <- <-; first [by apply eff_gone | apply eff_idle; auto]).
  - destruct (m_kind m =? MessageKind.REGISTER) eqn:Hk; outcome_inv E; bool_to_prop.
    + destruct x as [[w co1] os]. injection E as <- <- <-. by eapply eff_register.
    + destruct x as [co1 os]. injection E as <- <- <-. eapply eff_control; [done|by right|done].
  - outcome_inv E. destruct x as [co1 os]. injection E as <- <- <-. by eapply eff_worker.
  - outcome_inv E. destruct x as [co1 os]. injection E as <- <- <-. eapply eff_control; [done|by left|done].
Qed.
End effect.

Section runs.
Context `{Rng G} (mono_at wall_at : nat → Z) (wire : ConnId → Message → bool).
Context (Hmono : ∀ i, in_u64 (mono_at i)) (Hwall : ∀ i, in_i64 (wall_at i)).
Implicit Types co : Coordinator G.

Definition wf_coordinator co : Prop := controller_inv (co_ctrl co) ∧ wf_id (co_epoch co).

(** The controller went through operations of the kinds [ok]. *)
Definition ran (ok : Action → bool) co co' : Prop :=
  co_epoch co' = co_epoch co ∧
  ∃ acts, Forall wf_action acts ∧ Forall (λ a, ok a = true) acts ∧
    co_ctrl co' = run acts (co_ctrl co).

Lemma ran_nothing ok co co' :
  co_epoch co' = co_epoch co → co_ctrl co' = co_ctrl co → ran ok co co'.
Proof. intros He Hc. split; [done|]. by exists []. Qed.

Lemma ran_one (ok : Action → bool) co co' a :
  wf_action a → ok a = true → co_epoch co' = co_epoch co → co_ctrl co' = after a (co_ctrl co) →
  ran ok co co'.
Proof.
  intros Ha Hok He Hc. split; [done|]. exists [a]. by rewrite !Forall_singleton.
Qed.

Lemma ran_weaken (ok ok' : Action → bool) co co' :
  (∀ a, ok a = true → ok' a = true) → ran ok co co' → ran ok' co co'.
Proof.
  intros Hw (He & acts & Hwf & Hok & Hc). split; [done|]. exists acts. split_and!; [done| |done].
  by eapply Forall_impl.
Qed.

Lemma acting_worker_wf m co : wf_Message m → wf_coordinator co → wf_id (acting_worker m co).
Proof.
  intros Hm [Hinv _]. unfold acting_worker, find_replica.
  destruct (replicas_ _ !! _) as [r|] eqn:Hr; [|apply Hm].
  pose proof (ri_wf _ _ (ci_replica _ Hinv _ _ Hr)) as Hwf. apply Hwf.
Qed.

Lemma worker_boot_wf w (c : Controller G) : controller_inv c → wf_id (worker_boot w c).
Proof.
  intros Hinv. unfold worker_boot. destruct (workers_ c !! w) as [reg|] eqn:Hw; [|by vm_compute].
  apply (ci_worker c Hinv) in Hw as [_ Hwf]. apply Hwf.
Qed.

Lemma acting_boot_wf m co : wf_Message m → wf_coordinator co → wf_id (acting_boot m co).
Proof.
  intros Hm [Hinv _]. unfold acting_boot, current_boot_for, find_replica.
  destruct (replicas_ _ !! _) as [r|] eqn:Hr; [by apply worker_boot_wf|apply Hm].
Qed.

Lemma derived_compat_wf sid (c : Controller G) cc :
  controller_inv c → wf_ComputeCapability cc →
  wf_ReplicaCompatibility (derived_compat (find_set sid c) cc).
Proof.
  intros Hinv Hcc. unfold derived_compat, find_set. destruct (sets_ c !! sid) as [s|] eqn:Hs.
  - apply (ci_set c Hinv) in Hs as (_ & Hwf & _). unfold wf_ReplicaSetState in Hwf.
    destruct_and! Hwf. unfold wf_CompatibilityRequirements in *. destruct_and?.
    unfold wf_ReplicaCompatibility. simpl. by split_and!.
  - unfold wf_ReplicaCompatibility. simpl. by split_and!; [vm_compute|..|vm_compute].
Qed.

Lemma health_from_wf m hs (c : Controller G) wall :
  controller_inv c → in_i64 wall →
  wf_HealthEvidence (health_from m hs (match find_replica (m_replica m) c with
    Some rs => r_health_generation rs | None => null end) wall).
Proof.
  intros Hinv Hw. unfold wf_HealthEvidence, health_from. cbn [he_observed_at_mono he_observed_at_wall
    he_freshness_ns he_confidence he_generation]. split_and!; try done.
  unfold find_replica. destruct (replicas_ c !! _) as [r|] eqn:Hr; [|by vm_compute].
  pose proof (ri_wf _ _ (ci_replica _ Hinv _ _ Hr)) as Hwf. unfold wf_ReplicaState in Hwf. tauto.
Qed.

(** One controller call inside a handler. *)
Ltac ran_call a := 
  lazymatch goal with
  | E : Returns _ = Returns _ |- _ => injection E as <- <-
  end; apply (ran_one _ _ _ a); [cbn [wf_action]|done|done|unfold after; cbn [exec co_ctrl with_ctrl]; by
    match goal with E : _ = (_, _) |- _ => rewrite E end].

Lemma handle_create_set_ran m conn co co' outs :
  wf_Message m → wf_coordinator co → handle_create_set wire m conn co = Returns (co', outs) →
  ran quiet_action co co'.
Proof.
  intros Hm Hco E. unfold handle_create_set in E. outcome_inv E.
  destruct (create_replica_set _ _ _) as [res c] eqn:Hop. ran_call (CreateReplicaSet x (co_epoch co)).
  split; [by eapply build_set_wf|apply Hco].
Qed.

Lemma handle_promote_ran m conn co co' outs :
  wf_Message m → wf_coordinator co → handle_promote mono_at wall_at wire m conn co = Returns (co', outs) →
  ran control_action co co'.
Proof.
  intros Hm Hco E. unfold handle_promote in E. outcome_inv E.
  destruct (promote_replica _ _ _ _ _ _ _) as [res c] eqn:Hop.
  ran_call (PromoteReplica (m_replica m) x0 (acting_worker m co) (acting_boot m co) (mono_at 0) (wall_at 0)).
  split_and!; [apply Hm|by apply acting_worker_wf|by apply acting_boot_wf|done|done].
Qed.

Lemma handle_drain_ran m conn co co' outs :
  wf_Message m → wf_coordinator co → handle_drain mono_at wire m conn co = Returns (co', outs) →
  ran quiet_action co co'.
Proof.
  intros Hm Hco E. unfold handle_drain in E.
  destruct (drain_replica _ _ _ _ _) as [res c] eqn:Hop.
  ran_call (DrainReplica (m_replica m) (acting_worker m co) (acting_boot m co) (mono_at 0)).
  split_and!; [apply Hm|by apply acting_worker_wf|by apply acting_boot_wf|done].
Qed.

Lemma handle_failover_ran m conn co co' outs :
  wf_Message m → wf_coordinator co → handle_failover mono_at wall_at wire m conn co = Returns (co', outs) →
  ran control_action co co'.
Proof.
  intros Hm Hco E. unfold handle_failover in E. outcome_inv E.
  destruct (trigger_failover _ _ _ _ _ _) as [res c] eqn:Hop.
  ran_call (TriggerFailover (m_set m) x (get_payload (m_payload m) "reason" "failover") (mono_at 0) (wall_at 0)).
  split_and!; [apply Hm|by eapply parse_id_wf|done|done].
Qed.

Lemma handle_provision_ran m conn co co' outs :
  wf_Message m → wf_coordinator co →
  handle_provision mono_at wall_at wire m conn co = Returns (co', outs) →
  ran quiet_action co co'.
Proof.
  intros Hm Hco E. unfold handle_provision in E. outcome_inv E. cbn zeta in E.
  set (compat := derived_compat _ _) in E. set (dev := mkDeviceCapability _ _ _ _) in E.
  set (act := ProvisionReplica (m_replica m) (m_set m) x compat dev x2 (mono_at 0) (wall_at 0)).
  assert (Hcc : wf_ComputeCapability (mkComputeCapability x0 0)) by (split; [by eapply hexi_range|done]).
  assert (Hact : wf_action act).
  { cbn. split_and!; [apply Hm|apply Hm|by eapply parse_id_wf|apply derived_compat_wf; [apply Hco|done]| |
      by eapply hexu_range|done|done]. split; [done|by eapply hexu_range]. }
  destruct (provision_replica _ _ _ _ _ _ _ _ _) as [res c] eqn:Hop.
  assert (Hc : after act (co_ctrl co) = c) by (unfold after; cbn [exec act]; by rewrite Hop).
  destruct (is_ok res).
  - destruct (random_id (co_rng (with_ctrl c co))) as [pid g] eqn:Hg. injection E as <- _.
    split; [done|]. exists [act; SetAllocating (m_replica m) pid; SetStarting (m_replica m) (mono_at 2) (wall_at 1)].
    assert (Hpid : wf_id pid).
    { pose proof (random_id_wf (k := PlacementIdTag) (co_rng (with_ctrl c co))) as Hr. by rewrite Hg in Hr. }
    split_and!; [|by repeat constructor|].
    + apply Forall_cons. split; [done|]. apply Forall_cons. split; [split; [apply Hm|done]|].
      apply Forall_singleton. split_and!; [apply Hm|apply Hmono|apply Hwall].
    + cbn [run foldl]. by rewrite Hc.
  - injection E as <- _. by apply (ran_one _ _ _ act).
Qed.

(** Only PROMOTE and FAILOVER perform an operation that may grant authority. *)
Lemma handle_control_quiet m conn co co' outs :
  wf_Message m → wf_coordinator co →
  m_kind m ≠ MessageKind.PROMOTE → m_kind m ≠ MessageKind.FAILOVER →
  handle_control mono_at wall_at wire m conn co = Returns (co', outs) →
  ran quiet_action co co'.
Proof.
  intros Hm Hco Hnp Hnf. unfold handle_control. cbn zeta.
  destruct (_ =? MessageKind.CREATE_SET); [by apply handle_create_set_ran|].
  destruct (_ =? MessageKind.PROVISION); [by apply handle_provision_ran|].
  rewrite (proj2 (Z.eqb_neq _ _) Hnp).
  destruct (_ =? MessageKind.DRAIN); [by apply handle_drain_ran|].
  rewrite (proj2 (Z.eqb_neq _ _) Hnf).
  destruct (_ =? MessageKind.EXECUTE).
  { unfold handle_execute. destruct (find_replica _ _) as [rs|].
    - destruct (send_to_worker _ _ _ _) as [b os]. intros E. injection E as <- _. by apply ran_nothing.
    - intros E. injection E as <- _. by apply ran_nothing. }
  destruct (_ =? MessageKind.QUERY); [intros E; injection E as <- _; by apply ran_nothing|].
  destruct (_ =? MessageKind.SNAPSHOT); intros E; injection E as <- _; by apply ran_nothing.
Qed.

Lemma quiet_control a : quiet_action a = true → control_action a = true.
Proof. by intros [? _]%andb_true_iff. Qed.

Lemma handle_control_ran m conn co co' outs :
  wf_Message m → wf_coordinator co →
  handle_control mono_at wall_at wire m conn co = Returns (co', outs) →
  ran control_action co co'.
Proof.
  intros Hm Hco E. destruct (decide (m_kind m = MessageKind.PROMOTE)) as [Hp|Hp];
    [|destruct (decide (m_kind m = MessageKind.FAILOVER)) as [Hf|Hf]].
  - unfold handle_control in E. rewrite Hp in E. by apply handle_promote_ran in E.
  - unfold handle_control in E. rewrite Hf in E. by apply handle_failover_ran in E.
  - eapply ran_weaken; [apply quiet_control|]. by eapply handle_control_quiet.
Qed.

Lemma handle_register_ran m conn co w co' outs :
  wf_Message m → handle_register wire m conn co = Returns (w, co', outs) →
  wf_id w ∧ ran register_action co co'.
Proof.
  intros Hm E. unfold handle_register in E. outcome_inv E.
  destruct (register_worker _ _) as [res c] eqn:Hop. injection E as <- <- _.
  pose proof (build_worker_reg_wf _ _ Hm Hread) as Hwf. split; [apply Hwf|].
  apply (ran_one _ _ _ (RegisterWorker x)); [done..|]. unfold after. cbn [exec co_ctrl with_ctrl with_conns].
  by rewrite Hop.
Qed.

Lemma handle_worker_ran m conn co co' outs :
  wf_Message m → wf_coordinator co →
  handle_worker mono_at wall_at wire m conn co = Returns (co', outs) → ran worker_action co co'.
Proof.
  intros Hm Hco. unfold handle_worker. cbn zeta.
  destruct (_ =? MessageKind.WARM_DONE).
  { intros E. outcome_inv E. injection E as <- _.
    apply (ran_one _ _ _ (WarmReplica (m_replica m) x (m_worker m) (m_boot m) (mono_at 0))); [|done..].
    split_and!; [apply Hm|by eapply warming_from_wf|apply Hm|apply Hm|apply Hmono]. }
  destruct (_ =? MessageKind.HEALTH).
  { intros E. outcome_inv E. destruct (from_int x) as [hs|]; [|injection E as <- _; by apply ran_nothing].
    injection E as <- _.
    set (ev := health_from _ _ _ _).
    apply (ran_one _ _ _ (ReportHealth (m_replica m) ev (m_worker m) (m_boot m) (mono_at 0))); [|done..].
    split_and!; [apply Hm| |apply Hm|apply Hm|apply Hmono]. apply health_from_wf; [apply Hco|apply Hwall]. }
  destruct (_ =? MessageKind.READINESS).
  { intros E. outcome_inv E. injection E as <- _.
    apply (ran_one _ _ _ (ReportReadiness (m_replica m) (readiness_from x) (m_worker m) (m_boot m))); [|done..].
    split_and!; [apply Hm|by split|apply Hm|apply Hm]. }
  destruct (_ =? MessageKind.EXECUTE_RESULT); [intros E; injection E as <- _; by apply ran_nothing|].
  destruct (_ =? MessageKind.PING); intros E; injection E as <- _; by apply ran_nothing.
Qed.

(** Whatever a network event does to the controller is a sequence of well-typed
    operations its connection is allowed. *)
Lemma conn_step_runs conn st ev co st' co' outs :
  wf_coordinator co → wf_conn st → wf_event ev →
  conn_step mono_at wall_at wire conn st ev co = Returns (st', co', outs) →
  wf_conn st' ∧ ran (allowed st) co co'.
Proof.
  intros Hco Hst Hev E.
  assert (Hdec : ∀ bytes m, ev = GotFrame bytes → decode_message bytes = Decoded m → wf_Message m).
  { intros bytes m -> Hm. by apply decode_message_spec in Hm as [? _]. }
  apply conn_step_effect in E; destruct E as [s e s' Hst'|w|bytes m w co1 os Hm _ E|s bytes m co1 os Hm Hk E|w bytes m co1 os Hm E].
  - split; [by destruct Hst' as [->|[-> _]]|by apply ran_nothing].
  - split; [done|]. by apply (ran_one _ _ _ (UnregisterWorker w)).
  - apply handle_register_ran in E as [Hw Hran]; [|by eapply Hdec]. split; [done|].
    eapply ran_weaken; [|exact Hran]. intros a Ha. unfold allowed. by rewrite Ha, orb_true_r.
  - split; [done|]. apply handle_control_ran in E; [|by eapply Hdec|done]. eapply ran_weaken; [|exact E].
    intros a Ha. destruct Hk as [->|[-> _]]; unfold allowed; by rewrite Ha.
  - split; [done|]. eapply handle_worker_ran; [by eapply Hdec|done|exact E].
Qed.
End runs.

(** ** The running process *)

(** The coordinator and where each connection thread is. *)
Record Net (G : Type) := mkNet { net_co : Coordinator G; net_conns : gmap nat ConnState }.
Arguments mkNet {G} _ _.
Arguments net_co {G} _.
Arguments net_conns {G} _.

Section net.
Context `{Rng G}.
Implicit Types n : Net G.

(** [main] after its arguments: the epoch drawn from the process generator, an empty
    controller over its own, and the global placement generator. *)
Definition coordinator_start (gen ctrl_rng placement_rng : G) : Net G :=
  mkNet (mkCoordinator (new_controller ctrl_rng) (random_id gen).1 ∅ ∅ placement_rng) ∅.

(** A connection is accepted, or one thread handles what its read returns.  A step
    whose event throws or is undefined does not exist: the process is gone. *)
Inductive net_step : Net G → Net G → Prop :=
  | net_accept n conn :
      net_conns n !! conn = None →
      net_step n (mkNet (net_co n) (<[conn := AwaitFirst]> (net_conns n)))
  | net_event n conn st ev mono_at wall_at wire st' co' outs :
      (∀ i, in_u64 (mono_at i)) → (∀ i, in_i64 (wall_at i)) → wf_event ev →
      net_conns n !! conn = Some st →
      conn_step mono_at wall_at wire conn st ev (net_co n) = Returns (st', co', outs) →
      net_step n (mkNet co' (<[conn := st']> (net_conns n))).

Definition net_reachable (gen ctrl_rng placement_rng : G) : Net G → Prop :=
  rtc net_step (coordinator_start gen ctrl_rng placement_rng).

(** The connections of workers in the table are live threads of those workers. *)
Definition conns_live n : Prop :=
  ∀ w conn, co_conns (net_co n) !! w = Some conn → net_conns n !! conn = Some (OfWorker w).

Record net_inv (gen ctrl_rng : G) n : Prop := {
  ni_ctrl : reachable ctrl_rng (co_ctrl (net_co n));
  ni_epoch : co_epoch (net_co n) = (random_id gen).1;
  ni_conns : ∀ conn st, net_conns n !! conn = Some st → wf_conn st;
  ni_live : conns_live n;
}.

Lemma handle_control_conns mono_at wall_at wire m conn (co co' : Coordinator G) outs :
  handle_control mono_at wall_at wire m conn co = Returns (co', outs) → co_conns co' = co_conns co.
Proof.
  unfold handle_control. cbn zeta.
  destruct (_ =? MessageKind.CREATE_SET); [intros E; unfold handle_create_set in E; handler_inv E; by simplify_eq|].
  destruct (_ =? MessageKind.PROVISION).
  { intros E. unfold handle_provision in E. outcome_inv E. cbn zeta in E.
    destruct (provision_replica _ _ _ _ _ _ _ _ _) as [res c]. destruct (is_ok res); [|by simplify_eq].
    destruct (random_id _). by simplify_eq. }
  destruct (_ =? MessageKind.PROMOTE); [intros E; unfold handle_promote in E; handler_inv E; by simplify_eq|].
  destruct (_ =? MessageKind.DRAIN); [intros E; unfold handle_drain in E; handler_inv E; by simplify_eq|].
  destruct (_ =? MessageKind.FAILOVER); [intros E; unfold handle_failover in E; handler_inv E; by simplify_eq|].
  destruct (_ =? MessageKind.EXECUTE).
  { intros E. unfold handle_execute in E.
    destruct (find_replica _ _); [destruct (send_to_worker _ _ _ _)|]; by simplify_eq. }
  destruct (_ =? MessageKind.QUERY); [intros E; by simplify_eq|].
  destruct (_ =? MessageKind.SNAPSHOT); intros E; by simplify_eq.
Qed.

Lemma handle_worker_conns mono_at wall_at wire m conn (co co' : Coordinator G) outs :
  handle_worker mono_at wall_at wire m conn co = Returns (co', outs) → co_conns co' = co_conns co.
Proof.
  unfold handle_worker. cbn zeta.
  destruct (_ =? MessageKind.WARM_DONE); [intros E; outcome_inv E; by simplify_eq|].
  destruct (_ =? MessageKind.HEALTH).
  { intros E. outcome_inv E. destruct (from_int _); by simplify_eq. }
  destruct (_ =? MessageKind.READINESS); [intros E; outcome_inv E; by simplify_eq|].
  destruct (_ =? MessageKind.EXECUTE_RESULT); [intros E; by simplify_eq|].
  destruct (_ =? MessageKind.PING); intros E; by simplify_eq.
Qed.

(** What an event does to the table of connections. *)
Lemma conn_step_conns mono_at wall_at wire conn st ev (co : Coordinator G) st' co' outs :
  conn_step mono_at wall_at wire conn st ev co = Returns (st', co', outs) →
  (co_conns co' = co_conns co ∧ (st' = st ∨ ∀ w, st ≠ OfWorker w)) ∨
  (∃ w, st = AwaitFirst ∧ st' = OfWorker w ∧ co_conns co' = <[w := conn]> (co_conns co)) ∨
  (∃ w, st = OfWorker w ∧ st' = Finished_ ∧ co_conns co' = delete w (co_conns co)).
Proof.
  intros E. apply conn_step_effect in E; destruct E
    as [s e s' Hst'|w|bytes m w co1 os Hm _ E|s bytes m co1 os Hm Hk E|w bytes m co1 os Hm E].
  - left. split; [done|]. destruct Hst' as [->|[_ Hw]]; [by left|by right].
  - right; right. by exists w.
  - right; left. exists w. unfold handle_register in E. outcome_inv E. destruct (register_worker _ _). by simplify_eq.
  - left. split; [by eapply handle_control_conns|]. by destruct Hk as [->|[-> _]]; [left|right].
  - left. split; [by eapply handle_worker_conns|by left].
Qed.

Lemma conn_step_live mono_at wall_at wire n conn st ev st' co' outs :
  net_conns n !! conn = Some st →
  conn_step mono_at wall_at wire conn st ev (net_co n) = Returns (st', co', outs) →
  conns_live n → conns_live (mkNet co' (<[conn := st']> (net_conns n))).
Proof.
  intros Hst E Hlive w i. simpl. apply conn_step_conns in E as [[-> Hkeep]|[(v & -> & -> & ->)|(v & -> & -> & ->)]].
  - intros Hw. apply Hlive in Hw. destruct (decide (i = conn)) as [->|Hne]; [|by rewrite lookup_insert_ne].
    rewrite lookup_insert_eq. rewrite Hst in Hw. injection Hw as ->. destruct Hkeep as [->|Hkeep]; [done|].
    by destruct (Hkeep w).
  - rewrite lookup_insert_Some. intros [[<- <-]|[Hv Hw]]; [by rewrite lookup_insert_eq|].
    apply Hlive in Hw. rewrite lookup_insert_ne; [done|]. intros <-. by rewrite Hst in Hw.
  - rewrite lookup_delete_Some. intros [Hv Hw]. apply Hlive in Hw.
    rewrite lookup_insert_ne; [done|]. intros <-. rewrite Hst in Hw. by injection Hw as ->.
Qed.

Lemma net_inv_start gen rng g : net_inv gen rng (coordinator_start gen rng g).
Proof. split; [apply rtc_refl|done|by intros|by intros]. Qed.

Lemma net_inv_wf gen rng n : net_inv gen rng n → wf_coordinator (net_co n).
Proof.
  intros [Hc He _ _]. split; [by eapply reachable_inv|]. rewrite He. apply random_id_wf.
Qed.

Lemma net_step_inv gen rng n n' : net_step n n' → net_inv gen rng n → net_inv gen rng n'.
Proof.
  intros Hstep Hinv. pose proof (net_inv_wf _ _ _ Hinv) as Hwf. destruct Hinv as [Hc He Hst Hlive].
  destruct Hstep as [n conn Hnew|n conn st ev mono wall wire st' co' outs Hm Hw Hev Hconn E].
  - split; simpl; [done|done| |].
    + intros i st. rewrite lookup_insert_Some. intros [[_ <-]|[_ Hi]]; [done|by eapply Hst].
    + intros w i Hi. simpl. rewrite lookup_insert_ne; [by apply Hlive|]. intros <-.
      apply Hlive in Hi. by rewrite Hnew in Hi.
  - pose proof (conn_step_live _ _ _ _ _ _ _ _ _ _ Hconn E Hlive) as Hlive'.
    apply (conn_step_runs _ _ _ Hm Hw) in E as (Hst' & He' & acts & Hacts & _ & Hrun); [|done|by eapply Hst|done].
    split; simpl; [|by rewrite He'| |done].
    + rewrite Hrun. unfold reachable in *; etrans; [exact Hc|by apply run_steps].
    + intros i s. rewrite lookup_insert_Some. intros [[_ <-]|[_ Hi]]; [done|by eapply Hst].
Qed.

Lemma net_reachable_inv gen rng g n : net_reachable gen rng g n → net_inv gen rng n.
Proof.
  apply (rtc_ind_r (net_inv gen rng)); [apply net_inv_start|].
  intros n1 n2 _ Hstep. by eapply net_step_inv.
Qed.
End net.
