(* ===== verification/CoordinatorProps.v ===== *)
(** What the coordinator guarantees.

    The theorems about the connection threads of
    src/apps/distributed/rf_coordinator.cpp, and the behaviours of the code a reader
    of its comments would not expect. *)

From S2P Require Import Prelude Identity Enums Model Transition Compatibility Authority Controller ControllerRun ControllerInv Scenario ControllerProps Snapshot Codec Protocol Transport Placement Coordinator CoordinatorRun.

(** ** Shared lemmas *)

Section lemmas.
Context `{Rng G}.
Implicit Types c : Controller G.

Definition flag_up (rid : ReplicaId) c : Prop :=
  ∃ r, replicas_ c !! rid = Some r ∧ r_serving_eligible r = true.

(** A flag is raised by a PRIMARY promotion of its replica or by a failover of another. *)
Lemma after_flag_raised a c rid :
  wf_action a → ¬ flag_up rid c → flag_up rid (after a c) →
  (∃ w b mono wall, a = PromoteReplica rid PromotionState.PRIMARY w b mono wall) ∨
  (∃ sid failed reason mono wall, a = TriggerFailover sid failed reason mono wall ∧ rid ≠ failed).
Proof.
  intros Ha Hdown (r' & Hr' & Hf').
  destruct (after_replica a c rid r' Ha Hr') as [(r & Hr & [->|He])|Hp].
  - destruct Hdown. by exists r.
  - destruct (r_serving_eligible r) eqn:Hf; [destruct Hdown; by exists r|].
    by apply (event_flag_down _ _ _ _ _ He).
  - apply provisions_declared in Hp as [_ Hp]. congruence.
Qed.

(** Operations that do not grant authority raise no flag. *)
Lemma after_flag_down a c rid :
  wf_action a → grants a = false → ¬ flag_up rid c → ¬ flag_up rid (after a c).
Proof.
  intros Ha Hg Hdown Hup.
  by destruct (after_flag_raised a c rid Ha Hdown Hup) as [(? & ? & ? & ? & ->)|(? & ? & ? & ? & ? & -> & _)].
Qed.

Lemma run_flag_down acts c rid :
  Forall wf_action acts → Forall (λ a, grants a = false) acts → ¬ flag_up rid c →
  ¬ flag_up rid (run acts c).
Proof.
  intros Hacts. revert c. induction Hacts as [|a acts Ha _ IH]; intros c Hg Hdown; [done|].
  apply Forall_cons in Hg as [Hga Hg]. apply IH; [done|]. by apply after_flag_down.
Qed.

Lemma ran_flag_down (ok : Action → bool) (co co' : Coordinator G) rid :
  (∀ a, ok a = true → grants a = false) → ran ok co co' →
  ¬ flag_up rid (co_ctrl co) → ¬ flag_up rid (co_ctrl co').
Proof.
  intros Hok (_ & acts & Hwf & Hacts & ->) Hdown. apply run_flag_down; [done| |done].
  by eapply Forall_impl.
Qed.

Lemma worker_grants_nothing a : worker_action a = true → grants a = false.
Proof. by destruct a. Qed.
Lemma quiet_grants_nothing a : quiet_action a = true → grants a = false.
Proof. by intros [_ ?%negb_true_iff]%andb_true_iff. Qed.
Lemma register_grants_nothing a : register_action a = true → grants a = false.
Proof. by destruct a. Qed.

(** ** Replies *)

(** The coordinator parses none of the payload of these requests. *)
Definition needs_no_payload (kind : MessageKind) : bool :=
  negb ((kind =? MessageKind.CREATE_SET) || (kind =? MessageKind.PROVISION) ||
        (kind =? MessageKind.PROMOTE) || (kind =? MessageKind.FAILOVER)).

(** [reply] carries what a reply to [m] must. *)
Definition replies (m : Message) (epoch : CoordinatorEpoch) (reply : Message) : Prop :=
  m_seq reply = m_seq m ∧ m_epoch reply = epoch.

(** One reply is written, and at most one frame to a worker. *)
Definition answered (wire : ConnId → Message → bool) (conn : ConnId) (m : Message)
    (co : Coordinator G) (outs : list Output) : Prop :=
  ∃ reply, replies m (co_epoch co) reply ∧
    (outs = [write_to wire conn reply] ∨ ∃ w i fwd, co_conns co !! w = Some i ∧ m_epoch fwd = co_epoch co ∧
      (outs = [write_to wire conn reply; write_to wire i fwd] ∨
       outs = [write_to wire i fwd; write_to wire conn reply])).

Lemma answered_alone wire conn m kind payload (co : Coordinator G) :
  answered wire conn m co [write_to wire conn (ack_message m kind payload co)].
Proof. eexists. split; [|by left]. done. Qed.

Lemma send_to_worker_outs wire w fwd (co : Coordinator G) b outs :
  send_to_worker wire w fwd co = (b, outs) →
  outs = [] ∨ ∃ i, co_conns co !! w = Some i ∧ outs = [write_to wire i fwd].
Proof.
  unfold send_to_worker. destruct (co_conns co !! w) as [i|]; intros E; injection E as <- <-; eauto.
Qed.

Lemma handle_execute_answered wire m conn (co co' : Coordinator G) outs :
  handle_execute wire m conn co = Returns (co', outs) → answered wire conn m co outs.
Proof.
  unfold handle_execute. destruct (find_replica _ _) as [rs|].
  - destruct (send_to_worker _ _ _ _) as [b os] eqn:Hs. intros E. injection E as <- <-.
    apply send_to_worker_outs in Hs as [->|(i & Hi & ->)]; [by apply answered_alone|].
    eexists. split; [|right; exists (r_worker_id rs), i; eexists; split_and!; [done| |by right]]; done.
  - intros E. injection E as <- <-. apply answered_alone.
Qed.

Lemma handle_provision_answered mono_at wall_at wire m conn (co co' : Coordinator G) outs :
  handle_provision mono_at wall_at wire m conn co = Returns (co', outs) → answered wire conn m co outs.
Proof.
  intros E. unfold handle_provision in E. outcome_inv E. cbn zeta in E.
  destruct (provision_replica _ _ _ _ _ _ _ _ _) as [res c]. destruct (is_ok res).
  - destruct (random_id _) as [pid g]. injection E as _ <-.
    destruct (send_to_worker _ _ _ _) as [b os] eqn:Hs. simpl.
    apply send_to_worker_outs in Hs as [->|(i & Hi & ->)]; [by apply answered_alone|].
    eexists. split; [|right; exists x, i; eexists; split_and!; [exact Hi| |by left]]; done.
  - injection E as <- <-. apply answered_alone.
Qed.

Lemma handle_control_answered mono_at wall_at wire m conn (co co' : Coordinator G) outs :
  handle_control mono_at wall_at wire m conn co = Returns (co', outs) → answered wire conn m co outs.
Proof.
  unfold handle_control. cbn zeta.
  destruct (_ =? MessageKind.CREATE_SET).
  { intros E. unfold handle_create_set in E. handler_inv E. injection E as _ <-. apply answered_alone. }
  destruct (_ =? MessageKind.PROVISION); [by apply handle_provision_answered|].
  destruct (_ =? MessageKind.PROMOTE).
  { intros E. unfold handle_promote in E. handler_inv E. injection E as _ <-. apply answered_alone. }
  destruct (_ =? MessageKind.DRAIN).
  { intros E. unfold handle_drain in E. handler_inv E. injection E as _ <-. apply answered_alone. }
  destruct (_ =? MessageKind.FAILOVER).
  { intros E. unfold handle_failover in E. handler_inv E. injection E as _ <-. apply answered_alone. }
  destruct (_ =? MessageKind.EXECUTE); [by apply handle_execute_answered|].
  destruct (_ =? MessageKind.QUERY); [intros E; injection E as _ <-; apply answered_alone|].
  destruct (_ =? MessageKind.SNAPSHOT); intros E; injection E as _ <-; apply answered_alone.
Qed.

Lemma handle_control_returns mono_at wall_at wire m conn (co : Coordinator G) :
  needs_no_payload (m_kind m) = true →
  ∃ co' outs, handle_control mono_at wall_at wire m conn co = Returns (co', outs).
Proof.
  unfold needs_no_payload, handle_control. cbn zeta.
  destruct (_ =? MessageKind.CREATE_SET); [done|]. destruct (_ =? MessageKind.PROVISION); [done|].
  destruct (_ =? MessageKind.PROMOTE); [done|]. destruct (_ =? MessageKind.FAILOVER); [done|]. intros _.
  destruct (_ =? MessageKind.DRAIN); [unfold handle_drain; destruct (drain_replica _ _ _ _ _); by eauto|].
  destruct (_ =? MessageKind.EXECUTE).
  { unfold handle_execute. destruct (find_replica _ _); [destruct (send_to_worker _ _ _ _)|]; by eauto. }
  destruct (_ =? MessageKind.QUERY); [by eauto|]. destruct (_ =? MessageKind.SNAPSHOT); by eauto.
Qed.

(** A frame goes out when it is within the limit and the connection takes it. *)
Lemma send_frame_spec wire conn m :
  send_frame wire conn m = true ↔ Z.of_nat (length (encode_message m)) <= kMaxFrame ∧ wire conn m = true.
Proof. unfold send_frame. by rewrite andb_true_iff, Z.leb_le. Qed.

Lemma snapshot_written mono_at wall_at wire m conn (co : Coordinator G) :
  m_kind m = MessageKind.SNAPSHOT →
  handle_control mono_at wall_at wire m conn co =
    Returns (co, [write_to wire conn (ack_message m MessageKind.SNAPSHOT (snapshot_text co) co)]).
Proof. intros Hk. unfold handle_control. by rewrite Hk. Qed.

Lemma length_hex_text bytes :
  length (concat (hex_byte <$> bytes)) = (2 * length bytes)%nat.
Proof. induction bytes as [|b bytes IH]; [done|]. cbn [fmap list_fmap concat]. rewrite length_app, IH. cbn. lia. Qed.

Lemma length_of_ascii l : String.length (string_of_list_ascii l) = length l.
Proof. induction l as [|c l IH]; [done|]. cbn. by rewrite IH. Qed.

Lemma snapshot_too_large wire m conn (co : Coordinator G) :
  kMaxFrame < 109 + 2 * Z.of_nat (length (make_snapshot (co_ctrl co))) →
  send_frame wire conn (ack_message m MessageKind.SNAPSHOT (snapshot_text co) co) = false.
Proof.
  intros Hbig. unfold send_frame. apply andb_false_iff. left. apply Z.leb_gt.
  rewrite length_encode_message. cbn [ack_message m_payload]. unfold snapshot_text. cbn zeta.
  rewrite !string_length_app, length_of_ascii, length_hex_text. lia.
Qed.

(** A message on a control connection, or the first one of another. *)
Lemma control_step mono_at wall_at wire conn st bytes m (co : Coordinator G) :
  (st = OfControl ∨ st = AwaitFirst ∧ m_kind m ≠ MessageKind.REGISTER) → decode_message bytes = Decoded m →
  conn_step mono_at wall_at wire conn st (GotFrame bytes) co =
    (x ⟵ handle_control mono_at wall_at wire m conn co; Returns (OfControl, x.1, x.2)).
Proof.
  intros [->|[-> Hr]] Hm; unfold conn_step; rewrite Hm; [done|]. by rewrite (proj2 (Z.eqb_neq _ _) Hr).
Qed.
End lemmas.

(** ** The theorems *)

Section coordinator.
Context `{Rng G}.

(** The coordinator refines its controller: after any sequence of connections and
    frames, the controller behind the network is one its own operations reach from
    start-up, the epoch it stamps is still the one drawn at start, and the connection
    it would write to for a worker is a live thread of that same worker. *)
Theorem coordinator_refines_controller gen ctrl_rng placement_rng (n : Net G) :
  net_reachable gen ctrl_rng placement_rng n →
  reachable ctrl_rng (co_ctrl (net_co n)) ∧ co_epoch (net_co n) = (random_id gen).1 ∧ conns_live n.
Proof. by intros []%net_reachable_inv. Qed.

Context (mono_at wall_at : nat → Z) (wire : ConnId → Message → bool).
Context (Hmono : ∀ i, in_u64 (mono_at i)) (Hwall : ∀ i, in_i64 (wall_at i)).

(** A replica whose serving flag is down gets it raised by no network event but a
    well-formed PROMOTE or FAILOVER message, and never on a worker's connection:
    nothing a worker sends can grant serving authority. *)
Theorem network_grants_only_by_command conn st ev (co : Coordinator G) st' co' outs rid :
  wf_coordinator co → wf_conn st → wf_event ev →
  conn_step mono_at wall_at wire conn st ev co = Returns (st', co', outs) →
  ¬ flag_up rid (co_ctrl co) → flag_up rid (co_ctrl co') →
  (st = AwaitFirst ∨ st = OfControl) ∧
  ∃ bytes m, ev = GotFrame bytes ∧ decode_message bytes = Decoded m ∧
    (m_kind m = MessageKind.PROMOTE ∨ m_kind m = MessageKind.FAILOVER).
Proof.
  intros Hco Hst Hev E Hdown Hup.
  assert (Hran : ∀ ok co1, co1 = co' → (∀ a, ok a = true → grants a = false) → ¬ ran ok co co1).
  { intros ok co1 -> Hok Hran. by apply (ran_flag_down _ _ _ rid Hok Hran Hdown). }
  assert (Hdec : ∀ bytes m, ev = GotFrame bytes → decode_message bytes = Decoded m → wf_Message m).
  { intros bytes m -> Hm. by apply decode_message_spec in Hm as [? _]. }
  apply conn_step_effect in E; destruct E as [s e s' Hst'|w|bytes m w co1 os Hm _ E|s bytes m co1 os Hm Hk E|w bytes m co1 os Hm E];
    [done| | | |].
  - by destruct (after_flag_down (UnregisterWorker w) _ _ Hst eq_refl Hdown Hup).
  - apply handle_register_ran in E as [_ E]; [|by eapply Hdec].
    by destruct (Hran _ _ eq_refl register_grants_nothing E).
  - split; [naive_solver|]. exists bytes, m. split_and!; [done|done|].
    destruct (decide (m_kind m = MessageKind.PROMOTE)); [by left|].
    destruct (decide (m_kind m = MessageKind.FAILOVER)); [by right|].
    apply handle_control_quiet in E; [|done..|by eapply Hdec|done|done|done].
    by destruct (Hran _ _ eq_refl quiet_grants_nothing E).
  - apply handle_worker_ran in E; [|done..|by eapply Hdec|done].
    by destruct (Hran _ _ eq_refl worker_grants_nothing E).
Qed.

(** C21: for every control message the coordinator survives it writes exactly one frame
    back on the message's own connection, with the sequence number of the request and
    the coordinator's epoch, and at most one other frame, to a worker.  The reply goes
    out exactly when it has at most 16 MiB and the connection takes it; nothing is
    written in its place, so the SNAPSHOT of a state of more than about 8 MiB, two
    digits a byte, is never answered.  The requests whose payload is not parsed always
    return. *)
Theorem control_answered_once n conn st bytes m :
  conns_live n → net_conns n !! conn = Some st →
  (st = OfControl ∨ st = AwaitFirst ∧ m_kind m ≠ MessageKind.REGISTER) →
  decode_message bytes = Decoded m →
  (needs_no_payload (m_kind m) = true → ∃ co' outs,
    conn_step mono_at wall_at wire conn st (GotFrame bytes) (net_co n) = Returns (OfControl, co', outs)) ∧
  (∀ st' co' outs,
    conn_step mono_at wall_at wire conn st (GotFrame bytes) (net_co n) = Returns (st', co', outs) →
    st' = OfControl ∧ (length outs <= 2)%nat ∧
    ∃ reply sent, replies m (co_epoch (net_co n)) reply ∧
      filter (λ o, o_conn o = conn) outs = [mkOutput conn reply sent] ∧
      (sent = true ↔ Z.of_nat (length (encode_message reply)) <= kMaxFrame ∧ wire conn reply = true) ∧
      (m_kind m = MessageKind.SNAPSHOT →
       kMaxFrame < 109 + 2 * Z.of_nat (length (make_snapshot (co_ctrl (net_co n)))) →
       outs = [mkOutput conn reply false])).
Proof.
  intros Hlive Hconn Hst Hm. split.
  - intros Hk. destruct (handle_control_returns mono_at wall_at wire m conn (net_co n) Hk) as (co' & outs & E).
    exists co', outs. by rewrite (control_step _ _ _ _ _ _ _ _ Hst Hm), E.
  - intros st' co' outs E. rewrite (control_step _ _ _ _ _ _ _ _ Hst Hm) in E.
    outcome_inv E. destruct x as [co1 os]. injection E as <- <- <-. rename Hread into Hc.
    split; [done|]. destruct (handle_control_answered _ _ _ _ _ _ _ _ Hc) as (reply & Hr & Houts).
    assert (Hoff : ∀ w i, co_conns (net_co n) !! w = Some i → i ≠ conn).
    { intros w i Hw ->. apply Hlive in Hw. rewrite Hconn in Hw. destruct Hst as [->|[-> _]]; done. }
    assert (Hf : filter (λ o, o_conn o = conn) os = [write_to wire conn reply] ∧ (length os <= 2)%nat).
    { destruct Houts as [->|(w & i & fwd & Hw%Hoff & _ & [->| ->])];
        rewrite ?filter_cons, ?filter_nil; cbn [write_to o_conn];
        rewrite ?(decide_True _ _ eq_refl), ?(decide_False _ _ Hw); split; cbn [length]; done || lia. }
    destruct Hf as [Hf Hlen]. split; [exact Hlen|]. exists reply, (send_frame wire conn reply).
    split_and!; [exact Hr|exact Hf|apply send_frame_spec|]. intros Hk Hbig.
    rewrite (snapshot_written _ _ _ _ _ _ Hk) in Hc. injection Hc as _ <-.
    rewrite filter_cons, filter_nil in Hf. cbn [write_to o_conn] in Hf. rewrite (decide_True _ _ eq_refl) in Hf.
    pose proof (f_equal (λ l, match l with o :: _ => o_msg o | [] => reply end) Hf) as Hmsg.
    cbn [write_to o_msg] in Hmsg. rewrite <-Hmsg. unfold write_to. by rewrite snapshot_too_large.
Qed.
End coordinator.

(** ** What the code also does *)

Section surprises.
Context `{Rng G} (mono_at wall_at : nat → Z) (wire : ConnId → Message → bool).
Implicit Types co : Coordinator G.

(** When a worker has registered again on another connection, the end of the old one
    still unregisters it and drops the new connection from the table
    (rf_coordinator.cpp:320-321). *)
Lemma stale_connection_unregisters conn conn' w co :
  co_conns co !! w = Some conn' → conn ≠ conn' →
  ∃ co', conn_step mono_at wall_at wire conn (OfWorker w) ReadFailed co = Returns (Finished_, co', []) ∧
    co_conns co' !! w = None ∧ co_ctrl co' = after (UnregisterWorker w) (co_ctrl co).
Proof.
  intros _ _. exists (worker_gone w co). split_and!; [done| |done]. simpl. by rewrite lookup_delete_eq.
Qed.

(** A request is forwarded to the worker of any replica the controller knows, whether
    or not it may serve (rf_coordinator.cpp:189-195). *)
Lemma execute_ignores_authority m conn r i co :
  find_replica (m_replica m) (co_ctrl co) = Some r → co_conns co !! r_worker_id r = Some i →
  m_kind m = MessageKind.EXECUTE →
  ∃ fwd reply, handle_control mono_at wall_at wire m conn co = Returns (co, [write_to wire i fwd; reply]) ∧
    m_kind fwd = MessageKind.EXECUTE ∧ m_payload fwd = m_payload m.
Proof.
  intros Hr Hi Hk. unfold handle_control. rewrite Hk. cbn -[handle_execute]. unfold handle_execute.
  rewrite Hr. unfold send_to_worker. rewrite Hi. do 2 eexists. split; [done|]. by rewrite <-Hk.
Qed.

(** A result a worker reports is answered with a PONG: the case has no break
    (rf_coordinator.cpp:315-316). *)
Lemma execute_result_answered_pong m conn co :
  m_kind m = MessageKind.EXECUTE_RESULT →
  ∃ co', handle_worker mono_at wall_at wire m conn co = Returns (co', [write_to wire conn pong]).
Proof. intros Hk. unfold handle_worker. rewrite Hk. cbn zeta. by eexists. Qed.

(** A provisioning request without a worker ends the process: the exception of
    [from_string] leaves the detached thread (rf_coordinator.cpp:39,119). *)
Lemma empty_provision_throws m conn co :
  m_kind m = MessageKind.PROVISION → m_payload m = EmptyString →
  handle_control mono_at wall_at wire m conn co = Throws.
Proof.
  intros Hk Hp. unfold handle_control. rewrite Hk. cbn -[handle_provision].
  unfold handle_provision. by rewrite Hp.
Qed.
End surprises.

(** ** Witnesses *)

Definition still (_ : nat) : Z := 5.
Definition any_wire (_ : ConnId) (_ : Message) : bool := true.

Lemma still_mono i : in_u64 (still i).
Proof. done. Qed.
Lemma still_wall i : in_i64 (still i).
Proof. done. Qed.

Definition frame_of (m : Message) : NetEvent := GotFrame (encode_message m).

Definition demo_co (c : Controller Z) : Coordinator Z :=
  mkCoordinator c (ident 8) {[ident 20 := 1%nat; ident 21 := 2%nat]} ∅ 7.
Definition promote_message : Message :=
  mkMessage MessageKind.PROMOTE 41 (ident 8) null null (ident 10) null null "target=5".
Definition register_message : Message :=
  mkMessage MessageKind.REGISTER 1 null (ident 20) (ident 30) null null null
    "node_hex=00000000-0000-0000-0000-00000000005a".
Definition drain_message : Message :=
  mkMessage MessageKind.DRAIN 42 (ident 8) null null (ident 10) null null EmptyString.
Definition demo_net : Net Z :=
  mkNet (demo_co serving_state) {[0%nat := OfControl; 1%nat := OfWorker (ident 20); 2%nat := OfWorker (ident 21)]}.

(** The network after one event of connection [conn], when it returns. *)
Definition net_after (conn : ConnId) (ev : NetEvent) (n : Net Z) : Net Z :=
  match conn_step still still any_wire conn (default AwaitFirst (net_conns n !! conn)) ev (net_co n) with
  | Returns (st, co, _) => mkNet co (<[conn := st]> (net_conns n))
  | _ => n
  end.

Definition accepted_net : Net Z :=
  mkNet (net_co (coordinator_start 1 2 3)) (<[0%nat := AwaitFirst]> ∅).
Definition registered_net : Net Z :=
  Eval vm_compute in net_after 0%nat (frame_of register_message) accepted_net.

Lemma registered_net_eq : net_after 0%nat (frame_of register_message) accepted_net = registered_net.
Proof. by vm_compute. Qed.

Lemma net_after_step conn st ev n co' st' outs :
  wf_event ev → net_conns n !! conn = Some st →
  conn_step still still any_wire conn st ev (net_co n) = Returns (st', co', outs) →
  net_step n (net_after conn ev n).
Proof.
  intros Hev Hst E. unfold net_after. rewrite Hst. simpl. rewrite E.
  by apply (net_event n conn st ev still still any_wire st' co' outs).
Qed.

Lemma registered_net_reachable : net_reachable 1 2 3 registered_net.
Proof.
  eapply rtc_l; [by apply (net_accept _ 0%nat)|]. eapply rtc_l; [|apply rtc_refl].
  rewrite <-registered_net_eq.
  assert (Hev : wf_event (frame_of register_message)) by (by vm_compute).
  destruct (conn_step still still any_wire 0%nat AwaitFirst (frame_of register_message) (net_co accepted_net))
    as [[[st co] outs]| |] eqn:E; [|by vm_compute in E..].
  exact (net_after_step 0%nat AwaitFirst (frame_of register_message) accepted_net _ _ _ Hev eq_refl E).
Qed.

(** A worker has registered: the table names its connection, and it is its thread. *)
Lemma coordinator_refines_controller_witness :
  co_conns (net_co registered_net) !! ident 20 = Some 0%nat ∧
  net_conns registered_net !! 0%nat = Some (OfWorker (ident 20)) ∧
  reachable 2 (co_ctrl (net_co registered_net)).
Proof.
  destruct (coordinator_refines_controller 1 2 3 registered_net registered_net_reachable) as (Hc & _ & Hl).
  assert (Hw : co_conns (net_co registered_net) !! ident 20 = Some 0%nat) by by vm_compute.
  exact (conj Hw (conj (Hl _ _ Hw) Hc)).
Defined.

Definition promoted_co : Coordinator Z :=
  Eval vm_compute in
  match conn_step still still any_wire 0%nat OfControl (frame_of promote_message) (demo_co ready_state) with
  | Returns (_, co, _) => co
  | _ => demo_co ready_state
  end.

Lemma promoted_co_eq : ∃ outs,
  conn_step still still any_wire 0%nat OfControl (frame_of promote_message) (demo_co ready_state) =
  Returns (OfControl, promoted_co, outs).
Proof. eexists. by vm_compute. Qed.

Lemma promote_frame_wf : wf_event (frame_of promote_message).
Proof. by vm_compute. Qed.
Lemma ready_epoch_wf : wf_id (co_epoch (demo_co ready_state)).
Proof. by vm_compute. Qed.

(** The PROMOTE message raises the flag of a READY replica. *)
Lemma network_grants_only_by_command_witness :
  flag_up (ident 10) (co_ctrl promoted_co) ∧ ¬ flag_up (ident 10) (co_ctrl (demo_co ready_state)) ∧
  ∃ m, decode_message (encode_message promote_message) = Decoded m ∧
    (m_kind m = MessageKind.PROMOTE ∨ m_kind m = MessageKind.FAILOVER).
Proof.
  destruct promoted_co_eq as [outs E].
  assert (Hup : flag_up (ident 10) (co_ctrl promoted_co)).
  { exists (replica_of 10 (co_ctrl promoted_co)). split; by vm_compute. }
  assert (Hdown : ¬ flag_up (ident 10) (co_ctrl (demo_co ready_state))).
  { intros (r & Hr & Hf). simpl in Hr. rewrite ready_lookup_10 in Hr. injection Hr as <-. by vm_compute in Hf. }
  split; [exact Hup|]. split; [exact Hdown|].
  destruct (network_grants_only_by_command still still any_wire still_mono still_wall 0%nat OfControl (frame_of promote_message) (demo_co ready_state)
    OfControl promoted_co outs (ident 10)) as (_ & bytes & m & Hb & Hm & Hk).
  - exact (conj (reachable_inv 1000 ready_state ready_state_reachable) ready_epoch_wf).
  - exact I.
  - exact promote_frame_wf.
  - exact E.
  - exact Hdown.
  - exact Hup.
  - injection Hb as <-. exact (ex_intro _ m (conj Hm Hk)).
Defined.

Lemma demo_net_live : conns_live demo_net.
Proof.
  intros w i. cbn [demo_net net_co net_conns demo_co co_conns].
  intros [[<- <-]|[_ [<- <-]%lookup_singleton_Some]]%lookup_insert_Some; done.
Qed.

(** A DRAIN request gets its one answer. *)
Lemma control_answered_once_witness :
  ∃ co' outs reply sent,
    conn_step still still any_wire 0%nat OfControl (frame_of drain_message) (net_co demo_net) =
      Returns (OfControl, co', outs) ∧
    replies drain_message (ident 8) reply ∧
    filter (λ o, o_conn o = 0%nat) outs = [mkOutput 0 reply sent].
Proof.
  assert (Hm : decode_message (encode_message drain_message) = Decoded drain_message) by by vm_compute.
  destruct (control_answered_once still still any_wire demo_net 0%nat OfControl _ drain_message demo_net_live
    eq_refl (or_introl eq_refl) Hm) as [Hret Hans].
  destruct (Hret eq_refl) as (co' & outs & E).
  destruct (Hans _ _ _ E) as (_ & _ & reply & sent & Hr & Hf & _).
  exists co', outs, reply, sent. exact (conj E (conj Hr Hf)).
Defined.
