(* ===== verification/Worker.v ===== *)
(** The worker process (src/apps/distributed/rf_worker.cpp).

    Its registration, the check of the acknowledgement, and one iteration of its
    message loop; then the two ends together: what the coordinator makes of the frames
    a worker answers a WARM request with. *)

From S2P Require Import Prelude Identity Enums Model Transition Compatibility Authority Controller Codec Protocol Transport Placement Coordinator.

Definition line_break : string := String newline EmptyString.

(** [BackendKind::TRITON] and the literals of [main]. *)
Definition register_payload (nid : NodeId) : string :=
  ("node_hex=" ++ id_str nid ++ line_break ++ "backend=" ++
   dec_str (enum_value BackendKind.TRITON) ++ line_break ++ "mem=0x800000000" ++ line_break ++
   "device=cuda:0" ++ line_break ++ "ccmaj=c" ++ line_break ++ "devmem=0x800000000")%string.
Definition register_request (wid : WorkerId) (bid : WorkerBootId) (nid : NodeId) : Message :=
  mkMessage MessageKind.REGISTER 0 null wid bid null null null (register_payload nid).

(** What [decode_message] has stored when it returns false: the fields read so far. *)
Definition left_by_decoder (bytes : list byte) : Message :=
  match bytes with
  | [] => default_Message
  | b :: _ =>
      let kind := Z_of_byte b in
      match (kind ⇐ read_u8; seq ⇐ read_u64; rret (kind, seq)) bytes with
      | inl _ => mkMessage kind 0 null null null null null null EmptyString
      | inr ((kind, seq), rest) =>
          match read_ids kind seq rest with
          | inl _ => default_Message
          | inr (m, rest) =>
              match read_u32 rest with
              | inl _ => m
              | inr (plen, rest) =>
                  if Z.of_nat (length rest) <? plen then m
                  else with_payload m (string_of_list_byte (take (Z.to_nat plen) rest))
              end
          end
      end
  end.

(** [am.kind != REGISTER_ACK || am.payload.rfind("ok", 0) != 0] decides the exit; the
    result of [decode_message] is not looked at. *)
Definition ack_accepts (am : Message) : bool :=
  (m_kind am =? MessageKind.REGISTER_ACK) && String.prefix "ok" (m_payload am).
Definition check_ack (ack : list byte) : Outcome bool :=
  match decode_message ack with
  | Decoded m => Returns (ack_accepts m)
  | Malformed => Returns (ack_accepts (left_by_decoder ack))
  | OutOfBounds => Undefined
  end.

(** The loop [for i < 100000: acc += i * 3]. *)
Definition exec_sum (n : nat) : Z := foldl (λ acc i, u64 (acc + u64 (Z.of_nat i * 3))) 0 (seq 0 n).
Definition exec_result : Z := exec_sum (Z.to_nat 100000).

Section worker.
Context (wid : WorkerId) (bid : WorkerBootId).

Definition answer (m : Message) (kind : MessageKind) (attempt : AttemptId) (payload : string) : Message :=
  mkMessage kind 0 (m_epoch m) wid bid (m_replica m) (m_set m) attempt payload.

Definition warm_done (m : Message) : Message := answer m MessageKind.WARM_DONE null "steps=4".
Definition health_report (m : Message) : Message :=
  answer m MessageKind.HEALTH null ("state=2" ++ line_break ++ "source=worker").
Definition readiness_report (m : Message) : Message :=
  answer m MessageKind.READINESS null "mask=0x7ff".
Definition execute_result (m : Message) : Message :=
  answer m MessageKind.EXECUTE_RESULT (m_attempt m)
    ("req=" ++ get_payload (m_payload m) "req" "?" ++ line_break ++ "outcome=1" ++ line_break ++
     "result=" ++ dec_str exec_result).

(** The frames written for one message of the coordinator. *)
Definition worker_answers (m : Message) : list Message :=
  if m_kind m =? MessageKind.WARM then [warm_done m; health_report m; readiness_report m]
  else if m_kind m =? MessageKind.EXECUTE then [execute_result m]
  else if m_kind m =? MessageKind.PING then [pong]
  else [].
Definition worker_step (frame : list byte) : Outcome (list Message) :=
  match decode_message frame with
  | Decoded m => Returns (worker_answers m)
  | Malformed => Returns []
  | OutOfBounds => Undefined
  end.
End worker.
