(* ===== verification/WorkerProps.v ===== *)
(** What a worker and the coordinator achieve together.

    The theorems about src/apps/distributed/rf_worker.cpp against the handlers of
    rf_coordinator.cpp: the registration handshake, and the way of a replica from a
    WARM request to READY. *)

From S2P Require Import Prelude Identity Enums Model Transition Compatibility Authority Controller ControllerRun ControllerInv Scenario ControllerProps Codec Protocol Transport Placement Coordinator CoordinatorRun Worker.

(** ** The payloads of the worker *)

Lemma id_str_no_newline {k} (i : Id k) : no_char newline (id_str i).
Proof.
  unfold no_char. rewrite id_str_chars. intros Hin.
  assert (Hd : hex_digit newline ∈ hex_digit <$> (write_hex (hi i) ++ write_hex (lo i)))
    by by apply list_elem_of_fmap_2.
  rewrite fmap_app, !hex_digit_write_hex in Hd.
  apply elem_of_app in Hd as [Hd|Hd]; apply be_digits_range in Hd;
    change (hex_digit newline) with (-1) in Hd; lia.
Qed.

Lemma register_payload_lines nid :
  payload_lines (register_payload nid) =
  [("node_hex=" ++ id_str nid)%string; "backend=1"; "mem=0x800000000"; "device=cuda:0"; "ccmaj=c";
   "devmem=0x800000000"]%string.
Proof.
  unfold register_payload. rewrite <-string_app_assoc.
  change (line_break ++ ?x)%string with (String newline x).
  pose proof (id_str_no_newline nid) as Hid. generalize dependent (id_str nid). intros x Hid.
  rewrite payload_lines_app; [by vm_compute|].
  unfold no_char. rewrite list_ascii_app, not_elem_of_app. split; [|exact Hid].
  apply (bool_decide_unpack _). by vm_compute.
Qed.

Lemma build_register wid bid nid :
  wf_id nid →
  build_worker_reg (register_request wid bid nid) =
  Returns (mkWorkerRegistration wid bid nid
    (mkResourceInventory 0x800000000 0x800000000 1
      [mkDeviceCapability AcceleratorKind.CUDA "cuda:0" (mkComputeCapability 12 0) 0x800000000]
      [mkBackendCapability BackendKind.TRITON "triton-3" (mkComputeCapability 12 0) NumericMode.FP16])
    null 1).
Proof.
  intros Hn. unfold build_worker_reg, register_request. cbn [m_payload m_worker m_boot].
  unfold get_payload. rewrite register_payload_lines.
  generalize (from_string_id_str nid Hn). generalize (id_str nid). intros x Hx.
  change (first_match ("node_hex" ++ "=") _ EmptyString) with x. unfold parse_id at 1. rewrite Hx. by vm_compute.
Qed.

(** ** Messages that arrive *)

(** One well-typed message on a worker's connection. *)
Section delivery.
Context `{Rng G} (mono_at wall_at : nat → nat → Z) (wire : ConnId → Message → bool).
Implicit Types co : Coordinator G.

Lemma worker_frame k conn w m co :
  wf_Message m →
  conn_step (mono_at k) (wall_at k) wire conn (OfWorker w) (GotFrame (encode_message m)) co =
  (x ⟵ handle_worker (mono_at k) (wall_at k) wire m conn co; Returns (OfWorker w, x.1, x.2)).
Proof. intros Hm. unfold conn_step. by rewrite decode_encode. Qed.

(** The frames of [ms] arrive in order on one connection; the [k]-th event reads its own
    clocks. *)
Fixpoint deliver (k : nat) (conn : ConnId) (st : ConnState) (ms : list Message) co :
    Outcome (ConnState * Coordinator G * list Output) :=
  match ms with
  | [] => Returns (st, co, [])
  | m :: ms' =>
      x ⟵ conn_step (mono_at k) (wall_at k) wire conn st (GotFrame (encode_message m)) co;
      y ⟵ deliver (S k) conn x.1.1 ms' x.1.2;
      Returns (y.1.1, y.1.2, x.2 ++ y.2)
  end.

(** A replica the worker may report on. *)
Definition hosted_by (wid : WorkerId) (bid : WorkerBootId) co (r : ReplicaState) : Prop :=
  r_worker_id r = wid ∧ r_boot_id r = bid ∧ r_coordinator_epoch r = epoch_ (co_ctrl co).

Lemma hosted_matches wid bid co r : hosted_by wid bid co r → worker_boot_matches r wid bid = true.
Proof. intros (<- & <- & _). unfold worker_boot_matches. by rewrite !bool_decide_true. Qed.

Lemma handle_warm_done wid bid k conn m co r :
  m_kind m = MessageKind.WARM → replicas_ (co_ctrl co) !! m_replica m = Some r →
  hosted_by wid bid co r → r_lifecycle r = ReplicaLifecycle.STARTING →
  ∃ w, wr_warmup_execution_done w = true ∧
  handle_worker (mono_at k) (wall_at k) wire (warm_done wid bid m) conn co =
  Returns (with_ctrl (store_replica (m_replica m) (warm_progress w (mono_at k 0%nat) r) (co_ctrl co)) co, []).
Proof.
  intros Hk Hr Hh Hl.
  exists (mkWarmingRecord WarmthState.WARM 4 4 true true true true true true true true true 0 0 0 EmptyString).
  split; [done|]. unfold handle_worker. cbn [warm_done answer m_kind m_payload m_replica m_worker m_boot].
  change (warming_from "steps=4") with (Returns (mkWarmingRecord WarmthState.WARM 4 4
    true true true true true true true true true 0 0 0 EmptyString)).
  cbn [obind]. unfold warm_replica. rewrite Hr, (hosted_matches _ _ _ _ Hh), Hl. done.
Qed.

Lemma handle_health_report wid bid k conn m co r :
  replicas_ (co_ctrl co) !! m_replica m = Some r → hosted_by wid bid co r → terminated r = false →
  ∃ ev, he_state ev = HealthState.HEALTHY ∧
  handle_worker (mono_at k) (wall_at k) wire (health_report wid bid m) conn co =
  Returns (with_ctrl (store_replica (m_replica m) (observe_health ev (mono_at k 0%nat) r) (co_ctrl co)) co, []).
Proof.
  intros Hr Hh Ht. unfold handle_worker, find_replica.
  cbn [health_report answer m_kind m_payload m_replica m_worker m_boot]. rewrite Hr.
  change (hexi (get_payload _ "state" "2")) with (Returns 2). cbn [obind].
  change (from_int 2) with (Some HealthState.HEALTHY). cbn iota beta zeta.
  set (ev := health_from _ _ _ _). exists ev. split; [done|].
  unfold report_health. rewrite Hr, (hosted_matches _ _ _ _ Hh), Ht.
  destruct Hh as (_ & _ & He). rewrite !bool_decide_false by (rewrite ?He; auto). done.
Qed.

Lemma handle_readiness_report wid bid k conn m co r :
  replicas_ (co_ctrl co) !! m_replica m = Some r → hosted_by wid bid co r → terminated r = false →
  ∃ rr, all_set (rr_factors rr) = true ∧
  handle_worker (mono_at k) (wall_at k) wire (readiness_report wid bid m) conn co =
  Returns (with_ctrl (store_replica (m_replica m) (observe_readiness rr r) (co_ctrl co)) co, []).
Proof.
  intros Hr Hh Ht. unfold handle_worker.
  cbn [readiness_report answer m_kind m_payload m_replica m_worker m_boot].
  change (hexu (get_payload _ "mask" "0")) with (Returns 2047). cbn [obind].
  exists (readiness_from 2047). split; [done|].
  unfold report_readiness. rewrite Hr, (hosted_matches _ _ _ _ Hh), Ht.
  destruct Hh as (_ & _ & He). rewrite bool_decide_false by (rewrite He; auto). done.
Qed.

(** The replica is ready, and everything else about it is as before. *)
Record brought_up (r r' : ReplicaState) : Prop := {
  bu_lifecycle : r_lifecycle r' = ReplicaLifecycle.READY;
  bu_health : r_health r' = HealthState.HEALTHY;
  bu_readiness : r_readiness r' = ReadinessState.READY;
  bu_warmth : r_warmth r' = WarmthState.WARM;
  bu_serving : r_serving_eligible r' = r_serving_eligible r;
  bu_promotion : r_promotion r' = r_promotion r;
  bu_role : r_role r' = r_role r;
  bu_set : r_set_id r' = r_set_id r;
  bu_worker : r_worker_id r' = r_worker_id r;
  bu_boot : r_boot_id r' = r_boot_id r;
  bu_epoch : r_coordinator_epoch r' = r_coordinator_epoch r;
  bu_placement : r_placement r' = r_placement r;
}.

Lemma reports_bring_up r w ev rr t1 t2 :
  r_lifecycle r = ReplicaLifecycle.STARTING → wr_warmup_execution_done w = true →
  he_state ev = HealthState.HEALTHY → all_set (rr_factors rr) = true →
  brought_up r (observe_readiness rr (observe_health ev t2 (warm_progress w t1 r))).
Proof.
  intros Hl Hw He Hr.
  assert (Hh : observe_health ev t2 (warm_progress w t1 r) =
    (warm_progress w t1 r) <| r_health := HealthState.HEALTHY |>
      <| r_health_record := r_health_record (observe_health ev t2 (warm_progress w t1 r)) |>).
  { unfold observe_health. cbn zeta. rewrite He. cbn [health_bad bool_decide decide orb].
    change (health_bad HealthState.HEALTHY) with false. by rewrite andb_false_r. }
  rewrite Hh. generalize (r_health_record (observe_health ev t2 (warm_progress w t1 r))). intros hr.
  unfold warm_progress. cbn zeta. rewrite Hw. cbn [negb andb].
  unfold observe_readiness. cbn zeta. rewrite Hr. by destruct (_ =? 0); split.
Qed.

(** Three reports in a row. *)
Lemma warm_reports_delivered k wid bid conn m co r :
  wf_id wid → wf_id bid → wf_Message m → m_kind m = MessageKind.WARM →
  replicas_ (co_ctrl co) !! m_replica m = Some r → hosted_by wid bid co r →
  r_lifecycle r = ReplicaLifecycle.STARTING →
  ∃ co' r', deliver k conn (OfWorker wid) (worker_answers wid bid m) co = Returns (OfWorker wid, co', []) ∧
    replicas_ (co_ctrl co') = <[m_replica m := r']> (replicas_ (co_ctrl co)) ∧
    sets_ (co_ctrl co') = sets_ (co_ctrl co) ∧ brought_up r r'.
Proof.
  intros Hw Hb Hm Hk Hr Hh Hl.
  assert (Hans : ∀ kind p, 0 <= kind < 256 → in_u32 (Z.of_nat (String.length p)) →
    wf_Message (answer wid bid m kind null p)).
  { intros kind p Hkind Hp. unfold wf_Message in *. destruct_and! Hm. cbn. split_and?; first [done|lia]. }
  unfold worker_answers. rewrite Hk. change (MessageKind.WARM =? MessageKind.WARM) with true. cbn iota.
  cbn [deliver].
  destruct (handle_warm_done wid bid k conn m co r Hk Hr Hh Hl) as (w & Hwd & E1).
  rewrite worker_frame by (by apply Hans). rewrite E1. cbn [obind fst snd].
  set (r1 := warm_progress w (mono_at k 0%nat) r) in *.
  set (co1 := with_ctrl (store_replica (m_replica m) r1 (co_ctrl co)) co).
  assert (Hr1 : replicas_ (co_ctrl co1) !! m_replica m = Some r1) by apply lookup_insert_eq.
  assert (F1 : r_lifecycle r1 = ReplicaLifecycle.WARMING ∧ hosted_by wid bid co1 r1).
  { unfold r1, warm_progress. cbn zeta. rewrite Hwd. cbn [negb andb]. by destruct (_ =? 0). }
  destruct F1 as [L1 H1].
  destruct (handle_health_report wid bid (S k) conn m co1 r1 Hr1 H1) as (ev & Hev & E2).
  { unfold terminated. by rewrite L1. }
  rewrite worker_frame by (by apply Hans). rewrite E2. cbn [obind fst snd].
  set (r2 := observe_health ev (mono_at (S k) 0%nat) r1) in *.
  set (co2 := with_ctrl (store_replica (m_replica m) r2 (co_ctrl co1)) co1).
  assert (Hr2 : replicas_ (co_ctrl co2) !! m_replica m = Some r2) by apply lookup_insert_eq.
  assert (F2 : r_lifecycle r2 = ReplicaLifecycle.WARMING ∧ hosted_by wid bid co2 r2).
  { unfold r2, observe_health. cbn zeta. rewrite Hev. change (health_bad HealthState.HEALTHY) with false.
    rewrite andb_false_r. done. }
  destruct F2 as [L2 H2].
  destruct (handle_readiness_report wid bid (S (S k)) conn m co2 r2 Hr2 H2) as (rr & Hrr & E3).
  { unfold terminated. by rewrite L2. }
  rewrite worker_frame by (by apply Hans). rewrite E3. cbn [obind fst snd app].
  do 2 eexists. split_and!; [done| |done|by apply reports_bring_up].
  cbn. by rewrite !insert_insert_eq.
Qed.
End delivery.

(** ** The theorems *)

Section worker.
Context `{Rng G} (mono_at wall_at : nat → nat → Z) (wire : ConnId → Message → bool).

Lemma length_id_str {k} (i : Id k) : String.length (id_str i) = 32%nat.
Proof.
  assert (E : ∀ s, String.length s = length (list_ascii_of_string s)).
  { induction s as [|c s IH]; [done|]. cbn. by rewrite IH. }
  by rewrite E, id_str_chars, length_app, !length_write_hex.
Qed.

Lemma register_request_wf wid bid nid :
  wf_id wid → wf_id bid → wf_Message (register_request wid bid nid).
Proof.
  intros Hw Hb. unfold wf_Message. cbn [register_request m_kind m_seq m_epoch m_worker m_boot m_replica m_set
    m_attempt m_payload].
  assert (Hp : in_u32 (Z.of_nat (String.length (register_payload nid)))).
  { unfold register_payload. rewrite !string_length_app, length_id_str. by vm_compute. }
  split_and?; done.
Qed.

(** A worker's registration works end to end: its request is decoded and registers
    the worker under its own identities with the inventory it announces, its
    connection becomes the one frames for the worker are written to, and it accepts
    the acknowledgement it is sent. *)
Theorem registration_handshake conn wid bid nid (co : Coordinator G) :
  wf_id wid → wf_id bid → wf_id nid → wf_id (co_epoch co) →
  ∃ co' ack reg,
    conn_step (mono_at 0%nat) (wall_at 0%nat) wire conn AwaitFirst
      (GotFrame (encode_message (register_request wid bid nid))) co =
      Returns (OfWorker wid, co', [write_to wire conn ack]) ∧
    workers_ (co_ctrl co') = <[wid := reg]> (workers_ (co_ctrl co)) ∧
    w_boot_id reg = bid ∧ w_node_id reg = nid ∧ co_conns co' = <[wid := conn]> (co_conns co) ∧
    m_kind ack = MessageKind.REGISTER_ACK ∧ check_ack (encode_message ack) = Returns true.
Proof.
  intros Hw Hb Hn He. unfold conn_step. rewrite decode_encode by by apply register_request_wf.
  change (m_kind (register_request wid bid nid) =? MessageKind.REGISTER) with true. cbn iota.
  unfold handle_register. rewrite build_register by done. cbn [obind].
  set (reg := mkWorkerRegistration _ _ _ _ _ _).
  destruct (register_worker reg (co_ctrl co)) as [res c] eqn:Hop. cbn [obind fst snd].
  do 2 eexists. exists reg. unfold register_worker in Hop. injection Hop as <- <-.
  split_and!; [done| |done..| ].
  - cbn. by destruct (restarted reg (co_ctrl co)).
  - unfold check_ack. rewrite decode_encode; [done|].
    assert (Hp : in_u32 (Z.of_nat (String.length (result_text (op_ok ("worker registered (boot " ++
      id_str (w_boot_id reg) ++ ")")))))).
    { unfold result_text. cbn [is_ok op_ok message]. rewrite !string_length_app, length_id_str. by vm_compute. }
    unfold wf_Message. cbn [m_kind m_seq m_epoch m_worker m_boot m_replica m_set m_attempt m_payload].
    split_and?; done.
Qed.

Lemma provision_ok rid sid w compat dev cap t1 t2 (c c' : Controller G) res :
  provision_replica rid sid w compat dev cap t1 t2 c = (res, c') → is_ok res = true →
  ∃ reg r, workers_ c !! w = Some reg ∧ epoch_ c' = epoch_ c ∧ replicas_ c' !! rid = Some r ∧
    r_lifecycle r = ReplicaLifecycle.DECLARED ∧ r_worker_id r = w ∧ r_boot_id r = w_boot_id reg ∧
    r_coordinator_epoch r = epoch_ c ∧ r_set_id r = sid ∧ r_serving_eligible r = false.
Proof.
  unfold provision_replica. destruct (sets_ c !! sid) as [set|]; [|by intros [= <- _]].
  destruct (_ || _); [by intros [= <- _]|]. destruct (workers_ c !! w) as [reg|] eqn:Hw; [|by intros [= <- _]].
  destruct (_ <=? _); [by intros [= <- _]|]. draw_all. intros [= <- <-] _. exists reg. eexists.
  split_and!; [done|done|apply lookup_insert_eq|done..].
Qed.

(** What an accepted provisioning of a connected worker's replica leaves. *)
Lemma provision_accepted conn wconn m (co co1 : Coordinator G) ack warm sent :
  handle_provision (mono_at 0%nat) (wall_at 0%nat) wire m conn co = Returns (co1, [ack; mkOutput wconn warm sent]) →
  wf_Message m → wf_id (co_epoch co) →
  wf_id (m_worker warm) ∧ wf_Message warm ∧ m_kind warm = MessageKind.WARM ∧ m_replica warm = m_replica m ∧
  co_conns co !! m_worker warm = Some wconn ∧
  ∃ reg r, workers_ (co_ctrl co) !! m_worker warm = Some reg ∧
    replicas_ (co_ctrl co1) !! m_replica m = Some r ∧ hosted_by (m_worker warm) (w_boot_id reg) co1 r ∧
    r_lifecycle r = ReplicaLifecycle.STARTING ∧ r_set_id r = m_set m ∧ r_serving_eligible r = false.
Proof.
  intros E Hm He. unfold handle_provision in E. outcome_inv E. cbn zeta in E.
  set (compat := derived_compat _ _) in E. set (dev := mkDeviceCapability _ _ _ _) in E.
  destruct (provision_replica _ _ _ _ _ _ _ _ _) as [res c] eqn:Hop.
  destruct (is_ok res) eqn:Hok; [|done]. destruct (random_id _) as [pid g].
  injection E as <- _ Hsend. unfold send_to_worker in Hsend. cbn [co_conns with_rng with_ctrl] in Hsend.
  destruct (co_conns co !! x) as [i|] eqn:Hi; [|done]. injection Hsend as <- <- _.
  split_and!; [by eapply parse_id_wf| |done|done|done|].
  { unfold wf_Message in *. destruct_and! Hm. cbn. split_and?; first [done|by eapply parse_id_wf]. }
  cbn [m_worker]. destruct (provision_ok _ _ _ _ _ _ _ _ _ _ _ Hop Hok)
    as (reg & r & Hreg & Hep & Hr & Hl & Hw & Hb & He' & Hs & Hf).
  set (r1 := start_replica (mono_at 0%nat 2%nat) (wall_at 0%nat 1%nat) (allocate_replica pid r)).
  assert (Hc : (set_starting (m_replica m) (mono_at 0%nat 2%nat) (wall_at 0%nat 1%nat)
      (set_allocating (m_replica m) pid c).2).2 =
    store_replica (m_replica m) r1 (store_replica (m_replica m) (allocate_replica pid r) c)).
  { assert (Ea : (set_allocating (m_replica m) pid c).2 = store_replica (m_replica m) (allocate_replica pid r) c).
    { unfold set_allocating. by rewrite Hr, Hl. }
    assert (Hra : replicas_ (store_replica (m_replica m) (allocate_replica pid r) c) !! m_replica m =
      Some (allocate_replica pid r)) by apply lookup_insert_eq.
    unfold set_starting. by rewrite Ea, Hra. }
  exists reg, r1. cbn [with_rng with_ctrl co_ctrl]. rewrite Hc.
  split_and!; [done|apply lookup_insert_eq| |done|exact Hs|exact Hf].
  split_and!; [exact Hw|exact Hb|]. cbn [with_rng with_ctrl co_ctrl]. exact (eq_trans He' (eq_sym Hep)).
Qed.

(** C17: a PROVISION request the coordinator accepts for a connected worker leads to a
    READY replica: the WARM frame is written to that worker's connection, and once the
    worker's three answers have been read the replica is READY, HEALTHY and WARM in
    its set, and still does not serve. *)
Theorem provision_reaches_ready conn wconn m (co co1 : Coordinator G) ack warm sent :
  wf_coordinator co → wf_Message m →
  handle_provision (mono_at 0%nat) (wall_at 0%nat) wire m conn co = Returns (co1, [ack; mkOutput wconn warm sent]) →
  co_conns co !! m_worker warm = Some wconn ∧
  ∃ reg co2 r, workers_ (co_ctrl co) !! m_worker warm = Some reg ∧
    deliver mono_at wall_at wire 1 wconn (OfWorker (m_worker warm))
      (worker_answers (m_worker warm) (w_boot_id reg) warm) co1 =
      Returns (OfWorker (m_worker warm), co2, []) ∧
    replicas_ (co_ctrl co2) !! m_replica m = Some r ∧ r_set_id r = m_set m ∧
    r_lifecycle r = ReplicaLifecycle.READY ∧ r_health r = HealthState.HEALTHY ∧
    r_readiness r = ReadinessState.READY ∧ r_warmth r = WarmthState.WARM ∧
    r_serving_eligible r = false.
Proof.
  intros [Hinv He] Hm E.
  apply provision_accepted in E as (Hw & Hwm & Hk & Hrid & Hi & reg & r & Hreg & Hr & Hh & Hl & Hs & Hf); [|done..].
  split; [done|]. rewrite <-Hrid in Hr.
  assert (Hb : wf_id (w_boot_id reg)).
  { apply (ci_worker _ Hinv) in Hreg as [_ Hreg]. apply Hreg. }
  destruct (warm_reports_delivered mono_at wall_at wire 1 _ _ wconn warm co1 r Hw Hb Hwm Hk Hr Hh Hl)
    as (co2 & r' & Hd & Hr' & _ & Hup).
  exists reg, co2, r'. rewrite Hr', <-Hrid, lookup_insert_eq. destruct Hup as [U1 U2 U3 U4 U5 _ _ U8 _ _ _ _].
  split_and!; try done; congruence.
Qed.

(** ** Results *)

Lemma exec_sum_closed n : Z.of_nat n <= 2 ^ 20 → 2 * exec_sum n = 3 * Z.of_nat n * (Z.of_nat n - 1).
Proof.
  unfold exec_sum. induction n as [|n IH]; intros Hn; [done|].
  rewrite seq_S, foldl_app. cbn [foldl]. rewrite Nat2Z.inj_succ in *. specialize (IH ltac:(lia)).
  set (acc := foldl _ 0 _) in *. simpl Nat.add. unfold u64.
  rewrite (Z.mod_small (Z.of_nat n * 3)) by lia. rewrite Z.mod_small by nia. nia.
Qed.

Lemma exec_result_value : exec_result = 14999850000.
Proof.
  unfold exec_result. pose proof (exec_sum_closed (Z.to_nat 100000)) as Hs.
  rewrite Z2Nat.id in Hs by lia. specialize (Hs ltac:(lia)). lia.
Qed.

Definition stored_result (req : string) : string :=
  ("req=" ++ req ++ line_break ++ "outcome=1" ++ line_break ++ "result=14999850000")%string.

(** What a worker sends back for an EXECUTE request. *)
Definition request_label (m : Message) : string := get_payload (m_payload m) "req" "?".

Lemma execute_result_eq wid bid m :
  execute_result wid bid m =
  answer wid bid m MessageKind.EXECUTE_RESULT (m_attempt m) (stored_result (request_label m)).
Proof. unfold execute_result, stored_result, request_label. by rewrite exec_result_value. Qed.

Lemma request_label_clean m : no_char newline (request_label m).
Proof. apply get_payload_clean, (bool_decide_unpack _). by vm_compute. Qed.

Lemma execute_result_wf wid bid m :
  wf_Message m → wf_id wid → wf_id bid → Z.of_nat (String.length (m_payload m)) <= kMaxFrame →
  wf_Message (execute_result wid bid m).
Proof.
  intros Hm Hw Hb Hlen. rewrite execute_result_eq. unfold wf_Message in *. destruct_and! Hm.
  assert (Hp : in_u32 (Z.of_nat (String.length (stored_result (request_label m))))).
  { unfold stored_result. rewrite !string_length_app. unfold request_label.
    pose proof (get_payload_length (m_payload m) "req" "?") as Hl. unfold kMaxFrame, in_u32 in *.
    cbn [String.length line_break] in *. lia. }
  cbn [answer m_kind m_seq m_epoch m_worker m_boot m_replica m_set m_attempt m_payload]. by split_and?.
Qed.

Lemma stored_result_read req k def :
  no_char newline req → no_char "=" k →
  get_payload (stored_result req) k def =
  default def (assoc k [("req", req); ("outcome", "1"); ("result", "14999850000")]%string).
Proof.
  intros Hreq Hk.
  assert (E : stored_result req =
    (payload_text [("req", req); ("outcome", "1")] ++ ("result" ++ "=" ++ "14999850000"))%string).
  { unfold stored_result. cbn [payload_text fst snd]. unfold line_break.
    by rewrite !string_app_assoc, !string_app_cons. }
  rewrite E. apply (get_payload_unended [("req", req); ("outcome", "1")]%string);
    [|by (apply (bool_decide_unpack _); vm_compute)..|done].
  repeat apply Forall_cons; split_and!; try done; by (apply (bool_decide_unpack _); vm_compute).
Qed.

(** C29: an EXECUTE request for a known replica whose worker has a connection, with a
    payload of at most 16 MiB, comes back as a result: it is forwarded with the
    coordinator's epoch to that connection; when the worker's answer to the forwarded
    message arrives, the result is stored under the replica and nothing else of the
    coordinator changes, and a later query for the result gives the request's own label
    with the value computed. *)
Theorem execute_round_trip conn wconn wid bid m r (co : Coordinator G) :
  wf_Message m → wf_id (co_epoch co) → wf_id wid → wf_id bid →
  Z.of_nat (String.length (m_payload m)) <= kMaxFrame → m_kind m = MessageKind.EXECUTE →
  find_replica (m_replica m) (co_ctrl co) = Some r → co_conns co !! r_worker_id r = Some wconn →
  ∃ fwd reply co',
    handle_control (mono_at 0%nat) (wall_at 0%nat) wire m conn co = Returns (co, [write_to wire wconn fwd; write_to wire conn reply]) ∧
    m_epoch fwd = co_epoch co ∧
    deliver mono_at wall_at wire 1 wconn (OfWorker wid) (worker_answers wid bid fwd) co =
      Returns (OfWorker wid, co', [write_to wire wconn pong]) ∧
    (∃ res, co' = stash_result (m_replica m) res co) ∧
    ∀ q, m_replica q = m_replica m → get_payload (m_payload q) "q" "?" = "result"%string →
      query_text q co' = ("result=" ++ stored_result (request_label m))%string.
Proof.
  intros Hm He Hw Hb Hlen Hk Hr Hc. unfold handle_control. rewrite Hk.
  cbn -[handle_execute deliver worker_answers query_text]. unfold handle_execute. rewrite Hr.
  unfold send_to_worker. rewrite Hc.
  set (fwd := mkMessage _ _ _ _ _ _ _ _ _). do 3 eexists. split; [done|]. split; [done|].
  assert (Hans : worker_answers wid bid fwd = [execute_result wid bid fwd]).
  { unfold worker_answers. subst fwd. cbn [m_kind]. by rewrite Hk. }
  assert (Hwf : wf_Message (execute_result wid bid fwd)).
  { apply execute_result_wf; [|done..]. unfold wf_Message in *. destruct_and! Hm. by split_and?. }
  rewrite Hans. cbn [deliver]. rewrite worker_frame by done. rewrite execute_result_eq.
  unfold handle_worker. cbn [answer m_kind m_replica m_payload]. cbn -[stash_result result_line stored_result].
  split; [done|]. split; [by eexists|].
  intros q Hq Hres. unfold query_text. rewrite Hres, decide_True by done. f_equal.
  unfold peek_result. cbn [stash_result co_results m_replica]. rewrite Hq, lookup_insert_eq. cbn [default].
  unfold result_line. cbn [answer m_payload].
  rewrite !stored_result_read by first [apply request_label_clean|apply (bool_decide_unpack _); by vm_compute].
  done.
Qed.
End worker.

(** ** Witnesses *)

Definition no_time (_ _ : nat) : Z := 5.
Definition open_wire (_ : ConnId) (_ : Message) : bool := true.
Definition two_workers (c : Controller Z) : Coordinator Z :=
  mkCoordinator c (ident 8) {[ident 20 := 1%nat; ident 21 := 2%nat]} ∅ 7.

Lemma registration_handshake_witness :
  ∃ co' ack reg,
    conn_step (no_time 0%nat) (no_time 0%nat) open_wire 0%nat AwaitFirst
      (GotFrame (encode_message (register_request (ident 20) (ident 30) (ident 90)))) (two_workers ready_state) =
      Returns (OfWorker (ident 20), co', [write_to open_wire 0%nat ack]) ∧
    workers_ (co_ctrl co') !! ident 20 = Some reg ∧ w_boot_id reg = ident 30 ∧
    check_ack (encode_message ack) = Returns true.
Proof.
  destruct (registration_handshake no_time no_time open_wire 0%nat (ident 20) (ident 30) (ident 90)
    (two_workers ready_state)) as (co' & ack & reg & E & Hw & Hb & _ & _ & _ & Ha);
    [by vm_compute|by vm_compute|by vm_compute|by vm_compute|].
  exists co', ack, reg. split; [exact E|]. split; [rewrite Hw; apply lookup_insert_eq|]. exact (conj Hb Ha).
Defined.

(** The workers and the set of the run, before any replica. *)
Definition base_state : Controller Z := Eval vm_compute in run (take 3 demo_setup) (new_controller 1000).
Lemma base_state_eq : run (take 3 demo_setup) (new_controller 1000) = base_state.
Proof. by vm_compute. Qed.
Lemma base_state_inv : controller_inv base_state.
Proof.
  eapply reachable_inv. rewrite <-base_state_eq. apply run_reachable.
  apply Forall_take, demo_setup_wf.
Qed.

Definition provision_message : Message :=
  mkMessage MessageKind.PROVISION 43 (ident 8) null null (ident 12) (ident 7) null
    "worker=00000000-0000-0000-0000-000000000014".

Lemma provision_message_wf : wf_Message provision_message.
Proof. by repeat split. Qed.

Lemma two_workers_epoch : wf_id (co_epoch (two_workers base_state)).
Proof. by vm_compute. Qed.

Lemma provision_accepted_once :
  ∃ co1 ack warm sent, handle_provision (no_time 0%nat) (no_time 0%nat) open_wire provision_message 0%nat
    (two_workers base_state) = Returns (co1, [ack; mkOutput 1%nat warm sent]).
Proof. do 4 eexists. by vm_compute. Qed.

Lemma provision_reaches_ready_witness :
  ∃ (co2 : Coordinator Z) r, replicas_ (co_ctrl co2) !! ident 12 = Some r ∧ r_lifecycle r = ReplicaLifecycle.READY ∧
    r_set_id r = ident 7.
Proof.
  destruct provision_accepted_once as (co1 & ack & warm & sent & E).
  assert (Hco : wf_coordinator (two_workers base_state)) by exact (conj base_state_inv two_workers_epoch).
  destruct (provision_reaches_ready no_time no_time open_wire 0%nat 1%nat provision_message
    (two_workers base_state) co1 ack warm sent Hco provision_message_wf E)
    as (_ & reg & co2 & r & _ & _ & Hr & Hs & Hl & _).
  exists co2, r. exact (conj Hr (conj Hl Hs)).
Defined.

Definition execute_message : Message :=
  mkMessage MessageKind.EXECUTE 44 (ident 8) null null (ident 10) (ident 7) (ident 77) "req=a7".

Definition result_query : Message :=
  mkMessage MessageKind.QUERY 0 null null null (ident 10) null null "q=result".

Lemma execute_round_trip_witness :
  ∃ (co' : Coordinator Z), query_text result_query co' = ("result=" ++ stored_result "a7")%string.
Proof.
  destruct (execute_round_trip no_time no_time open_wire 0%nat 1%nat (ident 20) (ident 30) execute_message
    (replica_of 10 ready_state) (two_workers ready_state)) as (fwd & reply & co' & _ & _ & _ & _ & Hq).
  - by repeat split.
  - by vm_compute.
  - by vm_compute.
  - by vm_compute.
  - done.
  - done.
  - exact ready_lookup_10.
  - by vm_compute.
  - exists co'. exact (Hq result_query eq_refl eq_refl).
Defined.
