(* ===== verification/Threads.v ===== *)
(** The coordinator's threads, call by call
    (src/apps/distributed/rf_coordinator.cpp).

    Coordinator.v handles each network event in one step.  The code does not: between
    two calls of a handler any other thread may run.  Here a handler is a program, a
    tree of [Call]s, each of which is indivisible: an operation of the controller under
    its mutex, a critical section of [conn_mu] or [g_results_mu], a use of the placement
    generator, a clock reading, or a read through a pointer the controller returned.
    [pool_step] interleaves the programs of all connections. *)

From S2P Require Import Prelude Identity Enums Model Transition Compatibility Authority Controller ControllerRun ControllerInv Snapshot Codec Protocol Transport Placement Coordinator CoordinatorRun.

(** ** Calls *)

Inductive Call :=
  (** [monotonic_ns()], [wall_ns()] *)
  | ClockMono
  | ClockWall
  (** A public operation of the controller. *)
  | Op (a : Action)
  (** [find_replica], [find_set]: whether the pointer is non-null; then a read through it. *)
  | FindReplica (rid : ReplicaId)
  | DerefReplica (rid : ReplicaId)
  | FindSet (sid : ReplicaSetId)
  | DerefSet (sid : ReplicaSetId)
  | CurrentBoot (rid : ReplicaId)
  (** One draw of [g_placement_rng], which no lock protects. *)
  | PlacementWord
  | SendToWorker (w : WorkerId) (m : Message)
  | WriteFrame (conn : nat) (m : Message)
  (** [worker_conns[w] = conn] and [worker_conns.erase(w)]. *)
  | PutConn (w : WorkerId) (conn : nat)
  | DropConn (w : WorkerId)
  | StashResult (rid : ReplicaId) (res : string)
  | PeekResult (rid : ReplicaId)
  (** The accessors [make_snapshot] reads the controller with: none takes the mutex. *)
  | ReadSets
  | ReadReplicas
  | ReadWorkers
  | ReadPromotions
  | ReadDrains
  | ReadFailovers
  | ReadEpoch.

Definition answer_type (c : Call) : Type :=
  match c with
  | ClockMono | ClockWall | PlacementWord => Z
  | Op _ => OpResult
  | FindReplica _ | FindSet _ | SendToWorker _ _ | WriteFrame _ _ => bool
  | DerefReplica _ => option ReplicaState
  | DerefSet _ => option ReplicaSetState
  | CurrentBoot _ => WorkerBootId
  | PutConn _ _ | DropConn _ | StashResult _ _ => unit
  | PeekResult _ => string
  | ReadSets => gmap ReplicaSetId ReplicaSetState
  | ReadReplicas => gmap ReplicaId ReplicaState
  | ReadWorkers => gmap WorkerId WorkerRegistration
  | ReadPromotions => list PromotionRecord
  | ReadDrains => list DrainRecord
  | ReadFailovers => list FailoverRecord
  | ReadEpoch => CoordinatorEpoch
  end.

(** A program ends in an outcome, or makes a call and goes on with its answer. *)
Inductive Prog (A : Type) :=
  | Done (o : Outcome A)
  | Then (c : Call) (k : answer_type c → Prog A).
Arguments Done {A} _.
Arguments Then {A} _ _.

(** A step that touches nothing shared. *)
Definition local {A B} (o : Outcome A) (k : A → Prog B) : Prog B :=
  match o with Returns x => k x | Throws => Done Throws | Undefined => Done Undefined end.
Notation "x ↞ c ; k" := (Then c (λ x, k))
  (at level 20, c at level 100, k at level 200, right associativity) : reader_scope.
Notation "x ⇠ o ; k" := (local o (λ x, k))
  (at level 20, o at level 100, k at level 200, right associativity) : reader_scope.
Definition pret {A} (x : A) : Prog A := Done (Returns x).

(** ** Handlers *)

Definition ack_of (epoch : CoordinatorEpoch) (m : Message) (kind : MessageKind) (payload : string) :
    Message :=
  mkMessage kind (m_seq m) epoch null null null null null payload.

Section programs.
Context (epoch : CoordinatorEpoch).
Implicit Types k : Prog ().

(** [rs = find_replica(..)], then [rs->worker_id] and [current_boot_for] when it is not
    null, the message's own identities otherwise. *)
Definition acting {A} (m : Message) (k : WorkerId → WorkerBootId → Prog A) : Prog A :=
  found ↞ FindReplica (m_replica m);
  if (found : bool)
  then
    r ↞ DerefReplica (m_replica m);
    match r with
    | Some r => b ↞ CurrentBoot (m_replica m); k (r_worker_id r) b
    | None => Done Undefined
    end
  else k (m_worker m) (m_boot m).

Definition reply_then {A} (m : Message) (conn : nat) (kind : MessageKind) (payload : string)
    (k : Prog A) : Prog A :=
  _ ↞ WriteFrame conn (ack_of epoch m kind payload); k.
Definition reply (m : Message) (conn : nat) (kind : MessageKind) (payload : string) : Prog () :=
  reply_then m conn kind payload (pret ()).

Definition create_set_prog (m : Message) (conn : nat) : Prog () :=
  s ⇠ build_set m;
  r ↞ Op (CreateReplicaSet s epoch);
  reply m conn MessageKind.CREATE_SET_ACK (result_text r).

(** After [find_set] and the copy of the set's requirements. *)
Definition provision_rest (m : Message) (conn : nat) (w : WorkerId)
    (proto : option ReplicaSetState) : Prog () :=
  let get := get_payload (m_payload m) in
  let reid := m_replica m in
  ccmaj ⇠ hexi (get "ccmaj" "c")%string;
  let cc := mkComputeCapability ccmaj 0 in
  devmem ⇠ hexu (get "devmem" "0x800000000")%string;
  let dev := mkDeviceCapability AcceleratorKind.CUDA (get "device" "cuda:0")%string cc devmem in
  cap ⇠ hexu (get "capacity" "0x1000000")%string;
  mono ↞ ClockMono;
  wall ↞ ClockWall;
  r ↞ Op (ProvisionReplica reid (m_set m) w (derived_compat proto cc) dev cap mono wall);
  reply_then m conn MessageKind.PROVISION_ACK (result_text r)
    (if is_ok r
     then
       h ↞ PlacementWord;
       l ↞ PlacementWord;
       _ ↞ ClockMono;
       _ ↞ Op (SetAllocating reid (mkId h l));
       mono ↞ ClockMono;
       wall ↞ ClockWall;
       _ ↞ Op (SetStarting reid mono wall);
       _ ↞ SendToWorker w (mkMessage MessageKind.WARM 0 epoch w null reid (m_set m) null "steps=4"%string);
       pret ()
     else pret ()).

Definition provision_prog (m : Message) (conn : nat) : Prog () :=
  w ⇠ parse_id (get_payload (m_payload m) "worker" EmptyString);
  found ↞ FindSet (m_set m);
  if (found : bool)
  then
    s ↞ DerefSet (m_set m);
    match s with
    | Some s => provision_rest m conn w (Some s)
    | None => Done Undefined
    end
  else provision_rest m conn w None.

Definition promote_prog (m : Message) (conn : nat) : Prog () :=
  n ⇠ hexi (get_payload (m_payload m) "target" "5");
  target ⇠ from_int_unchecked n;
  acting m (λ w b,
    mono ↞ ClockMono;
    wall ↞ ClockWall;
    r ↞ Op (PromoteReplica (m_replica m) target w b mono wall);
    reply m conn MessageKind.PROMOTE_ACK (result_text r)).

Definition drain_prog (m : Message) (conn : nat) : Prog () :=
  acting m (λ w b,
    mono ↞ ClockMono;
    r ↞ Op (DrainReplica (m_replica m) w b mono);
    reply m conn MessageKind.DRAIN_ACK (result_text r)).

Definition failover_prog (m : Message) (conn : nat) : Prog () :=
  failed ⇠ parse_id (get_payload (m_payload m) "failed" EmptyString);
  mono ↞ ClockMono;
  wall ↞ ClockWall;
  r ↞ Op (TriggerFailover (m_set m) failed (get_payload (m_payload m) "reason" "failover") mono wall);
  reply m conn MessageKind.FAILOVER_ACK (result_text r).

Definition execute_prog (m : Message) (conn : nat) : Prog () :=
  let answer_with payload := reply m conn MessageKind.MSG_ERROR payload in
  found ↞ FindReplica (m_replica m);
  if (found : bool)
  then
    r ↞ DerefReplica (m_replica m);
    match r with
    | Some r =>
        sent_ok ↞ SendToWorker (r_worker_id r)
                    (mkMessage (m_kind m) (m_seq m) epoch (m_worker m) (m_boot m)
                       (m_replica m) (m_set m) (m_attempt m) (m_payload m));
        answer_with (if (sent_ok : bool) then "ok forwarded" else "err worker unreachable")%string
    | None => Done Undefined
    end
  else answer_with "err unknown replica"%string.

(** Four reads through one pointer: lifecycle, serving flag, role, boot identity. *)
Definition state_query_prog (m : Message) (conn : nat) : Prog () :=
  let rid := m_replica m in
  found ↞ FindReplica rid;
  if (found : bool)
  then
    a ↞ DerefReplica rid;
    b ↞ DerefReplica rid;
    c ↞ DerefReplica rid;
    d ↞ DerefReplica rid;
    match a, b, c, d with
    | Some a, Some b, Some c, Some d =>
        reply m conn MessageKind.QUERY
          ("lifecycle=" ++ to_string (r_lifecycle a) ++
           " serving=" ++ (if r_serving_eligible b then "1" else "0") ++
           " role=" ++ to_string (r_role c) ++ " boot=" ++ id_str (r_boot_id d))%string
    | _, _, _, _ => Done Undefined
    end
  else reply m conn MessageKind.QUERY "err unknown replica"%string.

Definition query_prog (m : Message) (conn : nat) : Prog () :=
  let q := get_payload (m_payload m) "q" "?" in
  if decide (q = "result"%string) then
    res ↞ PeekResult (m_replica m);
    reply m conn MessageKind.QUERY ("result=" ++ res)%string
  else if decide (q = "state"%string) then state_query_prog m conn
  else reply m conn MessageKind.QUERY "err unknown query"%string.

(** What [make_snapshot] makes of the tables it read. *)
Definition snapshot_of (sets : gmap ReplicaSetId ReplicaSetState)
    (reps : gmap ReplicaId ReplicaState) (ws : gmap WorkerId WorkerRegistration)
    (promos : list PromotionRecord) (drains : list DrainRecord) (fails : list FailoverRecord)
    (e : CoordinatorEpoch) : list byte :=
  seal_snapshot (write_body (sorted_values s_id sets) (sorted_values r_id reps)
    (sorted_values w_worker_id ws) promos drains fails e).
Definition snapshot_payload (bytes : list byte) : string :=
  "len=" ++ dec_str (Z.of_nat (length bytes)) ++ String newline EmptyString ++ "hex=" ++
  string_of_list_ascii (concat (hex_byte <$> bytes)).

Definition snapshot_prog (m : Message) (conn : nat) : Prog () :=
  sets ↞ ReadSets;
  reps ↞ ReadReplicas;
  ws ↞ ReadWorkers;
  promos ↞ ReadPromotions;
  drains ↞ ReadDrains;
  fails ↞ ReadFailovers;
  e ↞ ReadEpoch;
  reply m conn MessageKind.SNAPSHOT
    (snapshot_payload (snapshot_of sets reps ws promos drains fails e)).

Definition control_prog (m : Message) (conn : nat) : Prog () :=
  if m_kind m =? MessageKind.CREATE_SET then create_set_prog m conn
  else if m_kind m =? MessageKind.PROVISION then provision_prog m conn
  else if m_kind m =? MessageKind.PROMOTE then promote_prog m conn
  else if m_kind m =? MessageKind.DRAIN then drain_prog m conn
  else if m_kind m =? MessageKind.FAILOVER then failover_prog m conn
  else if m_kind m =? MessageKind.EXECUTE then execute_prog m conn
  else if m_kind m =? MessageKind.QUERY then query_prog m conn
  else if m_kind m =? MessageKind.SNAPSHOT then snapshot_prog m conn
  else reply m conn MessageKind.MSG_ERROR "err unknown control command"%string.

(** The registration and the table of connections change in two critical sections. *)
Definition register_prog (m : Message) (conn : nat) : Prog ConnState :=
  wr ⇠ build_worker_reg m;
  _ ↞ ClockMono;
  _ ↞ ClockWall;
  r ↞ Op (RegisterWorker wr);
  _ ↞ PutConn (w_worker_id wr) conn;
  _ ↞ WriteFrame conn (mkMessage MessageKind.REGISTER_ACK 0 epoch null null null null null (result_text r));
  pret (OfWorker (w_worker_id wr)).

Definition health_prog (m : Message) (hs : HealthState) (gen : HealthGeneration) : Prog () :=
  wall ↞ ClockWall;
  mono ↞ ClockMono;
  _ ↞ Op (ReportHealth (m_replica m) (health_from m hs gen wall) (m_worker m) (m_boot m) mono);
  pret ().

Definition worker_prog (m : Message) (conn : nat) : Prog () :=
  if m_kind m =? MessageKind.WARM_DONE then
    w ⇠ warming_from (m_payload m);
    mono ↞ ClockMono;
    _ ↞ Op (WarmReplica (m_replica m) w (m_worker m) (m_boot m) mono);
    pret ()
  else if m_kind m =? MessageKind.HEALTH then
    n ⇠ hexi (get_payload (m_payload m) "state" "2");
    match from_int n with
    | None => pret ()
    | Some hs =>
        found ↞ FindReplica (m_replica m);
        if (found : bool)
        then
          r ↞ DerefReplica (m_replica m);
          match r with
          | Some r => health_prog m hs (r_health_generation r)
          | None => Done Undefined
          end
        else health_prog m hs null
    end
  else if m_kind m =? MessageKind.READINESS then
    mask ⇠ hexu (get_payload (m_payload m) "mask" "0");
    _ ↞ ClockMono;
    _ ↞ Op (ReportReadiness (m_replica m) (readiness_from mask) (m_worker m) (m_boot m));
    pret ()
  else if m_kind m =? MessageKind.EXECUTE_RESULT then
    let res := (result_line "req" m ++ String newline EmptyString ++ result_line "outcome" m ++
                String newline EmptyString ++ result_line "result" m)%string in
    _ ↞ StashResult (m_replica m) res;
    _ ↞ WriteFrame conn pong;
    pret ()
  else if m_kind m =? MessageKind.PING then _ ↞ WriteFrame conn pong; pret ()
  else pret ().

Definition gone_prog (w : WorkerId) : Prog ConnState :=
  _ ↞ Op (UnregisterWorker w);
  _ ↞ DropConn w;
  pret Finished_.

Fixpoint and_then {A B} (p : Prog A) (st : B) : Prog B :=
  match p with
  | Done (Returns _) => Done (Returns st)
  | Done Throws => Done Throws
  | Done Undefined => Done Undefined
  | Then c k => Then c (λ x, and_then (k x) st)
  end.

(** One iteration of a connection's thread: [conn_step], call by call. *)
Definition thread_prog (conn : nat) (st : ConnState) (ev : NetEvent) : Prog ConnState :=
  match st, ev with
  | Finished_, _ => pret Finished_
  | OfWorker w, ReadFailed => gone_prog w
  | _, ReadFailed => pret Finished_
  | AwaitFirst, GotFrame bytes =>
      match decode_message bytes with
      | OutOfBounds => Done Undefined
      | Malformed => pret Finished_
      | Decoded m =>
          if m_kind m =? MessageKind.REGISTER then register_prog m conn
          else and_then (control_prog m conn) OfControl
      end
  | OfWorker w, GotFrame bytes =>
      match decode_message bytes with
      | OutOfBounds => Done Undefined
      | Malformed => pret (OfWorker w)
      | Decoded m => and_then (worker_prog m conn) (OfWorker w)
      end
  | OfControl, GotFrame bytes =>
      match decode_message bytes with
      | OutOfBounds => Done Undefined
      | Malformed => pret OfControl
      | Decoded m => and_then (control_prog m conn) OfControl
      end
  end.
End programs.

(** ** Executing calls *)

(** What the environment supplies at one call: the clocks, and whether a connection
    takes a frame. *)
Record Env := mkEnv {
  env_mono : Z;
  env_wall : Z;
  env_wire : nat → Message → bool;
}.
Definition wf_env (e : Env) : Prop := in_u64 (env_mono e) ∧ in_i64 (env_wall e).

Section exec.
Context `{Rng G}.
Implicit Types co : Coordinator G.

Definition exec_call (e : Env) (c : Call) co : answer_type c * Coordinator G * list Output :=
  match c with
  | ClockMono => (env_mono e, co, [])
  | ClockWall => (env_wall e, co, [])
  | Op a => let '(r, c) := exec a (co_ctrl co) in (r, with_ctrl c co, [])
  | FindReplica rid => (match find_replica rid (co_ctrl co) with Some _ => true | None => false end, co, [])
  | DerefReplica rid => (find_replica rid (co_ctrl co), co, [])
  | FindSet sid => (match find_set sid (co_ctrl co) with Some _ => true | None => false end, co, [])
  | DerefSet sid => (find_set sid (co_ctrl co), co, [])
  | CurrentBoot rid => (current_boot_for rid (co_ctrl co), co, [])
  | PlacementWord => let '(z, g) := rng_next (co_rng co) in (z, with_rng g co, [])
  | SendToWorker w m => let '(b, outs) := send_to_worker (env_wire e) w m co in (b, co, outs)
  | WriteFrame conn m => (send_frame (env_wire e) conn m, co, [write_to (env_wire e) conn m])
  | PutConn w conn => ((), with_conns (<[w := conn]> (co_conns co)) co, [])
  | DropConn w => ((), with_conns (delete w (co_conns co)) co, [])
  | StashResult rid res => ((), stash_result rid res co, [])
  | PeekResult rid => (peek_result rid co, co, [])
  | ReadSets => (sets_ (co_ctrl co), co, [])
  | ReadReplicas => (replicas_ (co_ctrl co), co, [])
  | ReadWorkers => (workers_ (co_ctrl co), co, [])
  | ReadPromotions => (promotions_ (co_ctrl co), co, [])
  | ReadDrains => (drains_ (co_ctrl co), co, [])
  | ReadFailovers => (failovers_ (co_ctrl co), co, [])
  | ReadEpoch => (epoch_ (co_ctrl co), co, [])
  end.

(** A program run to its end with no other thread in between; [i] and [j] count the
    readings of the two clocks. *)
Fixpoint run_prog {A} (mono_at wall_at : nat → Z) (wire : nat → Message → bool) (i j : nat)
    (p : Prog A) co : Outcome (A * Coordinator G * list Output) :=
  match p with
  | Done (Returns x) => Returns (x, co, [])
  | Done Throws => Throws
  | Done Undefined => Undefined
  | Then c k =>
      let '(x, co', outs) := exec_call (mkEnv (mono_at i) (wall_at j) wire) c co in
      let i := match c with ClockMono => S i | _ => i end in
      let j := match c with ClockWall => S j | _ => j end in
      y ⟵ run_prog mono_at wall_at wire i j (k x) co';
      Returns (y.1.1, y.1.2, outs ++ y.2)
  end.
End exec.

(** ** The pool of threads *)

(** A thread waits in [read_frame], or is in the middle of what an event made it do. *)
Inductive Thread :=
  | Idle (st : ConnState)
  | Busy (st : ConnState) (ev : NetEvent) (p : Prog ConnState).

Record Pool (G : Type) := mkPool { pool_co : Coordinator G; pool_threads : gmap nat Thread }.
Arguments mkPool {G} _ _.
Arguments pool_co {G} _.
Arguments pool_threads {G} _.

Section pool.
Context `{Rng G}.
Implicit Types n : Pool G.

Definition set_thread (conn : nat) (t : Thread) n : Pool G :=
  mkPool (pool_co n) (<[conn := t]> (pool_threads n)).

(** One thread performs the next call of its program. *)
Definition call_pool (conn : nat) (st : ConnState) (ev : NetEvent) (e : Env) (c : Call)
    (k : answer_type c → Prog ConnState) n : Pool G :=
  let r := exec_call e c (pool_co n) in
  mkPool r.1.2 (<[conn := Busy st ev (k r.1.1)]> (pool_threads n)).

(** Any thread may move at any time.  A program that throws or is undefined has no
    step: the process is gone. *)
Inductive pool_step : Pool G → Pool G → Prop :=
  | pool_accept n conn :
      pool_threads n !! conn = None →
      pool_step n (set_thread conn (Idle AwaitFirst) n)
  | pool_read n conn st ev :
      pool_threads n !! conn = Some (Idle st) → wf_event ev →
      pool_step n (set_thread conn (Busy st ev (thread_prog (co_epoch (pool_co n)) conn st ev)) n)
  | pool_call n conn st ev e c k :
      pool_threads n !! conn = Some (Busy st ev (Then c k)) → wf_env e →
      pool_step n (call_pool conn st ev e c k n)
  | pool_return n conn st ev st' :
      pool_threads n !! conn = Some (Busy st ev (Done (Returns st'))) →
      pool_step n (set_thread conn (Idle st') n).

Definition pool_start (gen ctrl_rng placement_rng : G) : Pool G :=
  mkPool (mkCoordinator (new_controller ctrl_rng) (random_id gen).1 ∅ ∅ placement_rng) ∅.
Definition pool_reachable (gen ctrl_rng placement_rng : G) : Pool G → Prop :=
  rtc pool_step (pool_start gen ctrl_rng placement_rng).
End pool.
