(* ===== verification/ThreadsRun.v ===== *)
(** Interleaved runs of the coordinator.

    Run without interference, the program of a thread does what Coordinator.v says in
    one step ([run_thread]); so every atomic run is an interleaved one
    ([net_step_pool]).  [safe] is what every program of the coordinator satisfies
    whatever the other threads do between its calls, and [pool_inv] what holds in every
    state the threads reach. *)

From S2P Require Import Prelude Identity Enums Model Transition Compatibility Authority Controller ControllerRun ControllerInv Snapshot Codec Protocol Transport Placement Coordinator CoordinatorRun Threads.

(** ** Without interference *)

Section sequential.
Context `{Rng G} (mono_at wall_at : nat → Z) (wire : nat → Message → bool).
Implicit Types co : Coordinator G.

Abbreviation run := (run_prog mono_at wall_at wire).

Lemma run_local {A B} i j (o : Outcome A) (k : A → Prog B) co :
  run i j (local o k) co = (x ⟵ o; run i j (k x) co).
Proof. by destruct o. Qed.

(** The handler's result for the rest of the thread. *)
Definition then_state {B} (st : B) (o : Outcome (Coordinator G * list Output)) :
    Outcome (B * Coordinator G * list Output) :=
  x ⟵ o; Returns (st, x.1, x.2).

Lemma run_and_then {A B} i j (p : Prog A) (st : B) co :
  run i j (and_then p st) co = (x ⟵ run i j p co; Returns (st, x.1.2, x.2)).
Proof.
  revert i j co. induction p as [[]|c k IH]; intros i j co; [done|done|done|].
  cbn [and_then run_prog]. destruct (exec_call _ _ _) as [[x co1] outs]. cbn zeta. rewrite IH.
  by destruct (run _ _ (k x) co1).
Qed.

(** ** One equation per call *)

Lemma obind_eta {A B C} (o : Outcome (A * B * C)) : (y ⟵ o; Returns (y.1.1, y.1.2, y.2)) = o.
Proof. by destruct o as [[[]]| |]. Qed.

Lemma run_mono {A} i j (k : Z → Prog A) co :
  run i j (x ↞ ClockMono; k x) co = run (S i) j (k (mono_at i)) co.
Proof. apply obind_eta. Qed.
Lemma run_wall {A} i j (k : Z → Prog A) co :
  run i j (x ↞ ClockWall; k x) co = run i (S j) (k (wall_at j)) co.
Proof. apply obind_eta. Qed.
Lemma run_op {A} i j a (k : OpResult → Prog A) co :
  run i j (x ↞ Op a; k x) co =
  run i j (k (exec a (co_ctrl co)).1) (with_ctrl (exec a (co_ctrl co)).2 co).
Proof. cbn [run_prog exec_call]. destruct (exec a _). apply obind_eta. Qed.
Lemma run_find {A} i j rid (k : bool → Prog A) co :
  run i j (x ↞ FindReplica rid; k x) co =
  run i j (k (match find_replica rid (co_ctrl co) with Some _ => true | None => false end)) co.
Proof. apply obind_eta. Qed.
Lemma run_deref {A} i j rid (k : option ReplicaState → Prog A) co :
  run i j (x ↞ DerefReplica rid; k x) co = run i j (k (find_replica rid (co_ctrl co))) co.
Proof. apply obind_eta. Qed.
Lemma run_find_set {A} i j sid (k : bool → Prog A) co :
  run i j (x ↞ FindSet sid; k x) co =
  run i j (k (match find_set sid (co_ctrl co) with Some _ => true | None => false end)) co.
Proof. apply obind_eta. Qed.
Lemma run_deref_set {A} i j sid (k : option ReplicaSetState → Prog A) co :
  run i j (x ↞ DerefSet sid; k x) co = run i j (k (find_set sid (co_ctrl co))) co.
Proof. apply obind_eta. Qed.
Lemma run_boot {A} i j rid (k : WorkerBootId → Prog A) co :
  run i j (x ↞ CurrentBoot rid; k x) co = run i j (k (current_boot_for rid (co_ctrl co))) co.
Proof. apply obind_eta. Qed.
Lemma run_word {A} i j (k : Z → Prog A) co :
  run i j (x ↞ PlacementWord; k x) co =
  run i j (k (rng_next (co_rng co)).1) (with_rng (rng_next (co_rng co)).2 co).
Proof. cbn [run_prog exec_call]. destruct (rng_next _). apply obind_eta. Qed.
Lemma run_send {A} i j w m (k : bool → Prog A) co :
  run i j (x ↞ SendToWorker w m; k x) co =
  (y ⟵ run i j (k (send_to_worker wire w m co).1) co;
   Returns (y.1.1, y.1.2, (send_to_worker wire w m co).2 ++ y.2)).
Proof. cbn [run_prog exec_call env_wire]. by destruct (send_to_worker _ _ _ _). Qed.
Lemma run_write {A} i j conn m (k : bool → Prog A) co :
  run i j (x ↞ WriteFrame conn m; k x) co =
  (y ⟵ run i j (k (send_frame wire conn m)) co; Returns (y.1.1, y.1.2, write_to wire conn m :: y.2)).
Proof. done. Qed.
Lemma run_put {A} i j w conn (k : unit → Prog A) co :
  run i j (x ↞ PutConn w conn; k x) co =
  run i j (k ()) (with_conns (<[w := conn]> (co_conns co)) co).
Proof. apply obind_eta. Qed.
Lemma run_drop {A} i j w (k : unit → Prog A) co :
  run i j (x ↞ DropConn w; k x) co = run i j (k ()) (with_conns (delete w (co_conns co)) co).
Proof. apply obind_eta. Qed.
Lemma run_stash {A} i j rid res (k : unit → Prog A) co :
  run i j (x ↞ StashResult rid res; k x) co = run i j (k ()) (stash_result rid res co).
Proof. apply obind_eta. Qed.
Lemma run_peek {A} i j rid (k : string → Prog A) co :
  run i j (x ↞ PeekResult rid; k x) co = run i j (k (peek_result rid co)) co.
Proof. apply obind_eta. Qed.
Lemma run_pret {A} i j (x : A) co : run i j (pret x) co = Returns (x, co, []).
Proof. done. Qed.

Create Rewrite HintDb calls.
#[local] Hint Rewrite @run_mono @run_wall @run_op @run_find @run_deref @run_find_set @run_deref_set
  @run_boot @run_word @run_send @run_write @run_put @run_drop @run_stash @run_peek @run_pret : calls.
(** Performs the calls at the head of a program. *)
Ltac calls := unfold reply, reply_then; autorewrite with calls; cbn [obind fst snd exec].
(** Reads the next value of the payload on both sides. *)
Ltac reads :=
  repeat (rewrite run_local;
    match goal with |- obind ?o _ = _ => destruct o; [|reflexivity..] end; cbn [obind]).

(** ** One equation per handler *)

(** The identities a control request acts with, when nothing happens between the calls. *)
Lemma run_acting {A} i j m co (k : WorkerId → WorkerBootId → Prog A) :
  run i j (acting m k) co =
  run i j (k (acting_worker m co) (acting_boot m co)) co.
Proof.
  unfold acting, acting_worker, acting_boot. calls.
  destruct (find_replica (m_replica m) (co_ctrl co)) as [r|] eqn:Hr; calls; [|done].
  rewrite Hr. by calls.
Qed.

Lemma run_create_set m conn co :
  run 0 0 (create_set_prog (co_epoch co) m conn) co = then_state () (handle_create_set wire m conn co).
Proof.
  unfold create_set_prog, handle_create_set. reads. calls. by destruct (create_replica_set _ _ _).
Qed.

Lemma run_promote m conn co :
  run 0 0 (promote_prog (co_epoch co) m conn) co = then_state () (handle_promote mono_at wall_at wire m conn co).
Proof.
  unfold promote_prog, handle_promote. reads. rewrite run_acting. calls.
  by destruct (promote_replica _ _ _ _ _ _ _).
Qed.

Lemma run_drain m conn co :
  run 0 0 (drain_prog (co_epoch co) m conn) co = then_state () (handle_drain mono_at wire m conn co).
Proof.
  unfold drain_prog, handle_drain. rewrite run_acting. calls. by destruct (drain_replica _ _ _ _ _).
Qed.

Lemma run_failover m conn co :
  run 0 0 (failover_prog (co_epoch co) m conn) co = then_state () (handle_failover mono_at wall_at wire m conn co).
Proof.
  unfold failover_prog, handle_failover. reads. calls. by destruct (trigger_failover _ _ _ _ _ _).
Qed.

Lemma run_execute m conn co :
  run 0 0 (execute_prog (co_epoch co) m conn) co = then_state () (handle_execute wire m conn co).
Proof.
  unfold execute_prog, handle_execute. cbn zeta. calls.
  destruct (find_replica _ _) as [r|] eqn:Hr; calls; [|done].
  rewrite Hr. calls. by destruct (send_to_worker _ _ _ _).
Qed.

Lemma run_proto m co (k : option ReplicaSetState → Prog ()) :
  run 0 0 (found ↞ FindSet (m_set m);
    if (found : bool)
    then s ↞ DerefSet (m_set m); match s with Some s => k (Some s) | None => Done Undefined end
    else k None) co = run 0 0 (k (find_set (m_set m) (co_ctrl co))) co.
Proof.
  calls. destruct (find_set _ _) as [s|] eqn:Hs; calls; [|done]. by rewrite Hs.
Qed.

Lemma run_provision m conn co :
  run 0 0 (provision_prog (co_epoch co) m conn) co =
  then_state () (handle_provision mono_at wall_at wire m conn co).
Proof.
  unfold provision_prog, handle_provision. cbn zeta. reads. rewrite run_proto.
  unfold provision_rest. cbn zeta. reads. calls.
  destruct (provision_replica _ _ _ _ _ _ _ _ _) as [r c]. cbn [fst snd].
  destruct (is_ok r); calls; [|reflexivity].
  unfold random_id. cbn [with_ctrl with_rng co_rng]. destruct (rng_next (co_rng co)) as [h g].
  cbn [fst snd]. destruct (rng_next g) as [l g']. cbn [fst snd obind].
  unfold then_state. cbn [obind fst snd]. by rewrite app_nil_r.
Qed.

Lemma run_query m conn co :
  run 0 0 (query_prog (co_epoch co) m conn) co =
  Returns ((), co, [write_to wire conn (ack_message m MessageKind.QUERY (query_text m co) co)]).
Proof.
  unfold query_prog, query_text, state_query_prog. cbn zeta.
  destruct (decide _); [by calls|]. destruct (decide _); [|by calls].
  calls. destruct (find_replica _ _) as [r|] eqn:Hr; calls; [|reflexivity]. rewrite !Hr. by calls.
Qed.

Lemma run_snapshot m conn co :
  run 0 0 (snapshot_prog (co_epoch co) m conn) co =
  Returns ((), co, [write_to wire conn (ack_message m MessageKind.SNAPSHOT (snapshot_text co) co)]).
Proof. reflexivity. Qed.

Lemma run_control m conn co :
  run 0 0 (control_prog (co_epoch co) m conn) co =
  then_state () (handle_control mono_at wall_at wire m conn co).
Proof.
  unfold control_prog, handle_control. cbn zeta.
  destruct (m_kind m =? _); [apply run_create_set|].
  destruct (m_kind m =? _); [apply run_provision|].
  destruct (m_kind m =? _); [apply run_promote|].
  destruct (m_kind m =? _); [apply run_drain|].
  destruct (m_kind m =? _); [apply run_failover|].
  destruct (m_kind m =? _); [apply run_execute|].
  destruct (m_kind m =? _); [by rewrite run_query|].
  destruct (m_kind m =? _); [by rewrite run_snapshot|]. reflexivity.
Qed.

Lemma run_register m conn co :
  run 0 0 (register_prog (co_epoch co) m conn) co =
  (x ⟵ handle_register wire m conn co; Returns (OfWorker x.1.1, x.1.2, x.2)).
Proof.
  unfold register_prog, handle_register. reads. calls. by destruct (register_worker _ _).
Qed.

Lemma run_worker m conn co :
  run 0 0 (worker_prog m conn) co = then_state () (handle_worker mono_at wall_at wire m conn co).
Proof.
  unfold worker_prog, handle_worker. cbn zeta.
  destruct (_ =? MessageKind.WARM_DONE); [reads; by calls|].
  destruct (_ =? MessageKind.HEALTH).
  { reads. destruct (from_int _) as [hs|]; [|by calls]. unfold health_prog. calls.
    destruct (find_replica _ _) as [r|] eqn:Hr; calls; [|done]. rewrite Hr. by calls. }
  destruct (_ =? MessageKind.READINESS); [reads; by calls|].
  destruct (_ =? MessageKind.EXECUTE_RESULT); [by calls|].
  destruct (_ =? MessageKind.PING); by calls.
Qed.

(** One event, run alone, is one step of Coordinator.v. *)
Lemma run_thread conn st ev co :
  run 0 0 (thread_prog (co_epoch co) conn st ev) co = conn_step mono_at wall_at wire conn st ev co.
Proof.
  assert (Hc : ∀ m (s : ConnState), run 0 0 (and_then (control_prog (co_epoch co) m conn) s) co =
    (x ⟵ handle_control mono_at wall_at wire m conn co; Returns (s, x.1, x.2))).
  { intros m s. rewrite run_and_then, run_control. by destruct (handle_control _ _ _ _ _ _). }
  unfold thread_prog, conn_step. destruct st, ev; try done.
  - destruct (decode_message _) as [m| |]; [|done..].
    destruct (_ =? MessageKind.REGISTER); [apply run_register|apply Hc].
  - destruct (decode_message _) as [m| |]; [|done..].
    rewrite run_and_then, run_worker. by destruct (handle_worker _ _ _ _ _ _).
  - cbn [thread_prog]. unfold gone_prog. by calls.
  - destruct (decode_message _) as [m| |]; [|done..]. apply Hc.
Qed.
End sequential.

(** ** Atomic runs are interleaved runs *)

Section simulation.
Context `{Rng G}.
Implicit Types co : Coordinator G.

Lemma run_pool mono_at wall_at wire i j (p : Prog ConnState) co conn st ev ts st' co' outs :
  (∀ i, in_u64 (mono_at i)) → (∀ i, in_i64 (wall_at i)) →
  run_prog mono_at wall_at wire i j p co = Returns (st', co', outs) →
  rtc pool_step (mkPool co (<[conn := Busy st ev p]> ts))
                (mkPool co' (<[conn := Busy st ev (Done (Returns st'))]> ts)).
Proof.
  intros Hm Hw. revert i j co outs. induction p as [o|c k IH]; intros i j co outs E.
  - destruct o; [|done..]. injection E as -> -> _. apply rtc_refl.
  - cbn [run_prog] in E.
    destruct (exec_call (mkEnv (mono_at i) (wall_at j) wire) c co) as [[x co1] os] eqn:Hc.
    apply obind_Returns in E as ([[s1 co2] os2] & E & Hr). injection Hr as -> -> _.
    assert (Hs : pool_step (mkPool co (<[conn := Busy st ev (Then c k)]> ts))
      (call_pool conn st ev (mkEnv (mono_at i) (wall_at j) wire) c k
         (mkPool co (<[conn := Busy st ev (Then c k)]> ts)))).
    { apply pool_call; [apply lookup_insert_eq|split; [apply Hm|apply Hw]]. }
    unfold call_pool in Hs. cbn [pool_co pool_threads] in Hs. rewrite Hc in Hs.
    cbn [fst snd] in Hs. rewrite insert_insert_eq in Hs.
    eapply rtc_l; [exact Hs|]. by eapply (IH x).
Qed.

(** A network whose threads are all between two events. *)
Definition pool_of (n : Net G) : Pool G := mkPool (net_co n) (Idle <$> net_conns n).

Lemma net_step_pool (n n' : Net G) : net_step n n' → rtc pool_step (pool_of n) (pool_of n').
Proof.
  intros [m conn Hnew|m conn st ev mono_at wall_at wire st' co' outs Hm Hw Hev Hst E];
    unfold pool_of; cbn [net_co net_conns]; rewrite fmap_insert.
  - pose proof (pool_accept (mkPool (net_co m) (Idle <$> net_conns m)) conn) as Hs.
    unfold set_thread in Hs. cbn [pool_co pool_threads] in Hs.
    apply rtc_once, Hs. by rewrite lookup_fmap, Hnew.
  - rewrite <-run_thread in E.
    pose proof (pool_read (mkPool (net_co m) (Idle <$> net_conns m)) conn st ev) as Hr.
    unfold set_thread in Hr. cbn [pool_co pool_threads] in Hr.
    eapply rtc_l; [apply Hr; [by rewrite lookup_fmap, Hst|done]|].
    eapply rtc_r; [by eapply run_pool|]. unfold pool_of.
    assert (Hs := pool_return (mkPool co' (<[conn := Busy st ev (Done (Returns st'))]> (Idle <$> net_conns m)))
      conn st ev st' (lookup_insert_eq _ _ _)).
    unfold set_thread in Hs. cbn [pool_co pool_threads] in Hs. by rewrite insert_insert_eq in Hs.
Qed.

Lemma net_reachable_pool gen ctrl_rng placement_rng (n : Net G) :
  net_reachable gen ctrl_rng placement_rng n → pool_reachable gen ctrl_rng placement_rng (pool_of n).
Proof.
  apply (rtc_ind_r (λ n, pool_reachable gen ctrl_rng placement_rng (pool_of n))).
  - unfold pool_of. cbn [net_conns coordinator_start]. rewrite fmap_empty. apply rtc_refl.
  - intros n1 n2 _ Hstep IH. unfold pool_reachable in *. etrans; [exact IH|by apply net_step_pool].
Qed.
End simulation.

(** ** What a program may do, whatever happens between its calls *)

(** What a message commands: the promotion of the replica it names, or a failover in the
    set it names, of the replica its payload names. *)
Definition commands (m : Message) (a : Action) : Prop :=
  (m_kind m = MessageKind.PROMOTE ∧
   ∃ target w b mono wall, a = PromoteReplica (m_replica m) target w b mono wall) ∨
  (m_kind m = MessageKind.FAILOVER ∧
   ∃ failed reason mono wall,
     parse_id (get_payload (m_payload m) "failed" EmptyString) = Returns failed ∧
     a = TriggerFailover (m_set m) failed reason mono wall).

(** The operations a thread may perform for an event: one that grants authority only as
    the message it has read commands. *)
Definition command_frame (ev : NetEvent) (a : Action) : Prop :=
  ∃ bytes m, ev = GotFrame bytes ∧ decode_message bytes = Decoded m ∧ commands m a.
Definition may (st : ConnState) (ev : NetEvent) (a : Action) : Prop :=
  allowed st a = true ∧ (grants a = true → command_frame ev a).

(** What the answer to a call can be. *)
Definition answer_ok (c : Call) : answer_type c → Prop :=
  match c return answer_type c → Prop with
  | ClockMono | PlacementWord => λ z, in_u64 z
  | ClockWall => λ z, in_i64 z
  | DerefReplica _ => λ x, ∃ r, x = Some r ∧ wf_ReplicaState r
  | DerefSet _ => λ x, ∃ s, x = Some s ∧ wf_ReplicaSetState s
  | CurrentBoot _ => λ b, wf_id b
  | _ => λ _, True
  end.

(** What a thread knows: the worker whose entry may name its connection, and the
    replicas and sets it has found. *)
Record Known := mkKnown {
  kn_own : option WorkerId;
  kn_reps : gset ReplicaId;
  kn_sets : gset ReplicaSetId;
}.
Definition learn (kn : Known) (c : Call) : answer_type c → Known :=
  match c return answer_type c → Known with
  | FindReplica rid => λ b, if b : bool then mkKnown (kn_own kn) ({[rid]} ∪ kn_reps kn) (kn_sets kn) else kn
  | FindSet sid => λ b, if b : bool then mkKnown (kn_own kn) (kn_reps kn) ({[sid]} ∪ kn_sets kn) else kn
  | PutConn w _ => λ _, mkKnown (Some w) (kn_reps kn) (kn_sets kn)
  | DropConn _ => λ _, mkKnown None (kn_reps kn) (kn_sets kn)
  | _ => λ _, kn
  end.

(** A call the thread of connection [conn] may make. *)
Definition call_ok (conn : nat) (ok : Action → Prop) (kn : Known) (c : Call) : Prop :=
  match c with
  | Op a => wf_action a ∧ ok a
  | DerefReplica rid => rid ∈ kn_reps kn
  | DerefSet sid => sid ∈ kn_sets kn
  | PutConn w i => i = conn ∧ kn_own kn = None ∧ ∃ wr, w_worker_id wr = w ∧ ok (RegisterWorker wr)
  | DropConn w => kn_own kn = Some w
  | _ => True
  end.

Section safe.
Context (conn : nat) (ok : Action → Prop).

Fixpoint safe {A} (post : Known → A → Prop) (kn : Known) (p : Prog A) : Prop :=
  match p with
  | Done (Returns x) => post kn x
  | Done _ => True
  | Then c k => call_ok conn ok kn c ∧ ∀ x, answer_ok c x → safe post (learn kn c x) (k x)
  end.

Lemma safe_weaken {A} (post post' : Known → A → Prop) kn p :
  (∀ kn x, post kn x → post' kn x) → safe post kn p → safe post' kn p.
Proof.
  intros Hp. revert kn. induction p as [[x| |]|c k IH]; intros kn; simpl; [apply Hp|done|done|].
  intros [Hc Hk]. split; [done|]. intros x Hx. by apply IH, Hk.
Qed.

Lemma safe_and_then {A B} (post : Known → B → Prop) kn (p : Prog A) st :
  safe (λ kn _, post kn st) kn p → safe post kn (and_then p st).
Proof.
  revert kn. induction p as [[x| |]|c k IH]; intros kn; simpl; [done|done|done|].
  intros [Hc Hk]. split; [done|]. intros x Hx. by apply IH, Hk.
Qed.

Lemma safe_local {A B} (post : Known → B → Prop) kn (o : Outcome A) (k : A → Prog B) :
  (∀ x, o = Returns x → safe post kn (k x)) → safe post kn (local o k).
Proof. destruct o; simpl; auto. Qed.
End safe.
