(* ===== verification/ThreadsInv.v ===== *)
(** The invariant of the coordinator's interleaved runs.

    Every program of a thread is [safe]: its calls are well-typed, allowed to its
    connection, and read only through pointers that were found; whatever the other
    threads do in between.  So [pool_inv] holds in every state the threads reach. *)

From S2P Require Import Prelude Identity Enums Model Transition Compatibility Authority Controller ControllerRun ControllerInv Snapshot Codec Protocol Transport Placement Coordinator CoordinatorRun Threads ThreadsRun.

(** ** The programs are safe *)

Section programs.
Context (conn : nat) (ok : Action → Prop) (epoch : CoordinatorEpoch) (Hepoch : wf_id epoch).

Lemma safe_then {A} (post : Known → A → Prop) kn c k :
  call_ok conn ok kn c → (∀ x, answer_ok c x → safe conn ok post (learn kn c x) (k x)) →
  safe conn ok post kn (Then c k).
Proof. by split. Qed.

(** The table of connections is as the handler found it. *)
Definition same_owner (kn : Known) {A} : Known → A → Prop := λ kn' _, kn_own kn' = kn_own kn.

(** One call: its condition, then the rest for every answer. *)
Ltac scall x Hx :=
  apply safe_then; [cbn [call_ok] | intros x Hx; cbn [learn answer_ok answer_type] in x, Hx |- *].
Ltac sdone := cbn; reflexivity.

Lemma safe_reply {A} (post : Known → A → Prop) kn m kind payload (k : Prog A) :
  safe conn ok post kn k → safe conn ok post kn (reply_then epoch m conn kind payload k).
Proof. intros Hk. unfold reply_then. by scall x Hx. Qed.

Lemma safe_replied kn m kind payload :
  safe conn ok (same_owner kn) kn (reply epoch m conn kind payload).
Proof. by apply safe_reply. Qed.

Lemma safe_acting m kn (k : WorkerId → WorkerBootId → Prog ()) :
  wf_Message m →
  (∀ kn' w b, wf_id w → wf_id b → kn_own kn' = kn_own kn → safe conn ok (same_owner kn) kn' (k w b)) →
  safe conn ok (same_owner kn) kn (acting m k).
Proof.
  intros Hm Hk. unfold acting. scall found Hf; [done|]. destruct found.
  - scall r Hr; [set_solver|]. destruct Hr as (r0 & -> & Hwf).
    scall b Hb; [done|]. apply Hk; [apply Hwf|done|done].
  - apply Hk; [apply Hm|apply Hm|done].
Qed.

(** Operations that grant no authority. *)
Section quiet.
Context (Hquiet : ∀ a, quiet_action a = true → ok a).

Lemma safe_create_set m kn :
  wf_Message m → safe conn ok (same_owner kn) kn (create_set_prog epoch m conn).
Proof.
  intros Hm. unfold create_set_prog. apply safe_local. intros s Hs.
  scall r Hr; [|apply safe_replied]. split; [|by apply Hquiet]. split; [by eapply build_set_wf|done].
Qed.

Lemma safe_drain m kn :
  wf_Message m → safe conn ok (same_owner kn) kn (drain_prog epoch m conn).
Proof.
  intros Hm. apply safe_acting; [done|]. intros kn' w b Hw Hb Ho. scall mono Hmono; [done|].
  scall r Hr; [|by apply safe_reply]. split; [|by apply Hquiet]. split_and!; [apply Hm|done..].
Qed.

Lemma derived_compat_wf_some s cc :
  wf_ReplicaSetState s → wf_ComputeCapability cc → wf_ReplicaCompatibility (derived_compat (Some s) cc).
Proof.
  intros Hwf Hcc. unfold wf_ReplicaSetState in Hwf. destruct_and! Hwf.
  unfold wf_CompatibilityRequirements in *. destruct_and?. unfold wf_ReplicaCompatibility. simpl.
  by split_and!.
Qed.
Lemma derived_compat_wf_none cc :
  wf_ComputeCapability cc → wf_ReplicaCompatibility (derived_compat None cc).
Proof. intros. unfold wf_ReplicaCompatibility. simpl. by split_and!; [vm_compute|..|vm_compute]. Qed.

Lemma safe_provision_rest m kn kn' w proto :
  wf_Message m → wf_id w → (∀ s, proto = Some s → wf_ReplicaSetState s) → kn_own kn' = kn_own kn →
  safe conn ok (same_owner kn) kn' (provision_rest epoch m conn w proto).
Proof.
  intros Hm Hw Hproto Ho. unfold provision_rest. cbn zeta.
  apply safe_local. intros ccmaj Hcc. apply safe_local. intros devmem Hdev.
  apply safe_local. intros cap Hcap.
  assert (Hccw : wf_ComputeCapability (mkComputeCapability ccmaj 0)) by (split; [by eapply hexi_range|done]).
  assert (Hcompat : wf_ReplicaCompatibility (derived_compat proto (mkComputeCapability ccmaj 0))).
  { destruct proto as [s|]; [|by apply derived_compat_wf_none]. apply derived_compat_wf_some; auto. }
  scall mono Hmono; [done|]. scall wall Hwall; [done|]. scall r Hr.
  { split; [|by apply Hquiet]. split_and!; [apply Hm|apply Hm|done|done| |by eapply hexu_range|done|done].
    split; [done|by eapply hexu_range]. }
  apply safe_reply. destruct (is_ok r); [|done].
  scall h Hh; [done|]. scall l Hl; [done|]. scall x Hx; [done|]. scall y Hy.
  { split; [|by apply Hquiet]. split; [apply Hm|by split]. }
  scall mono2 Hmono2; [done|]. scall wall2 Hwall2; [done|]. scall z Hz.
  { split; [|by apply Hquiet]. split_and!; [apply Hm|done|done]. }
  by scall b Hb.
Qed.

Lemma safe_provision m kn :
  wf_Message m → safe conn ok (same_owner kn) kn (provision_prog epoch m conn).
Proof.
  intros Hm. unfold provision_prog. apply safe_local. intros w Hw%parse_id_wf.
  scall found Hf; [done|]. destruct found; [|by apply safe_provision_rest].
  scall s Hs; [set_solver|]. destruct Hs as (s0 & -> & Hwf).
  apply safe_provision_rest; [done|done| |done]. by intros s [= ->].
Qed.

Lemma safe_execute m kn :
  wf_Message m → safe conn ok (same_owner kn) kn (execute_prog epoch m conn).
Proof.
  intros Hm. unfold execute_prog. cbn zeta. scall found Hf; [done|]. destruct found; [|by apply safe_reply].
  scall r Hr; [set_solver|]. destruct Hr as (r0 & -> & _). scall b Hb; [done|]. by apply safe_reply.
Qed.

Lemma safe_query m kn : safe conn ok (same_owner kn) kn (query_prog epoch m conn).
Proof.
  unfold query_prog, state_query_prog. cbn zeta. destruct (decide _).
  { scall x Hx; [done|]. by apply safe_reply. }
  destruct (decide _); [|by apply safe_reply].
  scall found Hf; [done|]. destruct found; [|by apply safe_reply].
  scall a Ha; [set_solver|]. scall b Hb; [set_solver|]. scall c Hc; [set_solver|]. scall d Hd; [set_solver|].
  destruct Ha as (? & -> & _), Hb as (? & -> & _), Hc as (? & -> & _), Hd as (? & -> & _).
  by apply safe_reply.
Qed.

Lemma safe_snapshot m kn : safe conn ok (same_owner kn) kn (snapshot_prog epoch m conn).
Proof.
  unfold snapshot_prog. do 7 (let x := fresh "x" in let Hx := fresh "Hx" in scall x Hx; [done|]).
  by apply safe_reply.
Qed.
End quiet.

(** Commands may also grant. *)
Lemma safe_promote m kn :
  (∀ a, commands m a → ok a) → m_kind m = MessageKind.PROMOTE →
  wf_Message m → safe conn ok (same_owner kn) kn (promote_prog epoch m conn).
Proof.
  intros Hok Hk Hm. unfold promote_prog. apply safe_local. intros n _. apply safe_local. intros target _.
  apply safe_acting; [done|]. intros kn' w b Hw Hb Ho. scall mono Hmono; [done|]. scall wall Hwall; [done|].
  scall r Hr; [|by apply safe_reply]. split; [split_and!; [apply Hm|done..]|].
  apply Hok. left. split; [done|]. by eexists _, _, _, _, _.
Qed.

Lemma safe_failover m kn :
  (∀ a, commands m a → ok a) → m_kind m = MessageKind.FAILOVER →
  wf_Message m → safe conn ok (same_owner kn) kn (failover_prog epoch m conn).
Proof.
  intros Hok Hk Hm. unfold failover_prog. apply safe_local. intros failed Hp. pose proof (parse_id_wf _ _ Hp) as Hf.
  scall mono Hmono; [done|]. scall wall Hwall; [done|].
  scall r Hr; [|by apply safe_reply]. split; [split_and!; [apply Hm|done..]|].
  apply Hok. right. split; [done|]. by eexists _, _, _, _.
Qed.

Lemma safe_control m kn :
  (∀ a, quiet_action a = true → ok a) →
  (∀ a, commands m a → ok a) →
  wf_Message m → safe conn ok (same_owner kn) kn (control_prog epoch m conn).
Proof.
  intros Hq Hc Hm. unfold control_prog.
  destruct (_ =? MessageKind.CREATE_SET); [by apply safe_create_set|].
  destruct (_ =? MessageKind.PROVISION); [by apply safe_provision|].
  destruct (_ =? MessageKind.PROMOTE) eqn:Hp; [apply safe_promote; [done|by bool_to_prop|done]|].
  destruct (_ =? MessageKind.DRAIN); [by apply safe_drain|].
  destruct (_ =? MessageKind.FAILOVER) eqn:Hf; [apply safe_failover; [done|by bool_to_prop|done]|].
  destruct (_ =? MessageKind.EXECUTE); [by apply safe_execute|].
  destruct (_ =? MessageKind.QUERY); [by apply safe_query|].
  destruct (_ =? MessageKind.SNAPSHOT); [by apply safe_snapshot|]. by apply safe_reply.
Qed.

Lemma safe_register m kn :
  (∀ a, register_action a = true → ok a) → wf_Message m → kn_own kn = None →
  safe conn ok (λ kn' st, ∃ w, wf_id w ∧ st = OfWorker w ∧ kn_own kn' = Some w) kn (register_prog epoch m conn).
Proof.
  intros Hok Hm Ho. unfold register_prog. apply safe_local. intros wr Hwr%build_worker_reg_wf; [|done].
  scall x Hx; [done|]. scall y Hy; [done|]. scall r Hr; [split; [done|by apply Hok]|].
  scall u Hu; [split_and!; [done|done|]; exists wr; split; [done|by apply Hok]|].
  scall b Hb; [done|]. cbn. exists (w_worker_id wr). by split_and!; [apply Hwr|..].
Qed.

Lemma safe_worker m kn :
  (∀ a, worker_action a = true → ok a) → wf_Message m →
  safe conn ok (same_owner kn) kn (worker_prog m conn).
Proof.
  intros Hok Hm. unfold worker_prog. cbn zeta.
  destruct (_ =? MessageKind.WARM_DONE).
  { apply safe_local. intros w Hw%warming_from_wf. scall mono Hmono; [done|].
    scall r Hr; [|done]. split; [|by apply Hok]. split_and!; [apply Hm|done|apply Hm|apply Hm|done]. }
  destruct (_ =? MessageKind.HEALTH).
  { apply safe_local. intros n _. destruct (from_int n) as [hs|]; [|done].
    assert (Hh : ∀ kn' gen, wf_id gen → kn_own kn' = kn_own kn →
      safe conn ok (same_owner kn) kn' (health_prog m hs gen)).
    { intros kn' gen Hgen Ho. unfold health_prog. scall wall Hwall; [done|]. scall mono Hmono; [done|].
      scall r Hr; [|done]. split; [|by apply Hok].
      split_and!; [apply Hm|by unfold wf_HealthEvidence; split_and!|apply Hm|apply Hm|done]. }
    scall found Hf; [done|]. destruct found; [|by apply Hh].
    scall r Hr; [set_solver|]. destruct Hr as (r0 & -> & Hwf). apply Hh; [|done].
    unfold wf_ReplicaState in Hwf. tauto. }
  destruct (_ =? MessageKind.READINESS).
  { apply safe_local. intros mask _. scall mono Hmono; [done|]. scall r Hr; [|done].
    split; [|by apply Hok]. split_and!; [apply Hm|by split|apply Hm|apply Hm]. }
  destruct (_ =? MessageKind.EXECUTE_RESULT); [by do 2 (let x := fresh in let Hx := fresh in scall x Hx; [done|])|].
  destruct (_ =? MessageKind.PING); [by scall x Hx|done].
Qed.

Lemma safe_gone w kn :
  ok (UnregisterWorker w) → wf_id w → kn_own kn = Some w →
  safe conn ok (λ kn' st, st = Finished_ ∧ kn_own kn' = None) kn (gone_prog w).
Proof.
  intros Hok Hw Ho. unfold gone_prog. scall r Hr; [done|]. by scall u Hu.
Qed.
End programs.

(** ** Threads *)

Definition owner_of (st : ConnState) : option WorkerId :=
  match st with OfWorker w => Some w | _ => None end.
(** A thread that has returned to [st] knows of no entry but its own worker's. *)
Definition returned (kn : Known) (st : ConnState) : Prop :=
  wf_conn st ∧ (kn_own kn = None ∨ kn_own kn = owner_of st).
Definition known_at_start (st : ConnState) : Known := mkKnown (owner_of st) ∅ ∅.

Lemma quiet_control_action a : quiet_action a = true → control_action a = true ∧ grants a = false.
Proof. unfold quiet_action. by intros [? ?%negb_true_iff]%andb_true_iff. Qed.

Lemma safe_thread conn epoch st ev :
  wf_id epoch → wf_conn st → wf_event ev →
  safe conn (may st ev) returned (known_at_start st) (thread_prog epoch conn st ev).
Proof.
  intros He Hst Hev.
  assert (Hc : ∀ bytes m, ev = GotFrame bytes → decode_message bytes = Decoded m →
    (∀ a, control_action a = true → allowed st a = true) → owner_of st = None →
    safe conn (may st ev) returned (known_at_start st) (and_then (control_prog epoch m conn) OfControl)).
  { intros bytes m -> Hm Hall Ho. apply safe_and_then.
    eapply safe_weaken; [|apply safe_control; [done|..|by apply decode_message_spec in Hm as [? _]]].
    - intros kn [] Hkn. split; [done|]. left. rewrite Hkn. exact Ho.
    - intros a [Ha Hg]%quiet_control_action. split; [by apply Hall|congruence].
    - intros a Ha. split; [apply Hall; by destruct Ha as [(_ & ? & ? & ? & ? & ? & ->)|(_ & ? & ? & ? & ? & _ & ->)]|].
      intros _. by exists bytes, m. }
  unfold thread_prog. destruct st as [|w| |], ev as [bytes|]; try (by (split; [done|]; by left)).
  - destruct (decode_message bytes) as [m| |] eqn:Hm; [|by (split; [done|]; by left)|done].
    destruct (_ =? MessageKind.REGISTER).
    + eapply safe_weaken; [|apply safe_register; [|by apply decode_message_spec in Hm as [? _]|done]].
      * intros kn st (w & Hw & -> & Hkn). split; [done|]. by right.
      * intros a Ha. unfold may, allowed. rewrite Ha, orb_true_r. split; [done|]. by destruct a.
    + apply (Hc bytes m eq_refl Hm); [|done]. intros a Ha. unfold allowed. by rewrite Ha.
  - destruct (decode_message bytes) as [m| |] eqn:Hm; [|split; [done|by right]|done].
    apply safe_and_then.
    eapply safe_weaken; [|apply (safe_worker _ _ epoch); [done| |by apply decode_message_spec in Hm as [? _]]].
    + intros kn [] Hkn. split; [done|]. right. exact Hkn.
    + intros a Ha. split; [done|]. by destruct a.
  - eapply safe_weaken; [|apply safe_gone; [by split|done|done]].
    intros kn st [-> Hkn]. split; [done|by left].
  - destruct (decode_message bytes) as [m| |] eqn:Hm; [|split; [done|by left]|done].
    by apply (Hc bytes m eq_refl Hm).
Qed.

(** ** The invariant *)

Section invariant.
Context `{Rng G}.
Implicit Types (n : Pool G) (co : Coordinator G).

(** Only [own] may be mapped to the connection. *)
Definition owns (co : Coordinator G) (conn : nat) (own : option WorkerId) : Prop :=
  ∀ w, co_conns co !! w = Some conn → own = Some w.
(** What a thread has found is still there. *)
Definition knows co (kn : Known) : Prop :=
  (∀ rid, rid ∈ kn_reps kn → is_Some (replicas_ (co_ctrl co) !! rid)) ∧
  (∀ sid, sid ∈ kn_sets kn → is_Some (sets_ (co_ctrl co) !! sid)).

(** Only a worker's thread, or one that is registering, owns an entry. *)
Definition serves (st : ConnState) (kn : Known) : Prop :=
  ∀ w, kn_own kn = Some w → st = OfWorker w ∨ st = AwaitFirst.

Definition thread_ok co (conn : nat) (t : Thread) : Prop :=
  match t with
  | Idle st => wf_conn st ∧ owns co conn (owner_of st)
  | Busy st ev p =>
      wf_conn st ∧ wf_event ev ∧
      ∃ kn, safe conn (may st ev) returned kn p ∧ knows co kn ∧ owns co conn (kn_own kn) ∧
        serves st kn
  end.

Record pool_inv (gen ctrl_rng : G) n : Prop := {
  pi_ctrl : reachable ctrl_rng (co_ctrl (pool_co n));
  pi_epoch : co_epoch (pool_co n) = (random_id gen).1;
  pi_threads conn t : pool_threads n !! conn = Some t → thread_ok (pool_co n) conn t;
  pi_entries w conn : co_conns (pool_co n) !! w = Some conn → is_Some (pool_threads n !! conn);
}.

(** Nothing that was found ever goes away. *)
Lemma after_keeps_replicas a (c : Controller G) rid :
  wf_action a → is_Some (replicas_ c !! rid) → is_Some (replicas_ (after a c) !! rid).
Proof.
  intros Ha [r Hr]. destruct (exec_replicas a c rid Ha) as [Hev|(r' & _ & ->)]; [|done].
  rewrite Hr in Hev. by inversion Hev.
Qed.
Lemma after_keeps_sets a (c : Controller G) sid :
  is_Some (sets_ c !! sid) → is_Some (sets_ (after a c) !! sid).
Proof.
  intros [s Hs]. destruct (exec_sets a c sid) as [Hev|(s' & _ & ? & _)]; [|congruence].
  rewrite Hs in Hev. by inversion Hev.
Qed.

(** What one call does to the shared state. *)
Record call_effect (conn : nat) (ok : Action → Prop) (kn : Known) (c : Call) co (x : answer_type c) co' : Prop := {
  ce_ctrl : co_ctrl co' = co_ctrl co ∨
    ∃ a, c = Op a ∧ wf_action a ∧ ok a ∧ co_ctrl co' = after a (co_ctrl co);
  ce_epoch : co_epoch co' = co_epoch co;
  ce_answer : answer_ok c x;
  ce_knows : knows co' (learn kn c x);
  ce_own : owns co' conn (kn_own (learn kn c x));
  ce_others i own : i ≠ conn → owns co i own → owns co' i own;
  ce_entries w i : co_conns co' !! w = Some i → i = conn ∨ co_conns co !! w = Some i;
}.

Lemma knows_find_replica co kn rid :
  knows co kn →
  knows co (learn kn (FindReplica rid)
    match replicas_ (co_ctrl co) !! rid with Some _ => true | None => false end).
Proof.
  intros [Hr Hs]. destruct (replicas_ (co_ctrl co) !! rid) as [r|] eqn:E; [|done]. split; [|exact Hs].
  cbn. intros k [->%elem_of_singleton|Hk]%elem_of_union; [by rewrite E|by apply Hr].
Qed.
Lemma knows_find_set co kn sid :
  knows co kn →
  knows co (learn kn (FindSet sid)
    match sets_ (co_ctrl co) !! sid with Some _ => true | None => false end).
Proof.
  intros [Hr Hs]. destruct (sets_ (co_ctrl co) !! sid) as [r|] eqn:E; [|done]. split; [exact Hr|].
  cbn. intros k [->%elem_of_singleton|Hk]%elem_of_union; [by rewrite E|by apply Hs].
Qed.
Lemma owns_put co w conn i own :
  i ≠ conn → owns co i own → owns (with_conns (<[w := conn]> (co_conns co)) co) i own.
Proof.
  intros Hi Ho v Hv. cbn in Hv. apply lookup_insert_Some in Hv as [[_ ?]|[_ Hv]]; [congruence|by apply Ho].
Qed.
Lemma owns_drop co w i own : owns co i own → owns (with_conns (delete w (co_conns co)) co) i own.
Proof. intros Ho v Hv. cbn in Hv. apply lookup_delete_Some in Hv as [_ Hv]. by apply Ho. Qed.

Lemma exec_call_effect conn ok kn e c co x co' outs :
  controller_inv (co_ctrl co) → wf_env e → call_ok conn ok kn c → knows co kn →
  owns co conn (kn_own kn) → exec_call e c co = (x, co', outs) → call_effect conn ok kn c co x co'.
Proof.
  intros Hinv [Hmono Hwall] Hok Hkn Hown E.
  assert (Hquiet : ∀ y, co' = co → kn_own (learn kn c y) = kn_own kn → answer_ok c y →
    knows co (learn kn c y) → call_effect conn ok kn c co y co').
  { intros y -> Ho Ha Hk. split; [by left|done|done|done|by rewrite Ho|done|by right]. }
  destruct c; cbn [exec_call] in E;
    try (injection E as <- <- _; apply Hquiet; [done|done|done|done]).
  - destruct (exec a (co_ctrl co)) as [r c] eqn:Ex. injection E as <- <- _. destruct Hok as [Ha Hoka].
    assert (Hc : c = after a (co_ctrl co)) by (unfold after; by rewrite Ex).
    split; [right; by exists a|done|done| |done|done|by right]. destruct Hkn as [Hr Hs]. cbn. subst c. split.
    + intros rid Hrid. by apply after_keeps_replicas, Hr.
    + intros sid Hsid. by apply after_keeps_sets, Hs.
  - injection E as <- <- _. apply Hquiet; [done|by cbn; case_match|done|by apply knows_find_replica].
  - injection E as <- <- _. apply Hquiet; [done|done| |done]. cbn in *. unfold find_replica.
    destruct (proj1 Hkn _ Hok) as [r Hr]. exists r. split; [done|]. exact (ri_wf _ _ (ci_replica _ Hinv _ _ Hr)).
  - injection E as <- <- _. apply Hquiet; [done|by cbn; case_match|done|by apply knows_find_set].
  - injection E as <- <- _. apply Hquiet; [done|done| |done]. cbn in *. unfold find_set.
    destruct (proj2 Hkn _ Hok) as [r Hr]. exists r. split; [done|]. by apply (ci_set _ Hinv) in Hr as (_ & ? & _).
  - injection E as <- <- _. apply Hquiet; [done|done| |done]. cbn. unfold current_boot_for.
    destruct (replicas_ _ !! rid) as [r|]; [by apply worker_boot_wf|by vm_compute].
  - pose proof (rng_next_range (co_rng co)) as Hz. destruct (rng_next (co_rng co)) as [z g].
    injection E as <- <- _. split; [by left|done|exact Hz|done|done|done|by right].
  - destruct (send_to_worker _ _ _ _) as [b os]. injection E as <- <- _. by apply Hquiet.
  - injection E as <- <- _. destruct Hok as (-> & Ho & _). split; [by left|done|done|done|..].
    + intros v Hv. cbn in Hv. apply lookup_insert_Some in Hv as [[-> _]|[_ Hv]]; [done|].
      apply Hown in Hv. congruence.
    + intros i own. apply owns_put.
    + intros v i Hv. cbn in Hv. apply lookup_insert_Some in Hv as [[_ <-]|[_ Hv]]; [by left|by right].
  - injection E as <- <- _. cbn in Hok. split; [by left|done|done|done|..].
    + intros v Hv. cbn in Hv. apply lookup_delete_Some in Hv as [Hne Hv]. apply Hown in Hv. congruence.
    + intros i own _. apply owns_drop.
    + intros v i Hv. cbn in Hv. apply lookup_delete_Some in Hv as [_ Hv]. by right.
  - injection E as <- <- _. split; [by left|done|done|done|done|done|by right].
Qed.

Lemma learn_serves conn st ev kn c x :
  call_ok conn (may st ev) kn c → serves st kn → serves st (learn kn c x).
Proof.
  intros Hok Hs w. destruct c; try (exact (Hs w)); cbn.
  - destruct x; exact (Hs w).
  - destruct x; exact (Hs w).
  - intros _. destruct Hok as (_ & _ & wr & _ & Ha & _). right. by destruct st.
  - done.
Qed.

Lemma knows_nothing co st : knows co (known_at_start st).
Proof. split; intros x Hx; cbn in Hx; set_solver. Qed.

Lemma call_keeps_thread conn ok kn c co (x : answer_type c) co' i t :
  call_effect conn ok kn c co x co' → i ≠ conn → thread_ok co i t → thread_ok co' i t.
Proof.
  intros [Hc _ _ _ _ Hothers _] Hi. destruct t as [st|st ev p]; cbn.
  - intros [Hst Ho]. split; [done|by apply Hothers].
  - intros (Hst & Hev & kn' & Hsafe & Hkn & Ho & Hserves). split_and!; [done..|]. exists kn'.
    split_and!; [done| |by apply Hothers|done]. destruct Hkn as [Hr Hs].
    destruct Hc as [Hc|(a & _ & Ha & _ & Hc)]; unfold knows; rewrite Hc; split; try done.
    + intros rid Hrid. by apply after_keeps_replicas, Hr.
    + intros sid Hsid. by apply after_keeps_sets, Hs.
Qed.

Lemma pool_inv_start gen rng g : pool_inv gen rng (pool_start gen rng g).
Proof. split; [apply rtc_refl|done|by intros|by intros]. Qed.

(** The thread that moves, and every other one. *)
Lemma set_thread_inv gen rng n conn t :
  pool_inv gen rng n → thread_ok (pool_co n) conn t → pool_inv gen rng (set_thread conn t n).
Proof.
  intros [Hc He Ht Hents] Hok. split; cbn; [done|done|..].
  - intros i s. rewrite lookup_insert_Some. intros [[<- <-]|[_ Hi]]; [done|by apply Ht].
  - intros w i Hi. rewrite lookup_insert_is_Some. destruct (decide (conn = i)); [by left|right].
    split; [done|]. by eapply Hents.
Qed.

Lemma pool_inv_epoch gen rng n : pool_inv gen rng n → wf_id (co_epoch (pool_co n)).
Proof. intros [_ -> _ _]. apply random_id_wf. Qed.

Lemma call_pool_inv gen rng n conn st ev e c k kn :
  pool_inv gen rng n → pool_threads n !! conn = Some (Busy st ev (Then c k)) →
  call_effect conn (may st ev) kn c (pool_co n) (exec_call e c (pool_co n)).1.1
    (exec_call e c (pool_co n)).1.2 →
  wf_conn st → wf_event ev → safe conn (may st ev) returned kn (Then c k) → serves st kn →
  pool_inv gen rng (call_pool conn st ev e c k n).
Proof.
  intros Hinv Hconn Heff Hst Hev [Hok Hsafe] Hserves. pose proof Hinv as [Hc He Ht Hents].
  pose proof Heff as [Hctrl Hep Hans Hkn Hown _ Hentries]. split; cbn [call_pool pool_co pool_threads].
  - destruct Hctrl as [->|(a & _ & Ha & _ & ->)]; [done|]. eapply rtc_r; [exact Hc|by exists a].
  - by rewrite Hep.
  - intros i t. rewrite lookup_insert_Some. intros [[<- <-]|[Hi Hit]].
    + split_and!; [done..|]. eexists. split_and!; [by apply Hsafe|exact Hkn|exact Hown|by eapply learn_serves].
    + eapply call_keeps_thread; [exact Heff|done|by apply Ht].
  - intros w i Hi. rewrite lookup_insert_is_Some. destruct (decide (conn = i)) as [|Hne]; [by left|right].
    split; [done|]. destruct (Hentries w i Hi) as [->|Hw]; [done|by eapply Hents].
Qed.

(** The call at the head of a busy thread's program, and what it does. *)
Lemma pool_call_effect gen rng n conn st ev e c k :
  pool_inv gen rng n → pool_threads n !! conn = Some (Busy st ev (Then c k)) → wf_env e →
  wf_conn st ∧ wf_event ev ∧ ∃ kn, safe conn (may st ev) returned kn (Then c k) ∧
    knows (pool_co n) kn ∧ serves st kn ∧
    call_effect conn (may st ev) kn c (pool_co n) (exec_call e c (pool_co n)).1.1
      (exec_call e c (pool_co n)).1.2.
Proof.
  intros [Hc _ Ht _] Hconn He. destruct (Ht _ _ Hconn) as (Hst & Hev & kn & Hsafe & Hkn & Ho & Hserves).
  split_and!; [done..|]. exists kn. split_and!; [done..|].
  destruct (exec_call e c (pool_co n)) as [[x co'] outs] eqn:E.
  eapply exec_call_effect; [by eapply reachable_inv|done|apply Hsafe|done|done|exact E].
Qed.

Lemma pool_step_inv gen rng n n' : pool_step n n' → pool_inv gen rng n → pool_inv gen rng n'.
Proof.
  intros Hstep Hinv. destruct Hstep as [n conn Hnew|n conn st ev Hconn Hev|n conn st ev e c k Hconn He|n conn st ev st' Hconn].
  - apply set_thread_inv; [done|]. split; [done|]. intros w Hw.
    apply (pi_entries _ _ _ Hinv) in Hw as [t Ht]. congruence.
  - apply set_thread_inv; [done|]. destruct (pi_threads _ _ _ Hinv _ _ Hconn) as [Hst Ho].
    split_and!; [done..|]. exists (known_at_start st). split_and!; [|apply knows_nothing|done|].
    + apply safe_thread; [by eapply pool_inv_epoch|done|done].
    + intros w Hw. left. destruct st; cbn in Hw; congruence.
  - destruct (pool_call_effect gen rng n conn st ev e c k) as (Hst & Hev & kn & Hsafe & _ & Hs & Heff); [done..|].
    by eapply call_pool_inv.
  - apply set_thread_inv; [done|]. destruct (pi_threads _ _ _ Hinv _ _ Hconn) as (_ & _ & kn & [Hst' Hret] & _ & Ho & _).
    split; [done|]. destruct Hret as [Hn|Hs]; [|by rewrite <-Hs]. intros w Hw. apply Ho in Hw. congruence.
Qed.

Lemma pool_reachable_inv gen rng g n : pool_reachable gen rng g n → pool_inv gen rng n.
Proof.
  apply (rtc_ind_r (pool_inv gen rng)); [apply pool_inv_start|].
  intros n1 n2 _ Hstep. by apply pool_step_inv.
Qed.
End invariant.
