(* ===== verification/ThreadsProps.v ===== *)
(** What the coordinator guarantees however its threads interleave.

    The theorems about src/apps/distributed/rf_coordinator.cpp at the granularity of
    single calls, and what the code does not guarantee at that granularity. *)

From S2P Require Import Prelude Identity Enums Model Transition Compatibility Authority Controller ControllerRun ControllerInv Scenario ControllerProps Snapshot Recovery Codec Protocol Transport Placement Coordinator CoordinatorRun CoordinatorProps Worker WorkerProps Threads ThreadsRun ThreadsInv.

(** ** The theorems *)

Section threads.
Context `{Rng G}.
Implicit Types n : Pool G.

(** The thread of connection [conn] serves worker [w]: between two messages, inside
    one, or inside its registration. *)
Definition serves_worker n (conn : nat) (w : WorkerId) : Prop :=
  pool_threads n !! conn = Some (Idle (OfWorker w)) ∨
  ∃ st ev p, pool_threads n !! conn = Some (Busy st ev p) ∧ (st = OfWorker w ∨ st = AwaitFirst).

(** What the next call of a thread reads through a pointer is there. *)
Definition no_dangling n : Prop :=
  ∀ conn st ev c k, pool_threads n !! conn = Some (Busy st ev (Then c k)) →
    match c with
    | DerefReplica rid => is_Some (replicas_ (co_ctrl (pool_co n)) !! rid)
    | DerefSet sid => is_Some (sets_ (co_ctrl (pool_co n)) !! sid)
    | _ => True
    end.

(** C8: whatever the interleaving of the threads' calls, the controller behind the
    network is one its own operations reach from start-up; the epoch the coordinator
    stamps is the one it drew; the connection it would write to for a worker is that of
    a live thread of that worker; and no thread is about to read through a pointer whose
    replica or set is gone. *)
Theorem threads_refine_controller gen ctrl_rng placement_rng n :
  pool_reachable gen ctrl_rng placement_rng n →
  reachable ctrl_rng (co_ctrl (pool_co n)) ∧ co_epoch (pool_co n) = (random_id gen).1 ∧
  (∀ w conn, co_conns (pool_co n) !! w = Some conn → serves_worker n conn w) ∧ no_dangling n.
Proof.
  intros Hn%pool_reachable_inv. pose proof Hn as [Hc He Ht Hents]. split_and!; [done|done|..].
  - intros w conn Hw. destruct (Hents w conn Hw) as [t Hconn]. pose proof (Ht _ _ Hconn) as Hok.
    destruct t as [st|st ev p].
    + left. destruct Hok as [_ Ho]. specialize (Ho w Hw). destruct st; cbn in Ho; try done.
      by injection Ho as ->.
    + right. destruct Hok as (_ & _ & kn & _ & _ & Ho & Hs). exists st, ev, p. split; [done|].
      by apply Hs, Ho.
  - intros conn st ev c k Hconn. destruct (Ht _ _ Hconn) as (_ & _ & kn & [Hok _] & [Hr Hs] & _).
    destruct c; try done; cbn in Hok; [by apply Hr|by apply Hs].
Qed.

(** C9: however the threads interleave, the step that raises a replica's serving flag is
    the call of the controller that one thread makes for the message it has read, and
    that message is a PROMOTE of this very replica, to PRIMARY, or a FAILOVER that fails
    another one; the thread is not that of a worker.  So nothing a worker sends grants
    serving authority, whatever runs beside it. *)
Theorem threads_grant_only_by_command gen ctrl_rng placement_rng n n' rid :
  pool_reachable gen ctrl_rng placement_rng n → pool_step n n' →
  ¬ flag_up rid (co_ctrl (pool_co n)) → flag_up rid (co_ctrl (pool_co n')) →
  ∃ conn st bytes m e a k,
    pool_threads n !! conn = Some (Busy st (GotFrame bytes) (Then (Op a) k)) ∧
    n' = call_pool conn st (GotFrame bytes) e (Op a) k n ∧
    (st = AwaitFirst ∨ st = OfControl) ∧ decode_message bytes = Decoded m ∧
    ((m_kind m = MessageKind.PROMOTE ∧ m_replica m = rid ∧
      ∃ w b mono wall, a = PromoteReplica rid PromotionState.PRIMARY w b mono wall) ∨
     (m_kind m = MessageKind.FAILOVER ∧ ∃ failed reason mono wall,
      parse_id (get_payload (m_payload m) "failed" EmptyString) = Returns failed ∧ rid ≠ failed ∧
      a = TriggerFailover (m_set m) failed reason mono wall)).
Proof.
  intros Hn%pool_reachable_inv Hstep Hdown Hup.
  destruct Hstep as [n conn Hnew|n conn st ev Hconn Hev|n conn st ev e c k Hconn He|n conn st ev st' Hconn];
    try by destruct Hdown.
  destruct (pool_call_effect _ _ _ _ _ _ _ _ _ Hn Hconn He) as (Hst & Hev & kn & _ & _ & _ & Heff).
  cbn [call_pool pool_co] in Hup.
  destruct (ce_ctrl _ _ _ _ _ _ _ Heff) as [E|(a & -> & Ha & [Hall Hgr] & E)]; rewrite E in Hup; [done|].
  pose proof (after_flag_raised a _ rid Ha Hdown Hup) as Hraised.
  assert (Hg : grants a = true) by by destruct Hraised as [(? & ? & ? & ? & ->)|(? & ? & ? & ? & ? & -> & _)].
  destruct (Hgr Hg) as (bytes & m & -> & Hm & Hcmd).
  exists conn, st, bytes, m, e, a, k. split_and!; [done|done| |done|].
  - destruct st; [by left| |by right|done]. cbn in Hall. by rewrite worker_grants_nothing in Hg.
  - destruct Hcmd as [(Hk & target & w & b & mono & wall & ->)|(Hk & failed & reason & mono & wall & Hp & ->)].
    + left. destruct Hraised as [(? & ? & ? & ? & [= <- -> _ _ _ _])|(? & ? & ? & ? & ? & ? & _)]; [|done].
      split_and!; [done|done|]. by eexists _, _, _, _.
    + right. destruct Hraised as [(? & ? & ? & ? & ?)|(? & f & ? & ? & ? & [= _ <- _ _ _] & Hne)]; [done|].
      split; [done|]. by exists failed, reason, mono, wall.
Qed.

(** A set that was found keeps its requirements: the compatibility a PROVISION request
    derived is that of its set when the operation runs, whatever ran in between. *)
Lemma requirements_fixed n n' sid s :
  rtc pool_step n n' → (∃ gen rng, pool_inv gen rng n) →
  sets_ (co_ctrl (pool_co n)) !! sid = Some s →
  ∃ s', sets_ (co_ctrl (pool_co n')) !! sid = Some s' ∧ s_compatibility s' = s_compatibility s.
Proof.
  intros Hrun. revert s. induction Hrun as [n|n1 n2 n3 Hstep _ IH]; intros s [gen [rng Hinv]] Hs; [by exists s|].
  assert (Hinv2 : pool_inv gen rng n2) by by eapply pool_step_inv.
  assert (Hs2 : ∃ s2, sets_ (co_ctrl (pool_co n2)) !! sid = Some s2 ∧ s_compatibility s2 = s_compatibility s).
  { destruct Hstep as [n conn|n conn st ev|n conn st ev e c k Hconn He|n conn st ev st']; try by exists s.
    destruct (pool_call_effect _ _ _ _ _ _ _ _ _ Hinv Hconn He) as (_ & _ & kn & _ & _ & _ & Heff).
    destruct (ce_ctrl _ _ _ _ _ _ _ Heff) as [E|(a & _ & _ & _ & E)]; cbn [call_pool pool_co]; rewrite E; [by exists s|].
    destruct (exec_sets a (co_ctrl (pool_co n)) sid) as [Hch|(s' & _ & ? & _)]; [|congruence].
    rewrite Hs in Hch. inversion Hch as [? s2 Hc Eq1 Eq2|]; subst. exists s2. split; [done|].
    by destruct Hc as [->|(l & _ & ->)]. }
  destruct Hs2 as (s2 & Hs2 & E2). destruct (IH s2 (ex_intro _ gen (ex_intro _ rng Hinv2)) Hs2) as (s3 & ? & E3).
  exists s3. split; [done|congruence].
Qed.
End threads.

Section atomic.
Context `{Rng G}.

(** A thread that is not interrupted does in its calls exactly what the handlers do
    in one step, outcome and frames included; and every run of the network in which
    each event is handled at once is one of the interleaved runs. *)
Theorem atomic_is_interleaved :
  (∀ mono_at wall_at wire conn st ev (co : Coordinator G),
    run_prog mono_at wall_at wire 0 0 (thread_prog (co_epoch co) conn st ev) co =
    conn_step mono_at wall_at wire conn st ev co) ∧
  (∀ gen ctrl_rng placement_rng (n : Net G),
    net_reachable gen ctrl_rng placement_rng n →
    pool_reachable gen ctrl_rng placement_rng (pool_of n)).
Proof. split; [intros; apply run_thread|apply net_reachable_pool]. Qed.
End atomic.

(** ** Scheduled runs *)

(** A schedule: who is accepted, which event a waiting thread reads, and how many calls
    a busy thread makes before another one runs. *)
Inductive Move :=
  | Accept (conn : nat)
  | Read (conn : nat) (m : Message)
  | Calls (conn k : nat).

Section schedule.
Context `{Rng G}.
Implicit Types n : Pool G.

Definition steady : Env := mkEnv 5 5 any_wire.

(** The next call of a thread, or its return to [read_frame]. *)
Definition next_call (conn : nat) n : option (Pool G) :=
  match pool_threads n !! conn with
  | Some (Busy st ev (Then c k)) => Some (call_pool conn st ev steady c k n)
  | Some (Busy st ev (Done (Returns st'))) => Some (set_thread conn (Idle st') n)
  | _ => None
  end.

Definition read_message (conn : nat) (m : Message) n : option (Pool G) :=
  match pool_threads n !! conn with
  | Some (Idle st) =>
      if Z.of_nat (length (encode_message m)) <? 2 ^ 64
      then Some (set_thread conn (Busy st (frame_of m)
                   (thread_prog (co_epoch (pool_co n)) conn st (frame_of m))) n)
      else None
  | _ => None
  end.

Fixpoint next_calls (conn k : nat) n : option (Pool G) :=
  match k with O => Some n | S k' => n ← next_call conn n; next_calls conn k' n end.

Definition move (mv : Move) n : option (Pool G) :=
  match mv with
  | Accept conn =>
      match pool_threads n !! conn with
      | None => Some (set_thread conn (Idle AwaitFirst) n)
      | Some _ => None
      end
  | Read conn m => read_message conn m n
  | Calls conn k => next_calls conn k n
  end.
Definition moves (mvs : list Move) n : option (Pool G) := foldl (λ o mv, n ← o; move mv n) (Some n) mvs.

Lemma next_call_step conn n n' : next_call conn n = Some n' → pool_step n n'.
Proof.
  unfold next_call. destruct (pool_threads n !! conn) as [[|st ev [[st'| |]|c k]]|] eqn:E; try done; intros [= <-].
  - by eapply pool_return.
  - apply pool_call; [done|by split].
Qed.

Lemma move_steps mv n n' : move mv n = Some n' → rtc pool_step n n'.
Proof.
  destruct mv as [conn|conn m|conn k]; cbn [move].
  - destruct (pool_threads n !! conn) eqn:E; [done|]. intros [= <-]. by apply rtc_once, pool_accept.
  - unfold read_message. destruct (pool_threads n !! conn) as [[st|]|] eqn:E; [|done..].
    case_match eqn:Hl; [|done]. intros [= <-]. apply rtc_once, pool_read; [done|].
    bool_to_prop. unfold wf_event, frame_of, in_u64. lia.
  - revert n. induction k as [|k IH]; intros n; cbn [next_calls]; [intros [= ->]; apply rtc_refl|].
    destruct (next_call conn n) as [n1|] eqn:E; [|done]. simpl. intros Hn.
    eapply rtc_l; [by eapply next_call_step|by apply IH].
Qed.

Lemma moves_steps mvs n n' : moves mvs n = Some n' → rtc pool_step n n'.
Proof.
  revert n'. induction mvs as [|mv mvs IH] using rev_ind; intros n'; unfold moves; [intros [= ->]; apply rtc_refl|].
  rewrite foldl_app. simpl. fold (moves mvs n). destruct (moves mvs n) as [n1|]; [|done]. simpl.
  intros Hn. etrans; [by apply IH|by eapply move_steps].
Qed.
End schedule.

(** ** Witnesses *)

Definition set_payload : string :=
  payload_text ((λ kv : string * Z, (kv.1, id_str (@ident ModelIdTag kv.2))) <$>
    [("model", 1); ("workload", 2); ("tenant", 3); ("artifact", 4); ("agen", 9); ("sgen", 5); ("pgen", 6)]%string).
Definition create_set_message : Message :=
  mkMessage MessageKind.CREATE_SET 40 (ident 8) null null null (ident 7) null set_payload.
Definition worker_registers : Message := register_request (ident 20) (ident 30) (ident 90).
Definition promote_twelve : Message :=
  mkMessage MessageKind.PROMOTE 45 (ident 8) null null (ident 12) null null "target=5".

(** Connection 0 is a worker's, connection 1 a client's. *)
Definition registered : list Move := [ Accept 0; Read 0 worker_registers; Calls 0 6 ]%nat.
Definition set_created : list Move := [ Accept 1; Read 1 create_set_message; Calls 1 3 ]%nat.
(** The replica of the PROVISION request, brought to READY by its worker. *)
Definition brought_up : list Move :=
  [ Read 1 provision_message; Calls 1 15;
    Read 0 (warm_done (ident 20) (ident 30) provision_message); Calls 0 3;
    Read 0 (health_report (ident 20) (ident 30) provision_message); Calls 0 6;
    Read 0 (readiness_report (ident 20) (ident 30) provision_message); Calls 0 3 ]%nat.
(** The PROMOTE request, up to the call that promotes. *)
Definition to_promotion : list Move :=
  registered ++ set_created ++ brought_up ++ [ Read 1 promote_twelve; Calls 1 5 ]%nat.

Definition flag (n : Z) (p : Pool Z) : bool :=
  match replicas_ (co_ctrl (pool_co p)) !! ident n with Some r => r_serving_eligible r | None => false end.

Lemma flag_spec n (p : Pool Z) : flag n p = true ↔ flag_up (ident n) (co_ctrl (pool_co p)).
Proof.
  unfold flag, flag_up. destruct (_ !! _) as [r|]; [|split; [done|by intros (? & ? & _)]].
  split; [by intros ?; exists r|]. by intros (? & [= <-] & ?).
Qed.

Definition promotion_raises : bool :=
  match moves to_promotion (pool_start 1 2 3) with
  | Some n =>
      match next_call 1 n with Some n' => negb (flag 12 n) && flag 12 n' | None => false end
  | None => false
  end.
Lemma promotion_raises_true : promotion_raises = true.
Proof. by vm_compute. Qed.

(** The PROMOTE call raises the flag; it is made by the thread of a client for the message
    that names the replica. *)
Lemma threads_grant_only_by_command_witness :
  ∃ (n n' : Pool Z), pool_step n n' ∧ flag_up (ident 12) (co_ctrl (pool_co n')) ∧
    ∃ conn st ev a k, pool_threads n !! conn = Some (Busy st ev (Then (Op a) k)) ∧
      (st = AwaitFirst ∨ st = OfControl).
Proof.
  pose proof promotion_raises_true as Hb. unfold promotion_raises in Hb.
  destruct (moves to_promotion (pool_start 1 2 3)) as [n|] eqn:E; [|discriminate].
  destruct (next_call 1 n) as [n'|] eqn:E'; [|discriminate].
  apply andb_true_iff in Hb as [Hdown Hup]. apply negb_true_iff in Hdown.
  assert (Hd : ¬ flag_up (ident 12) (co_ctrl (pool_co n))) by (rewrite <-flag_spec; congruence).
  apply flag_spec in Hup. exists n, n'. split; [by eapply next_call_step|]. split; [exact Hup|].
  destruct (threads_grant_only_by_command 1 2 3 n n' (ident 12))
    as (conn & st & bytes & m & e & a & k & Hp & _ & Hst & _);
    [by eapply moves_steps|by eapply next_call_step|exact Hd|exact Hup|].
  exists conn, st, (GotFrame bytes), a, k. exact (conj Hp Hst).
Defined.

(** A worker has registered, and its thread is waiting for its next message. *)
Definition entry_present : bool :=
  match moves registered (pool_start 1 2 3) with
  | Some n => bool_decide (co_conns (pool_co n) !! ident 20 = Some 0%nat)
  | None => false
  end.
Lemma entry_present_true : entry_present = true.
Proof. by vm_compute. Qed.

Lemma threads_refine_controller_witness :
  ∃ n : Pool Z, co_conns (pool_co n) !! ident 20 = Some 0%nat ∧ serves_worker n 0 (ident 20) ∧
    reachable 2 (co_ctrl (pool_co n)).
Proof.
  pose proof entry_present_true as Hb. unfold entry_present in Hb.
  destruct (moves registered (pool_start 1 2 3)) as [n|] eqn:E; [|discriminate].
  apply bool_decide_eq_true in Hb. exists n. split; [exact Hb|].
  destruct (threads_refine_controller 1 2 3 n) as (Hc & _ & Hs & _); [by eapply moves_steps|].
  exact (conj (Hs _ _ Hb) Hc).
Defined.

(** ** What interleaving breaks *)

Definition snapshot_request : Message :=
  mkMessage MessageKind.SNAPSHOT 50 (ident 8) null null null null null EmptyString.

(** A client asks for a snapshot; after its thread has read the sets, another client
    creates one and provisions a replica in it; then the thread reads the replicas. *)
Definition torn_schedule : list Move :=
  registered ++ [ Accept 2; Read 2 snapshot_request; Calls 2 1 ]%nat ++ set_created ++
  [ Read 1 provision_message; Calls 1 15; Calls 2 6 ]%nat.

(** The bytes of the reply a thread is about to write, if they are [bytes]. *)
Definition about_to_reply (n : Pool Z) (conn : nat) (bytes : list byte) : bool :=
  match pool_threads n !! conn with
  | Some (Busy _ _ (Then (WriteFrame _ m) _)) => String.eqb (m_payload m) (snapshot_payload bytes)
  | _ => false
  end.
Definition torn_bytes (n : Pool Z) : list byte :=
  let c := co_ctrl (pool_co n) in
  snapshot_of ∅ (replicas_ c) (workers_ c) (promotions_ c) (drains_ c) (failovers_ c) (epoch_ c).
Definition torn_outcome : bool :=
  match moves torn_schedule (pool_start 1 2 3) with
  | Some n =>
      about_to_reply n 2 (torn_bytes n) &&
      match recover_into (torn_bytes n) (new_controller 0) with
      | inl e => String.eqb e "replica references an unknown replica set"
      | inr _ => false
      end
  | None => false
  end.
Lemma torn_outcome_true : torn_outcome = true.
Proof. by vm_compute. Qed.

(** The reply to a SNAPSHOT request can be a snapshot that recovery refuses:
    [make_snapshot] reads the tables one after the other without the controller's mutex
    (snapshot.cpp:243-283, rf_coordinator.cpp:216). *)
Lemma snapshot_can_be_torn :
  ∃ n : Pool Z, pool_reachable 1 2 3 n ∧ about_to_reply n 2 (torn_bytes n) = true ∧
    recover_into (torn_bytes n) (new_controller 0) = inl "replica references an unknown replica set"%string.
Proof.
  pose proof torn_outcome_true as Hb. unfold torn_outcome in Hb.
  destruct (moves torn_schedule (pool_start 1 2 3)) as [n|] eqn:E; [|discriminate].
  apply andb_true_iff in Hb as [Hr Hb]. exists n. split; [by eapply moves_steps|]. split; [exact Hr|].
  destruct (recover_into _ _) as [e|]; [|discriminate]. by apply String.eqb_eq in Hb as ->.
Qed.
