(* ===== verification/Mains.v ===== *)
(** The processes' entry points (the [main]s of src/apps/distributed/rf_worker.cpp and
    rf_coordinator.cpp).

    Command line arguments, exit codes, the worker's whole life over one connection, and
    the coordinator's start.  The worker's message loop runs on fuel: the number of frames
    it may read. *)

From S2P Require Import Prelude Identity Enums Model Controller Codec Protocol Transport Sockets Coordinator Worker.

(** [static_cast<std::uint16_t>]. *)
Definition u16 (z : Z) : Z := z mod 2 ^ 16.
Definition stoull10 (s : string) : Outcome Z := parse_unsigned 10 64 s.

(** [IdT::from_string], an exception for text that is no identity. *)
Definition id_argument {k} (s : string) : Outcome (Id k) :=
  match from_string s with inl _ => Throws | inr i => Returns i end.

(** ** The worker *)

Record WorkerArgs := mkWorkerArgs {
  wa_port : Z;
  wa_worker : WorkerId;
  wa_boot : WorkerBootId;
  wa_node : NodeId;
}.

(** The loop over [argv]: an option that is the last argument is skipped like an unknown
    one. *)
Fixpoint worker_args (argv : list string) (a : WorkerArgs) : Outcome WorkerArgs :=
  match argv with
  | [] => Returns a
  | o :: rest =>
      match rest with
      | [] => Returns a
      | v :: rest' =>
          if String.eqb o "--port" then
            p ⟵ stoul10 v;
            worker_args rest' (mkWorkerArgs (u16 p) (wa_worker a) (wa_boot a) (wa_node a))
          else if String.eqb o "--worker" then
            i ⟵ id_argument v; worker_args rest' (mkWorkerArgs (wa_port a) i (wa_boot a) (wa_node a))
          else if String.eqb o "--boot" then
            i ⟵ id_argument v; worker_args rest' (mkWorkerArgs (wa_port a) (wa_worker a) i (wa_node a))
          else if String.eqb o "--node" then
            i ⟵ id_argument v; worker_args rest' (mkWorkerArgs (wa_port a) (wa_worker a) (wa_boot a) i)
          else worker_args rest a
      end
  end.

Section worker_main.
Context `{Socket K}.

(** The frames of an answer, one [write_frame] each; their results are not looked at. *)
Definition send_messages (ms : list Message) (c : TcpConnection K) : TcpConnection K :=
  foldl (λ c m, (send_message m c).2) c ms.

(** The message loop: it ends when a frame cannot be read. *)
Fixpoint worker_loop (fuel : nat) (wid : WorkerId) (bid : WorkerBootId) (c : TcpConnection K) :
    Outcome (Loop Z) * TcpConnection K :=
  match fuel with
  | O => (Returns OutOfFuel, c)
  | S fuel' =>
      match read_frame c with
      | (None, c) => (Returns (Finished 0), c)
      | (Some f, c) =>
          match worker_step wid bid f with
          | Returns answers => worker_loop fuel' wid bid (send_messages answers c)
          | Throws => (Throws, c)
          | Undefined => (Undefined, c)
          end
      end
  end.

(** From the connection on: registration, its acknowledgement, and the loop. *)
Definition worker_session (fuel : nat) (a : WorkerArgs) (c : TcpConnection K) :
    Outcome (Loop Z) * TcpConnection K :=
  let c := (send_message (register_request (wa_worker a) (wa_boot a) (wa_node a)) c).2 in
  match read_frame c with
  | (None, c) => (Returns (Finished 4), c)
  | (Some ack, c) =>
      match check_ack ack with
      | Returns true => worker_loop fuel (wa_worker a) (wa_boot a) c
      | Returns false => (Returns (Finished 5), c)
      | Throws => (Throws, c)
      | Undefined => (Undefined, c)
      end
  end.

(** [main]; [connect] is [conn.connect_to]. *)
Definition worker_main (fuel : nat) (connect : string → Z → TcpConnection K)
    (argv : list string) : Outcome (Loop Z) * TcpConnection K :=
  match worker_args argv (mkWorkerArgs 0 null null null) with
  | Throws => (Throws, None)
  | Undefined => (Undefined, None)
  | Returns a =>
      if (wa_port a =? 0) || is_null (wa_worker a) then (Returns (Finished 2), None)
      else
        match connect "127.0.0.1"%string (wa_port a) with
        | None => (Returns (Finished 3), None)
        | Some s => worker_session fuel a (Some s)
        end
  end.
End worker_main.

(** ** The coordinator *)

Fixpoint coordinator_args (argv : list string) (port seed : Z) : Outcome (Z * Z) :=
  match argv with
  | [] => Returns (port, seed)
  | o :: rest =>
      match rest with
      | [] => Returns (port, seed)
      | v :: rest' =>
          if String.eqb o "--port" then p ⟵ stoul10 v; coordinator_args rest' (u16 p) seed
          else if String.eqb o "--seed" then s ⟵ stoull10 v; coordinator_args rest' port s
          else coordinator_args rest port seed
      end
  end.

(** What [main] comes to before its accept loop: an exit code, or the state it serves. *)
Inductive Started (G : Type) :=
  | Exits (code : Z)
  | Serves (co : Coordinator G).
Arguments Exits {G} _.
Arguments Serves {G} _.

Section coordinator_main.
Context `{Rng G} `{Winsock Sys Addr}.

(** The generators of [main]: the epoch's and the controller's share the seed, the
    placements' is seeded with 7.  The listener is connection object 0. *)
Definition coordinator_state (seed : Z → G) (s : Z) : Coordinator G :=
  mkCoordinator (new_controller (seed s)) (random_id (seed s)).1 ∅ ∅ (seed 7).
Definition coordinator_main (seed : Z → G) (argv : list string) (w : Sockets Sys) :
    Outcome (Started G) * Sockets Sys :=
  match coordinator_args argv 0 0x1111 with
  | Throws => (Throws, w)
  | Undefined => (Undefined, w)
  | Returns (port, s) =>
      if port =? 0 then (Returns (Exits 2), w)
      else
        let w := construct 0 w in
        let '(ok, w) := listen_on 0 port w in
        if negb ok then (Returns (Exits 3), destroy 0 w)
        else (Returns (Serves (coordinator_state seed s)), w)
  end.

(** One turn of the accept loop, with connection object [c]: when accepting fails the
    object goes away again, otherwise its thread keeps it. *)
Definition accept_turn (c : ConnRef) (w : Sockets Sys) : bool * Sockets Sys :=
  let '(ok, w) := accept_one 0 c (construct c w) in
  if ok then (true, w) else (false, destroy c w).

(** After the loop: [tcp_shutdown] runs first, then the destructor of the listener. *)
Definition coordinator_end (w : Sockets Sys) : Sockets Sys := destroy 0 (tcp_shutdown w).
End coordinator_main.
