(* ===== verification/MainsProps.v ===== *)
(** What the processes do from start to exit.

    A worker answers a stream of requests in order and exits with 0 when it ends, and no
    input keeps it running for ever; the coordinator's start is the start of the
    interleaved model of Threads.v, its accept loop loses no socket, and its default
    seed makes every start draw the same epoch. *)

From S2P Require Import Prelude Identity Enums Model Scenario Controller Codec Protocol Transport ProtocolProps Sockets SocketsProps Coordinator CoordinatorRun Worker WorkerProps Threads Mersenne Mains.

(** ** The worker's message loop *)

Section worker.
Context `{SocketLaws K}.

Lemma send_messages_keeps ms s :
  ∃ s', send_messages ms (Some s) = Some s' ∧ pending s' = pending s.
Proof.
  revert s. induction ms as [|m ms IH]; intros s; [by exists s|].
  destruct (write_frame_keeps (encode_message m) s) as (s1 & E1 & Hp1).
  destruct (IH s1) as (s2 & E2 & Hp2). exists s2.
  unfold send_messages in *. cbn [foldl]. unfold send_message at 2. rewrite E1, E2.
  split; [done|congruence].
Qed.

(** Every turn of the loop takes a frame header from the stream. *)
Lemma worker_loop_ends fuel wid bid s :
  (length (pending s) < 4 * fuel)%nat → (worker_loop fuel wid bid (Some s)).1 ≠ Returns OutOfFuel.
Proof.
  revert s. induction fuel as [|fuel IH]; intros s Hf; [lia|]. cbn [worker_loop].
  destruct (read_frame (Some s)) as [[f|] c] eqn:Er; [|done].
  apply read_frame_inv in Er as (s1 & -> & _ & Hp).
  destruct (worker_step wid bid f) as [answers| |]; [|done..].
  destruct (send_messages_keeps answers s1) as (s2 & -> & Hp2). apply IH.
  apply (f_equal length) in Hp. unfold frame in Hp.
  rewrite !length_app, length_frame_header in Hp. rewrite Hp2. lia.
Qed.

(** The codes a worker exits with. *)
Definition worker_code (code : Z) : Prop :=
  code = 0 ∨ code = 2 ∨ code = 3 ∨ code = 4 ∨ code = 5.

Lemma worker_loop_code fuel wid bid c code c' :
  worker_loop fuel wid bid c = (Returns (Finished code), c') → code = 0.
Proof.
  revert c. induction fuel as [|fuel IH]; intros c; [done|]. cbn [worker_loop].
  destruct (read_frame c) as [[f|] c1]; [|by intros [= <- _]].
  destruct (worker_step wid bid f); [apply IH|done..].
Qed.

Lemma worker_loop_failed fuel wid bid c : (worker_loop fuel wid bid c).1 ≠ Returns Failed.
Proof.
  revert c. induction fuel as [|fuel IH]; intros c; [done|]. cbn [worker_loop].
  destruct (read_frame c) as [[f|] c1]; [|done]. destruct (worker_step wid bid f); [apply IH|done..].
Qed.

Lemma worker_session_ends fuel a s :
  (length (pending s) < 4 * fuel)%nat →
  match (worker_session fuel a (Some s)).1 with
  | Returns (Finished code) => worker_code code
  | Returns _ => False
  | _ => True
  end.
Proof.
  intros Hf. unfold worker_session, send_message.
  destruct (write_frame_keeps (encode_message
    (register_request (wa_worker a) (wa_boot a) (wa_node a))) s) as (s1 & -> & Hp).
  destruct (read_frame (Some s1)) as [[ack|] c] eqn:Er; [|cbn; unfold worker_code; auto].
  apply read_frame_inv in Er as (s2 & -> & _ & Hp2).
  destruct (check_ack ack) as [[]| |]; try (cbn; unfold worker_code; by auto 6).
  assert (Hl : (length (pending s2) < 4 * fuel)%nat).
  { rewrite <-Hp, Hp2, length_app in Hf. lia. }
  pose proof (worker_loop_ends fuel (wa_worker a) (wa_boot a) s2 Hl) as He.
  pose proof (worker_loop_failed fuel (wa_worker a) (wa_boot a) (Some s2)) as Hn.
  destruct (worker_loop fuel _ _ (Some s2)) as [[[code| |]| |] c] eqn:El; cbn in *; try done.
  left. by eapply worker_loop_code.
Qed.

(** A connection whose [send] never fails. *)
Definition reliable_send : Prop :=
  ∀ data len (s : K), 0 < len <= Z.of_nat (length data) → is_Some (sock_send data len s).1.

Lemma send_loop_reliable fuel data s :
  reliable_send → (length data ≤ fuel)%nat → Z.of_nat (length data) < 2 ^ 31 →
  (send_loop fuel data s).1 = Finished ().
Proof.
  intros Hr. revert data s. induction fuel as [|fuel IH]; intros data s Hf Hl.
  { by destruct data; [|simpl in Hf; lia]. }
  destruct data as [|b data]; [done|]. cbn [send_loop]. set (d := b :: data) in *.
  assert (Hd : (0 < length d)%nat) by (simpl; lia).
  replace (i32 (Z.of_nat (length d))) with (Z.of_nat (length d)) by
    (unfold i32; rewrite Z.mod_small; lia).
  set (chunk := if 2 ^ 20 <? Z.of_nat (length d) then 2 ^ 20 else Z.of_nat (length d)).
  assert (Hc : 0 < chunk <= Z.of_nat (length d)).
  { unfold chunk. destruct (_ <? _) eqn:E; bool_to_prop; lia. }
  destruct (Hr d chunk s Hc) as [k Hk]. pose proof (send_takes d chunk s k Hc Hk) as (Hk' & _).
  destruct (sock_send d chunk s) as [o s']. cbn [fst] in Hk. subst o.
  apply IH; rewrite length_drop; lia.
Qed.

Lemma write_frame_reliable payload s :
  reliable_send → Z.of_nat (length payload) <= kMaxFrame →
  ∃ s', write_frame payload (Some s) = (true, Some s') ∧
    sent s' = sent s ++ frame payload ∧ pending s' = pending s.
Proof.
  intros Hr Hl. assert (Hok : ∃ s', write_frame payload (Some s) = (true, Some s')).
  { unfold write_frame. rewrite (proj2 (Z.ltb_ge _ _)) by done. unfold send_all.
    pose proof (send_loop_reliable _ (frame_header (u32 (Z.of_nat (length payload)))) s Hr
      (Nat.le_refl _)) as Hh.
    rewrite length_frame_header in *. destruct (send_loop 4 _ s) as [r s1].
    cbn [fst] in Hh. rewrite Hh by lia. cbn [negb]. destruct payload as [|b p]; [by exists s1|].
    unfold kMaxFrame in Hl.
    pose proof (send_loop_reliable _ (b :: p) s1 Hr (Nat.le_refl _)) as Hb.
    destruct (send_loop _ (b :: p) s1) as [r2 s2]. cbn [fst] in Hb. rewrite Hb by lia. by exists s2. }
  destruct Hok as [s' E]. exists s'. split; [done|]. by apply write_frame_spec in E as (_ & ? & ?).
Qed.

(** A frame of the stream holding an encoded message. *)
Definition message_frame (m : Message) : list byte := frame (encode_message m).
Definition fits (m : Message) : Prop := Z.of_nat (length (encode_message m)) <= kMaxFrame.

Lemma send_messages_reliable ms s :
  reliable_send → Forall fits ms →
  ∃ s', send_messages ms (Some s) = Some s' ∧ pending s' = pending s ∧
    sent s' = sent s ++ concat (message_frame <$> ms).
Proof.
  intros Hr Hf. revert s. induction Hf as [|m ms Hm _ IH]; intros s.
  { exists s. cbn. by rewrite app_nil_r. }
  destruct (write_frame_reliable (encode_message m) s Hr Hm) as (s1 & E1 & Hs1 & Hp1).
  destruct (IH s1) as (s2 & E2 & Hp2 & Hs2). exists s2.
  unfold send_messages in *. cbn [foldl]. unfold send_message at 2. rewrite E1. cbn [snd].
  rewrite E2, Hs2, Hs1, Hp2, Hp1, <-app_assoc. done.
Qed.

(** At the end of the stream there is no frame to read. *)
Lemma read_frame_end s :
  pending s = [] → ∃ s', read_frame (Some s) = (None, Some s') ∧ sent s' = sent s.
Proof.
  intros Hp. destruct (recv_takes 4 s) as (Hr & _ & Hs & _); [lia|].
  unfold read_frame, recv_exact. cbn [recv_loop]. change (i32 (Z.of_nat 4)) with 4.
  destruct (sock_recv 4 s) as [r s']. cbn [fst snd] in *. rewrite Hp in Hr.
  symmetry in Hr. apply app_nil in Hr as [-> _]. by exists s'.
Qed.

(** A stream of well-formed requests is answered request by request, each with
    [worker_answers], and the end of the stream is exit code 0. *)
Lemma worker_loop_serves fuel wid bid ms s :
  reliable_send → (length ms < fuel)%nat →
  Forall (λ m, wf_Message m ∧ fits m ∧ Forall fits (worker_answers wid bid m)) ms →
  pending s = concat (message_frame <$> ms) →
  ∃ s', worker_loop fuel wid bid (Some s) = (Returns (Finished 0), Some s') ∧
    sent s' = sent s ++ concat (message_frame <$> concat (worker_answers wid bid <$> ms)).
Proof.
  intros Hr Hf Hms. revert fuel s Hf. induction Hms as [|m ms (Hw & Hm & Ha) _ IH]; intros fuel s Hf Hp;
    (destruct fuel as [|fuel]; [simpl in Hf; lia|]); cbn [worker_loop].
  { destruct (read_frame_end s Hp) as (s' & -> & Hs). exists s'. cbn. by rewrite app_nil_r. }
  destruct (read_frame_spec s (encode_message m) _ Hm Hp) as (s1 & -> & Hp1 & Hs1).
  unfold worker_step. rewrite decode_encode by done.
  destruct (send_messages_reliable (worker_answers wid bid m) s1 Hr Ha) as (s2 & -> & Hp2 & Hs2).
  destruct (IH fuel s2) as (s3 & -> & Hs3); [simpl in Hf; lia|by rewrite Hp2, Hp1|]. exists s3. split; [done|].
  rewrite Hs3, Hs2, Hs1. cbn [fmap list_fmap concat]. by rewrite fmap_app, concat_app, app_assoc.
Qed.
Lemma register_request_fits wid bid nid : fits (register_request wid bid nid).
Proof.
  unfold fits. rewrite length_encode_message. cbn [m_payload register_request].
  unfold register_payload. rewrite !string_length_app, length_id_str. by vm_compute.
Qed.

(** ** The worker's [main] *)

(** The process of a worker ends on every input: it exits with one of its codes, dies of
    arguments that are no numbers or identities, or reads a short frame past its end. *)
Theorem worker_main_ends fuel connect argv :
  (∀ host port s, connect host port = Some s → (length (pending s) < 4 * fuel)%nat) →
  match (worker_main fuel connect argv).1 with
  | Returns (Finished code) => worker_code code
  | Returns _ => False
  | _ => True
  end.
Proof.
  intros Hf. unfold worker_main. destruct (worker_args argv _) as [a| |]; [|done..].
  destruct (_ || _); [cbn; unfold worker_code; auto|].
  destruct (connect _ _) as [s|] eqn:Ec; [|cbn; unfold worker_code; auto].
  by apply worker_session_ends, (Hf _ _ _ Ec).
Qed.

(** C18: over a connection that does not fail, the worker process registers with its
    identities, takes an acknowledgement that starts with ok, and then answers every
    request of the stream, in order and each with [worker_answers] under its own worker
    and boot identity (a PONG names no worker); at the end of the stream it exits with 0. *)
Theorem worker_process_serves fuel connect argv a s ack ms :
  reliable_send → worker_args argv (mkWorkerArgs 0 null null null) = Returns a →
  wa_port a ≠ 0 → is_null (wa_worker a) = false →
  connect "127.0.0.1"%string (wa_port a) = Some s →
  wf_Message ack → fits ack → ack_accepts ack = true →
  Forall (λ m, wf_Message m ∧ fits m ∧ Forall fits (worker_answers (wa_worker a) (wa_boot a) m)) ms →
  pending s = concat (message_frame <$> ack :: ms) → (length ms < fuel)%nat →
  ∃ s', worker_main fuel connect argv = (Returns (Finished 0), Some s') ∧
    sent s' = sent s ++ concat (message_frame <$>
      register_request (wa_worker a) (wa_boot a) (wa_node a) ::
      concat (worker_answers (wa_worker a) (wa_boot a) <$> ms)).
Proof.
  intros Hr Hargs Hport Hw Hc Hack Hfit Hok Hms Hp Hf. unfold worker_main. rewrite Hargs.
  rewrite (proj2 (Z.eqb_neq _ _) Hport), Hw, Hc. cbn [orb]. unfold worker_session, send_message.
  destruct (write_frame_reliable _ s Hr (register_request_fits (wa_worker a) (wa_boot a) (wa_node a)))
    as (s1 & -> & Hs1 & Hp1). cbn [snd]. rewrite Hp in Hp1.
  destruct (read_frame_spec s1 (encode_message ack) _ Hfit Hp1) as (s2 & -> & Hp2 & Hs2).
  unfold check_ack. rewrite decode_encode, Hok by done.
  destruct (worker_loop_serves fuel (wa_worker a) (wa_boot a) ms s2 Hr Hf Hms Hp2) as (s3 & -> & Hs3).
  exists s3. split; [done|]. by rewrite Hs3, Hs2, Hs1, <-app_assoc.
Qed.
End worker.

(** ** The coordinator's start and accept loop *)

Section coordinator.
Context `{Rng G} `{WinsockLaws Sys Addr}.
Implicit Types w : Sockets Sys.

(** [listen_on] gives the object a socket when it returns true, and changes no object
    otherwise. *)
Lemma listen_conns c port w :
  if (listen_on c port w).1 then valid c (listen_on c port w).2 = true
  else conns (listen_on c port w).2 = conns w.
Proof.
  unfold listen_on.
  assert (Ec : conns (tcp_init w).2 = conns w) by (unfold tcp_init; by repeat case_match).
  destruct (tcp_init w) as [ready w1]. cbn [snd] in Ec. destruct ready; cbn [negb fst snd]; [|done].
  destruct (sys_socket tcp_kind (sys w1)) as [s o]. destruct (s =? INVALID_SOCKET) eqn:Hs; [done|].
  destruct (sys_bind _ _ _) as [e o']. destruct (e =? 0); cbn [negb fst snd]; [|done].
  destruct (sys_listen _ _) as [e' o'']. destruct (e' =? 0); cbn [negb fst snd]; [|done].
  unfold valid, sock_of, set_sock. cbn [conns on_sys]. rewrite lookup_insert_eq. cbn [default].
  unfold id. by rewrite Hs.
Qed.

(** A coordinator that starts serving listens on a socket it owns, and its state is the
    start of the interleaved model with the generators of [main]; one that exits has no
    connection object left. *)
Theorem coordinator_starts (seed : Z → G) argv (o : Sys) :
  sys_idle o →
  match coordinator_main (G := G) seed argv (no_connections o) with
  | (Returns (Serves co), w) =>
      conn_inv w ∧ tight w ∧ valid 0 w = true ∧
      ∃ s, pool_reachable (seed s) (seed s) (seed 7) (mkPool co ∅)
  | (_, w) => conn_inv w ∧ tight w ∧ conns w = ∅
  end.
Proof.
  intros Ho. unfold coordinator_main. destruct (no_connections_inv o Ho) as [Hi Ht].
  destruct (coordinator_args argv 0 0x1111) as [[port s]| |]; [|by split_and!..].
  destruct (port =? 0); [by split_and!|].
  destruct (conn_op_inv (Construct 0) (no_connections o) Hi eq_refl) as [Hi1 Ht1].
  specialize (Ht1 Ht I). cbn [conn_op] in *. set (w1 := construct 0 (no_connections o)) in *.
  destruct (conn_op_inv (ListenOn 0 port) w1 Hi1) as [Hi2 Ht2].
  { split; [by eexists|]. right. intros c. destruct (decide (c = 0%nat)) as [->|Hc]; [done|].
    apply absent_invalid. unfold w1, construct, set_sock. cbn. by rewrite lookup_insert_ne. }
  specialize (Ht2 Ht1 eq_refl). cbn [conn_op] in *. pose proof (listen_conns 0 port w1) as Hc.
  destruct (listen_on 0 port w1) as [ok w2]. cbn [fst snd] in *. destruct ok; cbn [negb].
  { split_and!; [done..|]. exists s. apply rtc_refl. }
  assert (Hlive : is_Some (conns w2 !! 0%nat)) by (rewrite Hc; by eexists).
  destruct (conn_op_inv (Destroy 0) w2 Hi2 Hlive) as [Hi3 Ht3]. cbn [conn_op] in *.
  split_and!; [done|by apply Ht3|]. unfold destroy, close.
  destruct (valid 0 w2); cbn [conns set_sock on_sys]; rewrite ?delete_insert_eq, Hc; by vm_compute.
Qed.

(** A turn of the accept loop with a new connection object keeps every socket owned. *)
Lemma accept_turn_inv c w :
  conn_inv w → tight w → c ≠ 0%nat → conns w !! c = None → is_Some (conns w !! 0%nat) →
  conn_inv (accept_turn c w).2 ∧ tight (accept_turn c w).2.
Proof.
  intros Hi Ht Hc Hn Hlis. unfold accept_turn.
  destruct (conn_op_inv (Construct c) w Hi Hn) as [Hi1 Ht1]. specialize (Ht1 Ht I). cbn [conn_op] in *.
  assert (Hl : is_Some (conns (construct c w) !! c)).
  { exists INVALID_SOCKET. apply lookup_insert_eq. }
  destruct (conn_op_inv (AcceptOne 0 c) (construct c w) Hi1) as [Hi2 Ht2].
  { split; [|done]. unfold construct, set_sock. cbn [conns]. by rewrite lookup_insert_ne. }
  specialize (Ht2 Ht1 I). cbn [conn_op] in *.
  assert (Hk : is_Some (conns (accept_one 0 c (construct c w)).2 !! c)).
  { unfold accept_one. repeat case_match; cbn; try done. by eexists; apply lookup_insert_eq. }
  destruct (accept_one 0 c (construct c w)) as [[] w']; cbn [snd] in *; [done|].
  destruct (conn_op_inv (Destroy c) w' Hi2 Hk) as [Hi3 Ht3]. split; [done|by apply Ht3].
Qed.

(** The default seed is a constant: every coordinator started without --seed serves
    under the same epoch. *)
Lemma default_epoch_repeats (seed : Z → G) port w w' co co' v v' :
  coordinator_main (G := G) seed ["--port"; port]%string w = (Returns (Serves co), v) →
  coordinator_main (G := G) seed ["--port"; port]%string w' = (Returns (Serves co'), v') →
  co_epoch co = co_epoch co'.
Proof.
  assert (Hc : ∀ w v co, coordinator_main (G := G) seed ["--port"; port]%string w =
    (Returns (Serves co), v) → co_epoch co = (random_id (seed 0x1111)).1).
  { intros x y z. unfold coordinator_main. cbn [coordinator_args]. rewrite String.eqb_refl.
    destruct (stoul10 port) as [p| |]; cbn [obind]; [|done..].
    destruct (u16 p =? 0); [done|]. destruct (listen_on _ _ _) as [[] ?]; cbn [negb]; [|done].
    by intros [= <- _]. }
  intros E E'. by rewrite (Hc _ _ _ E), (Hc _ _ _ E').
Qed.

(** After [tcp_shutdown] the listener is closed through a library no longer started. *)
Lemma coordinator_end_late w :
  valid 0 w = true → coordinator_end w = mkSockets (g_ws_init (tcp_shutdown w))
    (delete 0%nat (conns w)) (closesocket (sock_of 0 w) (sys (tcp_shutdown w))).2.
Proof.
  intros Hv. unfold coordinator_end, destroy, close.
  assert (Ec : conns (tcp_shutdown w) = conns w) by (unfold tcp_shutdown; by case_match).
  unfold valid, sock_of in *. rewrite Ec, Hv. cbn [g_ws_init conns sys set_sock on_sys].
  by rewrite Ec, delete_insert_eq.
Qed.

(** The close that comes too late breaks nothing: [tcp_shutdown] may be called while the
    listener is open. *)
Lemma coordinator_end_inv w :
  conn_inv w → tight w → is_Some (conns w !! 0%nat) →
  conn_inv (coordinator_end w) ∧ tight (coordinator_end w).
Proof.
  intros Hi Ht Hc. destruct (conn_op_inv TcpShutdown w Hi I) as [Hi1 Ht1].
  destruct (conn_op_inv (Destroy 0) (tcp_shutdown w) Hi1) as [Hi2 Ht2].
  { unfold live_use, tcp_shutdown. by case_match. }
  split; [done|]. apply Ht2; [by apply Ht1|done].
Qed.
End coordinator.

(** ** Witness *)

Definition demo_argv : list string :=
  ["--port"; "9201"; "--worker"; "0000000000000000000000000000000a"; "--verbose";
   "--boot"; "00000000-0000-0000-0000-00000000000b"; "--node"; "0000000000000000000000000000000c"]%string.
Definition demo_args : WorkerArgs := mkWorkerArgs 9201 (mkId 0 10) (mkId 0 11) (mkId 0 12).
Definition demo_ack : Message :=
  mkMessage MessageKind.REGISTER_ACK 0 (mkId 0 9) null null null null null "ok registered".
Definition demo_requests : list Message :=
  [mkMessage MessageKind.PING 0 null null null null null null EmptyString;
   mkMessage MessageKind.WARM 0 (mkId 0 9) (mkId 0 10) (mkId 0 11) (mkId 0 30) (mkId 0 7) null EmptyString].
Definition demo_stream : Pipe := mkPipe (concat (message_frame <$> demo_ack :: demo_requests)) [].

Lemma pipe_reliable : reliable_send (K := Pipe).
Proof. intros data len s _. by eexists. Qed.

(** A registration, a ping and a warm request, moved three bytes at a time. *)
Lemma worker_process_serves_witness :
  ∃ s', worker_main 3 (λ _ _, Some demo_stream) demo_argv = (Returns (Finished 0), Some s') ∧
    outgoing s' = concat (message_frame <$>
      [register_request (mkId 0 10) (mkId 0 11) (mkId 0 12); pong;
       warm_done (mkId 0 10) (mkId 0 11) (nth 1 demo_requests demo_ack);
       health_report (mkId 0 10) (mkId 0 11) (nth 1 demo_requests demo_ack);
       readiness_report (mkId 0 10) (mkId 0 11) (nth 1 demo_requests demo_ack)]).
Proof.
  assert (Hf : ∀ m, (String.length (m_payload m) <= 40)%nat → fits m).
  { intros m Hm. unfold fits, kMaxFrame. rewrite length_encode_message. lia. }
  destruct (worker_process_serves 3 (λ _ _, Some demo_stream) demo_argv demo_args demo_stream
    demo_ack demo_requests pipe_reliable) as (s' & E & Hs); try reflexivity.
  - by vm_compute.
  - by repeat split.
  - apply Hf, Nat.leb_le. by vm_compute.
  - repeat constructor; try done; apply Hf, Nat.leb_le; by vm_compute.
  - cbn. lia.
  - exists s'. split; [exact E|exact Hs].
Defined.
