(* ===== verification/Cli.v ===== *)
(** The command line client (src/apps/cli/rf_cli.cpp).

    One process: its arguments, the snapshot it may load, one command on the
    controller, the snapshot it may save.  Files are a map from paths to contents, with
    a predicate for the paths that can be written; the standard output is a list of
    pieces, where a [double] is left to the stream's formatting.  Messages on the error
    stream are not kept.  Where C++ leaves the order of two drawing arguments open, the
    order is a parameter. *)

From S2P Require Import Prelude Identity Enums Model Transition Compatibility Authority Controller Codec Snapshot Recovery Protocol Transport Doubles Placement Coordinator.

(** ** Text *)

Inductive Piece := Text (s : string) | Num (x : f64).

Definition quote : ascii := "034"%char.
Definition backslash : ascii := "092"%char.
Definition quoted (s : string) : string := (String quote s ++ String quote EmptyString)%string.
Definition nl : string := String newline EmptyString.

Fixpoint jesc (s : string) : string :=
  match s with
  | EmptyString => EmptyString
  | String c s' =>
      if bool_decide (c = quote) || bool_decide (c = backslash)
      then String backslash (String c (jesc s'))
      else if bool_decide (c = newline) then String backslash (String "n" (jesc s'))
      else String c (jesc s')
  end.

(** [std::stoi]. *)
Definition stoi (s : string) : Outcome Z :=
  let s := skip_space (list_ascii_of_string s) in
  let neg := match s with c :: _ => bool_decide (c = "-"%char) | [] => false end in
  let s := match s with
           | c :: s' => if bool_decide (c = "-"%char) || bool_decide (c = "+"%char) then s' else s
           | [] => []
           end in
  match read_magnitude 10 s with
  | None => Throws
  | Some v =>
      let v := if neg then - v else v in
      if (v <? - 2 ^ 31) || (2 ^ 31 <=? v) then Throws else Returns v
  end.

(** [args[n]] of a vector: no bounds check. *)
Definition arg (args : list string) (n : nat) : Outcome string :=
  match args !! n with Some s => Returns s | None => Undefined end.
Definition pid {k} (args : list string) (n : nat) : Outcome (Id k) :=
  s ⟵ arg args n; parse_id s.

(** The options, as the first loop of [main] leaves them. *)
Record Options := mkOptions { g_json : bool; g_state_in : string; g_state_out : string }.
Fixpoint parse_options (argv : list string) (o : Options) (args : list string) :
    Options * list string :=
  match argv with
  | [] => (o, args)
  | a :: rest =>
      if decide (a = "--json"%string)
      then parse_options rest (mkOptions true (g_state_in o) (g_state_out o)) args
      else
        match rest with
        | v :: rest' =>
            if decide (a = "--state"%string)
            then parse_options rest' (mkOptions (g_json o) v (g_state_out o)) args
            else if decide (a = "--save"%string)
            then parse_options rest' (mkOptions (g_json o) (g_state_in o) v) args
            else parse_options rest o (args ++ [a])
        | [] => parse_options rest o (args ++ [a])
        end
  end.

(** ** The evidence the client reports itself *)

Definition cli_warming : WarmingRecord :=
  mkWarmingRecord WarmthState.WARM 4 4 true true true true true true true true true 0 0 0 EmptyString.
Definition cli_evidence (gen : HealthGeneration) : HealthEvidence :=
  mkHealthEvidence HealthState.HEALTHY HealthEvidenceKind.REPORTED "cli" 0 0
    (he_freshness_ns default_HealthEvidence) (he_confidence default_HealthEvidence) gen EmptyString.
Definition cli_readiness : ReadinessRecord :=
  mkReadinessRecord ReadinessState.READY
    (mkReadinessFactors true true true true true true true true true true true) 0 0 EmptyString.

(** ** State *)

Record CliState (G : Type) := mkCliState {
  cli_ctrl : Controller G;
  cli_rng : G;
  cli_files : gmap string (list byte);
}.
Arguments mkCliState {G} _ _ _.
Arguments cli_ctrl {G} _.
Arguments cli_rng {G} _.
Arguments cli_files {G} _.

(** The exit code, what was printed, and the state left. *)
Abbreviation CliResult G := (Outcome (Z * list Piece * CliState G)).

Section cli.
Context `{Rng G}.
(** Whether the compiler evaluates the last of two arguments first, and the paths
    [fopen] can create. *)
Context (last_first : bool) (writable : string → bool) (o : Options).
Implicit Types c : Controller G.
Implicit Types st : CliState G.

Definition eval2 {A B} (f : G → A * G) (h : G → B * G) (g : G) : A * B * G :=
  if last_first
  then let '(b, g) := h g in let '(a, g) := f g in (a, b, g)
  else let '(a, g) := f g in let '(b, g) := h g in (a, b, g).

(** The text [out] prints. *)
Definition out (k v : string) : string :=
  if g_json o then (quoted k ++ ":" ++ quoted (jesc v) ++ "," ++ nl)%string
  else (k ++ ": " ++ v ++ nl)%string.
(** Text only the JSON form has. *)
Definition json_only (s : string) : string := if g_json o then s else EmptyString.

(** The loop over the replicas, and the epoch of the first. *)
Definition relink_replica c (r : ReplicaState) : ReplicaState :=
  match workers_ c !! r_worker_id r with
  | None => r
  | Some reg => r <| r_boot_id := w_boot_id reg |>
  end.
Definition relink_authority c : Controller G :=
  let c' := c <| replicas_ := relink_replica c <$> replicas_ c |> in
  match (entries id_ltb (replicas_ c)).*2 with
  | [] => c'
  | r :: _ => set_epoch (r_coordinator_epoch r) c'
  end.

(** [None]: the state could not be loaded. *)
Definition load_state st : option (CliState G) :=
  if string_empty (g_state_in o) then Some st
  else
    match cli_files st !! g_state_in o with
    | None => None
    | Some bytes =>
        match recover_into bytes (cli_ctrl st) with
        | inl _ => None
        | inr c => Some (mkCliState (relink_authority c) (cli_rng st) (cli_files st))
        end
    end.
Definition save_state st : CliState G :=
  if string_empty (g_state_out o) then st
  else if writable (g_state_out o)
  then mkCliState (cli_ctrl st) (cli_rng st)
         (<[g_state_out o := make_snapshot (cli_ctrl st)]> (cli_files st))
  else st.

Definition with_cli_ctrl c st : CliState G := mkCliState c (cli_rng st) (cli_files st).

(** The command prints a line, saves, and exits with 0 when the operation was OK. *)
Definition finish (r : OpResult) (text : string) st : CliResult G :=
  Returns (if is_ok r then 0 else 1, [Text text], save_state st).

(** ** Building sets and replicas *)

Definition mk_set (id : ReplicaSetId) (model : ModelId) (art : ArtifactId) (ag : ArtifactGeneration)
    (sg : ReplicaSetGeneration) (pg : PolicyGeneration) (max : Z) (g : G) : ReplicaSetState * G :=
  let '(workload, g) := random_id g in
  let '(tenant, g) := random_id g in
  (mkReplicaSetState id model workload tenant (u32 max) 1 (u32 max) art ag sg pg
     ReplicaSetLifecycle.CREATED
     (mkCompatibilityRequirements model EmptyString EmptyString [] BackendKind.TRITON "triton-3" "llama"
        (mkComputeCapability 8 0) NumericMode.FP16 ag EmptyString "fp-1")
     default_PolicyBundle
     (mkPlacementPolicy ["host"%string]
        [mkSyntheticFailureDomain "rack-A" "rack"; mkSyntheticFailureDomain "rack-B" "rack"] true
        EmptyString EmptyString EmptyString EmptyString
        (pl_tie_break_strategy default_PlacementPolicy))
     BackendKind.TRITON "triton-3" (mkComputeCapability 8 0) (16 * 1024 * 1024) 1, g).

Definition cli_worker (w : WorkerId) (b : WorkerBootId) (n : NodeId) : WorkerRegistration :=
  mkWorkerRegistration w b n
    (mkResourceInventory (64 * 1024 * 1024 * 1024) (64 * 1024 * 1024 * 1024) 1
       [mkDeviceCapability AcceleratorKind.CUDA "cuda:0" (mkComputeCapability 12 0)
          (32 * 1024 * 1024 * 1024)]
       [mkBackendCapability BackendKind.TRITON "triton-3" (mkComputeCapability 12 0) NumericMode.FP16])
    null 1.
Definition cli_compat (setp : option ReplicaSetState) : ReplicaCompatibility :=
  match setp with
  | None => default_ReplicaCompatibility
  | Some s =>
      let q := s_compatibility s in
      mkReplicaCompatibility (cq_model_id q) EmptyString EmptyString [] (cq_backend q)
        (cq_runtime_name q) (cq_architecture q) (cq_min_compute q) (cq_numeric_mode q)
        (cq_artifact_generation q) EmptyString (cq_policy_fingerprint q)
  end.

(** The identities drawn come back through the out parameters. *)
Definition setup_replica (set : ReplicaSetId) (rid : ReplicaId) (c : Controller G) (g : G) :
    WorkerId * WorkerBootId * NodeId * Controller G * G :=
  let '(w, g) := random_id g in
  let '(b, g) := random_id g in
  let '(n, g) := random_id g in
  let setp := find_set set c in
  let c := (register_worker (cli_worker w b n) c).2 in
  let dev := mkDeviceCapability AcceleratorKind.CUDA "cuda:0" (mkComputeCapability 12 0)
               (32 * 1024 * 1024 * 1024) in
  let c := (provision_replica rid set w (cli_compat setp) dev (8 * 1024 * 1024) 0 0 c).2 in
  let '(p, g) := random_id g in
  let c := (set_allocating rid p c).2 in
  let c := (set_starting rid 0 0 c).2 in
  (w, b, n, c, g).

(** The warming, health and readiness reports in a row. *)
Definition report_ready (rid : ReplicaId) (w : WorkerId) (b : WorkerBootId) c :
    OpResult * OpResult * OpResult * Controller G :=
  let '(wr, c) := warm_replica rid cli_warming w b 0 c in
  let gen := match find_replica rid c with Some r => r_health_generation r | None => null end in
  let '(hr, c) := report_health rid (cli_evidence gen) w b 0 c in
  let '(qr, c) := report_readiness rid cli_readiness w b c in
  (wr, hr, qr, c).

Definition is_ready (r : ReplicaState) : bool :=
  bool_decide (r_readiness r = ReadinessState.READY) && bool_decide (r_health r = HealthState.HEALTHY).
Definition ensure_ready (rid : ReplicaId) (w : WorkerId) (b : WorkerBootId) c : bool * Controller G :=
  match find_replica rid c with
  | None => (false, c)
  | Some cur =>
      let c := if is_ready cur then c else (report_ready rid w b c).2 in
      (match find_replica rid c with Some fin => is_ready fin | None => false end, c)
  end.

(** ** Commands *)

Definition ok_or (r : OpResult) : string := if is_ok r then "ok"%string else message r.

Definition cmd_version st : CliResult G :=
  Returns (0, [Text (if g_json o then "{" ++ quoted "version" ++ ":" ++ quoted "1.0.0" ++ "}" ++ nl
                     else "Replica Fabric 1.0.0" ++ nl)%string], st).

Definition cmd_create_set (args : list string) st : CliResult G :=
  id ⟵ pid args 1; model ⟵ pid args 2; art ⟵ pid args 3; ag ⟵ pid args 4; sg ⟵ pid args 5;
  pg ⟵ pid args 6;
  max ⟵ match args !! 7%nat with Some s => stoi s | None => Returns 2 end;
  let '(s, epoch, g) := eval2 (mk_set id model art ag sg pg max) random_id (cli_rng st) in
  let '(r, c) := create_replica_set s epoch (cli_ctrl st) in
  finish r ((if is_ok r then "ok" else message r) ++ nl) (mkCliState c g (cli_files st)).

(** The identities of [setup] and [demo] up to the created set. *)
Definition create_random_set (max : Z) st : ReplicaSetId * OpResult * CliState G :=
  let '(set, g) := random_id (cli_rng st) in
  let '(model, g) := random_id g in
  let '(art, g) := random_id g in
  let '(ag, g) := random_id g in
  let '(s, epoch, g) :=
    eval2 (λ g, let '(sg, pg, g) := eval2 random_id random_id g in mk_set set model art ag sg pg max g)
      random_id g in
  let '(r, c) := create_replica_set s epoch (cli_ctrl st) in
  (set, r, mkCliState c g (cli_files st)).

Definition replica_line (i : Z) (rid : ReplicaId) (w : WorkerId) (b : WorkerBootId) (n : NodeId) : string :=
  if g_json o
  then (quoted ("replica" ++ dec_str i) ++ ":{" ++ out "id" (id_str rid) ++ out "worker" (id_str w) ++
        out "boot" (id_str b) ++ quoted "node" ++ ":" ++ quoted (id_str n) ++ "}," ++ nl)%string
  else ("replica" ++ dec_str i ++ ": " ++ id_str rid ++ " (worker " ++ id_str w ++ " boot " ++
        id_str b ++ ")" ++ nl)%string.
(** The loop of [setup] with [n] iterations left. *)
Fixpoint setup_loop (n : nat) (i : Z) (set : ReplicaSetId) (txt : string) st : string * CliState G :=
  match n with
  | O => (txt, st)
  | S n' =>
      let '(rid, g) := random_id (cli_rng st) in
      let '(w, b, nd, c, g) := setup_replica set rid (cli_ctrl st) g in
      setup_loop n' (i + 1) set (txt ++ replica_line i rid w b nd) (mkCliState c g (cli_files st))
  end.
Definition cmd_setup (args : list string) st : CliResult G :=
  max ⟵ match args !! 1%nat with Some s => stoi s | None => Returns 2 end;
  let '(set, r, st) := create_random_set max st in
  if negb (is_ok r) then Returns (1, [Text ("setup failed: " ++ message r ++ nl)], st)
  else
    let '(txt, st) := setup_loop (Z.to_nat (Z.min max 2)) 0 set (json_only ("{" ++ nl) ++ out "set" (id_str set)) st in
    Returns (0, [Text (txt ++ json_only ("}" ++ nl))%string], save_state st).

Definition id_list {k} (name : string) (ids : list (Id k)) : string :=
  if g_json o
  then ("{" ++ quoted name ++ ":[" ++ String.concat "," ((λ i, quoted (id_str i)) <$> ids) ++ "]}" ++ nl)%string
  else String.concat EmptyString ((λ i, id_str i ++ nl)%string <$> ids).
Definition cmd_list_sets st : CliResult G :=
  Returns (0, [Text (id_list "sets" (list_sets (cli_ctrl st)))], st).
Definition cmd_list_replicas (args : list string) st : CliResult G :=
  set ⟵ pid args 1;
  Returns (0, [Text (id_list "replicas" (list_replicas set (cli_ctrl st)))], st).

Definition cmd_inspect (args : list string) st : CliResult G :=
  id ⟵ pid args 1;
  match find_replica id (cli_ctrl st) with
  | None => Returns (1, [Text ("unknown replica" ++ nl)%string], st)
  | Some r =>
      Returns (0, [Text (json_only ("{" ++ nl) ++ out "id" (id_str (r_id r)) ++ out "set" (id_str (r_set_id r)) ++
        out "lifecycle" (to_string (r_lifecycle r)) ++ out "health" (to_string (r_health r)) ++
        out "readiness" (to_string (r_readiness r)) ++ out "warmth" (to_string (r_warmth r)) ++
        out "promotion" (to_string (r_promotion r)) ++ out "role" (to_string (r_role r)) ++
        out "serving" (if r_serving_eligible r then "1" else "0") ++ out "boot" (id_str (r_boot_id r)) ++
        out "worker" (id_str (r_worker_id r)) ++ json_only ("}" ++ nl))%string], st)
  end.

Definition cmd_warm (args : list string) st : CliResult G :=
  rid ⟵ pid args 1; w ⟵ pid args 2; b ⟵ pid args 3;
  match find_replica rid (cli_ctrl st) with
  | None => Returns (1, [Text ("unknown replica" ++ nl)%string], st)
  | Some _ =>
      let '(wr, hr, qr, c) := report_ready rid w b (cli_ctrl st) in
      let life := match find_replica rid c with Some r => to_string (r_lifecycle r) | None => "?"%string end in
      Returns (0, [Text ("warm=" ++ ok_or wr ++ " health=" ++ ok_or hr ++ " readiness=" ++ ok_or qr ++
        " -> lifecycle=" ++ life ++ nl)%string], save_state (with_cli_ctrl c st))
  end.

Definition cmd_promote (args : list string) st : CliResult G :=
  rid ⟵ pid args 1; w ⟵ pid args 2; b ⟵ pid args 3;
  t ⟵ arg args 4; n ⟵ stoi t;
  let '(ready, c) := ensure_ready rid w b (cli_ctrl st) in
  if negb ready
  then Returns (1, [Text ("cannot make replica ready for promotion" ++ nl)%string], with_cli_ctrl c st)
  else
    target ⟵ from_int_unchecked n;
    let '(r, c) := promote_replica rid target w b 0 0 c in
    finish r (ok_or r ++ nl) (with_cli_ctrl c st).

Definition cmd_drain (args : list string) st : CliResult G :=
  rid ⟵ pid args 1; w ⟵ pid args 2; b ⟵ pid args 3;
  let '(r, c) := drain_replica rid w b 0 (cli_ctrl st) in
  finish r (ok_or r ++ nl) (with_cli_ctrl c st).

(** One replica of the set: everything but the failed one is made ready. *)
Definition prepare_candidate (failed : ReplicaId) c (rid : ReplicaId) : Controller G :=
  if decide (rid = failed) then c
  else
    match find_replica rid c with
    | None => c
    | Some r =>
        match workers_ c !! r_worker_id r with
        | None => c
        | Some reg => (ensure_ready rid (w_worker_id reg) (w_boot_id reg) c).2
        end
    end.
Definition cmd_failover (args : list string) st : CliResult G :=
  set ⟵ pid args 1; failed ⟵ pid args 2;
  let reason := match args !! 3%nat with Some s => s | None => "failover"%string end in
  let c := foldl (prepare_candidate failed) (cli_ctrl st) (list_replicas set (cli_ctrl st)) in
  let '(r, c) := trigger_failover set failed reason 0 0 c in
  finish r (ok_or r ++ nl) (with_cli_ctrl c st).

Definition bit_text (b : bool) : string := if b then "1"%string else "0"%string.
Definition factor_text (f : AuthorityFactor) : string :=
  if g_json o
  then ("{" ++ quoted "name" ++ ":" ++ quoted (jesc (af_name f)) ++ "," ++ quoted "ok" ++ ":" ++
        bit_text (af_satisfied f) ++ "," ++ quoted "detail" ++ ":" ++ quoted (jesc (af_detail f)) ++ "}")%string
  else ("  " ++ af_name f ++ ": " ++ (if af_satisfied f then "OK" else "FAIL") ++ " :: " ++
        af_detail f ++ nl)%string.
Definition cmd_explain_servable (args : list string) st : CliResult G :=
  rid ⟵ pid args 1;
  let d := servable rid (cli_ctrl st) in
  Returns (0, [Text (json_only ("{" ++ nl) ++ out "replica" (id_str rid) ++
    out "eligible" (bit_text (sad_eligible d)) ++ out "rejection" (sad_rejection d) ++
    json_only (quoted "factors" ++ ":[") ++
    String.concat (json_only ",") (factor_text <$> sad_factors d) ++ json_only ("]}" ++ nl))%string], st).

Definition placement_host (kw : WorkerId * WorkerRegistration) : PlacementHost :=
  let '(wid, wr) := kw in
  mkPlacementHost wid (w_boot_id wr) (w_node_id wr) ("host-" ++ String.substring 0 8 (id_str wid)) "numa-0" EmptyString
    [("rack-" ++ (if (hi wid mod 2 =? 0)%Z then "A" else "B"))%string]
    (match ri_devices (w_inventory wr) with d :: _ => d | [] => default_DeviceCapability end)
    (w_inventory wr) 0 false.
Definition candidate_pieces (c : PlacementCandidate) : list Piece :=
  if g_json o
  then [Text ("{" ++ quoted "worker" ++ ":" ++ quoted (jesc (id_str (ph_worker_id (pc_host c)))) ++ "," ++
              quoted "eligible" ++ ":" ++ bit_text (pc_eligible c) ++ "," ++ quoted "score" ++ ":")%string;
        Num (pc_total c);
        Text ("," ++ quoted "rejection" ++ ":" ++ quoted (jesc (pc_rejection c)) ++ "}")%string]
  else [Text ("  " ++ id_str (ph_worker_id (pc_host c)) ++ " score=")%string; Num (pc_total c);
        Text ((if pc_eligible c then " (eligible)" else " rejected: " ++ pc_rejection c) ++ nl)%string].
Fixpoint separated (sep : Piece) (ls : list (list Piece)) : list Piece :=
  match ls with
  | [] => []
  | [l] => l
  | l :: ls' => l ++ sep :: separated sep ls'
  end.
Definition cmd_explain_placement (args : list string) st : CliResult G :=
  set ⟵ pid args 1;
  match find_set set (cli_ctrl st) with
  | None => Returns (1, [Text ("unknown set" ++ nl)%string], st)
  | Some s =>
      let d := place s (placement_host <$> entries id_ltb (workers_ (cli_ctrl st))) [] in
      let head := (json_only ("{" ++ nl) ++ out "placed" (bit_text (pd_placed d)) ++ out "note" (pd_note d))%string in
      if negb (pd_placed d) then Returns (1, [Text (head ++ json_only ("}" ++ nl))%string], st)
      else
        Returns (0, Text (head ++ out "chosen_worker" (id_str (ph_worker_id (pd_chosen d))) ++
            out "chosen_host" (ph_host (pd_chosen d)) ++ json_only (quoted "candidates" ++ ":["))%string ::
          separated (Text (json_only ",")) (candidate_pieces <$> pd_candidates d) ++
          [Text (json_only ("]}" ++ nl))], st)
  end.

Definition cmd_demo st : CliResult G :=
  let '(set, _, st) := create_random_set 2 st in
  let g := cli_rng st in
  let '(_, g) := random_id (k := WorkerIdTag) g in
  let '(_, g) := random_id (k := WorkerBootIdTag) g in
  let '(_, g) := random_id (k := NodeIdTag) g in
  let '(_, g) := random_id (k := WorkerIdTag) g in
  let '(_, g) := random_id (k := WorkerBootIdTag) g in
  let '(_, g) := random_id (k := NodeIdTag) g in
  let '(ra, g) := random_id g in
  let '(rb, g) := random_id g in
  let '(wa, ba, _, c, g) := setup_replica set ra (cli_ctrl st) g in
  let '(wb, bb, _, c, g) := setup_replica set rb c g in
  let c := (report_ready ra wa ba c).2 in
  let c := (report_ready rb wb bb c).2 in
  let c := (promote_replica ra PromotionState.PRIMARY wa ba 0 0 c).2 in
  let c := (promote_replica rb PromotionState.STANDBY wb bb 0 0 c).2 in
  let t1 := if sad_eligible (servable ra c) then "A serving as PRIMARY"%string else "A NOT serving"%string in
  let t2 := if sad_eligible (servable rb c) then "B serving (BAD - double serve)"%string
            else "B standby (correct, not serving)"%string in
  let c := (unregister_worker wa c).2 in
  let c := (trigger_failover set ra "demo: worker A died" 0 0 c).2 in
  let t3 := if sad_eligible (servable rb c) then "B failed over and serving as PRIMARY"%string
            else "B failover FAILED"%string in
  Returns (0, [Text (t1 ++ nl ++ t2 ++ nl ++ t3 ++ nl ++ "snapshot bytes=" ++
    dec_str (Z.of_nat (length (make_snapshot c))) ++ nl)%string], mkCliState c g (cli_files st)).

Definition cmd_snapshot_save (args : list string) st : CliResult G :=
  path ⟵ arg args 1;
  let bytes := make_snapshot (cli_ctrl st) in
  if negb (writable path) then Returns (1, [Text ("cannot open" ++ nl)%string], st)
  else
    Returns (0, [Text ("saved " ++ dec_str (Z.of_nat (length bytes)) ++ " bytes to " ++ path ++ nl)%string],
      mkCliState (cli_ctrl st) (cli_rng st) (<[path := bytes]> (cli_files st))).
Definition cmd_snapshot_recover (args : list string) st : CliResult G :=
  path ⟵ arg args 1;
  match cli_files st !! path with
  | None => Returns (1, [Text ("cannot open" ++ nl)%string], st)
  | Some bytes =>
      match recover_into bytes (cli_ctrl st) with
      | inl err => Returns (1, [Text ("recover failed: " ++ err ++ nl)%string], st)
      | inr c => Returns (0, [Text ("recovered" ++ nl)%string], with_cli_ctrl c st)
      end
  end.

(** The chain of [if (cmd == ...)]. *)
Definition run_command (args : list string) st : CliResult G :=
  cmd ⟵ arg args 0;
  if decide (cmd = "version"%string) then cmd_version st
  else if decide (cmd = "create-set"%string) then cmd_create_set args st
  else if decide (cmd = "setup"%string) then cmd_setup args st
  else if decide (cmd = "list-sets"%string) then cmd_list_sets st
  else if decide (cmd = "list-replicas"%string) then cmd_list_replicas args st
  else if decide (cmd = "inspect"%string) then cmd_inspect args st
  else if decide (cmd = "warm"%string) then cmd_warm args st
  else if decide (cmd = "promote"%string) then cmd_promote args st
  else if decide (cmd = "drain"%string) then cmd_drain args st
  else if decide (cmd = "failover"%string) then cmd_failover args st
  else if decide (cmd = "explain-servable"%string) then cmd_explain_servable args st
  else if decide (cmd = "explain-placement"%string) then cmd_explain_placement args st
  else if decide (cmd = "demo"%string) then cmd_demo st
  else if decide (cmd = "snapshot-save"%string) then cmd_snapshot_save args st
  else if decide (cmd = "snapshot-recover"%string) then cmd_snapshot_recover args st
  else Returns (1, [Text ("unknown command: " ++ cmd ++ nl)%string], st).
End cli.

Definition usage : string :=
  ("Replica Fabric 1.0.0 CLI" ++ nl ++ "options: --json | --state <file> | --save <file>" ++ nl ++
   "commands: version | create-set | setup | list-sets | list-replicas | inspect | " ++
   "warm | promote | drain | failover | explain-servable | explain-placement | " ++
   "snapshot-save | snapshot-recover | demo" ++ nl)%string.

(** [main] on its arguments, with the generators freshly seeded. *)
Definition cli_main `{Rng G} (last_first : bool) (writable : string → bool) (argv : list string)
    (ctrl_seed rng : G) (files : gmap string (list byte)) : CliResult G :=
  let '(o, args) := parse_options argv (mkOptions false EmptyString EmptyString) [] in
  let st := mkCliState (new_controller ctrl_seed) rng files in
  match args with
  | [] => Returns (0, [Text usage], st)
  | _ =>
      match load_state o st with
      | None => Returns (1, [], st)
      | Some st => run_command last_first writable o args st
      end
  end.
