(* ===== verification/CliProps.v ===== *)
(** What the command line client guarantees.

    The theorems about src/apps/cli/rf_cli.cpp: what a saved state is when it is loaded
    again, and which commands can leave a serving replica behind. *)

From S2P Require Import Prelude Identity Enums Model Transition Compatibility Authority Controller ControllerRun ControllerInv Scenario ControllerProps Codec Snapshot Recovery SnapshotProps Protocol Transport Doubles Placement Coordinator CoordinatorRun Cli.

(** ** Operations that leave the serving flags down *)

Section flags.
Context `{Rng G}.
Implicit Types c : Controller G.

Definition all_down (m : gmap ReplicaId ReplicaState) : Prop :=
  ∀ rid r, m !! rid = Some r → r_serving_eligible r = false.
Definition no_flags c : Prop := all_down (replicas_ c).

Lemma no_flags_serve c rid : no_flags c → ¬ serves rid c.
Proof.
  intros Hn Hs. pose proof Hs as (r & s & Hr & _ & _)%serves_spec. pose proof (serves_flag _ _ _ Hs Hr).
  by rewrite (Hn _ _ Hr) in *.
Qed.

Lemma no_flags_same c c' : replicas_ c' = replicas_ c → no_flags c → no_flags c'.
Proof. unfold no_flags. by intros ->. Qed.

Lemma no_flags_store c rid r : no_flags c → r_serving_eligible r = false → no_flags (store_replica rid r c).
Proof.
  intros Hn Hr i x. cbn. rewrite lookup_insert_Some. intros [[_ <-]|[_ Hx]]; [done|by apply (Hn i)].
Qed.

Lemma all_down_fmap f m :
  all_down m → (∀ r, r_serving_eligible r = false → r_serving_eligible (f r) = false) → all_down (f <$> m).
Proof.
  intros Hm Hf i x. rewrite lookup_fmap. intros (r & Hr & ->)%fmap_Some. by apply Hf, (Hm i).
Qed.

Lemma no_flags_new (g : G) : no_flags (new_controller g).
Proof. by intros i r. Qed.

Lemma no_flags_register wr c : no_flags c → no_flags (register_worker wr c).2.
Proof.
  intros Hn. unfold register_worker. cbn [snd]. destruct (restarted wr c); [|exact Hn].
  apply all_down_fmap; [exact Hn|]. intros r Hr. by case_match.
Qed.

Lemma no_flags_create s e c : no_flags c → no_flags (create_replica_set s e c).2.
Proof. intros Hn. unfold create_replica_set. by repeat case_match. Qed.

Lemma no_flags_provision rid sid w compat dev cap t1 t2 c :
  no_flags c → no_flags (provision_replica rid sid w compat dev cap t1 t2 c).2.
Proof.
  intros Hn. unfold provision_replica. do 4 (case_match; [try done|try done]). draw_all.
  by apply (no_flags_store _ rid).
Qed.

(** Goes through the early returns of an operation on one replica. *)
Ltac op_branches Hn :=
  match goal with
  | |- context [replicas_ ?c !! ?rid] =>
      let E := fresh in
      destruct (replicas_ c !! rid) as [r|] eqn:E; [pose proof (Hn _ _ E) as Hf|exact Hn]
  end; cbn zeta;
  repeat match goal with
  | |- no_flags (snd (if ?b then _ else _)) => destruct b; [exact Hn|]
  end; apply no_flags_store; [exact Hn|].

Lemma no_flags_allocating rid p c : no_flags c → no_flags (set_allocating rid p c).2.
Proof. intros Hn. unfold set_allocating. op_branches Hn. exact Hf. Qed.

Lemma no_flags_starting rid t1 t2 c : no_flags c → no_flags (set_starting rid t1 t2 c).2.
Proof. intros Hn. unfold set_starting. op_branches Hn. exact Hf. Qed.

Lemma no_flags_warm rid w worker boot t c : no_flags c → no_flags (warm_replica rid w worker boot t c).2.
Proof.
  intros Hn. unfold warm_replica. op_branches Hn. unfold warm_progress. cbn zeta.
  destruct (_ && _); destruct (_ =? 0); exact Hf.
Qed.

Lemma no_flags_health rid ev worker boot t c : no_flags c → no_flags (report_health rid ev worker boot t c).2.
Proof.
  intros Hn. unfold report_health. op_branches Hn.
  destruct (observe_health_flags ev t r) as (_ & _ & _ & -> & _). by rewrite Hf.
Qed.

Lemma no_flags_readiness rid rr worker boot c : no_flags c → no_flags (report_readiness rid rr worker boot c).2.
Proof.
  intros Hn. unfold report_readiness. op_branches Hn.
  unfold observe_readiness. cbn zeta. destruct (all_set _); [|exact Hf]. destruct (_ && _); exact Hf.
Qed.

Lemma no_flags_drain rid worker boot t c : no_flags c → no_flags (drain_replica rid worker boot t c).2.
Proof.
  intros Hn. unfold drain_replica. destruct (replicas_ c !! rid) as [r|]; [|exact Hn].
  do 3 (match goal with |- no_flags (snd (if ?b then _ else _)) => destruct b; [exact Hn|] end). cbn zeta.
  destruct (negb _); [by apply no_flags_store|]. draw_all. cbn [snd].
  exact (no_flags_store c rid ((reject_new_work r) <| r_lifecycle := ReplicaLifecycle.DRAINING |>) Hn eq_refl).
Qed.
End flags.

(** ** Commands *)

Section commands.
Context `{Rng G} (last_first : bool) (writable : string → bool).
Implicit Types c : Controller G.
Implicit Types st : CliState G.

Definition quiet_state st : Prop := no_flags (cli_ctrl st).

Lemma quiet_save o st : quiet_state st → quiet_state (save_state writable o st).
Proof. unfold quiet_state, save_state. intros Hq. by repeat case_match. Qed.

Lemma quiet_relink c : no_flags c → no_flags (relink_authority c).
Proof.
  intros Hn.
  assert (Hm : all_down (relink_replica c <$> replicas_ c)).
  { apply all_down_fmap; [exact Hn|]. intros r Hr. unfold relink_replica. by case_match. }
  unfold relink_authority. cbn zeta. destruct (entries id_ltb (replicas_ c)).*2; exact Hm.
Qed.

Lemma recovered_quiet bytes c c' : recover_into bytes c = inr c' → no_flags c'.
Proof.
  intros (s & _ & _ & ->)%recover_into_inr rid r. cbn. rewrite lookup_fmap.
  by intros (r0 & _ & ->)%fmap_Some.
Qed.

Lemma quiet_load o st st' : quiet_state st → load_state o st = Some st' → quiet_state st'.
Proof.
  unfold load_state. intros Hq. destruct (string_empty _); [by intros [= <-]|].
  destruct (cli_files st !! _) as [bytes|]; [|done].
  destruct (recover_into bytes (cli_ctrl st)) as [|c] eqn:E; [done|]. intros [= <-].
  by apply quiet_relink, (recovered_quiet bytes (cli_ctrl st)).
Qed.

Lemma quiet_setup_replica set rid c g w b n c' g' :
  no_flags c → setup_replica set rid c g = (w, b, n, c', g') → no_flags c'.
Proof.
  intros Hn. unfold setup_replica. do 4 (destruct (random_id _)). intros E.
  apply (f_equal (λ x, x.1.2)) in E. cbn [fst snd] in E. subst c'.
  by apply no_flags_starting, no_flags_allocating, no_flags_provision, no_flags_register.
Qed.

Lemma quiet_report_ready rid w b c : no_flags c → no_flags (report_ready rid w b c).2.
Proof.
  intros Hn. unfold report_ready. pose proof (no_flags_warm rid cli_warming w b 0 c Hn) as Hw.
  destruct (warm_replica _ _ _ _ _ _) as [wr c1]. cbn [snd] in Hw.
  set (ev := cli_evidence _). pose proof (no_flags_health rid ev w b 0 c1 Hw) as Hh.
  destruct (report_health _ _ _ _ _ _) as [hr c2]. cbn [snd] in Hh.
  pose proof (no_flags_readiness rid cli_readiness w b c2 Hh) as Hq.
  by destruct (report_readiness _ _ _ _ _) as [qr c3].
Qed.

Lemma quiet_create_random_set max st : quiet_state st → quiet_state (create_random_set last_first max st).2.
Proof.
  unfold quiet_state, create_random_set. intros Hq. do 4 (destruct (random_id _)).
  destruct (eval2 _ _ _ _) as [[s epoch] g3]. pose proof (no_flags_create s epoch (cli_ctrl st) Hq) as Hc.
  by destruct (create_replica_set _ _ _).
Qed.

Lemma quiet_setup_loop o n i set txt st : quiet_state st → quiet_state (setup_loop o n i set txt st).2.
Proof.
  revert i txt st. induction n as [|n IH]; intros i txt st Hq; cbn [setup_loop]; [done|].
  destruct (random_id (cli_rng st)) as [rid g]. destruct (setup_replica _ _ _ _) as [[[[w b] nd] c] g'] eqn:E.
  apply IH. by eapply quiet_setup_replica.
Qed.

(** The commands that may leave a serving replica behind. *)
Definition granting (cmd : string) : bool :=
  bool_decide (cmd = "promote"%string) || bool_decide (cmd = "failover"%string) ||
  bool_decide (cmd = "demo"%string).

Lemma quiet_create_set o args st code txt st' :
  quiet_state st → cmd_create_set last_first writable o args st = Returns (code, txt, st') → quiet_state st'.
Proof.
  intros Hq E. unfold cmd_create_set in E. outcome_inv E. destruct (eval2 _ _ _ _) as [[s epoch] g].
  pose proof (no_flags_create s epoch (cli_ctrl st) Hq) as Hc.
  destruct (create_replica_set _ _ _) as [r c]. injection E as _ _ <-. by apply quiet_save.
Qed.

Lemma quiet_setup o args st code txt st' :
  quiet_state st → cmd_setup last_first writable o args st = Returns (code, txt, st') → quiet_state st'.
Proof.
  intros Hq E. unfold cmd_setup in E. outcome_inv E.
  pose proof (quiet_create_random_set x st Hq) as Hc. destruct (create_random_set _ _ _) as [[set r] st1].
  destruct (negb _); [by injection E as _ _ <-|].
  pose proof (quiet_setup_loop o (Z.to_nat (Z.min x 2)) 0 set
    (json_only o ("{" ++ nl) ++ out o "set" (id_str set)) st1 Hc) as Hl.
  destruct (setup_loop _ _ _ _ _ _) as [t st2]. injection E as _ _ <-. by apply quiet_save.
Qed.

Lemma quiet_warm o args st code txt st' :
  quiet_state st → cmd_warm writable o args st = Returns (code, txt, st') → quiet_state st'.
Proof.
  intros Hq E. unfold cmd_warm in E. outcome_inv E.
  destruct (find_replica _ _); [|by injection E as _ _ <-].
  pose proof (quiet_report_ready x x0 x1 (cli_ctrl st) Hq) as Hr.
  destruct (report_ready _ _ _ _) as [[[wr hr] qr] c]. injection E as _ _ <-. by apply quiet_save.
Qed.

Lemma quiet_drain o args st code txt st' :
  quiet_state st → cmd_drain writable o args st = Returns (code, txt, st') → quiet_state st'.
Proof.
  intros Hq E. unfold cmd_drain in E. outcome_inv E.
  pose proof (no_flags_drain x x0 x1 0 (cli_ctrl st) Hq) as Hd.
  destruct (drain_replica _ _ _ _ _) as [r c]. injection E as _ _ <-. by apply quiet_save.
Qed.

Lemma quiet_recover args st code txt st' :
  quiet_state st → cmd_snapshot_recover args st = Returns (code, txt, st') → quiet_state st'.
Proof.
  intros Hq E. unfold cmd_snapshot_recover in E. outcome_inv E.
  destruct (cli_files st !! x) as [bytes|]; [|by injection E as _ _ <-].
  destruct (recover_into bytes (cli_ctrl st)) as [|c] eqn:Er; injection E as _ _ <-; [done|].
  by eapply recovered_quiet.
Qed.

(** A command that only looks leaves the controller alone. *)
Ltac looks E := outcome_inv E; repeat case_match; injection E as _ _ <-; done.

Lemma quiet_command o args st code txt st' :
  quiet_state st → (∀ cmd, args !! 0%nat = Some cmd → granting cmd = false) →
  run_command last_first writable o args st = Returns (code, txt, st') → quiet_state st'.
Proof.
  intros Hq Hcmd E. unfold run_command in E. outcome_inv E. unfold arg in Hread.
  destruct (args !! 0%nat) as [cmd|]; [|done]. injection Hread as <-. specialize (Hcmd cmd eq_refl).
  destruct (decide (cmd = "version"%string)); [by injection E as _ _ <-|].
  destruct (decide (cmd = "create-set"%string)); [by eapply quiet_create_set|].
  destruct (decide (cmd = "setup"%string)); [by eapply quiet_setup|].
  destruct (decide (cmd = "list-sets"%string)); [by injection E as _ _ <-|].
  destruct (decide (cmd = "list-replicas"%string)); [unfold cmd_list_replicas in E; looks E|].
  destruct (decide (cmd = "inspect"%string)); [unfold cmd_inspect in E; looks E|].
  destruct (decide (cmd = "warm"%string)); [by eapply quiet_warm|].
  destruct (decide (cmd = "promote"%string)) as [->|]; [done|].
  destruct (decide (cmd = "drain"%string)); [by eapply quiet_drain|].
  destruct (decide (cmd = "failover"%string)) as [->|]; [done|].
  destruct (decide (cmd = "explain-servable"%string)); [unfold cmd_explain_servable in E; looks E|].
  destruct (decide (cmd = "explain-placement"%string)); [unfold cmd_explain_placement in E; looks E|].
  destruct (decide (cmd = "demo"%string)) as [->|]; [done|].
  destruct (decide (cmd = "snapshot-save"%string)); [unfold cmd_snapshot_save in E; looks E|].
  destruct (decide (cmd = "snapshot-recover"%string)); [by eapply quiet_recover|].
  by injection E as _ _ <-.
Qed.

(** C22: whatever state file is loaded, no replica serves when the client exits, unless
    the command was promote, failover or demo: loading a snapshot, re-linking it to
    its workers, warming, draining and every query leave all serving authority
    withdrawn. *)
Theorem cli_serves_only_by_command argv (ctrl_seed rng : G) files code txt st' o args :
  cli_main last_first writable argv ctrl_seed rng files = Returns (code, txt, st') →
  parse_options argv (mkOptions false EmptyString EmptyString) [] = (o, args) →
  (∀ cmd, args !! 0%nat = Some cmd → granting cmd = false) →
  ∀ rid, sad_eligible (servable rid (cli_ctrl st')) = false.
Proof.
  intros E Ho Hcmd rid. apply not_serves, no_flags_serve. unfold cli_main in E. rewrite Ho in E.
  set (st := mkCliState (new_controller ctrl_seed) rng files) in E.
  assert (Hq : quiet_state st) by apply no_flags_new.
  destruct args as [|a args]; [by injection E as _ _ <-|].
  destruct (load_state o st) as [st1|] eqn:Hl; [|by injection E as _ _ <-].
  apply (quiet_load o) in Hl; [|done]. by eapply (quiet_command o (a :: args) st1).
Qed.
End commands.

(** ** Saved and loaded *)

Section resume.
Context `{Rng G}.
Implicit Types c : Controller G.

Lemma relink_fields c r :
  let r' := relink_replica c r in
  r_id r' = r_id r ∧ r_set_id r' = r_set_id r ∧ r_lifecycle r' = r_lifecycle r ∧
  r_worker_id r' = r_worker_id r ∧ r_coordinator_epoch r' = r_coordinator_epoch r ∧
  r_serving_eligible r' = r_serving_eligible r.
Proof. cbn zeta. unfold relink_replica. by case_match. Qed.

Lemma relink_replica_inv c rid r :
  controller_inv c → replica_inv rid r → replica_inv rid (relink_replica c r).
Proof.
  intros Hc [H1 H2 H3 H4 H5 H6 H7 H8]. unfold relink_replica.
  destruct (workers_ c !! r_worker_id r) as [reg|] eqn:Hw; [|done].
  apply (ci_worker c Hc) in Hw as [_ Hw]. split; try done.
  unfold wf_ReplicaState in *. destruct_and! H2.
  split_and!; try done. exact (proj1 (proj2 Hw)).
Qed.

Lemma relink_inv c : controller_inv c → controller_inv (relink_authority c).
Proof.
  intros Hc.
  assert (Hr : ∀ rid r, (relink_replica c <$> replicas_ c) !! rid = Some r →
    ∃ r0, replicas_ c !! rid = Some r0 ∧ r = relink_replica c r0).
  { intros rid r Hr. rewrite lookup_fmap in Hr. apply fmap_Some in Hr as (r0 & ? & ->). eauto. }
  assert (Hc' : controller_inv (c <| replicas_ := relink_replica c <$> replicas_ c |>)).
  { split; try apply Hc.
    - intros rid r (r0 & Hr0 & ->)%Hr. apply relink_replica_inv; [done|by apply Hc].
    - intros rid r (r0 & Hr0 & ->)%Hr. destruct (relink_fields c r0) as (_ & -> & _).
      exact (ci_home c Hc rid r0 Hr0).
    - intros sid s Hs. cbn. rewrite size_members_fmap; [exact (ci_capacity c Hc sid s Hs)|].
      intros r. apply relink_fields.
    - intros rid r (r0 & Hr0 & ->)%Hr. destruct (relink_fields c r0) as (_ & _ & -> & _).
      exact (ci_drain c Hc rid r0 Hr0). }
  unfold relink_authority. cbn zeta. destruct (entries id_ltb (replicas_ c)).*2 as [|r l] eqn:El; [done|].
  assert (Hin : r ∈ (entries id_ltb (replicas_ c)).*2) by (rewrite El; left).
  apply list_elem_of_fmap in Hin as ([rid r0] & -> & Hin%elem_of_entries). cbn [snd].
  apply (ci_replica c Hc) in Hin. assert (Hep : wf_id (r_coordinator_epoch r0)).
  { pose proof (ri_wf _ _ Hin) as Hwf. unfold wf_ReplicaState in Hwf. tauto. }
  destruct Hc'. by split.
Qed.

(** A replica after its controller was saved and loaded again. *)
Record resumed c (r r' : ReplicaState) : Prop := {
  re_id : r_id r' = r_id r;
  re_set : r_set_id r' = r_set_id r;
  re_worker : r_worker_id r' = r_worker_id r;
  re_lifecycle : r_lifecycle r' = r_lifecycle r;
  (** It is linked to the current boot of its worker, *)
  re_boot : r_boot_id r' = worker_boot (r_worker_id r) c;
  (** and everything it was trusted for is withdrawn. *)
  re_serving : r_serving_eligible r' = false;
  re_promotion : r_promotion r' = PromotionState.NOT_PROMOTED;
  re_readiness : r_readiness r' = ReadinessState.UNKNOWN;
  re_warmth : r_warmth r' = WarmthState.COLD;
}.

Lemma resumed_replica c c' r :
  workers_ c' = workers_ c → resumed c r (relink_replica c' (clear_authority r)).
Proof.
  intros Hw. unfold relink_replica. rewrite Hw.
  destruct (workers_ c !! r_worker_id (clear_authority r)) as [reg|] eqn:E;
    change (r_worker_id (clear_authority r)) with (r_worker_id r) in E.
  - split; try done. unfold worker_boot. by rewrite E.
  - split; try done. unfold worker_boot. by rewrite E.
Qed.

Lemma relink_rest c :
  replicas_ (relink_authority c) = relink_replica c <$> replicas_ c ∧ sets_ (relink_authority c) = sets_ c ∧
  workers_ (relink_authority c) = workers_ c ∧ promotions_ (relink_authority c) = promotions_ c ∧
  drains_ (relink_authority c) = drains_ c ∧ failovers_ (relink_authority c) = failovers_ c.
Proof. unfold relink_authority. cbn zeta. by destruct (entries id_ltb (replicas_ c)).*2. Qed.

(** C24: what one run of the client saves, to a path it can write, the next one loads,
    when no set or replica of the state has a null identity: the sets, workers and audit records are the same,
    every replica is back in its lifecycle, linked to the boot its worker is registered
    with, with all authority withdrawn, and the loaded controller satisfies the
    invariant again.  A state with a null identity, which create-set accepts and saves,
    is never loaded again. *)
Theorem cli_save_load writable path (c c0 : Controller G) g g0 files o1 o2 :
  controller_inv c → in_u64 (Z.of_nat (length (make_snapshot c))) →
  wf_id (epoch_ c0) → path ≠ EmptyString → writable path = true →
  g_state_out o1 = path → g_state_in o2 = path →
  let st := save_state writable o1 (mkCliState c g files) in
  let loaded := load_state o2 (mkCliState c0 g0 (cli_files st)) in
  (no_null_identity c →
   ∃ st', loaded = Some st' ∧ controller_inv (cli_ctrl st') ∧
    sets_ (cli_ctrl st') = sets_ c ∧ workers_ (cli_ctrl st') = workers_ c ∧
    promotions_ (cli_ctrl st') = promotions_ c ∧ drains_ (cli_ctrl st') = drains_ c ∧
    failovers_ (cli_ctrl st') = failovers_ c ∧
    dom (replicas_ (cli_ctrl st')) = dom (replicas_ c) ∧
    ∀ rid r, replicas_ c !! rid = Some r →
      ∃ r', replicas_ (cli_ctrl st') !! rid = Some r' ∧ resumed c r r') ∧
  (¬ no_null_identity c → loaded = None).
Proof.
  intros Hc Hl He Hp Hw Ho1 Ho2. cbn zeta.
  assert (Hne : string_empty path = false) by by destruct path.
  unfold save_state. rewrite Ho1, Hne, Hw. cbn [cli_files cli_ctrl].
  unfold load_state. rewrite Ho2, Hne. cbn [cli_files cli_ctrl]. rewrite lookup_insert_eq.
  split; intros Hn; [|by destruct (recover_snapshot_refused c c0) as [err ->]].
  rewrite recover_snapshot by done. eexists. split; [done|]. cbn [cli_ctrl].
  set (c1 := install_recovered_state (captured c) c0).
  assert (Hw1 : workers_ c1 = workers_ c) by (apply emplace_captured_workers; intros; by apply Hc).
  destruct (relink_rest c1) as (E1 & E2 & E3 & E4 & E5 & E6).
  split_and!; [by apply relink_inv, install_captured_inv|exact E2|by rewrite E3|exact E4|exact E5|exact E6| |].
  - rewrite E1, dom_fmap_L. exact (dom_fmap_L clear_authority (replicas_ c)).
  - intros rid r Hr. exists (relink_replica c1 (clear_authority r)). split; [|by apply resumed_replica].
    rewrite E1, lookup_fmap. change (replicas_ c1) with (clear_authority <$> replicas_ c).
    by rewrite lookup_fmap, Hr.
Qed.
End resume.

(** ** Witnesses *)

Definition state_path : string := "s".
Definition saved_files : gmap string (list byte) := {[state_path := make_snapshot serving_state]}.
Definition resumed_state : CliState Z :=
  mkCliState (relink_authority (install_recovered_state (captured serving_state) (new_controller 1000))) 5
    saved_files.

Lemma saved_state_loads :
  load_state (mkOptions false state_path EmptyString) (mkCliState (new_controller 1000) 5 saved_files) =
  Some resumed_state.
Proof.
  unfold load_state. cbn [g_state_in string_empty state_path cli_files cli_ctrl cli_rng].
  unfold saved_files. rewrite lookup_singleton_eq.
  rewrite recover_snapshot; [done|by eapply reachable_inv, serving_state_reachable|exact serving_identities|
    exact serving_snapshot_length].
Qed.

(** The state that served before it was saved serves no more. *)
Lemma cli_serves_only_by_command_witness :
  sad_eligible (servable (ident 10) serving_state) = true ∧
  sad_eligible (servable (ident 10) (cli_ctrl resumed_state)) = false.
Proof.
  split; [exact serving_state_serves|].
  assert (E : cli_main false (λ _, true) ["--state"; state_path; "list-sets"]%string 1000 5 saved_files =
    cmd_list_sets (mkOptions false state_path EmptyString) resumed_state).
  { unfold cli_main. change (parse_options ["--state"; state_path; "list-sets"]%string
      (mkOptions false EmptyString EmptyString) []) with (mkOptions false state_path EmptyString, ["list-sets"%string]).
    cbn iota beta. by rewrite saved_state_loads. }
  unfold cmd_list_sets in E.
  exact (cli_serves_only_by_command false (λ _, true) _ 1000 5 saved_files _ _ resumed_state
    (mkOptions false state_path EmptyString) ["list-sets"%string] E eq_refl
    (λ cmd Hc, eq_trans (f_equal granting (eq_sym (Some_inj _ _ Hc))) eq_refl) (ident 10)).
Defined.

(** The client's create-set with the null identity and otherwise sound arguments. *)
Definition null_text : string := "00000000000000000000000000000000".
Definition one_text : string := "00000000000000000000000000000001".
Definition create_null : list string :=
  ["--save"; state_path; "create-set"; null_text; one_text; one_text; one_text; one_text; one_text]%string.
Definition null_run : Outcome (Z * list Piece * CliState Z) :=
  Eval vm_compute in cli_main false (λ _, true) create_null 1000 5 ∅.

(** It succeeds, and the state it saved cannot be loaded. *)
Lemma null_set_is_lost :
  ∃ txt st, cli_main false (λ _, true) create_null 1000 5 ∅ = Returns (0, txt, st) ∧
    cli_main false (λ _, true) ["--state"; state_path; "list-sets"]%string 1000 5 (cli_files st) =
      Returns (1, [], mkCliState (new_controller 1000) 5 (cli_files st)).
Proof.
  assert (E : cli_main false (λ _, true) create_null 1000 5 ∅ = null_run) by by vm_compute.
  unfold null_run in E. do 2 eexists. split; [exact E|]. by vm_compute.
Qed.

Lemma cli_save_load_witness :
  (∃ st', load_state (mkOptions false state_path EmptyString)
      (mkCliState (new_controller 1000) 5
        (cli_files (save_state (λ _, true) (mkOptions false EmptyString state_path) (mkCliState serving_state 5 ∅)))) =
      Some st' ∧ controller_inv (cli_ctrl st') ∧ workers_ (cli_ctrl st') = workers_ serving_state).
Proof.
  destruct (cli_save_load (λ _, true) state_path serving_state (new_controller 1000) 5 5 ∅
    (mkOptions false EmptyString state_path) (mkOptions false state_path EmptyString)
    (reachable_inv _ _ serving_state_reachable) serving_snapshot_length
    ltac:(by vm_compute) ltac:(done) eq_refl eq_refl eq_refl) as [Hload _].
  destruct (Hload serving_identities) as (st' & Hl & Hi & _ & Hw & _).
  exists st'. exact (conj Hl (conj Hi Hw)).
Defined.
