(* ===== verification/CliRun.v ===== *)
(** Runs of the command line client (src/apps/cli/rf_cli.cpp) as runs of the controller.

    [cli_steps]: whatever a command does to the controller is a sequence of well-typed
    public operations, as [conn_step_runs] shows for the coordinator.  With loading and
    saving this carries the controller's invariant from one run of the client, through
    the files it writes, to the next. *)

From S2P Require Import Prelude Identity Enums Model Transition Compatibility Authority Controller ControllerRun ControllerInv Codec Snapshot Recovery SnapshotProps Scenario Protocol Transport Doubles Placement Coordinator CoordinatorRun Cli CliProps.

Section runs.
Context `{Rng G}.
Implicit Types c : Controller G.
Implicit Types st : CliState G.

(** From a state with the invariant, [c'] is reached by operations of the controller. *)
Definition runs c c' : Prop := controller_inv c → rtc step c c'.

Lemma runs_refl c : runs c c.
Proof. intros _. apply rtc_refl. Qed.

Lemma runs_trans c1 c2 c3 : runs c1 c2 → runs c2 c3 → runs c1 c3.
Proof.
  intros H12 H23 Hc. specialize (H12 Hc). etrans; [done|]. by apply H23, (steps_inv c1 c2).
Qed.

Lemma runs_inv c c' : runs c c' → controller_inv c → controller_inv c'.
Proof. intros Hr Hc. apply (steps_inv c); [by apply Hr|done]. Qed.

Lemma runs_after a c : (controller_inv c → wf_action a) → runs c (after a c).
Proof. intros Ha Hc. apply rtc_once. by exists a; auto. Qed.

Lemma runs_assume c c' : (controller_inv c → runs c c') → runs c c'.
Proof. intros Hr Hc. by apply Hr. Qed.

(** One more operation at the end. *)
Lemma runs_then a c c' : runs c c' → (controller_inv c' → wf_action a) → runs c (after a c').
Proof. intros Hr Ha. eapply runs_trans; [done|]. by apply runs_after. Qed.

(** ** Building blocks of the commands *)

Lemma mk_set_wf id model art ag sg pg max (g : G) :
  wf_id id → wf_id model → wf_id art → wf_id ag → wf_id sg → wf_id pg →
  wf_ReplicaSetState (mk_set id model art ag sg pg max g).1.
Proof.
  intros. unfold mk_set. pose proof (random_id_wf (k := WorkloadIdTag) g) as Hw.
  destruct (random_id g) as [workload g1].
  pose proof (random_id_wf (k := TenantIdTag) g1) as Ht. destruct (random_id g1) as [tenant g2].
  cbn [fst] in *. unfold wf_ReplicaSetState. cbn. split_and!; try done; try apply u32_range.
Qed.

Lemma cli_worker_wf w b n :
  wf_id w → wf_id b → wf_id n → wf_WorkerRegistration (cli_worker w b n).
Proof. intros. unfold wf_WorkerRegistration. cbn. split_and!; try done. by repeat constructor. Qed.

Lemma cli_compat_wf set c : controller_inv c → wf_ReplicaCompatibility (cli_compat (find_set set c)).
Proof.
  intros Hc. unfold cli_compat, find_set. destruct (sets_ c !! set) as [s|] eqn:Hs; [|done].
  apply (ci_set c Hc) in Hs as (_ & Hwf & _). unfold wf_ReplicaSetState in Hwf. destruct_and! Hwf.
  unfold wf_CompatibilityRequirements in *. done.
Qed.

(** [eval2] of two draws gives values both draws can give. *)
Lemma eval2_ind {A B} last_first (P : A → Prop) (Q : B → Prop) (f : G → A * G) (h : G → B * G) g :
  (∀ g, P (f g).1) → (∀ g, Q (h g).1) →
  P (eval2 last_first f h g).1.1 ∧ Q (eval2 last_first f h g).1.2.
Proof.
  intros Hf Hh. unfold eval2. destruct last_first.
  - pose proof (Hh g) as H2. destruct (h g) as [b g1]. pose proof (Hf g1) as H1. by destruct (f g1).
  - pose proof (Hf g) as H1. destruct (f g) as [a g1]. pose proof (Hh g1) as H2. by destruct (h g1).
Qed.

Lemma runs_setup_replica set rid c g w b n c' g' :
  wf_id set → wf_id rid → setup_replica set rid c g = (w, b, n, c', g') →
  wf_id w ∧ wf_id b ∧ runs c c'.
Proof.
  intros Hset Hrid. unfold setup_replica.
  pose proof (random_id_wf (k := WorkerIdTag) g) as Hw. destruct (random_id g) as [w0 g1].
  pose proof (random_id_wf (k := WorkerBootIdTag) g1) as Hb. destruct (random_id g1) as [b0 g2].
  pose proof (random_id_wf (k := NodeIdTag) g2) as Hn. destruct (random_id g2) as [n0 g3].
  pose proof (random_id_wf (k := PlacementIdTag) g3) as Hp. destruct (random_id g3) as [p g4].
  cbn [fst] in *. intros E. set (wr := cli_worker w0 b0 n0) in E.
  set (dev := mkDeviceCapability _ _ _ _) in E. set (compat := cli_compat (find_set set c)) in E.
  pose (c1 := (register_worker wr c).2).
  pose (c2 := (provision_replica rid set w0 compat dev (8 * 1024 * 1024) 0 0 c1).2).
  pose (c3 := (set_allocating rid p c2).2).
  assert (w0 = w ∧ b0 = b ∧ c' = (set_starting rid 0 0 c3).2) as (<- & <- & ->) by by injection E.
  clear E. split_and!; [done..|].
  apply (runs_then (SetStarting rid 0 0) c c3); [|by intros _].
  apply (runs_then (SetAllocating rid p) c c2); [|by intros _].
  apply runs_assume. intros Hcompat%(cli_compat_wf set).
  apply (runs_then (ProvisionReplica rid set w0 compat dev (8 * 1024 * 1024) 0 0) c c1).
  2: { intros _. unfold wf_action. split_and!; done. }
  apply (runs_after (RegisterWorker wr)). intros _. by apply cli_worker_wf.
Qed.

Lemma cli_evidence_wf gen : wf_id gen → wf_HealthEvidence (cli_evidence gen).
Proof. intros Hg. unfold wf_HealthEvidence. cbn. split_and!; done. Qed.

Lemma runs_report_ready rid w b c :
  wf_id rid → wf_id w → wf_id b → runs c (report_ready rid w b c).2.
Proof.
  intros Hrid Hw Hb. unfold report_ready.
  assert (H1 : runs c (warm_replica rid cli_warming w b 0 c).2).
  { apply (runs_after (WarmReplica rid cli_warming w b 0)). intros _. by split_and!. }
  destruct (warm_replica rid cli_warming w b 0 c) as [wr c1]. cbn [snd] in H1.
  set (gen := match find_replica rid c1 with Some r => _ | None => _ end).
  assert (H2 : runs c (report_health rid (cli_evidence gen) w b 0 c1).2).
  { apply (runs_then (ReportHealth rid (cli_evidence gen) w b 0) c c1 H1). intros Hc1.
    assert (Hg : wf_id gen).
    { unfold gen, find_replica. destruct (replicas_ c1 !! rid) as [r|] eqn:Hr; [|done].
      apply (ci_replica c1 Hc1), ri_wf in Hr. unfold wf_ReplicaState in Hr. tauto. }
    by split_and!; try apply cli_evidence_wf. }
  destruct (report_health rid _ w b 0 c1) as [hr c2]. cbn [snd] in H2.
  assert (H3 : runs c (report_readiness rid cli_readiness w b c2).2).
  { apply (runs_then (ReportReadiness rid cli_readiness w b) c c2 H2). intros _. by split_and!. }
  by destruct (report_readiness rid cli_readiness w b c2).
Qed.

Lemma runs_ensure_ready rid w b c :
  wf_id rid → wf_id w → wf_id b → runs c (ensure_ready rid w b c).2.
Proof.
  intros. unfold ensure_ready. destruct (find_replica rid c) as [r|]; [|apply runs_refl].
  cbn [snd]. destruct (is_ready r); [apply runs_refl|by apply runs_report_ready].
Qed.

Lemma runs_prepare failed ids c :
  Forall wf_id ids → runs c (foldl (prepare_candidate failed) c ids).
Proof.
  intros Hids. revert c. induction Hids as [|rid ids Hrid _ IH]; intros c; cbn [foldl]; [apply runs_refl|].
  eapply runs_trans; [|apply IH]. unfold prepare_candidate. destruct (decide (rid = failed)); [apply runs_refl|].
  destruct (find_replica rid c) as [r|]; [|apply runs_refl].
  destruct (workers_ c !! r_worker_id r) as [reg|] eqn:Hreg; [|apply runs_refl].
  apply runs_assume. intros Hc. apply (ci_worker c Hc) in Hreg as (_ & Hw & Hb & _).
  by apply runs_ensure_ready.
Qed.

Lemma list_replicas_wf set c : controller_inv c → Forall wf_id (list_replicas set c).
Proof.
  intros Hc. apply Forall_forall. intros rid Hin. unfold list_replicas in Hin.
  rewrite stable_sort_perm in Hin. apply list_elem_of_fmap in Hin as ([k r] & -> & Hin). cbn [fst].
  apply list_elem_of_filter in Hin as [_ Hin%elem_of_entries].
  destruct (ci_replica c Hc k r Hin) as [<- Hwf _ _ _ _ _ _]. unfold wf_ReplicaState in Hwf. tauto.
Qed.

(** ** What a command does to the state *)

(** The controller advances by its operations, and at most one file is written: a
    snapshot of the controller. *)
Record progress st st' : Prop := {
  pr_runs : runs (cli_ctrl st) (cli_ctrl st');
  pr_files : cli_files st' = cli_files st ∨
    ∃ path, cli_files st' = <[path := make_snapshot (cli_ctrl st')]> (cli_files st);
}.

Lemma progress_refl st : progress st st.
Proof. split; [apply runs_refl|by left]. Qed.

Lemma progress_ctrl st st' :
  runs (cli_ctrl st) (cli_ctrl st') → cli_files st' = cli_files st → progress st st'.
Proof. intros Hr Hf. split; [done|by left]. Qed.

Lemma progress_save writable o st st' :
  runs (cli_ctrl st) (cli_ctrl st') → cli_files st' = cli_files st → progress st (save_state writable o st').
Proof.
  intros Hr Hf. unfold save_state. destruct (string_empty _); [by apply progress_ctrl|].
  destruct (writable _); [|by apply progress_ctrl]. split; [done|]. right. exists (g_state_out o).
  cbn [cli_files cli_ctrl]. rewrite Hf. reflexivity.
Qed.

Context (last_first : bool) (writable : string → bool).

(** ** Every command *)

Lemma progress_finish o r text st st' code txt st'' :
  runs (cli_ctrl st) (cli_ctrl st') → cli_files st' = cli_files st →
  finish writable o r text st' = Returns (code, txt, st'') → progress st st''.
Proof. unfold finish. intros Hr Hf [= _ _ <-]. by apply progress_save. Qed.

Lemma pid_wf {k} args n (i : Id k) : pid args n = Returns i → wf_id i.
Proof. unfold pid. intros E. outcome_inv E. by eapply parse_id_wf. Qed.

(** Every identity read from the arguments is well-formed. *)
Ltac parsed_ids :=
  repeat match goal with Hr : pid _ _ = Returns _ |- _ => apply pid_wf in Hr end.

Lemma progress_create_set o args st code txt st' :
  cmd_create_set last_first writable o args st = Returns (code, txt, st') → progress st st'.
Proof.
  intros E. unfold cmd_create_set in E. outcome_inv E.
  parsed_ids.
  pose proof (eval2_ind last_first wf_ReplicaSetState (wf_id (k := CoordinatorEpochTag))
    (mk_set x x0 x1 x2 x3 x4 x5) random_id (cli_rng st)) as Hw.
  destruct (eval2 _ _ _ _) as [[s epoch] g]. cbn [fst snd] in Hw.
  destruct Hw as [Hs He]; [intros; by apply mk_set_wf|intros; apply random_id_wf|].
  assert (Hr : runs (cli_ctrl st) (create_replica_set s epoch (cli_ctrl st)).2).
  { by apply (runs_after (CreateReplicaSet s epoch)). }
  destruct (create_replica_set _ _ _) as [r c]. by eapply progress_finish in E.
Qed.

Lemma progress_warm o args st code txt st' :
  cmd_warm writable o args st = Returns (code, txt, st') → progress st st'.
Proof.
  intros E. unfold cmd_warm in E. outcome_inv E.
  destruct (find_replica _ _); [|injection E as _ _ <-; apply progress_refl].
  pose proof (runs_report_ready x x0 x1 (cli_ctrl st)) as Hr.
  destruct (report_ready _ _ _ _) as [[[wr hr] qr] c]. injection E as _ _ <-.
  apply progress_save; [apply Hr; by eapply pid_wf|done].
Qed.

Lemma progress_promote o args st code txt st' :
  cmd_promote writable o args st = Returns (code, txt, st') → progress st st'.
Proof.
  intros E. unfold cmd_promote in E. outcome_inv E.
  parsed_ids.
  pose proof (runs_ensure_ready x x0 x1 (cli_ctrl st)) as Hr.
  destruct (ensure_ready _ _ _ _) as [ready c1]. cbn [snd] in Hr. destruct ready; cbn [negb] in E.
  2: { injection E as _ _ <-. apply progress_ctrl; [by apply Hr|done]. }
  outcome_inv E.
  assert (Hp : runs (cli_ctrl st) (promote_replica x x4 x0 x1 0 0 c1).2).
  { apply (runs_then (PromoteReplica x x4 x0 x1 0 0) (cli_ctrl st) c1); [by apply Hr|by intros _]. }
  destruct (promote_replica _ _ _ _ _ _ _) as [r c]. by eapply progress_finish in E.
Qed.

Lemma progress_drain o args st code txt st' :
  cmd_drain writable o args st = Returns (code, txt, st') → progress st st'.
Proof.
  intros E. unfold cmd_drain in E. outcome_inv E.
  parsed_ids.
  assert (Hr : runs (cli_ctrl st) (drain_replica x x0 x1 0 (cli_ctrl st)).2).
  { by apply (runs_after (DrainReplica x x0 x1 0)). }
  destruct (drain_replica _ _ _ _ _) as [r c]. by eapply progress_finish in E.
Qed.

Lemma progress_failover o args st code txt st' :
  cmd_failover writable o args st = Returns (code, txt, st') → progress st st'.
Proof.
  intros E. unfold cmd_failover in E. outcome_inv E.
  parsed_ids.
  set (c1 := foldl _ _ _) in E. set (reason := match _ with Some s => s | None => _ end) in E.
  assert (H1 : runs (cli_ctrl st) c1).
  { apply runs_assume. intros Hc. by apply runs_prepare, list_replicas_wf. }
  assert (Hr : runs (cli_ctrl st) (trigger_failover x x0 reason 0 0 c1).2).
  { by apply (runs_then (TriggerFailover x x0 reason 0 0) (cli_ctrl st) c1). }
  destruct (trigger_failover _ _ _ _ _ _) as [r c]. by eapply progress_finish in E.
Qed.

(** ** The commands that build sets and replicas *)

Lemma runs_create_random_set max st set r st1 :
  create_random_set last_first max st = (set, r, st1) →
  wf_id set ∧ runs (cli_ctrl st) (cli_ctrl st1) ∧ cli_files st1 = cli_files st.
Proof.
  unfold create_random_set.
  pose proof (random_id_wf (k := ReplicaSetIdTag) (cli_rng st)) as H1. destruct (random_id (cli_rng st)) as [set0 g1].
  pose proof (random_id_wf (k := ModelIdTag) g1) as H2. destruct (random_id g1) as [model g2].
  pose proof (random_id_wf (k := ArtifactIdTag) g2) as H3. destruct (random_id g2) as [art g3].
  pose proof (random_id_wf (k := ArtifactGenerationTag) g3) as H4. destruct (random_id g3) as [ag g4].
  cbn [fst] in *. set (f := λ g : G, let '(sg, pg, g) := eval2 _ _ _ g in _).
  pose proof (eval2_ind last_first wf_ReplicaSetState (wf_id (k := CoordinatorEpochTag)) f random_id g4) as Hw.
  destruct (eval2 last_first f random_id g4) as [[s epoch] g5]. cbn [fst snd] in Hw.
  destruct Hw as [Hs He]; [|intros; apply random_id_wf|].
  { intros g. unfold f. pose proof (eval2_ind last_first (wf_id (k := ReplicaSetGenerationTag))
      (wf_id (k := PolicyGenerationTag)) random_id random_id g) as Hw.
    destruct (eval2 _ _ _ g) as [[sg pg] g']. cbn [fst snd] in Hw.
    destruct Hw; [intros; apply random_id_wf..|]. by apply mk_set_wf. }
  assert (Hr : runs (cli_ctrl st) (create_replica_set s epoch (cli_ctrl st)).2).
  { by apply (runs_after (CreateReplicaSet s epoch)). }
  destruct (create_replica_set _ _ _) as [r' c]. by intros [= <- _ <-].
Qed.

Lemma runs_setup_loop o n i set txt st :
  wf_id set → runs (cli_ctrl st) (cli_ctrl (setup_loop o n i set txt st).2) ∧
  cli_files (setup_loop o n i set txt st).2 = cli_files st.
Proof.
  intros Hset. revert i txt st. induction n as [|n IH]; intros i txt st; cbn [setup_loop];
    [split; [apply runs_refl|done]|].
  pose proof (random_id_wf (k := ReplicaIdTag) (cli_rng st)) as Hrid.
  destruct (random_id (cli_rng st)) as [rid g].
  destruct (setup_replica _ _ _ _) as [[[[w b] nd] c] g'] eqn:E.
  apply runs_setup_replica in E as (_ & _ & Hr); [|done|done].
  destruct (IH (i + 1) (txt ++ replica_line o i rid w b nd)%string (mkCliState c g' (cli_files st))) as [Hr' Hf].
  split; [by eapply runs_trans|exact Hf].
Qed.

Lemma progress_setup o args st code txt st' :
  cmd_setup last_first writable o args st = Returns (code, txt, st') → progress st st'.
Proof.
  intros E. unfold cmd_setup in E. outcome_inv E.
  destruct (create_random_set _ _ _) as [[set r] st1] eqn:Ec.
  apply runs_create_random_set in Ec as (Hset & Hr & Hf). destruct (negb _).
  { injection E as _ _ <-. by apply progress_ctrl. }
  pose proof (runs_setup_loop o (Z.to_nat (Z.min x 2)) 0 set
    (json_only o ("{" ++ nl) ++ out o "set" (id_str set)) st1 Hset) as [Hr' Hf'].
  destruct (setup_loop _ _ _ _ _ _) as [t st2]. injection E as _ _ <-. cbn [snd] in *.
  apply progress_save; [by eapply runs_trans|congruence].
Qed.

Lemma progress_demo st code txt st' :
  cmd_demo last_first st = Returns (code, txt, st') → progress st st'.
Proof.
  intros E. unfold cmd_demo in E.
  destruct (create_random_set _ _ _) as [[set r] st1] eqn:Ec.
  apply runs_create_random_set in Ec as (Hset & Hr & Hf).
  do 6 destruct (random_id _) as [_ ?].
  match type of E with context [random_id ?g] => pose proof (random_id_wf (k := ReplicaIdTag) g) as Ha end.
  destruct (random_id _) as [ra ga].
  match type of E with context [random_id ?g] => pose proof (random_id_wf (k := ReplicaIdTag) g) as Hb end.
  destruct (random_id _) as [rb gb]. cbn [fst] in Ha, Hb.
  destruct (setup_replica set ra _ _) as [[[[wa ba] na] ca] gc] eqn:Ea.
  apply runs_setup_replica in Ea as (Hwa & Hba & Hra); [|done|done].
  destruct (setup_replica set rb _ _) as [[[[wb bb] nb] cb] gd] eqn:Eb.
  apply runs_setup_replica in Eb as (Hwb & Hbb & Hrb); [|done|done].
  pose (c1 := (report_ready ra wa ba cb).2). pose (c2 := (report_ready rb wb bb c1).2).
  pose (c3 := (promote_replica ra PromotionState.PRIMARY wa ba 0 0 c2).2).
  pose (c4 := (promote_replica rb PromotionState.STANDBY wb bb 0 0 c3).2).
  pose (c5 := (unregister_worker wa c4).2).
  assert (Hall : runs (cli_ctrl st) (trigger_failover set ra "demo: worker A died" 0 0 c5).2).
  { apply (runs_then (TriggerFailover set ra "demo: worker A died" 0 0) _ c5); [|by intros _].
    apply (runs_then (UnregisterWorker wa) _ c4); [|by intros _].
    apply (runs_then (PromoteReplica rb PromotionState.STANDBY wb bb 0 0) _ c3); [|by intros _].
    apply (runs_then (PromoteReplica ra PromotionState.PRIMARY wa ba 0 0) _ c2); [|by intros _].
    do 2 (eapply runs_trans; [|by apply runs_report_ready]).
    eapply runs_trans; [exact Hr|]. by eapply runs_trans. }
  apply (f_equal (λ o, match o with Returns x => x.2 | _ => st end)) in E.
  change (mkCliState (trigger_failover set ra "demo: worker A died" 0 0 c5).2 gd (cli_files st1) = st') in E.
  rewrite <-E. by apply progress_ctrl.
Qed.

(** ** Whole runs *)

(** Files the client can have written: snapshots of controllers with the invariant. *)
Definition good_files (files : gmap string (list byte)) : Prop :=
  map_Forall (λ _ bytes, ∃ c, controller_inv c ∧ bytes = make_snapshot c) files.
Definition readable (files : gmap string (list byte)) : Prop :=
  map_Forall (λ _ bytes, in_u64 (Z.of_nat (length bytes))) files.

Record good_state st : Prop := {
  gs_ctrl : controller_inv (cli_ctrl st);
  gs_files : good_files (cli_files st);
}.

Lemma progress_good st st' : progress st st' → good_state st → good_state st'.
Proof.
  intros [Hr Hf] [Hc Hg]. assert (Hc' : controller_inv (cli_ctrl st')) by by eapply runs_inv.
  split; [done|]. destruct Hf as [->|[path ->]]; [done|]. apply map_Forall_insert_2; [by eexists|done].
Qed.

(** Recovering a file the client wrote restores the invariant. *)
Lemma recovered_good st path bytes c :
  good_state st → readable (cli_files st) → cli_files st !! path = Some bytes →
  recover_into bytes (cli_ctrl st) = inr c → controller_inv c.
Proof.
  intros [Hc Hg] Hl Hb (s & Hs & _ & ->)%recover_into_inr.
  destruct (Hg path bytes Hb) as (c0 & Hc0 & ->). rewrite decode_make_snapshot in Hs; [|done|by eapply Hl].
  injection Hs as <-. apply install_captured_inv; [done|apply Hc].
Qed.

Lemma load_good o st st' :
  good_state st → readable (cli_files st) → load_state o st = Some st' →
  good_state st' ∧ cli_files st' = cli_files st.
Proof.
  intros Hg Hl. unfold load_state. destruct (string_empty _); [by intros [= <-]|].
  destruct (cli_files st !! _) as [bytes|] eqn:Hb; [|done].
  destruct (recover_into bytes (cli_ctrl st)) as [|c] eqn:Er; [done|]. intros [= <-].
  split; [|done]. split; [|apply Hg]. by apply relink_inv, (recovered_good st (g_state_in o) bytes).
Qed.

Lemma recover_good args st code txt st' :
  good_state st → readable (cli_files st) →
  cmd_snapshot_recover args st = Returns (code, txt, st') → good_state st'.
Proof.
  intros Hg Hl E. unfold cmd_snapshot_recover in E. outcome_inv E.
  destruct (cli_files st !! x) as [bytes|] eqn:Hb; [|by injection E as _ _ <-].
  destruct (recover_into bytes (cli_ctrl st)) as [|c] eqn:Er; injection E as _ _ <-; [done|].
  split; [|apply Hg]. by apply (recovered_good st x bytes).
Qed.

Lemma progress_snapshot_save args st code txt st' :
  cmd_snapshot_save writable args st = Returns (code, txt, st') → progress st st'.
Proof.
  intros E. unfold cmd_snapshot_save in E. outcome_inv E.
  destruct (writable x); injection E as _ _ <-; [|apply progress_refl].
  split; [apply runs_refl|]. right. by exists x.
Qed.

(** A command that only looks leaves the state alone. *)
Ltac looks E := outcome_inv E; repeat case_match; injection E as _ _ <-; apply progress_refl.

(** Every command but snapshot-recover drives the controller through its own operations. *)
Lemma progress_command o args st code txt st' :
  args !! 0%nat ≠ Some "snapshot-recover"%string →
  run_command last_first writable o args st = Returns (code, txt, st') → progress st st'.
Proof.
  intros Hcmd E. unfold run_command in E. outcome_inv E. unfold arg in Hread.
  destruct (args !! 0%nat) as [cmd|]; [|done]. injection Hread as <-.
  destruct (decide (cmd = "version"%string)); [injection E as _ _ <-; apply progress_refl|].
  destruct (decide (cmd = "create-set"%string)); [by eapply progress_create_set|].
  destruct (decide (cmd = "setup"%string)); [by eapply progress_setup|].
  destruct (decide (cmd = "list-sets"%string)); [injection E as _ _ <-; apply progress_refl|].
  destruct (decide (cmd = "list-replicas"%string)); [unfold cmd_list_replicas in E; looks E|].
  destruct (decide (cmd = "inspect"%string)); [unfold cmd_inspect in E; looks E|].
  destruct (decide (cmd = "warm"%string)); [by eapply progress_warm|].
  destruct (decide (cmd = "promote"%string)); [by eapply progress_promote|].
  destruct (decide (cmd = "drain"%string)); [by eapply progress_drain|].
  destruct (decide (cmd = "failover"%string)); [by eapply progress_failover|].
  destruct (decide (cmd = "explain-servable"%string)); [unfold cmd_explain_servable in E; looks E|].
  destruct (decide (cmd = "explain-placement"%string)); [unfold cmd_explain_placement in E; looks E|].
  destruct (decide (cmd = "demo"%string)); [by eapply progress_demo|].
  destruct (decide (cmd = "snapshot-save"%string)); [by eapply progress_snapshot_save|].
  destruct (decide (cmd = "snapshot-recover"%string)) as [->|]; [done|].
  injection E as _ _ <-. apply progress_refl.
Qed.

Lemma command_good o args st code txt st' :
  good_state st → readable (cli_files st) →
  run_command last_first writable o args st = Returns (code, txt, st') → good_state st'.
Proof.
  intros Hg Hl E. destruct (decide (args !! 0%nat = Some "snapshot-recover"%string)) as [Ha|Ha].
  - unfold run_command, arg in E. rewrite Ha in E. exact (recover_good args st code txt st' Hg Hl E).
  - eapply progress_good; [by eapply progress_command|done].
Qed.

(** C23: whatever a run of the client is asked to do, over files that earlier runs wrote, the
    controller it ends with satisfies the invariant, and so does every controller whose
    snapshot is in a file afterwards: the invariant is kept from process to process. *)
Theorem client_keeps_invariant argv (ctrl_seed rng : G) files code txt st' :
  good_files files → readable files →
  cli_main last_first writable argv ctrl_seed rng files = Returns (code, txt, st') →
  controller_inv (cli_ctrl st') ∧ good_files (cli_files st').
Proof.
  intros Hf Hl E. enough (Hg : good_state st') by by destruct Hg.
  unfold cli_main in E. destruct (parse_options _ _ _) as [o args].
  set (st := mkCliState (new_controller ctrl_seed) rng files) in E.
  assert (Hst : good_state st) by (split; [apply new_controller_inv|done]).
  destruct args as [|a args]; [by injection E as _ _ <-|].
  destruct (load_state o st) as [st1|] eqn:Hload; [|by injection E as _ _ <-].
  apply load_good in Hload as [Hst1 Hf1]; [|done|done].
  apply (command_good o (a :: args) st1 code txt st'); [done|by rewrite Hf1|done].
Qed.
End runs.

(** ** Witness *)

Lemma saved_files_good : good_files (G := Z) saved_files ∧ readable saved_files.
Proof.
  split; apply map_Forall_singleton; [|exact serving_snapshot_length].
  exists serving_state. split; [exact serving_inv|done].
Qed.

(** A saved state is loaded and saved again under another name. *)
Definition copied_state : CliState Z :=
  mkCliState (cli_ctrl resumed_state) 5 (<["t"%string := make_snapshot (cli_ctrl resumed_state)]> saved_files).

Lemma client_keeps_invariant_witness :
  controller_inv (cli_ctrl copied_state) ∧ good_files (G := Z) (cli_files copied_state).
Proof.
  assert (E : ∃ txt, cli_main false (λ _, true) ["--state"; state_path; "snapshot-save"; "t"]%string
    1000 5 saved_files = Returns (0, txt, copied_state)).
  { eexists. unfold cli_main. change (parse_options ["--state"; state_path; "snapshot-save"; "t"]%string
      (mkOptions false EmptyString EmptyString) [])
      with (mkOptions false state_path EmptyString, ["snapshot-save"; "t"]%string).
    cbn iota beta. rewrite saved_state_loads. cbn iota beta. reflexivity. }
  destruct E as [txt E]. destruct saved_files_good as [Hg Hl].
  exact (client_keeps_invariant false (λ _, true) _ 1000 5 saved_files 0 txt copied_state Hg Hl E).
Defined.
